(* ===== verification/_CoqProject ===== *)
-Q . S2P
Prelude.v
GoString.v
Outbound.v
Netip.v
Float64.v
GoParse.v
Json.v
GoTime.v
JsonDecode.v
JsonText.v
Config.v
Settings.v
SettingKeys.v
SettingsLoad.v
Db.v
Preferences.v
SettingsStore.v
SettingsAudit.v
AlertState.v
Schema.v
Secrets.v
AlertRepository.v
Checks.v
CheckScheduler.v
Metrics.v
AlertHealth.v
AlertEvaluator.v
AlertInvariants.v
Incidents.v
IncidentInvariants.v
Channels.v
NotifyWorker.v
NotifyInvariants.v
AuthSchema.v
Sessions.v
ApiTokens.v
Encoding.v
Accounts.v
Mfa.v
StoreSchema.v
Deletion.v
StoreWriter.v
Rollups.v
Retention.v
History.v
HistoryInvariants.v
Persistence.v
Protection.v
HostProc.v
Resources.v
DockerApi.v
DockerStats.v
Sampler.v
Onboarding.v
Diagnostics.v
Logs.v
ApiCore.v
ApiAccess.v
ApiMonitoring.v
ApiData.v
ApiServer.v
ApiRun.v
Lifecycle.v
