(* ===== verification/Prelude.v ===== *)
(** * Binnacle: a verification development

    Binnacle is a monitoring service for one Docker host, written in Go.  It
    collects measurements of the host and its containers, keeps their history
    in SQLite, runs health checks, raises alerts, groups them into incidents,
    notifies, and serves a web interface and an API.  This library translates
    the service into Gallina, operation by operation, and proves what makes
    it correct.  Names are those of the code where Rocq allows; every section
    names the file under [src/] that it follows.

    ** The parts and how they interact

    The collector ([internal/collector]) publishes a snapshot per interval to
    the metrics engine ([internal/metrics]), from which live clients, the
    persistence queue and the alert evaluator read.  The queue feeds the
    history writer ([internal/storage]), whose tables the rollups, retention,
    history queries and deletion jobs share.  Checks ([internal/checks]) and
    the evaluator ([internal/alerts]) write checks and alerts; alerts open and
    resolve incidents through the [IncidentSink] interface, which
    [internal/notifications] implements, and its worker delivers them through
    the outbound policy ([internal/outbound]).  Accounts, sessions, tokens and
    the second factor ([internal/auth]) guard the handlers of [internal/api];
    [cmd/binnacle/main.go] and [internal/app] put everything together.

    ** Conventions

    - Integers are [Z], with [wrap64] and [wrapu64] written out where the code
      can overflow; instants are nanoseconds since the Unix epoch, durations
      64-bit; [float64] is the executable IEEE arithmetic of [Float64.v].
    - Texts are byte strings; [GoString.v], [GoParse.v], [GoTime.v],
      [Json.v], [JsonDecode.v], [JsonText.v], [Encoding.v] and [Netip.v] hold
      what the code uses of Go's standard library.
    - A Go map is a [gmap]; the order of [range] is the class [MapOrder],
      which may be any.
    - Code on the database is a computation [tx] of [Db.v]: it passes on the
      tables, may fail at any statement (the world carries a schedule of
      faults), and reads randomness and the clock from the world.  [Db.v] has
      the logic for it: [triple], [preserves], [runs], and the atomicity of
      [with_tx].  Tables are typed row lists with the constraints of the
      migrations ([Schema.v], [AuthSchema.v], [StoreSchema.v]).
    - Goroutines are step relations or lists of steps in any order.
    - Errors are values of a sum or [option].
    - Code that is not in the repository, and I/O, is a parameter: Argon2,
      HMAC, SHA-256 and AES-GCM as classes with their documented laws and an
      instance for evaluation; DNS, TCP, HTTP, the Docker SDK, files,
      [url.Parse] and the TOML decoder as functions.

    ** The files

    - Prelude: this file; integers, lists, map order, tactics.
    - Outbound: [internal/outbound/policy.go]; every connection goes to an
      allowed address.
    - Config, Settings, SettingKeys, SettingsLoad, SettingsStore,
      SettingsAudit: [internal/settings]; precedence of the sources, stored
      settings with their revisions and audit trail, and that a restart finds
      them again.  Preferences: [internal/preferences].
    - AlertState, AlertRepository, AlertHealth, AlertEvaluator,
      AlertInvariants: [internal/alerts]; the life cycle of an alert with its
      debouncing, and that the stored evaluation refines it statement by
      statement, atomically, with one open alert per key, whatever retention
      of the event log and edits of rules and silences come in between.
    - Checks, CheckScheduler: [internal/checks]; runs obey the outbound policy,
      redirects included, and a check never runs twice at once.
    - Metrics: [internal/metrics]; bounded buffers, numbering and replay.
    - Incidents, IncidentInvariants, Channels, NotifyWorker, NotifyInvariants:
      [internal/notifications]; an incident is open exactly while a member
      alert fires, over any interleaving and any failures, and no two
      deliveries of one channel and incident run at once.
    - Secrets, Sessions, ApiTokens, Accounts, Mfa, Protection: [internal/auth];
      revocation is permanent, recovery codes are used once, there is one
      first administrator, secrets round-trip and do not move, rate limits
      are exact, proxy identities cannot be forged.
    - Deletion, StoreWriter, Rollups, Retention, History, HistoryInvariants,
      Persistence: [internal/storage], [internal/rollup] and
      [internal/retention]; deletion removes exactly what was confirmed,
      rollups equal the aggregation they stand for, samples read back as
      written, and nothing younger than the policy is removed.
    - HostProc, Resources, DockerApi, DockerStats, Sampler:
      [internal/collector], [internal/resources], [internal/dockerapi],
      [internal/events] and [internal/coolify/resolve.go]; the kernel's texts
      are read exactly, containers are divided among resources with stable
      keys, an outage of the daemon keeps the last resources and shows, only
      three variables of a container's environment are kept, log frames
      round-trip, and requests to the daemon are bounded.
    - Onboarding, Diagnostics, Logs: [internal/onboarding] and
      [internal/diagnostics]; the onboarding steps, bundles without secrets
      that can be downloaded for ten minutes, logs within their limits, and
      processes that cannot confuse the scan by their name.
    - ApiCore, ApiAccess, ApiMonitoring, ApiData, ApiServer, ApiRun:
      [internal/api]; every handler as a tree of the calls it makes, routing
      as registered, and two theorems over the whole server: every call is
      made behind its guards, which for a change are a session and its CSRF
      token, but for the few calls that the theorems list, and behind every
      call the database held the live session, the token with the scope, or
      the credentials that it asks for.
    - Lifecycle: [internal/app] and the start of [cmd/binnacle/main.go];
      components start in order, stop in reverse and the run returns; what
      a start does to accounts, rules and settings, by what it finds.

    ** Fuel

    Loops whose recursion is not structural take fuel from their input: the
    length of the text for scanners and parsers, every round of which consumes
    a byte ([clean_loop], [scan_frames], [duration_parts], [parse_value]), the
    number of rows for deletion, retention and clean-up in batches
    ([run_fuel] of [Deletion.v], [expire], [expire_events], [cleanup_loop]), the number of
    buckets for the limiter ([evict]), the attempts for retries.  Where a
    theorem speaks of the result, it is proved that the fuel is enough
    ([cleaning_terminates], [deletion_exact], [logs_roundtrip],
    [run_terminates]).

    ** What the development found

    Lemmas named after a defect ([alerts_never_resolve],
    [mountinfo_misread], [stopped_reported_unknown], [followers_starve] and
    the like) state behaviour of the code that contradicts its purpose or its
    documentation.

    ** Not modelled

    - Opening the database, its pragmas, migrations and the goroutines of the
      manager ([internal/storage/sqlite.go]): I/O.  The exchange of HTTP and
      SMTP messages and the text of a notification
      ([internal/notifications/worker.go]).
    - The SDK behind [internal/dockerapi], and the goroutine that forwards its
      events.  [StatsCollector], [Cache.Maintain] and the loop of
      [internal/collector/host/collector.go], which the program never starts.
    - The client and the integration loop of [internal/coolify]: a third-party
      API.  The built-in redaction patterns of logs are regular expressions
      and stand as functions; the properties hold for any of them.
    - [internal/diagnostics/monitor.go] and [metrics.go]: counters of the
      runtime.  [internal/demo]: generated data.  [internal/webembed], flags,
      signals and listening: I/O.
    - The JSON text of responses and the bytes of event streams; handlers are
      modelled up to the values they encode. *)

From stdpp Require Import base tactics list gmap strings.
From Stdlib Require Import ZArith Lia.

#[global] Open Scope Z_scope.

(** ** Machine integers

    Go's [int], [int64] and [time.Duration] are 64-bit two's complement
    integers; [uint64] is unsigned.  Arithmetic on them wraps silently. *)

Definition min_int64 : Z := - 2 ^ 63.
Definition max_int64 : Z := 2 ^ 63 - 1.

Definition wrap64 (z : Z) : Z := (z + 2 ^ 63) mod 2 ^ 64 - 2 ^ 63.
Definition wrapu64 (z : Z) : Z := z mod 2 ^ 64.
Definition wrapu32 (z : Z) : Z := z mod 2 ^ 32.

Definition in_int64 (z : Z) : Prop := min_int64 <= z <= max_int64.
Definition in_uint64 (z : Z) : Prop := 0 <= z < 2 ^ 64.

Lemma wrap64_range (z : Z) : in_int64 (wrap64 z).
Proof.
  unfold in_int64, wrap64, min_int64, max_int64.
  pose proof (Z.mod_pos_bound (z + 2 ^ 63) (2 ^ 64)). lia.
Qed.

Lemma wrap64_id (z : Z) : in_int64 z -> wrap64 z = z.
Proof.
  unfold in_int64, wrap64, min_int64, max_int64. intros H.
  rewrite Z.mod_small; lia.
Qed.

Lemma wrapu64_range (z : Z) : in_uint64 (wrapu64 z).
Proof. unfold in_uint64, wrapu64. apply Z.mod_pos_bound. lia. Qed.

Lemma wrapu64_id (z : Z) : in_uint64 z -> wrapu64 z = z.
Proof. unfold in_uint64, wrapu64. intros H. apply Z.mod_small. lia. Qed.

(** ** Durations and instants

    A [time.Duration] is an [int64] count of nanoseconds.  A [time.Time] in
    UTC is the count of nanoseconds since the Unix epoch; its range is far
    wider than [int64], so [Time.Add] does not wrap here while [Time.Sub]
    saturates, as the Go documentation says. *)

Definition Nanosecond : Z := 1.
Definition Millisecond : Z := 1000000.
Definition Second : Z := 1000000000.
Definition Minute : Z := 60 * Second.
Definition Hour : Z := 60 * Minute.

Definition sat64 (z : Z) : Z := Z.max min_int64 (Z.min max_int64 z).

Definition time_add (t d : Z) : Z := t + d.
Definition time_sub (t u : Z) : Z := sat64 (t - u).
Definition time_unix (t : Z) : Z := t / Second.
Definition time_unix_milli (t : Z) : Z := t / Millisecond.
Definition of_unix (s : Z) : Z := s * Second.
Definition of_unix_milli (ms : Z) : Z := ms * Millisecond.
(** [time.Time{}]: 1 January of year 1, UTC. *)
Definition zero_time : Z := - 62135596800 * Second.
Definition is_zero_time (t : Z) : bool := t =? zero_time.

(** [time.Duration(n) * time.Second] *)
Definition dur_seconds (n : Z) : Z := wrap64 (n * Second).
(** [int(d / time.Second)]: Go's division truncates towards zero. *)
Definition seconds_of_dur (d : Z) : Z := Z.quot d Second.

Lemma sat64_mono (a b : Z) : a <= b -> sat64 a <= sat64 b.
Proof. unfold sat64. lia. Qed.

Lemma time_unix_of_unix (s : Z) : time_unix (of_unix s) = s.
Proof. unfold time_unix, of_unix, Second. apply Z.div_mul. lia. Qed.

(** Storing an instant as whole seconds and reading it back loses less than
    a second, and never moves it into the future. *)
Lemma unix_roundtrip_bounds (t : Z) :
  of_unix (time_unix t) <= t < of_unix (time_unix t) + Second.
Proof.
  unfold time_unix, of_unix, Second.
  pose proof (Z.div_mod t 1000000000). pose proof (Z.mod_pos_bound t 1000000000). lia.
Qed.

Lemma unix_milli_roundtrip_bounds (t : Z) :
  of_unix_milli (time_unix_milli t) <= t < of_unix_milli (time_unix_milli t) + Millisecond.
Proof.
  unfold time_unix_milli, of_unix_milli, Millisecond.
  pose proof (Z.div_mod t 1000000). pose proof (Z.mod_pos_bound t 1000000). lia.
Qed.

Lemma seconds_roundtrip (n : Z) :
  0 <= n <= 9223372036 -> seconds_of_dur (dur_seconds n) = n.
Proof.
  intros H. unfold seconds_of_dur, dur_seconds, Second.
  rewrite wrap64_id; [|unfold in_int64, min_int64, max_int64; lia].
  rewrite Z.quot_mul; lia.
Qed.

(** ** Strings *)

Infix "=?s" := String.eqb (at level 70, no associativity).

(** [switch v { case l...: }] *)
Definition str_in (v : string) (l : list string) : bool := existsb (String.eqb v) l.

Lemma str_in_spec (v : string) (l : list string) : str_in v l = true <-> In v l.
Proof.
  unfold str_in. rewrite existsb_exists. split.
  - by intros (x & Hx & ->%String.eqb_eq).
  - intros H. exists v. by rewrite String.eqb_refl.
Qed.

(** ** Maps *)

(** [for k, v := range m]: Go visits a map in an unspecified order. *)
Class MapOrder := {
  range_map : forall {A}, gmap string A -> list (string * A);
  range_map_perm : forall {A} (m : gmap string A), range_map m ≡ₚ map_to_list m;
}.

(** One such order, for evaluating examples. *)
#[export] Instance default_order : MapOrder := {|
  range_map := fun A => map_to_list;
  range_map_perm := fun A m => reflexivity _;
|}.

(** ** Tactics *)

(** Case analysis on every boolean test and match of the goal. *)
Ltac split_ifs := repeat (case_match; simplify_eq/=).
Ltac bool_hyps :=
  repeat match goal with
  | H : _ && _ = true |- _ => apply andb_true_iff in H as [? ?]
  | H : _ || _ = false |- _ => apply orb_false_iff in H as [? ?]
  | H : negb _ = true |- _ => apply negb_true_iff in H
  | H : negb _ = false |- _ => apply negb_false_iff in H
  end.

(** [lia] after the boolean atoms whose value is known are rewritten away. *)
Ltac blia :=
  repeat match goal with
  | H : ?b = true, H' : context [?b] |- _ => lazymatch b with true => fail | false => fail | _ => rewrite H in H' end
  | H : ?b = false, H' : context [?b] |- _ => lazymatch b with true => fail | false => fail | _ => rewrite H in H' end
  | H : context [?b && true] |- _ => rewrite (andb_true_r b) in H
  end; first [done | lia].

Create HintDb go discriminated.
#[export] Hint Resolve wrap64_range wrapu64_range : go.
