(* ===== verification/GoString.v ===== *)
(** * Go's string functions

    The parts of [strings] and [strconv] the services use, on byte strings.
    Case folding and white space are the ASCII ones: the inputs are header
    values, identifiers, configuration values and kernel files. *)

From stdpp Require Import base tactics list strings pretty.
From Stdlib Require Import ZArith Lia Ascii.
From S2P Require Import Prelude.

Definition bytes (s : string) : list ascii := String.list_ascii_of_string s.
Definition of_bytes (l : list ascii) : string := String.string_of_list_ascii l.
Definition byte_code (c : ascii) : Z := Z.of_nat (nat_of_ascii c).

Definition is_space (c : ascii) : bool :=
  let n := byte_code c in (n =? 32) || ((9 <=? n) && (n <=? 13)).
Definition is_digit (c : ascii) : bool := (48 <=? byte_code c) && (byte_code c <=? 57).
Definition is_lower (c : ascii) : bool := (97 <=? byte_code c) && (byte_code c <=? 122).
Definition is_upper (c : ascii) : bool := (65 <=? byte_code c) && (byte_code c <=? 90).

Fixpoint drop_while {A} (p : A -> bool) (l : list A) : list A :=
  match l with
  | [] => []
  | x :: l' => if p x then drop_while p l' else l
  end.

(** [strings.TrimSpace] *)
Definition TrimSpace (s : string) : string :=
  of_bytes (rev (drop_while is_space (rev (drop_while is_space (bytes s))))).

Definition lower_byte (c : ascii) : ascii :=
  if is_upper c then ascii_of_nat (nat_of_ascii c + 32) else c.
(** [strings.ToLower] *)
Definition ToLower (s : string) : string := of_bytes (map lower_byte (bytes s)).

(** [strings.EqualFold] for texts of which one is ASCII: the long s and the
    Kelvin sign are the only other runes that fold to a letter of ASCII. *)
Fixpoint fold_bytes (l : list ascii) : list ascii :=
  match l with
  | "197"%char :: "191"%char :: l => "s"%char :: fold_bytes l
  | "226"%char :: "132"%char :: "170"%char :: l => "k"%char :: fold_bytes l
  | c :: l => lower_byte c :: fold_bytes l
  | [] => []
  end.
Definition EqualFold (a b : string) : bool := bool_decide (fold_bytes (bytes a) = fold_bytes (bytes b)).

Definition HasPrefix (s prefix : string) : bool := String.prefix prefix s.
Definition HasSuffix (s suffix : string) : bool :=
  String.prefix (of_bytes (rev (bytes suffix))) (of_bytes (rev (bytes s))).
Definition TrimPrefix (s prefix : string) : string :=
  if HasPrefix s prefix then of_bytes (skipn (String.length prefix) (bytes s)) else s.
Definition TrimSuffix (s suffix : string) : string :=
  if HasSuffix s suffix then
    of_bytes (firstn (String.length s - String.length suffix) (bytes s)) else s.

(** [strings.Contains] *)
Definition Contains (s sub : string) : bool :=
  match String.index 0 sub s with Some _ => true | None => false end.

Fixpoint split_bytes (sep : ascii) (cur : list ascii) (l : list ascii) : list (list ascii) :=
  match l with
  | [] => [rev cur]
  | c :: l => if Ascii.eqb c sep then rev cur :: split_bytes sep [] l
              else split_bytes sep (c :: cur) l
  end.
Definition newline : ascii := "010"%char.
(** [strings.Split] on a one-byte separator *)
Definition Split (s : string) (sep : ascii) : list string :=
  map of_bytes (split_bytes sep [] (bytes s)).

(** Splitting what was joined *)
Definition free_of (sep : ascii) (l : list ascii) : bool := forallb (fun c => negb (Ascii.eqb c sep)) l.

Lemma split_bytes_nonempty sep cur l : split_bytes sep cur l <> [].
Proof. revert cur. induction l as [|c l IH]; intros cur; cbn; [done|]. by destruct (Ascii.eqb c sep). Qed.

Lemma split_bytes_end sep cur l : free_of sep l = true -> split_bytes sep cur l = [rev cur ++ l].
Proof.
  revert cur. induction l as [|c l IH]; intros cur; cbn; [by rewrite app_nil_r|].
  destruct (Ascii.eqb c sep); [done|]. intros H. rewrite IH by done. cbn. by rewrite <- app_assoc.
Qed.
Lemma split_bytes_cons sep cur l rest :
  free_of sep l = true ->
  split_bytes sep cur (l ++ sep :: rest) = (rev cur ++ l) :: split_bytes sep [] rest.
Proof.
  revert cur. induction l as [|c l IH]; intros cur; cbn.
  - by rewrite Ascii.eqb_refl, app_nil_r.
  - destruct (Ascii.eqb c sep); [done|]. intros H. rewrite IH by done. cbn. by rewrite <- app_assoc.
Qed.

(** [strings.SplitN(s, sep, 2)]: [None] without a separator *)
Definition split_pair (s : string) (sep : ascii) : option (string * string) :=
  (fix go (cur : list ascii) (l : list ascii) : option (string * string) :=
     match l with
     | [] => None
     | c :: l => if Ascii.eqb c sep then Some (of_bytes (rev cur), of_bytes l) else go (c :: cur) l
     end) [] (bytes s).

Fixpoint fields_bytes (cur : list ascii) (l : list ascii) : list (list ascii) :=
  match l with
  | [] => match cur with [] => [] | _ => [rev cur] end
  | c :: l =>
      if is_space c then match cur with [] => fields_bytes [] l | _ => rev cur :: fields_bytes [] l end
      else fields_bytes (c :: cur) l
  end.
(** [strings.Fields] *)
Definition Fields (s : string) : list string := map of_bytes (fields_bytes [] (bytes s)).

(** ** Numbers *)

Fixpoint digits_value (acc : Z) (l : list ascii) : option Z :=
  match l with
  | [] => Some acc
  | c :: l => if is_digit c then digits_value (acc * 10 + (byte_code c - 48)) l else None
  end.
Definition parse_digits (l : list ascii) : option Z :=
  match l with [] => None | _ => digits_value 0 l end.

(** [strconv.ParseUint(s, 10, 64)] *)
Definition ParseUint (s : string) : option Z :=
  match parse_digits (bytes s) with
  | Some n => if n <=? 2 ^ 64 - 1 then Some n else None
  | None => None
  end.

(** [strconv.ParseInt(s, 10, 64)] and, on 64-bit platforms, [strconv.Atoi] *)
Definition ParseInt (s : string) : option Z :=
  let '(neg, l) := match bytes s with
                   | c :: l => if Ascii.eqb c "-"%char then (true, l)
                               else if Ascii.eqb c "+"%char then (false, l) else (false, c :: l)
                   | [] => (false, [])
                   end in
  match parse_digits l with
  | Some n =>
      let n := if neg : bool then - n else n in
      if (min_int64 <=? n) && (n <=? max_int64) then Some n else None
  | None => None
  end.
Definition Atoi := ParseInt.

(** [strconv.Itoa], [fmt.Sprintf("%d")] *)
Definition Itoa (n : Z) : string := pretty n.

Lemma digits_value_nonneg acc l n : 0 <= acc -> digits_value acc l = Some n -> 0 <= n.
Proof.
  revert acc. induction l as [|c l IH]; intros acc Ha; cbn; [intros; by simplify_eq|].
  destruct (is_digit c) eqn:E; [|done]. apply IH. unfold is_digit in E. lia.
Qed.

Lemma ParseUint_range s n : ParseUint s = Some n -> 0 <= n < 2 ^ 64.
Proof.
  unfold ParseUint, parse_digits. destruct (bytes s) as [|c l]; [done|].
  destruct (digits_value 0 (c :: l)) as [m|] eqn:E; [|done].
  apply digits_value_nonneg in E; [|lia]. case_match; [|done]. intros. simplify_eq. lia.
Qed.

Lemma ParseInt_range s n : ParseInt s = Some n -> in_int64 n.
Proof.
  unfold ParseInt, in_int64. destruct (match bytes s with [] => _ | _ => _ end) as [neg l].
  destruct (parse_digits l) as [m|]; [|done]. destruct (_ && _) eqn:E; [|done].
  intros. simplify_eq. bool_hyps. lia.
Qed.

(** ** Printed numbers are read back *)

Lemma pretty_digit n : (n < 10)%N -> is_digit (pretty_N_char n) = true /\ byte_code (pretty_N_char n) - 48 = Z.of_N n.
Proof.
  intros Hn. destruct n as [|p]; [done|]. do 4 (destruct p as [p|p|]; try done; try lia).
Qed.
Lemma digits_value_pretty x : forall s acc, exists k,
  digits_value acc (bytes (pretty_N_go x s)) = digits_value (acc * 10 ^ k + Z.of_N x) (bytes s) /\ 0 <= k.
Proof.
  induction (N.lt_wf_0 x) as [x _ IH]. intros s acc. destruct (decide (0 < x)%N) as [Hx|Hx].
  - rewrite pretty_N_go_step by done.
    destruct (IH (x `div` 10)%N (N.div_lt x 10 Hx eq_refl) (String (pretty_N_char (x `mod` 10)) s) acc) as (k & -> & Hk).
    exists (k + 1). split; [|lia]. cbn [bytes String.list_ascii_of_string digits_value].
    assert (x `mod` 10 < 10)%N as Hm by (by apply N.mod_lt).
    assert (is_digit (pretty_N_char (x `mod` 10)) = true /\ byte_code (pretty_N_char (x `mod` 10)) - 48 = Z.of_N (x `mod` 10)%N) as [-> ->].
    { by apply pretty_digit. }
    f_equal. rewrite Z.pow_add_r, N2Z.inj_div, N2Z.inj_mod by lia. pose proof (Z.div_mod (Z.of_N x) 10). lia.
  - exists 0. assert (x = 0%N) as -> by lia. split; [|lia]. cbn. f_equal. lia.
Qed.

Lemma pretty_N_digits x : exists c l, bytes (pretty x) = c :: l /\ is_digit c = true /\ digits_value 0 (c :: l) = Some (Z.of_N x).
Proof.
  destruct (decide (x = 0)%N) as [->|Hx]; [by exists "0"%char, []|].
  assert (pretty x = pretty_N_go x "") as -> by (unfold pretty, pretty_N; by rewrite decide_False).
  destruct (digits_value_pretty x "" 0) as (k & Hd & _). cbn [bytes String.list_ascii_of_string digits_value] in Hd.
  rewrite Z.mul_0_l, Z.add_0_l in Hd. destruct (bytes (pretty_N_go x "")) as [|c l] eqn:E.
  - cbn in Hd. injection Hd as Hd. lia.
  - exists c, l. split_and!; [done| |done]. cbn in Hd. by destruct (is_digit c).
Qed.
Lemma pretty_pos p : pretty (Z.pos p) = pretty (N.pos p).
Proof. done. Qed.

Lemma digit_no_sign c : is_digit c = true -> Ascii.eqb c "-"%char = false /\ Ascii.eqb c "+"%char = false.
Proof. destruct c as [[] [] [] [] [] [] [] []]; done. Qed.

Lemma ParseUint_Itoa n : in_uint64 n -> ParseUint (Itoa n) = Some n.
Proof.
  intros Hn. unfold in_uint64 in Hn. assert (exists x, n = Z.of_N x) as [x ->] by (exists (Z.to_N n); lia).
  unfold ParseUint, Itoa. assert (pretty (Z.of_N x) = pretty x) as -> by (by destruct x).
  destruct (pretty_N_digits x) as (c & l & -> & _ & Hd). cbn [parse_digits]. rewrite Hd.
  by rewrite (proj2 (Z.leb_le _ _)) by lia.
Qed.
Lemma digits_value_digits acc l n : digits_value acc l = Some n -> forallb is_digit l = true.
Proof. revert acc. induction l as [|c l IH]; intros acc; [done|]. cbn. destruct (is_digit c); [apply IH|done]. Qed.
Lemma Itoa_digits n : in_uint64 n -> forallb is_digit (bytes (Itoa n)) = true /\ bytes (Itoa n) <> [].
Proof.
  intros Hn%ParseUint_Itoa. unfold ParseUint, parse_digits in Hn. destruct (bytes (Itoa n)) as [|c l]; [done|].
  destruct (digits_value 0 (c :: l)) as [m|] eqn:E; [|done]. split; [by eapply digits_value_digits|done].
Qed.
Lemma ParseInt_Itoa n : in_int64 n -> ParseInt (Itoa n) = Some n.
Proof.
  intros Hn. unfold ParseInt, Itoa. unfold in_int64 in Hn.
  destruct n as [|p|p]; [done| |].
  - rewrite pretty_pos. destruct (pretty_N_digits (N.pos p)) as (c & l & -> & Hc & Hd).
    destruct (digit_no_sign c Hc) as [-> ->]. cbn [parse_digits]. rewrite Hd. cbn [Z.of_N].
    by rewrite (proj2 (Z.leb_le _ _)), (proj2 (Z.leb_le _ _)) by lia.
  - assert (bytes (pretty (Z.neg p)) = "-"%char :: bytes (pretty (N.pos p))) as -> by done.
    destruct (pretty_N_digits (N.pos p)) as (c & l & -> & Hc & Hd). change (Ascii.eqb "-" "-") with true. cbv iota.
    cbn [parse_digits]. rewrite Hd. cbn [Z.of_N Z.opp]. by rewrite (proj2 (Z.leb_le _ _)), (proj2 (Z.leb_le _ _)) by lia.
Qed.

Lemma bytes_of_bytes l : bytes (of_bytes l) = l.
Proof. apply String.list_ascii_of_string_of_list_ascii. Qed.
Lemma of_bytes_bytes s : of_bytes (bytes s) = s.
Proof. apply String.string_of_list_ascii_of_string. Qed.
Lemma drop_while_none {A} (p : A -> bool) l : forallb (fun x => negb (p x)) l = true -> drop_while p l = l.
Proof. destruct l as [|x l]; cbn; [done|]. by destruct (p x). Qed.
Lemma TrimSpace_none s : forallb (fun c => negb (is_space c)) (bytes s) = true -> TrimSpace s = s.
Proof.
  intros Hs. unfold TrimSpace. rewrite (drop_while_none _ (bytes s)) by done. rewrite drop_while_none, rev_involutive, of_bytes_bytes; [done|].
  rewrite forallb_forall in *. intros x Hx%in_rev. auto.
Qed.
Lemma HasPrefix_spec s p : HasPrefix s p = true -> exists u, s = p +:+ u.
Proof.
  unfold HasPrefix. revert s. induction p as [|c p IH]; intros s Hs; [by exists s|].
  destruct s as [|c' s]; [discriminate|]. cbn in Hs. destruct (ascii_dec c c') as [->|]; [|discriminate].
  destruct (IH s Hs) as [u ->]. by exists u.
Qed.
Lemma bytes_append a b : bytes (a +:+ b) = bytes a ++ bytes b.
Proof. induction a as [|c a IH]; [done|]. exact (f_equal (cons c) IH). Qed.
Lemma bytes_length s : length (bytes s) = String.length s.
Proof. induction s as [|c s IH]; [done|]. exact (f_equal S IH). Qed.
