(* ===== verification/Outbound.v ===== *)
(** * The outbound policy

    [internal/outbound/policy.go]: which addresses health checks and
    notifications may connect to.  Addresses are the [netip] ones; DNS and
    the dialer are parameters. *)

From stdpp Require Import base tactics list strings.
From Stdlib Require Import ZArith Lia.
From S2P Require Import Prelude GoString.

(** ** [net/netip] *)

(** The zero [Addr], a 32-bit IPv4 address, or a 128-bit IPv6 address with
    its zone. *)
Inductive Addr := AddrZero | V4 (a : Z) | V6 (a : Z) (zone : string).

#[export] Instance addr_eq_dec : EqDecision Addr.
Proof. solve_decision. Defined.

Definition addr_wf (a : Addr) : Prop :=
  match a with
  | AddrZero => True
  | V4 n => 0 <= n < 2 ^ 32
  | V6 n _ => 0 <= n < 2 ^ 128
  end.

(** The [i]-th byte of an address, most significant first. *)
Definition v4_byte (n i : Z) : Z := Z.land (Z.shiftr n (8 * (3 - i))) 255.
Definition v6_byte (n i : Z) : Z := Z.land (Z.shiftr n (8 * (15 - i))) 255.
Definition v6_u16 (n i : Z) : Z := Z.land (Z.shiftr n (16 * (7 - i))) 65535.

Definition Is4In6 (a : Addr) : bool :=
  match a with V6 n _ => Z.shiftr n 32 =? 65535 | _ => false end.
Definition Unmap (a : Addr) : Addr :=
  match a with V6 n z => if Is4In6 a then V4 (Z.land n (2 ^ 32 - 1)) else a | _ => a end.

Definition IsValid (a : Addr) : bool := match a with AddrZero => false | _ => true end.
Definition IsUnspecified (a : Addr) : bool :=
  match a with AddrZero => false | V4 n => n =? 0 | V6 n z => (n =? 0) && (z =?s "") end.
Definition IsLoopback (a : Addr) : bool :=
  match Unmap a with
  | AddrZero => false
  | V4 n => v4_byte n 0 =? 127
  | V6 n _ => n =? 1
  end.
Definition IsMulticast (a : Addr) : bool :=
  match Unmap a with
  | AddrZero => false
  | V4 n => Z.land (v4_byte n 0) 240 =? 224
  | V6 n _ => v6_byte n 0 =? 255
  end.
Definition IsLinkLocalUnicast (a : Addr) : bool :=
  match Unmap a with
  | AddrZero => false
  | V4 n => (v4_byte n 0 =? 169) && (v4_byte n 1 =? 254)
  | V6 n _ => Z.land (v6_u16 n 0) 65472 =? 65152
  end.
Definition IsLinkLocalMulticast (a : Addr) : bool :=
  match Unmap a with
  | AddrZero => false
  | V4 n => (v4_byte n 0 =? 224) && (v4_byte n 1 =? 0) && (v4_byte n 2 =? 0)
  | V6 n _ => Z.land (v6_u16 n 0) 65295 =? 65282
  end.
Definition IsPrivate (a : Addr) : bool :=
  match Unmap a with
  | AddrZero => false
  | V4 n => (v4_byte n 0 =? 10) || ((v4_byte n 0 =? 172) && (Z.land (v4_byte n 1) 240 =? 16)) ||
            ((v4_byte n 0 =? 192) && (v4_byte n 1 =? 168))
  | V6 n _ => Z.land (v6_byte n 0) 254 =? 252
  end.
Definition IsGlobalUnicast (a : Addr) : bool :=
  match a with
  | AddrZero => false
  | V4 n => negb (n =? 0) && negb (n =? 2 ^ 32 - 1) &&
            negb (IsLoopback a) && negb (IsMulticast a) && negb (IsLinkLocalUnicast a)
  | V6 n z => negb ((n =? 0) && (z =?s "")) &&
              negb (IsLoopback a) && negb (IsMulticast a) && negb (IsLinkLocalUnicast a)
  end.

(** ** The policy *)

Definition v4 (a b c d : Z) : Z := ((a * 256 + b) * 256 + c) * 256 + d.

(** 169.254.169.254, 100.100.100.200 and fd00:ec2::254 *)
Definition metadataAddresses : list Addr :=
  [V4 (v4 169 254 169 254); V4 (v4 100 100 100 200);
   V6 (Z.shiftl 64768 112 + Z.shiftl 3778 96 + 596) ""].

Definition Allowed (AllowPrivate : bool) (addr : Addr) : bool :=
  let addr := Unmap addr in
  if negb (IsValid addr) || negb (IsGlobalUnicast addr) || IsUnspecified addr ||
     IsLoopback addr || IsLinkLocalUnicast addr || IsLinkLocalMulticast addr || IsMulticast addr
  then false
  else if bool_decide (addr ∈ metadataAddresses) then false
  else AllowPrivate || negb (IsPrivate addr).

Inductive OutboundError := ErrBlocked | ErrDNS | ErrDial.

(** What [url.Parse] yields, as far as the policy looks at it. *)
Record URL := mkURL { u_Scheme : string; u_Hostname : string; u_HasUser : bool }.

Set Default Proof Using "Type".

Section policy.
(** [resolver.LookupNetIP] and the dialer may answer differently every time;
    the answers are indexed by the number of calls made. *)
Context (AllowPrivate : bool).
Context (lookup : nat -> string -> option (list Addr)).
Context (url_parse : string -> option URL).
Context (dial : Addr -> string -> bool).

Definition Resolve (call : nat) (host : string) : OutboundError + list Addr :=
  let host := ToLower (TrimSuffix host ".") in
  if (host =?s "localhost") || HasSuffix host ".localhost" then inl ErrBlocked
  else match lookup call host with
       | None | Some [] => inl ErrDNS
       | Some addrs => if forallb (Allowed AllowPrivate) addrs then inr addrs else inl ErrBlocked
       end.

Definition ValidateURL (call : nat) (raw : string) (schemes : list string) : OutboundError + URL :=
  match url_parse raw with
  | None => inl ErrBlocked
  | Some u =>
      if (u_Hostname u =?s "") || u_HasUser u then inl ErrBlocked
      else if negb (existsb (fun s => u_Scheme u =?s s) schemes) then inl ErrBlocked
      else match Resolve call (u_Hostname u) with
           | inl e => inl e
           | inr _ => inr u
           end
  end.

(** The dial attempts, in order, and the address connected to. *)
Fixpoint try_dial (port : string) (addrs : list Addr) : list Addr * option Addr :=
  match addrs with
  | [] => ([], None)
  | a :: addrs =>
      if dial a port then ([a], Some a)
      else let '(tried, r) := try_dial port addrs in (a :: tried, r)
  end.

Definition DialContext (call : nat) (host port : string) : list Addr * (OutboundError + Addr) :=
  match Resolve call host with
  | inl e => ([], inl e)
  | inr addrs =>
      let '(tried, r) := try_dial port addrs in
      (tried, match r with Some a => inr a | None => inl ErrDial end)
  end.

Lemma try_dial_incl port addrs :
  (forall a, In a (try_dial port addrs).1 -> In a addrs) /\
  (forall a, (try_dial port addrs).2 = Some a -> In a addrs).
Proof.
  induction addrs as [|x addrs [IH1 IH2]]; cbn; [done|].
  destruct (dial x port); cbn; [split; [intros a [->|[]]; by left|intros a [= ->]; by left]|].
  destruct (try_dial port addrs) as [tried r]; cbn in *. split; [|auto].
  intros a [->|H]; auto.
Qed.

Lemma resolve_allowed call host addrs :
  Resolve call host = inr addrs -> Forall (fun a => Allowed AllowPrivate a = true) addrs.
Proof.
  unfold Resolve. case_match; [done|]. destruct (lookup call _) as [[|x l]|]; try done.
  case_match eqn:E; [|done]. intros [= <-]. apply Forall_forall. intros a Ha.
  rewrite forallb_forall in E. by apply E, list_elem_of_In.
Qed.

Lemma DialContext_allowed call host port :
  Forall (fun a => Allowed AllowPrivate a = true) (DialContext call host port).1 /\
  match (DialContext call host port).2 with inr a => Allowed AllowPrivate a = true | inl _ => True end.
Proof.
  unfold DialContext. destruct (Resolve call host) as [e|addrs] eqn:E; [done|].
  apply resolve_allowed in E. rewrite Forall_forall in E.
  pose proof (try_dial_incl port addrs) as [H1 H2].
  destruct (try_dial port addrs) as [tried r]. cbn in *. split.
  - apply Forall_forall. intros a Ha. by apply E, list_elem_of_In, H1, list_elem_of_In.
  - destruct r as [a|]; [|done]. by apply E, list_elem_of_In, H2.
Qed.

(** C5 (safety): no connection leaves the policy.  Whatever DNS answers, also when
    it answers differently after validation, every address [DialContext]
    attempts and the one it connects to is allowed. *)
Theorem dial_allowed (call : nat) (host port : string) :
  let '(tried, r) := DialContext call host port in
  Forall (fun a => Allowed AllowPrivate a = true) tried /\
  match r with inr a => Allowed AllowPrivate a = true | inl _ => True end.
Proof.
  pose proof (DialContext_allowed call host port) as [H1 H2].
  by destruct (DialContext call host port).
Qed.
End policy.

(** ** The policy as a list of networks *)

Definition in_net (width n base len : Z) : bool :=
  Z.shiftr n (width - len) =? Z.shiftr base (width - len).

Definition blocked_v4 : list (Z * Z) :=
  [(v4 0 0 0 0, 32); (v4 255 255 255 255, 32); (v4 10 0 0 0, 8); (v4 127 0 0 0, 8);
   (v4 169 254 0 0, 16); (v4 172 16 0 0, 12); (v4 192 168 0 0, 16); (v4 224 0 0 0, 4);
   (v4 100 100 100 200, 32)].

(** ::, ::1, fc00::/7, fe80::/10 and ff00::/8 *)
Definition blocked_v6 : list (Z * Z) :=
  [(0, 128); (1, 128); (Z.shiftl 64512 112, 7); (Z.shiftl 65152 112, 10); (Z.shiftl 65280 112, 8)].

Definition in_blocked_net (a : Addr) : bool :=
  match Unmap a with
  | AddrZero => true
  | V4 n => existsb (fun p => in_net 32 n p.1 p.2) blocked_v4
  | V6 n _ => existsb (fun p => in_net 128 n p.1 p.2) blocked_v6
  end.

Fixpoint check_from (P : Z -> bool) (x : Z) (n : nat) : bool :=
  match n with O => true | S n => P x && check_from P (x + 1) n end.

Lemma finite_check (P : Z -> bool) (n : Z) :
  check_from P 0 (Z.to_nat n) = true -> forall x, 0 <= x < n -> P x = true.
Proof.
  intros H x Hx. assert (forall k a, check_from P a k = true ->
    a <= x < a + Z.of_nat k -> P x = true) as Hk.
  { clear. induction k as [|k IH]; intros a Hc Hx; [lia|]. cbn [check_from] in Hc. bool_hyps.
    destruct (decide (x = a)) as [->|]; [done|]. eapply IH; [done|lia]. }
  eapply Hk; [exact H|lia].
Qed.

Lemma land_byte x : Z.land x 255 = x mod 256.
Proof. exact (Z.land_ones x 8 ltac:(lia)). Qed.
Lemma land_u16 x : Z.land x 65535 = x mod 65536.
Proof. exact (Z.land_ones x 16 ltac:(lia)). Qed.

Lemma byte_mask_240 c x : 0 <= x < 256 -> 0 <= c < 16 -> (Z.land x 240 =? c * 16) = (x / 16 =? c).
Proof.
  intros Hx Hc. assert (check_from (fun y => eqb (Z.land (y / 16) 240 =? (y mod 16) * 16)
    (y / 16 / 16 =? y mod 16)) 0 (Z.to_nat 4096) = true) as H by (by vm_compute).
  apply finite_check with (x := x * 16 + c) in H; [|lia].
  apply eqb_prop in H.
  replace ((x * 16 + c) / 16) with x in H by (Z.to_euclidean_division_equations; lia).
  by replace ((x * 16 + c) mod 16) with c in H by (Z.to_euclidean_division_equations; lia).
Qed.
Lemma byte_mask_254 x : 0 <= x < 256 -> (Z.land x 254 =? 252) = (x / 2 =? 126).
Proof.
  intros Hx. apply eqb_prop. revert x Hx. apply (finite_check (fun x => eqb (Z.land x 254 =? 252) (x / 2 =? 126))). by vm_compute.
Qed.
Lemma u16_mask_linklocal x : 0 <= x < 65536 -> (Z.land x 65472 =? 65152) = (x / 64 =? 1018).
Proof.
  intros Hx. apply eqb_prop. revert x Hx. apply (finite_check (fun x => eqb (Z.land x 65472 =? 65152) (x / 64 =? 1018))). by vm_compute.
Qed.
Lemma u16_mask_llmulticast x :
  0 <= x < 65536 -> (Z.land x 65295 =? 65282) = true -> x / 256 = 255.
Proof.
  intros Hx Hm. assert (implb (Z.land x 65295 =? 65282) (x / 256 =? 255) = true) as H.
  { clear Hm. revert x Hx. apply (finite_check (fun x => implb (Z.land x 65295 =? 65282) (x / 256 =? 255))). by vm_compute. }
  rewrite Hm in H. cbn in H. lia.
Qed.

Ltac div_norm := rewrite ?Z.shiftr_div_pow2 by lia; rewrite ?land_byte, ?land_u16.

(** Nested divisions and remainders of one address are read off its decimal
    decomposition. *)
Lemma v4_bytes n :
  0 <= n < 2 ^ 32 ->
  exists a b c d, n = v4 a b c d /\ 0 <= a < 256 /\ 0 <= b < 256 /\ 0 <= c < 256 /\ 0 <= d < 256 /\
    v4_byte n 0 = a /\ v4_byte n 1 = b /\ v4_byte n 2 = c.
Proof.
  intros Hn. exists (n / 16777216), (n / 65536 mod 256), (n / 256 mod 256), (n mod 256).
  unfold v4_byte, v4. rewrite !land_byte, !Z.shiftr_div_pow2 by lia. cbn -[Z.div Z.modulo Z.mul Z.add].
  Z.to_euclidean_division_equations. lia.
Qed.

Lemma v4_prefix a b c d :
  0 <= a < 256 -> 0 <= b < 256 -> 0 <= c < 256 -> 0 <= d < 256 ->
  Z.shiftr (v4 a b c d) 24 = a /\ Z.shiftr (v4 a b c d) 16 = a * 256 + b /\
  Z.shiftr (v4 a b c d) 20 = a * 16 + b / 16 /\ Z.shiftr (v4 a b c d) 28 = a / 16.
Proof.
  intros. unfold v4. rewrite !Z.shiftr_div_pow2 by lia. cbn -[Z.div Z.modulo Z.mul Z.add].
  Z.to_euclidean_division_equations. lia.
Qed.

Lemma if_false (p q : bool) : (if p then false else q) = negb p && q.
Proof. by destruct p. Qed.

Lemma metadata_v4 n :
  bool_decide (V4 n ∈ metadataAddresses) =
  (n =? v4 169 254 169 254) || (n =? v4 100 100 100 200).
Proof.
  apply eq_true_iff_eq. rewrite bool_decide_eq_true, orb_true_iff, !Z.eqb_eq. unfold metadataAddresses.
  rewrite !elem_of_cons. split.
  - intros [[= ->]|[[= ->]|[[=]|[]%not_elem_of_nil]]]; auto.
  - intros [-> | ->]; auto.
Qed.

(** The two halves of the equivalence. *)
Lemma allowed_v4 n :
  0 <= n < 2 ^ 32 ->
  Allowed false (V4 n) = negb (existsb (fun p => in_net 32 n p.1 p.2) blocked_v4).
Proof.
  intros Hn. destruct (v4_bytes n Hn) as (a & b & c & d & -> & Ha & Hb & Hc & Hd & B0 & B1 & B2).
  destruct (v4_prefix a b c d Ha Hb Hc Hd) as (P24 & P16 & P20 & P28).
  pose proof (byte_mask_240 14 a Ha) as M14. pose proof (byte_mask_240 1 b Hb) as M1.
  change (14 * 16) with 224 in M14. change (1 * 16) with 16 in M1.
  unfold Allowed. cbn [Unmap IsValid]. rewrite metadata_v4, !if_false.
  unfold IsGlobalUnicast, IsUnspecified, IsLoopback, IsLinkLocalUnicast, IsLinkLocalMulticast,
    IsMulticast, IsPrivate, in_net. cbn [Unmap existsb blocked_v4 fst snd].
  rewrite B0, B1, B2, M14, M1 by lia.
  change (32 - 32) with 0. change (32 - 8) with 24. change (32 - 16) with 16.
  change (32 - 12) with 20. change (32 - 4) with 28. rewrite !Z.shiftr_0_r, P24, P16, P20, P28.
  repeat match goal with |- context [Z.shiftr (v4 ?w ?x ?y ?z) ?k] =>
    let r := eval vm_compute in (Z.shiftr (v4 w x y z) k) in
    change (Z.shiftr (v4 w x y z) k) with r end.
  clear -Ha Hb Hc Hd. apply eq_true_iff_eq. cbn [orb].
  repeat (rewrite ?andb_true_iff, ?negb_true_iff, ?orb_false_iff, ?andb_false_iff, ?Z.eqb_neq).
  assert (0 <= a / 16 < 16 /\ 0 <= b / 16 < 16 /\ (a = 224 -> a / 16 = 14)) as (Hqa & Hqb & H224)
    by (Z.to_euclidean_division_equations; lia).
  revert Hqa Hqb H224. generalize (a / 16), (b / 16). intros qa qb Hqa Hqb H224. unfold v4.
  split; intros; destruct_and?; split_and?; try done; lia.
Qed.

Lemma v6_prefix n :
  0 <= n < 2 ^ 128 ->
  exists x, 0 <= x < 65536 /\ v6_u16 n 0 = x /\ v6_byte n 0 = x / 256 /\ Z.shiftr n 112 = x /\
    Z.shiftr n 121 = x / 512 /\ Z.shiftr n 118 = x / 64 /\ Z.shiftr n 120 = x / 256.
Proof.
  intros Hn. exists (Z.shiftr n 112). unfold v6_u16, v6_byte. rewrite land_u16, land_byte.
  change (16 * (7 - 0)) with 112. change (8 * (15 - 0)) with 120.
  replace (Z.shiftr n 121) with (Z.shiftr (Z.shiftr n 112) 9) by (by rewrite Z.shiftr_shiftr).
  replace (Z.shiftr n 118) with (Z.shiftr (Z.shiftr n 112) 6) by (by rewrite Z.shiftr_shiftr).
  replace (Z.shiftr n 120) with (Z.shiftr (Z.shiftr n 112) 8) by (by rewrite Z.shiftr_shiftr).
  assert (0 <= Z.shiftr n 112 < 65536) as Hx.
  { rewrite Z.shiftr_div_pow2 by lia. split; [apply Z.div_pos; lia|]. apply Z.div_lt_upper_bound; lia. }
  revert Hx. generalize (Z.shiftr n 112) as x. intros x Hx.
  rewrite !Z.shiftr_div_pow2 by lia. change (2 ^ 9) with 512. change (2 ^ 8) with 256.
  change (2 ^ 6) with 64. rewrite (Z.mod_small x), (Z.mod_small (x / 256)); [auto 10| |done].
  Z.to_euclidean_division_equations; lia.
Qed.

Lemma allowed_v6 n :
  0 <= n < 2 ^ 128 -> Is4In6 (V6 n "") = false ->
  Allowed false (V6 n "") = negb (existsb (fun p => in_net 128 n p.1 p.2) blocked_v6).
Proof.
  intros Hn Hm. destruct (v6_prefix n Hn) as (x & Hx & U0 & B0 & P112 & P121 & P118 & P120).
  assert (Unmap (V6 n "") = V6 n "") as HU by (unfold Unmap; by rewrite Hm).
  assert (0 <= x / 256 < 256) as Hb by (Z.to_euclidean_division_equations; lia).
  pose proof (u16_mask_llmulticast x Hx) as Hll.
  assert (n = 1 -> x = 0) as H1 by (intros ->; rewrite <- P112; done).
  assert (bool_decide (V6 n "" ∈ metadataAddresses) = true -> x = 64768) as Hmeta.
  { rewrite bool_decide_eq_true. unfold metadataAddresses. rewrite !elem_of_cons.
    intros [[=]|[[=]|[[= ->]|[]%not_elem_of_nil]]]. rewrite <- P112. done. }
  unfold Allowed, IsGlobalUnicast, IsUnspecified, IsLoopback, IsLinkLocalUnicast,
    IsLinkLocalMulticast, IsMulticast, IsPrivate, in_net. rewrite !HU.
  cbn [IsValid existsb blocked_v6 fst snd]. rewrite ?HU, U0, B0.
  rewrite (u16_mask_linklocal x Hx), (byte_mask_254 (x / 256) Hb).
  change (128 - 128) with 0. change (128 - 7) with 121. change (128 - 10) with 118.
  change (128 - 8) with 120. rewrite !Z.shiftr_0_r, P121, P118, P120.
  repeat match goal with |- context [Z.shiftr (Z.shiftl ?w ?z) ?k] =>
    let r := eval vm_compute in (Z.shiftr (Z.shiftl w z) k) in
    change (Z.shiftr (Z.shiftl w z) k) with r end.
  replace (x / 256 / 2) with (x / 512) by (rewrite Z.div_div by lia; done).
  rewrite String.eqb_refl, andb_true_r, !if_false. clear -Hll H1 Hmeta Hx.
  destruct (bool_decide _) eqn:E; destruct (Z.land x 65295 =? 65282) eqn:El.
  all: try (specialize (Hmeta eq_refl)); try (specialize (Hll eq_refl)).
  all: apply eq_true_iff_eq; cbn [orb];
    repeat (rewrite ?andb_true_iff, ?negb_true_iff, ?orb_false_iff, ?andb_false_iff, ?Z.eqb_neq).
  all: split; intros; destruct_and?; split_and?; try done; try lia;
    try (subst x; done).
Qed.

(** The policy is the list of networks.  Without private
    destinations, a well-formed address without zone is allowed exactly when it, or
    the IPv4 address it maps, is outside every network of [blocked_v4] and
    [blocked_v6]: unspecified, broadcast, loopback, private, unique-local,
    link-local, multicast and the cloud metadata addresses. *)
Theorem allowed_networks (a : Addr) :
  addr_wf a -> match a with V6 _ z => z = "" | _ => True end ->
  Allowed false a = negb (in_blocked_net a).
Proof.
  destruct a as [|n|n z]; cbn [addr_wf]; [done|intros Hn _; by apply allowed_v4|].
  intros Hn ->. unfold in_blocked_net. destruct (Is4In6 (V6 n "")) eqn:Em.
  - assert (Unmap (V6 n "") = V4 (Z.land n (2 ^ 32 - 1))) as HU by (unfold Unmap; by rewrite Em).
    unfold Allowed. rewrite !HU. fold (Allowed false (V4 (Z.land n (2 ^ 32 - 1)))).
    apply allowed_v4. change (2 ^ 32 - 1) with (Z.ones 32). rewrite Z.land_ones by lia.
    apply Z.mod_pos_bound. lia.
  - assert (Unmap (V6 n "") = V6 n "") as HU by (unfold Unmap; by rewrite Em).
    rewrite HU. by apply allowed_v6.
Qed.

(** ::ffff:169.254.169.254 *)
Lemma allowed_networks_witness :
  Allowed false (V6 (65535 * 2 ^ 32 + v4 169 254 169 254) "") =
  negb (in_blocked_net (V6 (65535 * 2 ^ 32 + v4 169 254 169 254) "")) /\
  in_blocked_net (V6 (65535 * 2 ^ 32 + v4 169 254 169 254) "") = true.
Proof. split; [apply allowed_networks; [split; by vm_compute|done]|by vm_compute]. Defined.
