(* ===== verification/Netip.v ===== *)
(** * Addresses as text

    What the services use of [net/netip] and [net] on strings: parsing and
    printing of addresses, prefixes, and [net.SplitHostPort].  The addresses
    themselves are those of [Outbound]. *)

From stdpp Require Import base tactics list strings pretty.
From Stdlib Require Import ZArith Lia Ascii.
From S2P Require Import Prelude GoString Outbound.

(** ** IPv4 *)

Definition dot : ascii := "."%char.
Definition colon : ascii := ":"%char.

(** One decimal field: digits without a leading zero, up to 255 *)
Definition parse_octet (l : list ascii) : option Z :=
  match l with
  | c :: _ :: _ => if Ascii.eqb c "0"%char then None else
                   match parse_digits l with Some n => if n <=? 255 then Some n else None | None => None end
  | _ => parse_digits l
  end.
Definition parse4 (l : list ascii) : option Z :=
  match map parse_octet (split_bytes dot [] l) with
  | [Some a; Some b; Some c; Some d] => Some (v4 a b c d)
  | _ => None
  end.

Definition octet (n : Z) : list ascii := bytes (Itoa n).
Definition print4 (n : Z) : list ascii :=
  octet (v4_byte n 0) ++ dot :: octet (v4_byte n 1) ++ dot :: octet (v4_byte n 2) ++ dot :: octet (v4_byte n 3).

(** ** IPv6 *)

Definition hex_value (c : ascii) : option Z :=
  let n := byte_code c in
  if is_digit c then Some (n - 48)
  else if (97 <=? n) && (n <=? 102) then Some (n - 87)
  else if (65 <=? n) && (n <=? 70) then Some (n - 55)
  else None.

(** A field of at most four digits: its value, its length and the rest *)
Fixpoint hex_field (off : nat) (acc : Z) (l : list ascii) : option (Z * nat * list ascii) :=
  match l with
  | [] => Some (acc, off, [])
  | c :: l' =>
      match hex_value c with
      | Some d => if (3 <? off)%nat then None else hex_field (S off) (acc * 16 + d) l'
      | None => Some (acc, off, l)
      end
  end.

(** The loop of [parseIPv6] over the sixteen bytes, two at a time: the groups
    read, the place of [::] among them, and the rest *)
Fixpoint parse6 (fuel : nat) (gs : list Z) (ell : option nat) (l : list ascii) :
    option (list Z * option nat * list ascii) :=
  match fuel with
  | O => Some (gs, ell, l)
  | S fuel =>
      match hex_field 0 0 l with
      | None => None
      | Some (acc, off, rest) =>
          if (off =? 0)%nat then None
          else match rest with
               | [] => Some (gs ++ [acc], ell, [])
               | c :: rest' =>
                   if Ascii.eqb c dot then
                     if (match ell with None => negb (length gs =? 6)%nat | Some _ => false end) || (6 <? length gs)%nat then None
                     else match parse4 l with
                          | Some n => Some (gs ++ [Z.shiftr n 16; Z.land n 65535], ell, [])
                          | None => None
                          end
                   else if negb (Ascii.eqb c colon) then None
                   else match rest' with
                        | [] => None
                        | c2 :: rest'' =>
                            if Ascii.eqb c2 colon then
                              match ell, rest'' with
                              | Some _, _ => None
                              | None, [] => Some (gs ++ [acc], Some (S (length gs)), [])
                              | None, _ => parse6 fuel (gs ++ [acc]) (Some (S (length gs))) rest''
                              end
                            else parse6 fuel (gs ++ [acc]) ell rest'
                        end
               end
      end
  end.

Definition of_groups (gs : list Z) : Z := fold_left (fun a g => a * 65536 + g) gs 0.
Definition groups (n : Z) : list Z := map (v6_u16 n) [0; 1; 2; 3; 4; 5; 6; 7].

Definition expand (r : list Z * option nat * list ascii) : option (list Z) :=
  let '(gs, ell, rest) := r in
  match rest with
  | _ :: _ => None
  | [] =>
      if (length gs <? 8)%nat then
        match ell with
        | None => None
        | Some e => Some (firstn e gs ++ replicate (8 - length gs) 0 ++ skipn e gs)
        end
      else match ell with Some _ => None | None => Some gs end
  end.
Definition parse6_text (l : list ascii) : option Z :=
  match l with
  | c1 :: c2 :: l' =>
      if Ascii.eqb c1 colon && Ascii.eqb c2 colon then
        match l' with
        | [] => Some 0
        | _ => r ← parse6 8 [] (Some 0%nat) l'; of_groups <$> expand r
        end
      else r ← parse6 8 [] None l; of_groups <$> expand r
  | _ => r ← parse6 8 [] None l; of_groups <$> expand r
  end.

(** [strings.IndexByte], splitting at the byte *)
Fixpoint cut_byte (sep : ascii) (l : list ascii) : option (list ascii * list ascii) :=
  match l with
  | [] => None
  | c :: l => if Ascii.eqb c sep then Some ([], l) else prod_map (cons c) id <$> cut_byte sep l
  end.
Definition parseIPv6 (l : list ascii) : option Addr :=
  match cut_byte "%"%char l with
  | Some (_, []) => None
  | Some (l, zone) => (fun n => V6 n (of_bytes zone)) <$> parse6_text l
  | None => (fun n => V6 n "") <$> parse6_text l
  end.

(** The first of the three bytes decides. *)
Fixpoint parse_kind (l all : list ascii) : option Addr :=
  match l with
  | [] => None
  | c :: l =>
      if Ascii.eqb c dot then V4 <$> parse4 all
      else if Ascii.eqb c colon then parseIPv6 all
      else if Ascii.eqb c "%"%char then None
      else parse_kind l all
  end.
Definition ParseAddr (s : string) : option Addr := parse_kind (bytes s) (bytes s).

Definition hex_digit (d : Z) : ascii := ascii_of_nat (Z.to_nat (if d <? 10 then 48 + d else 87 + d)).
(** [appendHex]: without leading zeros *)
Definition hex16 (g : Z) : list ascii :=
  (if 4096 <=? g then [hex_digit (Z.shiftr g 12)] else []) ++
  (if 256 <=? g then [hex_digit (Z.land (Z.shiftr g 8) 15)] else []) ++
  (if 16 <=? g then [hex_digit (Z.land (Z.shiftr g 4) 15)] else []) ++
  [hex_digit (Z.land g 15)].

Fixpoint join_groups (gs : list Z) : list ascii :=
  match gs with
  | [] => []
  | [g] => hex16 g
  | g :: gs => hex16 g ++ colon :: join_groups gs
  end.

(** The length of the run of zeros at the front *)
Fixpoint zeros (gs : list Z) : nat := match gs with g :: gs => if g =? 0 then S (zeros gs) else 0 | [] => 0 end.
(** The first longest run of two zeros at least, as [zeroStart] and [zeroEnd] *)
Definition zero_run (gs : list Z) : option (nat * nat) :=
  fold_left (fun best i =>
    let l := zeros (skipn i gs) in
    if (2 <=? l)%nat && (match best with Some (s, e) => (e - s <? l)%nat | None => true end) then Some (i, (i + l)%nat) else best)
    (seq 0 8) None.
Definition print6 (n : Z) : list ascii :=
  let gs := groups n in
  match zero_run gs with
  | None => join_groups gs
  | Some (s, e) => join_groups (firstn s gs) ++ colon :: colon :: join_groups (skipn e gs)
  end.

(** [Addr.String] *)
Definition addr_bytes (a : Addr) : list ascii :=
  match a with
  | AddrZero => bytes "invalid IP"
  | V4 n => print4 n
  | V6 n z =>
      (if Is4In6 a then bytes "::ffff:" ++ print4 (Z.land n (2 ^ 32 - 1)) else print6 n) ++
      (if z =?s "" then [] else "%"%char :: bytes z)
  end.
Definition Addr_String (a : Addr) : string := of_bytes (addr_bytes a).

(** ** Prefixes *)

Record Prefix := mkPrefix { px_ip : Addr; px_bits : Z }.
Definition BitLen (a : Addr) : Z := match a with AddrZero => 0 | V4 _ => 32 | V6 _ _ => 128 end.
Definition Is4 (a : Addr) : bool := match a with V4 _ => true | _ => false end.
Definition has_zone (a : Addr) : bool := match a with V6 _ z => negb (z =?s "") | _ => false end.
Definition without_zone (a : Addr) : Addr := match a with V6 n _ => V6 n "" | a => a end.
Definition PrefixFrom (a : Addr) (bits : Z) : Prefix := mkPrefix (without_zone a) bits.

(** [strings.LastIndexByte], splitting at the byte *)
Definition cut_last (sep : ascii) (l : list ascii) : option (list ascii * list ascii) :=
  (fun p => (rev p.2, rev p.1)) <$> cut_byte sep (rev l).
Definition ParsePrefix (s : string) : option Prefix :=
  match cut_last "/"%char (bytes s) with
  | None => None
  | Some (addr, bits) =>
      match ParseAddr (of_bytes addr) with
      | None => None
      | Some ip =>
          if has_zone ip then None
          else if match bits with c :: _ :: _ => negb ((49 <=? byte_code c) && (byte_code c <=? 57)) | _ => false end then None
          else match Atoi (of_bytes bits) with
               | Some n => if (n <? 0) || (BitLen ip <? n) then None else Some (PrefixFrom ip n)
               | None => None
               end
      end
  end.
Definition Prefix_Contains (p : Prefix) (ip : Addr) : bool :=
  negb (has_zone ip) &&
  match px_ip p, ip with
  | V4 a, V4 b => Z.shiftr (Z.lxor a b) (32 - px_bits p) =? 0
  | V6 a _, V6 b _ => Z.shiftr (Z.lxor a b) (128 - px_bits p) =? 0
  | _, _ => false
  end.
Definition Masked (p : Prefix) : Prefix :=
  let keep width n := Z.shiftl (Z.shiftr n (width - px_bits p)) (width - px_bits p) in
  mkPrefix (match px_ip p with AddrZero => AddrZero | V4 n => V4 (keep 32 n) | V6 n z => V6 (keep 128 n) z end) (px_bits p).
Definition Prefix_String (p : Prefix) : string := Addr_String (px_ip p) +:+ "/" +:+ Itoa (px_bits p).

(** ** [net.SplitHostPort] *)

Definition has_byte (c : ascii) (l : list ascii) : bool := existsb (Ascii.eqb c) l.
Definition SplitHostPort (hostport : string) : option (string * string) :=
  let l := bytes hostport in
  match cut_last colon l with
  | None => None
  | Some (before, port) =>
      match l with
      | c :: l' =>
          if Ascii.eqb c "["%char then
            match cut_byte "]"%char l' with
            | Some (host, after) =>
                (** the closing bracket is right before the last colon *)
                match after with
                | c2 :: after' =>
                    if Ascii.eqb c2 colon && negb (has_byte colon after') &&
                       negb (has_byte "["%char l') && negb (has_byte "]"%char after)
                    then Some (of_bytes host, of_bytes port) else None
                | [] => None
                end
            | None => None
            end
          else if has_byte colon before || has_byte "["%char l || has_byte "]"%char l then None
          else Some (of_bytes before, of_bytes port)
      | [] => None
      end
  end.

(** ** Printing and parsing *)

Lemma land_ones x k : 0 <= k -> Z.land x (2 ^ k - 1) = x mod 2 ^ k.
Proof. intros. rewrite <- Z.land_ones by done. by rewrite Z.ones_equiv, <- Z.sub_1_r. Qed.

Lemma check_octets :
  forallb (fun n => bool_decide (parse_octet (octet n) = Some n) && free_of dot (octet n) &&
    match octet n with
    | [a] => bool_decide (is_Some (hex_value a))
    | [a; b] => bool_decide (is_Some (hex_value a)) && bool_decide (is_Some (hex_value b))
    | [a; b; c] => bool_decide (is_Some (hex_value a)) && bool_decide (is_Some (hex_value b)) && bool_decide (is_Some (hex_value c))
    | _ => false
    end) (seqZ 0 256) = true.
Proof. vm_compute. reflexivity. Qed.
Lemma octet_spec n :
  0 <= n < 256 -> parse_octet (octet n) = Some n /\ free_of dot (octet n) = true /\
  forall rest, exists acc off, hex_field 0 0 (octet n ++ dot :: rest) = Some (acc, S off, dot :: rest).
Proof.
  intros Hn. pose proof check_octets as H. rewrite forallb_forall in H. specialize (H n ltac:(apply list_elem_of_In, elem_of_seqZ; lia)).
  rewrite !andb_true_iff in H. destruct H as [[H1 H2] H3]. apply bool_decide_eq_true in H1. split_and!; [done|done|].
  intros rest. assert (hex_value dot = None) as Hdot by reflexivity.
  destruct (octet n) as [|a [|b [|c [|]]]]; try done; cbn [app hex_field]; rewrite ?andb_true_iff, ?bool_decide_eq_true in H3.
  - destruct H3 as [? ->]. cbn. rewrite Hdot. eauto.
  - destruct H3 as [[? ->] [? ->]]. cbn. rewrite Hdot. eauto.
  - destruct H3 as [[[? ->] [? ->]] [? ->]]. cbn. rewrite Hdot. eauto.
Qed.

Lemma v4_byte_range n i : 0 <= v4_byte n i < 256.
Proof. unfold v4_byte. change 255 with (2 ^ 8 - 1). rewrite land_ones by lia. apply Z.mod_pos_bound. lia. Qed.
Lemma v4_of_bytes n : 0 <= n < 2 ^ 32 -> v4 (v4_byte n 0) (v4_byte n 1) (v4_byte n 2) (v4_byte n 3) = n.
Proof.
  intros Hn. unfold v4, v4_byte. change 255 with (2 ^ 8 - 1). rewrite !land_ones by lia. rewrite !Z.shiftr_div_pow2 by lia.
  change (8 * (3 - 0)) with 24. change (8 * (3 - 1)) with 16. change (8 * (3 - 2)) with 8. change (8 * (3 - 3)) with 0.
  change (2 ^ 8) with 256. change (2 ^ 0) with 1. change (2 ^ 16) with 65536. change (2 ^ 24) with 16777216. Z.div_mod_to_equations. lia.
Qed.

Lemma parse4_print n : 0 <= n < 2 ^ 32 -> parse4 (print4 n) = Some n.
Proof.
  intros Hn. unfold parse4, print4.
  destruct (octet_spec (v4_byte n 0) (v4_byte_range n 0)) as (P0 & F0 & _), (octet_spec (v4_byte n 1) (v4_byte_range n 1)) as (P1 & F1 & _),
    (octet_spec (v4_byte n 2) (v4_byte_range n 2)) as (P2 & F2 & _), (octet_spec (v4_byte n 3) (v4_byte_range n 3)) as (P3 & F3 & _).
  rewrite !split_bytes_cons, split_bytes_end by done. cbn [map rev app]. rewrite P0, P1, P2, P3. by rewrite v4_of_bytes.
Qed.

(** *** Groups *)

Definition u16 (g : Z) : Prop := 0 <= g < 65536.
Lemma v6_u16_range n i : u16 (v6_u16 n i).
Proof. unfold u16, v6_u16. change 65535 with (2 ^ 16 - 1). rewrite land_ones by lia. apply Z.mod_pos_bound. lia. Qed.
Lemma of_groups_groups n : 0 <= n < 2 ^ 128 -> of_groups (groups n) = n.
Proof.
  intros Hn. unfold groups, v6_u16. change 65535 with (2 ^ 16 - 1). cbn [map of_groups fold_left].
  rewrite !land_ones by lia. rewrite !Z.shiftr_div_pow2 by lia.
  repeat match goal with |- context [2 ^ (16 * ?e)] => let v := eval vm_compute in (2 ^ (16 * e)) in change (2 ^ (16 * e)) with v end.
  change (2 ^ 16) with 65536. change (2 ^ 128) with 340282366920938463463374607431768211456 in Hn. Z.div_mod_to_equations. lia.
Qed.

Lemma hex_digits : forallb (fun d => bool_decide (hex_value (hex_digit d) = Some d)) (seqZ 0 16) = true.
Proof. vm_compute. reflexivity. Qed.
Lemma hex_value_digit d : 0 <= d < 16 -> hex_value (hex_digit d) = Some d.
Proof.
  intros Hd. pose proof hex_digits as H. rewrite forallb_forall in H. specialize (H d).
  apply (bool_decide_eq_true_1 _), H, list_elem_of_In, elem_of_seqZ. lia.
Qed.

Lemma hex_field_hex g rest :
  u16 g -> match rest with [] => True | c :: _ => hex_value c = None end ->
  exists off, hex_field 0 0 (hex16 g ++ rest) = Some (g, S off, rest).
Proof.
  unfold u16. intros Hg Hr.
  assert (forall off acc, hex_field off acc rest = Some (acc, off, rest)) as Hend by (destruct rest; cbn; intros; [done|by rewrite Hr]).
  unfold hex16. change 15 with (2 ^ 4 - 1). rewrite !land_ones, !Z.shiftr_div_pow2 by lia.
  change (2 ^ 4) with 16. change (2 ^ 8) with 256. change (2 ^ 12) with 4096.
  assert (0 <= g / 4096 < 16 /\ 0 <= (g / 256) mod 16 < 16 /\ 0 <= (g / 16) mod 16 < 16 /\ 0 <= g mod 16 < 16) as (H3 & H2 & H1 & H0)
    by (Z.div_mod_to_equations; lia).
  destruct (Z.leb_spec 4096 g), (Z.leb_spec 256 g), (Z.leb_spec 16 g); try lia; cbn [app hex_field];
    rewrite ?hex_value_digit by done; cbn [Nat.ltb Nat.leb]; rewrite ?hex_value_digit by done; cbn [Nat.ltb Nat.leb];
    rewrite ?hex_value_digit by done; cbn [Nat.ltb Nat.leb]; rewrite ?hex_value_digit by done; cbn [Nat.ltb Nat.leb];
    rewrite Hend; eexists; repeat f_equal; Z.div_mod_to_equations; lia.
Qed.

Lemma hex16_head g : u16 g -> exists c l, hex16 g = c :: l /\ Ascii.eqb c colon = false /\ Ascii.eqb c dot = false.
Proof.
  unfold u16. intros Hg.
  assert (forall d, 0 <= d < 16 -> Ascii.eqb (hex_digit d) colon = false /\ Ascii.eqb (hex_digit d) dot = false) as Hd.
  { intros d Hd. pose proof (hex_value_digit d Hd) as E.
    split; apply Ascii.eqb_neq; intros E'; rewrite E' in E; by vm_compute in E. }
  unfold hex16. change 15 with (2 ^ 4 - 1). rewrite !land_ones, !Z.shiftr_div_pow2 by lia.
  change (2 ^ 4) with 16. change (2 ^ 8) with 256. change (2 ^ 12) with 4096.
  destruct (Z.leb_spec 4096 g), (Z.leb_spec 256 g), (Z.leb_spec 16 g); try lia; cbn [app];
    eexists _, _; (split; [reflexivity|]); apply Hd; Z.div_mod_to_equations; lia.
Qed.

Lemma join_cons g g' gs : join_groups (g :: g' :: gs) = hex16 g ++ colon :: join_groups (g' :: gs).
Proof. done. Qed.
Lemma join_head gs :
  gs <> [] -> Forall u16 gs -> exists c l, join_groups gs = c :: l /\ Ascii.eqb c colon = false /\ Ascii.eqb c dot = false.
Proof.
  intros Hne H. destruct H as [|g gs Hg H]; [done|]. destruct (hex16_head g Hg) as (c & l & E & Hc).
  destruct gs as [|g' gs]; [by exists c, l|]. rewrite join_cons, E. by eexists _, _.
Qed.

Lemma parse6_next fuel gs ell g c rest :
  u16 g -> Ascii.eqb c colon = false ->
  parse6 (S fuel) gs ell (hex16 g ++ colon :: c :: rest) = parse6 fuel (gs ++ [g]) ell (c :: rest).
Proof.
  intros Hg Hc. cbn [parse6]. destruct (hex_field_hex g (colon :: c :: rest) Hg eq_refl) as [off ->].
  cbn [Nat.eqb]. change (Ascii.eqb colon dot) with false. rewrite Ascii.eqb_refl. cbn [negb]. by rewrite Hc.
Qed.
Lemma parse6_last fuel gs ell g : u16 g -> parse6 (S fuel) gs ell (hex16 g) = Some (gs ++ [g], ell, []).
Proof.
  intros Hg. cbn [parse6]. destruct (hex_field_hex g [] Hg I) as [off E]. rewrite app_nil_r in E. by rewrite E.
Qed.
Lemma parse6_ellipsis fuel gs g rest :
  u16 g -> parse6 (S fuel) gs None (hex16 g ++ colon :: colon :: rest) =
    match rest with [] => Some (gs ++ [g], Some (S (length gs)), []) | _ => parse6 fuel (gs ++ [g]) (Some (S (length gs))) rest end.
Proof.
  intros Hg. cbn [parse6]. destruct (hex_field_hex g (colon :: colon :: rest) Hg eq_refl) as [off ->].
  cbn [Nat.eqb]. change (Ascii.eqb colon dot) with false. by rewrite Ascii.eqb_refl.
Qed.

Lemma parse6_join l fuel gs ell :
  l <> [] -> Forall u16 l -> (length l <= fuel)%nat -> parse6 fuel gs ell (join_groups l) = Some (gs ++ l, ell, []).
Proof.
  intros Hne H. revert fuel gs. induction H as [|g l Hg H IH]; intros fuel gs Hlen; [done|].
  destruct fuel as [|fuel]; [cbn in Hlen; lia|]. destruct l as [|g' l]; [by apply parse6_last|].
  destruct (join_head (g' :: l)) as (c & t & E & Hc & _); [done|done|]. rewrite join_cons, E, parse6_next, <- E by done.
  rewrite IH; [by rewrite <- app_assoc|done|cbn in *; lia].
Qed.
Lemma parse6_join_ellipsis l fuel gs rest :
  l <> [] -> Forall u16 l -> (length l <= fuel)%nat ->
  parse6 fuel gs None (join_groups l ++ colon :: colon :: rest) =
    match rest with
    | [] => Some (gs ++ l, Some (length (gs ++ l)), [])
    | _ => parse6 (fuel - length l) (gs ++ l) (Some (length (gs ++ l))) rest
    end.
Proof.
  intros Hne H. revert fuel gs. induction H as [|g l Hg H IH]; intros fuel gs Hlen; [done|].
  destruct fuel as [|fuel]; [cbn in Hlen; lia|]. destruct l as [|g' l].
  - cbn [join_groups]. rewrite parse6_ellipsis by done. rewrite length_app, Nat.add_1_r. cbn [length Nat.sub]. by rewrite Nat.sub_0_r.
  - destruct (join_head (g' :: l)) as (c & t & E & Hc & _); [done|done|].
    rewrite join_cons, E, <- app_assoc, <- app_comm_cons, <- app_comm_cons, parse6_next, app_comm_cons, <- E by done.
    rewrite IH; [|done|cbn in *; lia]. by rewrite <- app_assoc.
Qed.

(** The run that is printed as [::] is a run of zeros. *)
Lemma zeros_spec l : firstn (zeros l) l = replicate (zeros l) 0 /\ (zeros l <= length l)%nat.
Proof.
  induction l as [|g l [IH1 IH2]]; cbn; [done|]. destruct (Z.eqb_spec g 0) as [->|]; cbn; [|split; [done|lia]].
  split; [by rewrite IH1|lia].
Qed.
Definition run_ok (gs : list Z) (best : option (nat * nat)) : Prop :=
  match best with
  | None => True
  | Some (s, e) => (s + 2 <= e <= length gs)%nat /\ gs = firstn s gs ++ replicate (e - s) 0 ++ skipn e gs
  end.
Lemma zero_run_ok gs : run_ok gs (zero_run gs).
Proof.
  unfold zero_run. assert (run_ok gs None) as H by done. revert H. generalize (@None (nat * nat)) as best.
  induction (seq 0 8) as [|i l IH]; intros best H; cbn [fold_left]; [done|]. apply IH. clear IH.
  destruct ((2 <=? zeros (skipn i gs))%nat && _) eqn:E; [|done]. apply andb_true_iff in E as [E%Nat.leb_le _].
  destruct (zeros_spec (skipn i gs)) as [Hz Hl]. rewrite length_drop in Hl. cbn [run_ok]. split; [lia|].
  replace (i + zeros (skipn i gs) - i)%nat with (zeros (skipn i gs)) by lia.
  rewrite <- Hz, <- drop_drop. by rewrite !take_drop.
Qed.

Lemma length_groups n : length (groups n) = 8%nat.
Proof. done. Qed.
Lemma groups_u16 n : Forall u16 (groups n).
Proof. apply Forall_map, Forall_forall. intros i _. apply v6_u16_range. Qed.

Lemma parse6_text_colon l : (exists c t, l = c :: t /\ Ascii.eqb c colon = false) -> parse6_text l = r ← parse6 8 [] None l; of_groups <$> expand r.
Proof. intros (c & t & -> & Hc). destruct t; cbn [parse6_text]; [done|]. by rewrite Hc. Qed.

Lemma parse6_print n : 0 <= n < 2 ^ 128 -> parse6_text (print6 n) = Some n.
Proof.
  intros Hn. unfold print6. pose proof (zero_run_ok (groups n)) as Hr. pose proof (groups_u16 n) as Hu.
  replace (Some n) with (Some (of_groups (groups n))) by (by rewrite of_groups_groups). pose proof (length_groups n) as Hlen. generalize dependent (groups n). intros gs Hr Hu Hlen. clear n Hn.
  destruct (zero_run gs) as [[s e]|].
  2: { rewrite parse6_text_colon by (destruct (join_head gs) as (c & t & E & Hc & _); [by intros ->|done|by exists c, t]).
       rewrite parse6_join; [|by intros ->|done|lia]. cbn [mbind option_bind expand app]. by rewrite Hlen. }
  destruct Hr as [Hse Egs].
  assert (Forall u16 (take s gs)) as Hut by (by apply Forall_take). assert (Forall u16 (drop e gs)) as Hud by (by apply Forall_drop).
  assert (length (take s gs) = s) as Hls by (rewrite length_take; lia). assert (length (drop e gs) = (8 - e)%nat) as Hle by (rewrite length_drop; lia).
  assert (forall ell, ell = s -> of_groups <$> expand (take s gs ++ drop e gs, Some ell, []) = Some (of_groups gs)) as Hexp.
  { intros ell ->. cbn [expand]. rewrite length_app, Hls, Hle.
    replace (s + (8 - e) <? 8)%nat with true by (symmetry; apply Nat.ltb_lt; lia).
    rewrite take_app_length', drop_app_length' by done. replace (8 - (s + (8 - e)))%nat with (e - s)%nat by lia.
    by rewrite <- Egs. }
  destruct (take s gs) as [|g l] eqn:Et.
  - cbn [join_groups app parse6_text]. rewrite !Ascii.eqb_refl. cbn [andb].
    destruct (drop e gs) as [|g l] eqn:Ed.
    + cbn [join_groups]. specialize (Hexp 0%nat Hls). cbn in Hexp. injection Hexp as <-. reflexivity.
    + destruct (join_head (g :: l)) as (c & t & E & Hc & _); [done|done|]. rewrite E, <- E.
      rewrite parse6_join; [|done|done|lia]. apply (Hexp 0%nat Hls).
  - rewrite <- Et in *. assert (take s gs <> []) as Hne by (by rewrite Et).
    destruct (join_head (take s gs) Hne Hut) as (c & t & E & Hc & _).
    rewrite parse6_text_colon by (rewrite E; by exists c, (t ++ colon :: colon :: join_groups (drop e gs))).
    rewrite parse6_join_ellipsis; [|done|done|lia]. cbn [app]. rewrite Hls.
    destruct (drop e gs) as [|g' l'] eqn:Ed; [specialize (Hexp s eq_refl); by rewrite app_nil_r in Hexp|].
    destruct (join_head (g' :: l')) as (c' & t' & E' & Hc' & _); [done|done|]. rewrite E', <- E'.
    rewrite parse6_join; [|done|done|lia]. by apply Hexp.
Qed.

(** *** Addresses *)

Lemma cut_byte_none sep l : free_of sep l = true -> cut_byte sep l = None.
Proof. induction l as [|c l IH]; cbn; [done|]. destruct (Ascii.eqb c sep); [done|]. intros H. by rewrite IH. Qed.
Lemma cut_byte_app sep l rest : free_of sep l = true -> cut_byte sep (l ++ sep :: rest) = Some (l, rest).
Proof.
  induction l as [|c l IH]; cbn; [by rewrite Ascii.eqb_refl|]. destruct (Ascii.eqb c sep); [done|]. intros H. by rewrite IH.
Qed.

(** The bytes of a printed address are hexadecimal digits, dots and colons. *)
Definition addr_byte (c : ascii) : bool :=
  bool_decide (is_Some (hex_value c)) || Ascii.eqb c dot || Ascii.eqb c colon.
Lemma addr_byte_free l sep : addr_byte sep = false -> forallb addr_byte l = true -> free_of sep l = true.
Proof.
  intros Hs. unfold free_of. rewrite !forallb_forall. intros H c Hc. apply negb_true_iff, Ascii.eqb_neq.
  intros ->. by rewrite (H _ Hc) in Hs.
Qed.
Lemma hex16_bytes g : u16 g -> forallb addr_byte (hex16 g) = true.
Proof.
  unfold u16. intros Hg. assert (forall d, 0 <= d < 16 -> addr_byte (hex_digit d) = true) as Hd.
  { intros d Hd. unfold addr_byte. rewrite hex_value_digit by done. done. }
  unfold hex16. change 15 with (2 ^ 4 - 1). rewrite !land_ones, !Z.shiftr_div_pow2 by lia.
  change (2 ^ 4) with 16. change (2 ^ 8) with 256. change (2 ^ 12) with 4096. rewrite !forallb_app.
  destruct (Z.leb_spec 4096 g), (Z.leb_spec 256 g), (Z.leb_spec 16 g); cbn [forallb]; rewrite ?Hd; try done; Z.div_mod_to_equations; lia.
Qed.
Lemma join_bytes gs : Forall u16 gs -> forallb addr_byte (join_groups gs) = true.
Proof.
  induction 1 as [|g gs Hg H IH]; [done|]. destruct gs as [|g' gs]; [by apply hex16_bytes|].
  rewrite join_cons, forallb_app. cbn [forallb]. by rewrite hex16_bytes, IH.
Qed.
Lemma octet_bytes n : 0 <= n < 256 -> forallb addr_byte (octet n) = true /\ forallb (fun c => negb (Ascii.eqb c colon) && negb (Ascii.eqb c dot)) (octet n) = true /\ octet n <> [].
Proof.
  intros Hn. assert (forallb (fun n => forallb addr_byte (octet n) && forallb (fun c => negb (Ascii.eqb c colon) && negb (Ascii.eqb c dot)) (octet n) && negb (length (octet n) =? 0)%nat)
    (seqZ 0 256) = true) as H by (vm_compute; reflexivity).
  rewrite forallb_forall in H. specialize (H n ltac:(apply list_elem_of_In, elem_of_seqZ; lia)).
  rewrite !andb_true_iff in H. destruct H as [[-> ->] H]. split_and!; [done|done|]. by destruct (octet n).
Qed.
Lemma print4_bytes n : forallb addr_byte (print4 n) = true.
Proof.
  unfold print4. repeat (rewrite forallb_app; cbn [forallb]).
  do 4 match goal with |- context [octet (v4_byte n ?i)] => destruct (octet_bytes _ (v4_byte_range n i)) as [-> _] end. done.
Qed.
Lemma print6_bytes n : forallb addr_byte (print6 n) = true.
Proof.
  unfold print6. pose proof (groups_u16 n) as Hu. destruct (zero_run (groups n)) as [[s e]|]; [|by apply join_bytes].
  rewrite forallb_app. cbn [forallb]. by rewrite !join_bytes by (by apply Forall_take || apply Forall_drop).
Qed.

(** Where the first separator is *)
Lemma parse_kind_skip l rest all :
  forallb (fun c => negb (Ascii.eqb c colon) && negb (Ascii.eqb c dot)) l = true -> forallb addr_byte l = true ->
  parse_kind (l ++ rest) all = parse_kind rest all.
Proof.
  induction l as [|c l IH]; cbn [forallb app parse_kind]; [done|]. rewrite !andb_true_iff, !negb_true_iff.
  intros [[Hc Hd] H] [Hb Hb']. rewrite Hc, Hd.
  destruct (Ascii.eqb_spec c "%"%char) as [->|]; [by vm_compute in Hb|]. by apply IH.
Qed.

Lemma hex16_no_separator g : u16 g -> forallb (fun c => negb (Ascii.eqb c colon) && negb (Ascii.eqb c dot)) (hex16 g) = true.
Proof.
  unfold u16. intros Hg. assert (forall d, 0 <= d < 16 -> negb (Ascii.eqb (hex_digit d) colon) && negb (Ascii.eqb (hex_digit d) dot) = true) as Hd.
  { intros d Hd. pose proof (hex_value_digit d Hd) as E. apply andb_true_iff.
    split; apply negb_true_iff, Ascii.eqb_neq; intros E'; rewrite E' in E; by vm_compute in E. }
  unfold hex16. change 15 with (2 ^ 4 - 1). rewrite !land_ones, !Z.shiftr_div_pow2 by lia.
  change (2 ^ 4) with 16. change (2 ^ 8) with 256. change (2 ^ 12) with 4096. rewrite !forallb_app.
  destruct (Z.leb_spec 4096 g), (Z.leb_spec 256 g), (Z.leb_spec 16 g); cbn [forallb]; rewrite ?Hd; try done; Z.div_mod_to_equations; lia.
Qed.
Lemma print6_kind n rest all : parse_kind (print6 n ++ rest) all = parseIPv6 all.
Proof.
  assert (forall l t, Forall u16 l -> parse_kind (join_groups l ++ colon :: t) all = parseIPv6 all) as Hj.
  { intros l t H. destruct H as [|g l Hg H]; [done|]. destruct l as [|g' l].
    - cbn [join_groups]. by rewrite parse_kind_skip by (by apply hex16_no_separator || apply hex16_bytes).
    - rewrite join_cons, <- app_assoc. by rewrite parse_kind_skip by (by apply hex16_no_separator || apply hex16_bytes). }
  unfold print6. pose proof (groups_u16 n) as Hu. destruct (zero_run (groups n)) as [[s e]|].
  - rewrite <- app_assoc. apply Hj. by apply Forall_take.
  - unfold groups in *. cbn [map] in *. rewrite join_cons, <- app_assoc. inversion_clear Hu.
    by rewrite parse_kind_skip by (by apply hex16_no_separator || apply hex16_bytes).
Qed.

Lemma print4_head m : exists c t, print4 m = c :: t /\ Ascii.eqb c colon = false.
Proof.
  unfold print4. destruct (octet_bytes _ (v4_byte_range m 0)) as (_ & H & Hne). destruct (octet (v4_byte m 0)) as [|c t]; [done|].
  cbn [forallb] in H. rewrite !andb_true_iff, negb_true_iff in H. destruct H as [[Hc _] _]. by eexists _, _.
Qed.
Lemma parse6_mapped m : 0 <= m < 2 ^ 32 -> parse6_text (bytes "::ffff:" ++ print4 m) = Some (65535 * 2 ^ 32 + m).
Proof.
  intros Hm. change (parse6_text (bytes "::ffff:" ++ print4 m)) with
    (r ← parse6 8 [] (Some 0%nat) (hex16 65535 ++ colon :: print4 m); of_groups <$> expand r).
  destruct (print4_head m) as (c & t & E & Hc). rewrite E, parse6_next, <- E by (done || unfold u16; lia). clear c t E Hc.
  cbn [parse6 app]. unfold print4 at 1. destruct (octet_spec (v4_byte m 0) (v4_byte_range m 0)) as (_ & _ & Hf).
  destruct (Hf (octet (v4_byte m 1) ++ dot :: octet (v4_byte m 2) ++ dot :: octet (v4_byte m 3))) as (acc & off & ->).
  cbn [Nat.eqb]. rewrite Ascii.eqb_refl. cbn [length Nat.ltb Nat.leb orb]. rewrite parse4_print by done.
  change 65535 with (2 ^ 16 - 1) at 1 2. cbn [mbind option_bind expand length Nat.ltb Nat.leb fmap option_fmap option_map].
  f_equal. cbn [firstn skipn app replicate Nat.sub of_groups fold_left]. rewrite land_ones, Z.shiftr_div_pow2 by lia.
  change (2 ^ 16) with 65536. change (2 ^ 32) with 4294967296 in *. Z.div_mod_to_equations. lia.
Qed.

Lemma parseIPv6_text n z l :
  forallb addr_byte l = true -> parse6_text l = Some n ->
  parseIPv6 (l ++ (if z =?s "" then [] else "%"%char :: bytes z)) = Some (V6 n z).
Proof.
  intros Hb E. unfold parseIPv6. destruct (String.eqb_spec z "") as [->|Hz].
  - rewrite app_nil_r, cut_byte_none by (by apply addr_byte_free). by rewrite E.
  - rewrite cut_byte_app by (by apply addr_byte_free). rewrite E. destruct z as [|a z]; [done|].
    cbn. f_equal. f_equal. unfold of_bytes, bytes. by rewrite String.string_of_list_ascii_of_string.
Qed.

(** What is printed is parsed back. *)
Lemma addr_roundtrip a : addr_wf a -> a <> AddrZero -> ParseAddr (Addr_String a) = Some a.
Proof.
  intros Hwf Hne. unfold ParseAddr, Addr_String, bytes at 1 2, of_bytes. rewrite !String.list_ascii_of_string_of_list_ascii.
  destruct a as [|n|n z]; [done| |]; cbn [addr_bytes addr_wf] in *.
  - unfold print4 at 1. destruct (octet_bytes _ (v4_byte_range n 0)) as (H1 & H2 & _).
    rewrite parse_kind_skip by done. change (V4 <$> parse4 (print4 n) = Some (V4 n)). by rewrite parse4_print.
  - destruct (Is4In6 (V6 n z)) eqn:E.
    + cbn [Is4In6] in E. apply Z.eqb_eq in E. rewrite land_ones by lia.
      rewrite Z.shiftr_div_pow2 in E by lia.
      assert (n = 65535 * 2 ^ 32 + n mod 2 ^ 32) as En by (rewrite <- E; pose proof (Z.div_mod n (2 ^ 32)); lia).
      change (parseIPv6 ((bytes "::ffff:" ++ print4 (n mod 2 ^ 32)) ++ (if z =?s "" then [] else "%"%char :: bytes z)) = Some (V6 n z)).
      rewrite En at 2. apply parseIPv6_text; [|apply parse6_mapped, Z.mod_pos_bound; lia].
      rewrite forallb_app, print4_bytes. done.
    + rewrite print6_kind. apply parseIPv6_text; [apply print6_bytes|by apply parse6_print].
Qed.
