(* ===== verification/Float64.v ===== *)
(** * IEEE 754 binary64

    Go's [float64] as the Standard Library's executable [spec_float], at
    precision 53 and maximal exponent 1024: rounding to nearest even, signed
    zeros, infinities and NaN as the language has them. *)

From Stdlib Require Import ZArith Lia SpecFloat.
From stdpp Require Import base tactics.
From S2P Require Import Prelude.

Abbreviation F64 := spec_float.

#[export] Instance spec_float_eq_dec : EqDecision spec_float.
Proof. solve_decision. Defined.

Definition f64_prec : Z := 53.
Definition f64_emax : Z := 1024.

(** [float64(z)] for an integer [z]. *)
Definition f64_of_Z (z : Z) : F64 := binary_normalize f64_prec f64_emax z 0 false.
(** The float64 nearest to the decimal literal [m / 10^k]. *)
Definition f64_lit (m : Z) (k : Z) : F64 :=
  SFdiv f64_prec f64_emax (f64_of_Z m) (f64_of_Z (10 ^ k)).

Definition f64_add : F64 -> F64 -> F64 := SFadd f64_prec f64_emax.
Definition f64_sub : F64 -> F64 -> F64 := SFsub f64_prec f64_emax.
Definition f64_mul : F64 -> F64 -> F64 := SFmul f64_prec f64_emax.
Definition f64_div : F64 -> F64 -> F64 := SFdiv f64_prec f64_emax.

Definition f64_zero : F64 := S754_zero false.
Definition f64_one : F64 := f64_of_Z 1.

Declare Scope f64_scope.
Delimit Scope f64_scope with F.
Infix "<?" := SFltb (at level 70) : f64_scope.
Infix "<=?" := SFleb (at level 70) : f64_scope.
Infix "=?" := SFeqb (at level 70) : f64_scope.
(** Go's [a > b] and [a >= b] are false when either side is NaN, as are the
    flipped comparisons. *)
Notation "a >? b" := (SFltb b a) (at level 70, only parsing) : f64_scope.
Notation "a >=? b" := (SFleb b a) (at level 70, only parsing) : f64_scope.

(** ** The order

    Away from NaN the comparison is that of a key ordered
    lexicographically; this is what transitivity is proved through. *)

Definition f64_key (x : F64) : option (Z * Z * Z) :=
  match x with
  | S754_nan => None
  | S754_infinity true => Some (-2, 0, 0)
  | S754_infinity false => Some (2, 0, 0)
  | S754_zero _ => Some (0, 0, 0)
  | S754_finite true m e => Some (-1, -e, - Z.pos m)
  | S754_finite false m e => Some (1, e, Z.pos m)
  end.

Definition key_lt (a b : Z * Z * Z) : Prop :=
  let '(a1, a2, a3) := a in
  let '(b1, b2, b3) := b in
  a1 < b1 \/ (a1 = b1 /\ (a2 < b2 \/ (a2 = b2 /\ a3 < b3))).

Lemma pcmp_spec (m n : positive) :
  match Pcompare m n Eq with
  | Eq => m = n
  | Lt => (m < n)%positive
  | Gt => (n < m)%positive
  end.
Proof. change (Pcompare m n Eq) with (Pos.compare m n). destruct (Pos.compare_spec m n); auto. Qed.

Lemma SFcompare_key (x y : F64) :
  match SFcompare x y, f64_key x, f64_key y with
  | None, kx, ky => kx = None \/ ky = None
  | Some Lt, Some a, Some b => key_lt a b
  | Some Gt, Some a, Some b => key_lt b a
  | Some Eq, Some a, Some b => a = b
  | Some _, _, _ => False
  end.
Proof.
  destruct x as [[]|[]| |[] m e], y as [[]|[]| |[] m' e']; cbn -[Z.compare];
    try (first [lia | by auto | by left | by right]).
  all: destruct (Z.compare_spec e e'); subst; cbn; try lia.
  all: pose proof (pcmp_spec m m'); destruct (Pcompare m m' Eq); cbn; subst; try lia; auto.
Qed.

Lemma f64_ltb_key (x y : F64) :
  SFltb x y = true <-> exists a b, f64_key x = Some a /\ f64_key y = Some b /\ key_lt a b.
Proof.
  unfold SFltb. pose proof (SFcompare_key x y) as H.
  destruct (SFcompare x y) as [[]|], (f64_key x) as [[[a1 a2] a3]|], (f64_key y) as [[[b1 b2] b3]|];
    try done; try (by destruct H); split; intros Hc; try done; try (by eexists _, _; split_and!; auto);
    destruct Hc as (a & b & ? & ? & Hlt); simplify_eq; exfalso; unfold key_lt in *;
    lia.
Qed.

Lemma f64_leb_key (x y : F64) :
  SFleb x y = true <->
  exists a b, f64_key x = Some a /\ f64_key y = Some b /\ (a = b \/ key_lt a b).
Proof.
  unfold SFleb. pose proof (SFcompare_key x y) as H.
  destruct (SFcompare x y) as [[]|], (f64_key x) as [[[a1 a2] a3]|], (f64_key y) as [[[b1 b2] b3]|];
    try done; try (by destruct H); split; intros Hc; try done; try (by eexists _, _; split_and!; auto);
    destruct Hc as (a & b & ? & ? & Hlt); simplify_eq; exfalso; unfold key_lt in *;
    (destruct Hlt as [Hlt|Hlt]; [simplify_eq|]; lia).
Qed.

Lemma key_lt_trans (a b c : Z * Z * Z) : key_lt a b -> key_lt b c -> key_lt a c.
Proof. destruct a as [[??]?], b as [[??]?], c as [[??]?]; unfold key_lt; lia. Qed.

Lemma key_lt_irrefl (a : Z * Z * Z) : ~ key_lt a a.
Proof. destruct a as [[??]?]; unfold key_lt; lia. Qed.

Lemma f64_ltb_trans (x y z : F64) : SFltb x y = true -> SFltb y z = true -> SFltb x z = true.
Proof.
  rewrite !f64_ltb_key. intros (a & b & ? & ? & ?) (b' & c & ? & ? & ?). simplify_eq.
  eauto 10 using key_lt_trans.
Qed.

Lemma f64_lt_le_trans (x y z : F64) : SFltb x y = true -> SFleb y z = true -> SFltb x z = true.
Proof.
  rewrite !f64_ltb_key, f64_leb_key. intros (a & b & ? & ? & ?) (b' & c & ? & ? & [->|?]); simplify_eq;
    eauto 10 using key_lt_trans.
Qed.

Lemma f64_le_trans (x y z : F64) : SFleb x y = true -> SFleb y z = true -> SFleb x z = true.
Proof.
  rewrite !f64_leb_key. intros (a & b & ? & ? & [->|?]) (b' & c & ? & ? & [->|?]); simplify_eq;
    eauto 10 using key_lt_trans.
Qed.

Lemma f64_ltb_irrefl (x : F64) : SFltb x x = false.
Proof.
  destruct (SFltb x x) eqn:E; [|done]. apply f64_ltb_key in E as (a & b & ? & ? & ?).
  simplify_eq. by destruct (key_lt_irrefl a).
Qed.

(** A reading cannot be above one bound and below another that is no higher:
    with NaN on either side both tests are false. *)
Lemma f64_hysteresis (v hi lo : F64) :
  SFleb lo hi = true -> SFltb hi v = true -> SFltb v lo = true -> False.
Proof.
  intros Hle Hhi Hlo. pose proof (f64_lt_le_trans _ _ _ Hlo Hle) as H1.
  pose proof (f64_ltb_trans _ _ _ Hhi H1) as H2. by rewrite f64_ltb_irrefl in H2.
Qed.

(** [!(a < b)] gives [b <= a] only when neither side is NaN. *)
Lemma f64_nlt_ge (x y : F64) :
  x <> S754_nan -> y <> S754_nan -> SFltb x y = false -> SFleb y x = true.
Proof.
  intros Hx Hy Hlt. pose proof (SFcompare_key x y) as H. unfold SFltb in Hlt.
  assert (exists a, f64_key x = Some a) as [a Ha] by (destruct x as [[]|[]| |[] ??]; try done; cbn; eauto).
  assert (exists b, f64_key y = Some b) as [b Hb] by (destruct y as [[]|[]| |[] ??]; try done; cbn; eauto).
  apply f64_leb_key. exists b, a. rewrite Ha, Hb in *.
  destruct (SFcompare x y) as [[]|]; naive_solver.
Qed.

#[export] Hint Resolve f64_ltb_trans f64_lt_le_trans : go.
