(* ===== verification/GoParse.v ===== *)
(** * Configuration values: durations, floats, booleans and paths

    [time.ParseDuration] and [Duration.String], [strconv.ParseFloat] and
    [FormatFloat], [strconv.ParseBool], and the lexical operations of
    [path/filepath] on Unix, as the settings and the collectors use them. *)

From stdpp Require Import base tactics list strings pretty.
From Stdlib Require Import ZArith Lia Ascii SpecFloat.
From S2P Require Import Prelude GoString Float64.

(** ** Strings *)

(** [strings.TrimRight] with a cutset *)
Definition TrimRight (s : string) (cut : list ascii) : string :=
  of_bytes (rev (drop_while (fun c => existsb (Ascii.eqb c) cut) (rev (bytes s)))).

Fixpoint strip (sep l : list ascii) : option (list ascii) :=
  match sep, l with
  | [], _ => Some l
  | c :: sep, d :: l => if Ascii.eqb c d then strip sep l else None
  | _, [] => None
  end.
(** [strings.Split] on a longer separator; the fuel is the length *)
Fixpoint split_on (fuel : nat) (sep cur l : list ascii) : list (list ascii) :=
  match fuel with
  | O => [rev cur ++ l]
  | S fuel =>
      match strip sep l with
      | Some rest => rev cur :: split_on fuel sep [] rest
      | None => match l with [] => [rev cur] | c :: l => split_on fuel sep (c :: cur) l end
      end
  end.
Definition SplitOn (s sep : string) : list string :=
  map of_bytes (split_on (S (String.length s)) (bytes sep) [] (bytes s)).

(** [strings.Join] *)
Fixpoint Join (l : list string) (sep : string) : string :=
  match l with [] => "" | [a] => a | a :: l => a +:+ sep +:+ Join l sep end.

Definition ParseBool (s : string) : option bool :=
  if str_in s ["1"; "t"; "T"; "true"; "TRUE"; "True"] then Some true
  else if str_in s ["0"; "f"; "F"; "false"; "FALSE"; "False"] then Some false else None.
Definition FormatBool (b : bool) : string := if b then "true" else "false".

(** ** Paths *)

Definition IsAbs (p : string) : bool := HasPrefix p "/".
(** The elements of a path, last first *)
Fixpoint clean_elems (rooted : bool) (stack elems : list string) : list string :=
  match elems with
  | [] => stack
  | e :: elems =>
      if (e =?s "") || (e =?s ".") then clean_elems rooted stack elems
      else if e =?s ".." then
        match stack with
        | top :: rest => if top =?s ".." then clean_elems rooted (e :: stack) elems else clean_elems rooted rest elems
        | [] => clean_elems rooted (if rooted then [] else [e]) elems
        end
      else clean_elems rooted (e :: stack) elems
  end.
Definition Clean (p : string) : string :=
  let rooted := IsAbs p in
  let body := Join (rev (clean_elems rooted [] (Split p "/"%char))) "/" in
  if rooted then "/" +:+ body else if body =?s "" then "." else body.
Definition Path_Join (elems : list string) : string :=
  match List.filter (fun e => negb (e =?s "")) elems with [] => "" | l => Clean (Join l "/") end.

(** ** Durations *)

Fixpoint span {A} (p : A -> bool) (l : list A) : list A * list A :=
  match l with
  | [] => ([], [])
  | x :: l' => if p x then let '(a, b) := span p l' in (x :: a, b) else ([], l)
  end.

(** [leadingInt]: [None] on overflow *)
Fixpoint leadingInt (x : Z) (ds : list ascii) : option Z :=
  match ds with
  | [] => Some x
  | c :: ds =>
      if 2 ^ 63 / 10 <? x then None
      else let y := x * 10 + (byte_code c - 48) in if 2 ^ 63 <? y then None else leadingInt y ds
  end.
(** [leadingFraction]: digits beyond the range are dropped *)
Fixpoint leadingFraction (x : Z) (scale : F64) (ds : list ascii) : Z * F64 :=
  match ds with
  | [] => (x, scale)
  | c :: ds =>
      if (2 ^ 63 - 1) / 10 <? x then (x, scale)
      else let y := x * 10 + (byte_code c - 48) in
           if 2 ^ 63 <? y then (x, scale) else leadingFraction y (f64_mul scale (f64_of_Z 10)) ds
  end.
Definition unitMap (u : list ascii) : option Z :=
  let u := of_bytes u in
  if u =?s "ns" then Some 1
  else if str_in u ["us"; "µs"; "μs"] then Some 1000
  else if u =?s "ms" then Some Millisecond
  else if u =?s "s" then Some Second
  else if u =?s "m" then Some Minute
  else if u =?s "h" then Some Hour else None.

(** [uint64(x)] and [int64(x)] of a float: towards zero *)
Definition f64_trunc (x : F64) : Z :=
  match x with
  | S754_finite s m e => let v := if 0 <=? e then Z.pos m * 2 ^ e else Z.pos m / 2 ^ (- e) in if s then - v else v
  | _ => 0
  end.

Definition number_byte (c : ascii) : bool := Ascii.eqb c "."%char || is_digit c.
(** One [number unit] of a duration: its value and the rest *)
Definition duration_part (s : list ascii) : option (Z * list ascii) :=
  let '(ds, s) := span is_digit s in
  match leadingInt 0 ds with
  | None => None
  | Some v =>
      let '(fs, s) := match s with
                      | c :: s' => if Ascii.eqb c "."%char then span is_digit s' else ([], s)
                      | [] => ([], s)
                      end in
      if (length ds =? 0)%nat && (length fs =? 0)%nat then None
      else
        let '(f, scale) := leadingFraction 0 f64_one fs in
        let '(u, s) := span (fun c => negb (number_byte c)) s in
        match unitMap u with
        | None => None
        | Some unit =>
            if 2 ^ 63 / unit <? v then None
            else
              let v := v * unit in
              let v := if 0 <? f then v + f64_trunc (f64_mul (f64_of_Z f) (f64_div (f64_of_Z unit) scale)) else v in
              if 2 ^ 63 <? v then None else Some (v, s)
        end
  end.
(** The fuel is the length: every part consumes at least a byte. *)
Fixpoint duration_parts (fuel : nat) (d : Z) (s : list ascii) : option Z :=
  match s, fuel with
  | [], _ => Some d
  | _, O => None
  | _, S fuel =>
      match duration_part s with
      | None => None
      | Some (v, s) => let d := d + v in if 2 ^ 63 <? d then None else duration_parts fuel d s
      end
  end.
Definition ParseDuration (s : string) : option Z :=
  let '(neg, l) := match bytes s with
                   | c :: l => if Ascii.eqb c "-"%char then (true, l)
                               else if Ascii.eqb c "+"%char then (false, l) else (false, c :: l)
                   | [] => (false, [])
                   end in
  if bool_decide (l = ["0"%char]) then Some 0
  else match l with
       | [] => None
       | _ => match duration_parts (length l) 0 l with
              | None => None
              | Some d => if neg : bool then Some (- d) else if 2 ^ 63 - 1 <? d then None else Some d
              end
       end.

(** [fmtFrac]: the fraction [v / 10^prec] without its trailing zeros, with
    the point; the quotient *)
Fixpoint fmtFrac (prec : nat) (v : Z) (print : bool) (acc : string) : string * Z :=
  match prec with
  | O => (if print then "." +:+ acc else acc, v)
  | S prec =>
      let digit := v mod 10 in
      let print := print || negb (digit =? 0) in
      fmtFrac prec (v / 10) print (if print then Itoa digit +:+ acc else acc)
  end.
Definition Duration_String (d : Z) : string :=
  let u := Z.abs d in
  let sign := if d <? 0 then "-" else "" in
  if u <? Second then
    if u =? 0 then "0s"
    else if u <? 1000 then sign +:+ Itoa u +:+ "ns"
    else if u <? Millisecond then let '(f, q) := fmtFrac 3 u false "" in sign +:+ Itoa q +:+ f +:+ "µs"
    else let '(f, q) := fmtFrac 6 u false "" in sign +:+ Itoa q +:+ f +:+ "ms"
  else
    let '(f, q) := fmtFrac 9 u false "" in
    let s := Itoa (q mod 60) +:+ f +:+ "s" in
    let q := q / 60 in
    if 0 <? q then
      let s := Itoa (q mod 60) +:+ "m" +:+ s in
      let q := q / 60 in
      if 0 <? q then sign +:+ Itoa q +:+ "h" +:+ s else sign +:+ s
    else sign +:+ s.

(** ** Floats *)

(** The float64 nearest to [± m * 10^k], to even; infinite when it is out of
    range. *)
Definition f64_decimal (neg : bool) (m k : Z) : F64 :=
  match m with
  | Z.pos p =>
      if 0 <=? k then binary_normalize f64_prec f64_emax (if neg then - (m * 10 ^ k) else m * 10 ^ k) 0 neg
      else SFdiv f64_prec f64_emax (S754_finite neg p 0) (S754_finite false (Z.to_pos (10 ^ (- k))) 0)
  | _ => S754_zero neg
  end.
(** The float64 nearest to [± m * 2^e] *)
Definition f64_binary (neg : bool) (m e : Z) : F64 :=
  match m with
  | Z.pos p => binary_normalize f64_prec f64_emax (if neg then - m else m) e neg
  | _ => S754_zero neg
  end.

Definition lower_eq (a b : ascii) : bool := Ascii.eqb (lower_byte a) b.
Definition hex_byte (c : ascii) : option Z :=
  let n := byte_code (lower_byte c) in
  if is_digit c then Some (n - 48) else if (97 <=? n) && (n <=? 102) then Some (n - 87) else None.

(** [underscoreOK] after the sign: underscores separate digits, of which the
    base prefix is one. [saw] is the last byte's class. *)
Inductive saw := SawStart | SawDigit | SawUnder | SawOther.
Fixpoint underscores_ok (hex : bool) (w : saw) (l : list ascii) : bool :=
  match l with
  | [] => match w with SawUnder => false | _ => true end
  | c :: l =>
      if is_digit c || (hex && bool_decide (is_Some (hex_byte c))) then underscores_ok hex SawDigit l
      else if Ascii.eqb c "_"%char then match w with SawDigit => underscores_ok hex SawUnder l | _ => false end
      else match w with SawUnder => false | _ => underscores_ok hex SawOther l end
  end.
Definition underscoreOK (l : list ascii) : bool :=
  match l with
  | z :: x :: rest =>
      if Ascii.eqb z "0"%char && existsb (lower_eq x) ["b"; "o"; "x"]%char
      then underscores_ok (lower_eq x "x"%char) SawDigit rest else underscores_ok false SawStart l
  | _ => underscores_ok false SawStart l
  end.

(** The digits of a mantissa: value, whether a digit was seen, the number of
    digits behind the point (when one was seen), and the rest *)
Fixpoint mantissa (hex : bool) (m : Z) (digits : bool) (dot : option Z) (l : list ascii) : Z * bool * option Z * list ascii :=
  match l with
  | [] => (m, digits, dot, l)
  | c :: l' =>
      if Ascii.eqb c "_"%char then mantissa hex m digits dot l'
      else if Ascii.eqb c "."%char then
        match dot with Some _ => (m, digits, dot, l) | None => mantissa hex m digits (Some 0) l' end
      else match (if is_digit c || hex then hex_byte c else None) with
           | Some d => mantissa hex (m * (if hex then 16 else 10) + d) true (Z.succ <$> dot) l'
           | None => (m, digits, dot, l)
           end
  end.
(** Exponent digits; the value stops growing at 10000 *)
Fixpoint exponent (e : Z) (l : list ascii) : Z * list ascii :=
  match l with
  | [] => (e, [])
  | c :: l' =>
      if Ascii.eqb c "_"%char then exponent e l'
      else if is_digit c then exponent (if e <? 10000 then e * 10 + (byte_code c - 48) else e) l'
      else (e, l)
  end.
Definition exponent_part (expChar : ascii) (l : list ascii) : option (option Z * list ascii) :=
  match l with
  | c :: l' =>
      if lower_eq c expChar then
        let '(neg, l') := match l' with
                          | s :: l'' => if Ascii.eqb s "-"%char then (true, l'')
                                        else if Ascii.eqb s "+"%char then (false, l'') else (false, l')
                          | [] => (false, [])
                          end in
        match l' with
        | d :: _ => if is_digit d then let '(e, r) := exponent 0 l' in Some (Some (if neg : bool then - e else e), r) else None
        | [] => None
        end
      else Some (None, l)
  | [] => Some (None, [])
  end.
(** A finite number, all of it: [None] is a syntax error. *)
Definition read_float (neg : bool) (l : list ascii) : option F64 :=
  let '(hex, body) := match l with
                      | z :: x :: (_ :: _) as r => if Ascii.eqb z "0"%char && lower_eq x "x"%char then (true, skipn 2 l) else (false, l)
                      | _ => (false, l)
                      end in
  let '(m, digits, dot, r) := mantissa hex 0 false None body in
  if negb digits then None
  else match exponent_part (if hex then "p"%char else "e"%char) r with
       | Some (e, []) =>
           if negb (underscoreOK l) then None
           else match hex, e with
                | true, None => None
                | true, Some e => Some (f64_binary neg m (e - 4 * default 0 dot))
                | false, _ => Some (f64_decimal neg m (default 0 e - default 0 dot))
                end
       | _ => None
       end.
(** [strconv.ParseFloat(s, 64)]; out of range is an error. *)
Definition ParseFloat (s : string) : option F64 :=
  let '(neg, signed, l) := match bytes s with
                   | c :: l => if Ascii.eqb c "-"%char then (true, true, l)
                               else if Ascii.eqb c "+"%char then (false, true, l) else (false, false, c :: l)
                   | [] => (false, false, [])
                   end in
  let low := of_bytes (map lower_byte l) in
  if (low =?s "inf") || (low =?s "infinity") then Some (S754_infinity neg)
  else if negb signed && (low =?s "nan") then Some S754_nan
  else match read_float neg l with
       | Some (S754_infinity _) | None => None
       | r => r
       end.

(** [strconv.FormatFloat(x, 'f', -1, 64)]: the shortest decimal that reads as
    [x], the nearest one of that length *)
Definition f64_ratio (m : positive) (e : Z) : Z * Z :=
  if 0 <=? e then (Z.pos m * 2 ^ e, 1) else (Z.pos m, 2 ^ (- e)).
(** The shortest [(d, k)] with [d * 10^-k] reading as the float: [n] digits
    are tried, then one more. *)
Fixpoint shortest (fuel : nat) (x : F64) (num den k : Z) : Z * Z :=
  let scaled := if 0 <=? k then num * 10 ^ k else num in
  let unit := if 0 <=? k then den else den * 10 ^ (- k) in
  let t := scaled / unit in
  match fuel with
  | O => (t, k)
  | S fuel =>
      let reads d := bool_decide (f64_decimal false d (- k) = x) in
      match reads t, reads (t + 1) with
      | true, true => (if 2 * (scaled - t * unit) <=? unit then t else t + 1, k)
      | true, false => (t, k)
      | false, true => (t + 1, k)
      | false, false => shortest fuel x num den (k + 1)
      end
  end.
(** The number of decimal digits of [num / den], at least one *)
Fixpoint dec_point (fuel : nat) (num den dp : Z) : Z :=
  match fuel with
  | O => dp
  | S fuel => if num <? den then dec_point fuel (num * 10) den (dp - 1)
              else if num <? den * 10 then dp + 1 else dec_point fuel num (den * 10) (dp + 1)
  end.
Definition pad_left (n : nat) (s : string) : string :=
  of_bytes (repeat "0"%char (n - String.length s) ++ bytes s).
Definition print_decimal (d k : Z) : string :=
  if k <=? 0 then Itoa (d * 10 ^ (- k))
  else Itoa (d / 10 ^ k) +:+
       let f := TrimRight (pad_left (Z.to_nat k) (Itoa (d mod 10 ^ k))) ["0"%char] in if f =?s "" then "" else "." +:+ f.
Definition FormatFloat (x : F64) : string :=
  match x with
  | S754_nan => "NaN"
  | S754_infinity s => if s then "-Inf" else "+Inf"
  | S754_zero s => if s then "-0" else "0"
  | S754_finite s m e =>
      let '(num, den) := f64_ratio m e in
      let dp := dec_point 400 num den 0 in
      let '(d, k) := shortest 20 (S754_finite false m e) num den (1 - dp) in
      (if s then "-" else "") +:+ print_decimal d k
  end.

(** [strconv.FormatFloat(x, 'g', -1, 64)]: the same digits, with an exponent
    below -4 and from 6 on *)
Definition FormatFloatG (x : F64) : string :=
  match x with
  | S754_finite s m e =>
      let '(num, den) := f64_ratio m e in
      let dp := dec_point 400 num den 0 in
      let '(d, k) := shortest 20 (S754_finite false m e) num den (1 - dp) in
      let all := Itoa d in
      let digits := TrimRight all ["0"%char] in
      let exp := Z.of_nat (String.length all) - k - 1 in
      (if s then "-" else "") +:+
      (if (exp <? -4) || (6 <=? exp)
       then String.substring 0 1 digits +:+
            (if (String.length digits <=? 1)%nat then "" else "." +:+ String.substring 1 (String.length digits) digits) +:+
            (if exp <? 0 then "e-" else "e+") +:+ (if Z.abs exp <? 10 then "0" else "") +:+ Itoa (Z.abs exp)
       else print_decimal d k)
  | _ => FormatFloat x
  end.
Example format_g :
  map FormatFloatG [f64_of_Z 1000000; f64_of_Z 123456; f64_div (f64_of_Z 1) (f64_of_Z 8); f64_div (f64_of_Z 3) (f64_of_Z 100000)] =
  ["1e+06"; "123456"; "0.125"; "3e-05"].
Proof. vm_compute. reflexivity. Qed.
