(* ===== verification/Json.v ===== *)
(** * JSON strings

    [json.Marshal] and [json.Unmarshal] on Go strings, byte by byte: the
    escapes, the HTML-safe ones included, and the replacement of bytes that
    are not UTF-8.  What is valid UTF-8 survives the round trip. *)

From stdpp Require Import base tactics list strings.
From Stdlib Require Import ZArith Lia Ascii.
From S2P Require Import Prelude GoString GoParse.

(** ** UTF-8 *)

Definition in_range (lo hi : Z) (c : ascii) : bool := (lo <=? byte_code c) && (byte_code c <=? hi).
Definition cont := in_range 128 191.
(** The length of the encoded rune at the front; zero when it is none *)
Definition rune_width (l : list ascii) : nat :=
  match l with
  | [] => 0
  | c :: l =>
      if in_range 0 127 c then 1
      else match l with
      | [] => 0
      | c1 :: l =>
          if in_range 194 223 c then (if cont c1 then 2 else 0)
          else match l with
          | [] => 0
          | c2 :: l =>
              if in_range 224 224 c then (if in_range 160 191 c1 && cont c2 then 3 else 0)
              else if in_range 237 237 c then (if in_range 128 159 c1 && cont c2 then 3 else 0)
              else if in_range 225 239 c then (if cont c1 && cont c2 then 3 else 0)
              else match l with
              | [] => 0
              | c3 :: _ =>
                  if in_range 240 240 c then (if in_range 144 191 c1 && cont c2 && cont c3 then 4 else 0)
                  else if in_range 241 243 c then (if cont c1 && cont c2 && cont c3 then 4 else 0)
                  else if in_range 244 244 c then (if in_range 128 143 c1 && cont c2 && cont c3 then 4 else 0)
                  else 0
              end
          end
      end
  end%nat.
(** [utf8.ValidString]; [k] bytes of the current rune remain. *)
Fixpoint valid_bytes (k : nat) (l : list ascii) : bool :=
  match l with
  | [] => true
  | c :: l' =>
      match k with
      | S k => valid_bytes k l'
      | O => match rune_width l with O => false | S w => valid_bytes w l' end
      end
  end.
Definition ValidString (s : string) : bool := valid_bytes 0 (bytes s).

Definition byte_of (z : Z) : ascii := ascii_of_nat (Z.to_nat z).
(** [utf8.AppendRune] *)
Definition rune_bytes (r : Z) : list ascii :=
  if r <? 128 then [byte_of r]
  else if r <? 2048 then [byte_of (192 + r / 64); byte_of (128 + r mod 64)]
  else if r <? 65536 then [byte_of (224 + r / 4096); byte_of (128 + r / 64 mod 64); byte_of (128 + r mod 64)]
  else [byte_of (240 + r / 262144); byte_of (128 + r / 4096 mod 64); byte_of (128 + r / 64 mod 64); byte_of (128 + r mod 64)].
Definition rune_error : list ascii := rune_bytes 65533.

(** ** Encoding *)

Definition hex_lower (n : Z) : ascii := byte_of (if n <? 10 then 48 + n else 87 + n).
Definition escape_byte (c : ascii) : list ascii :=
  let n := byte_code c in
  if (n =? 34) || (n =? 92) then ["\"%char; c]
  else if n =? 8 then ["\"; "b"]%char
  else if n =? 12 then ["\"; "f"]%char
  else if n =? 10 then ["\"; "n"]%char
  else if n =? 13 then ["\"; "r"]%char
  else if n =? 9 then ["\"; "t"]%char
  else if (n <? 32) || (n =? 60) || (n =? 62) || (n =? 38)
  then ["\"; "u"; "0"; "0"]%char ++ [hex_lower (n / 16); hex_lower (n mod 16)]
  else [c].
(** The last digit of the escape of U+2028 and U+2029, which are line ends
    in JavaScript *)
Definition separator (l : list ascii) : option ascii :=
  match l with
  | a :: b :: c :: _ =>
      if Ascii.eqb a "226"%char && Ascii.eqb b "128"%char then
        if Ascii.eqb c "168"%char then Some "8"%char else if Ascii.eqb c "169"%char then Some "9"%char else None
      else None
  | _ => None
  end.
(** [k] bytes of the current rune are still to be copied, or dropped *)
Fixpoint encode_bytes (k : nat) (drop : bool) (l : list ascii) : list ascii :=
  match l with
  | [] => []
  | c :: l' =>
      match k with
      | S k => if drop then encode_bytes k drop l' else c :: encode_bytes k drop l'
      | O =>
          match rune_width l with
          | O => ["\"; "u"; "f"; "f"; "f"; "d"]%char ++ encode_bytes 0 false l'
          | 1%nat => escape_byte c ++ encode_bytes 0 false l'
          | S w =>
              match separator l with
              | Some d => ["\"; "u"; "2"; "0"; "2"; d]%char ++ encode_bytes w true l'
              | None => c :: encode_bytes w false l'
              end
          end
      end
  end.
Definition quote_byte : ascii := "034"%char.
(** [json.Marshal] of a string *)
Definition Marshal (s : string) : string :=
  of_bytes (quote_byte :: encode_bytes 0 false (bytes s) ++ [quote_byte]).

(** ** Decoding *)

Definition hex4 (a b c d : ascii) : option Z :=
  match hex_byte a, hex_byte b, hex_byte c, hex_byte d with
  | Some a, Some b, Some c, Some d => Some (((a * 16 + b) * 16 + c) * 16 + d)
  | _, _, _, _ => None
  end.
Definition simple_escape (c : ascii) : option ascii :=
  let n := byte_code c in
  if (n =? 34) || (n =? 92) || (n =? 47) then Some c
  else if n =? 98 then Some (byte_of 8) else if n =? 102 then Some (byte_of 12)
  else if n =? 110 then Some (byte_of 10) else if n =? 114 then Some (byte_of 13)
  else if n =? 116 then Some (byte_of 9) else None.
Definition surrogate (r : Z) : bool := (55296 <=? r) && (r <? 57344).
(** The rune of a surrogate pair *)
Definition pair_rune (r1 r2 : Z) : option Z :=
  if (55296 <=? r1) && (r1 <? 56320) && (56320 <=? r2) && (r2 <? 57344)
  then Some ((r1 - 55296) * 1024 + (r2 - 56320) + 65536) else None.

Definition prepend (a : list ascii) (r : option (list ascii * list ascii)) : option (list ascii * list ascii) :=
  match r with Some (b, rest) => Some (a ++ b, rest) | None => None end.
(** The inside of a string up to its closing quote, and the rest *)
Fixpoint decode_bytes (k : nat) (l : list ascii) : option (list ascii * list ascii) :=
  match l with
  | [] => None
  | c :: l' =>
      match k with
      | S k => prepend [c] (decode_bytes k l')
      | O =>
          if Ascii.eqb c quote_byte then Some ([], l')
          else if Ascii.eqb c "\"%char then
            match l' with
            | "u"%char :: a :: b :: c :: d :: l2 =>
                match hex4 a b c d with
                | None => None
                | Some r1 =>
                    if surrogate r1 then
                      match l2 with
                      | "\"%char :: "u"%char :: a :: b :: c :: d :: l3 =>
                          match hex4 a b c d with
                          | None => None
                          | Some r2 =>
                              match pair_rune r1 r2 with
                              | Some r => prepend (rune_bytes r) (decode_bytes 0 l3)
                              | None => prepend rune_error (decode_bytes 0 l2)
                              end
                          end
                      | _ => prepend rune_error (decode_bytes 0 l2)
                      end
                    else prepend (rune_bytes r1) (decode_bytes 0 l2)
                end
            | e :: l2 => match simple_escape e with Some x => prepend [x] (decode_bytes 0 l2) | None => None end
            | [] => None
            end
          else if byte_code c <? 32 then None
          else match rune_width l with
               | O => prepend rune_error (decode_bytes 0 l')
               | S w => prepend [c] (decode_bytes w l')
               end
      end
  end.
Definition json_space (c : ascii) : bool := let n := byte_code c in (n =? 32) || (n =? 9) || (n =? 10) || (n =? 13).
(** [json.Unmarshal] into an empty string: a string or [null] *)
Definition Unmarshal (s : string) : option string :=
  let l := drop_while json_space (bytes s) in
  match l with
  | "034"%char :: l' =>
      match decode_bytes 0 l' with
      | Some (v, rest) => if forallb json_space rest then Some (of_bytes v) else None
      | None => None
      end
  | "n"%char :: "u"%char :: "l"%char :: "l"%char :: rest => if forallb json_space rest then Some "" else None
  | _ => None
  end.

(** ** The round trip *)

Lemma prepend_one c r : prepend [c] r = match r with Some (b, rest) => Some (c :: b, rest) | None => None end.
Proof. by destruct r as [[]|]. Qed.

Lemma decode_escape c l :
  in_range 0 127 c = true -> decode_bytes 0 (escape_byte c ++ l) = prepend [c] (decode_bytes 0 l).
Proof. destruct c as [[] [] [] [] [] [] [] []]; intros H; vm_compute in H; try discriminate; reflexivity. Qed.

(** Copied bytes keep the width of a rune. *)
Lemma encode_copies w l m : (w <= length l)%nat -> firstn w (encode_bytes w false l ++ m) = firstn w l.
Proof. revert w. induction l as [|c l IH]; intros [|w] H; cbn in *; [done..|lia|done|]. by rewrite IH by lia. Qed.
Lemma rune_width_prefix c w l m :
  rune_width (c :: l) = S w -> (firstn w m = firstn w l) -> rune_width (c :: m) = S w.
Proof.
  intros H Hm. unfold rune_width in *.
  destruct (in_range 0 127 c); [done|].
  destruct l as [|a1 [|a2 [|a3 l]]]; cbn in H; repeat (case_match; simplify_eq/=; try done);
  destruct m as [|? [|? [|? ?]]]; simplify_eq/=; try done;
  repeat match goal with E : _ = _ |- _ => rewrite E end; try done.
Qed.
Lemma rune_width_length c l w : rune_width (c :: l) = S w -> (w <= length l)%nat.
Proof.
  unfold rune_width. destruct (in_range 0 127 c); [intros; simplify_eq; lia|].
  destruct l as [|a1 [|a2 [|a3 l]]]; cbn; intros; repeat case_match; simplify_eq/=; lia.
Qed.
Lemma rune_width_ascii c l : rune_width (c :: l) = 1%nat -> in_range 0 127 c = true.
Proof. unfold rune_width. by destruct (in_range 0 127 c); repeat case_match. Qed.
Lemma rune_width_multi c l w :
  rune_width (c :: l) = S (S w) ->
  Ascii.eqb c quote_byte = false /\ Ascii.eqb c "\"%char = false /\ (byte_code c <? 32) = false.
Proof.
  intros H. assert (in_range 0 127 c = false) as Hc by (unfold rune_width in H; by destruct (in_range 0 127 c)).
  destruct c as [[] [] [] [] [] [] [] []]; vm_compute in Hc; try discriminate; done.
Qed.
Lemma separator_inv l d :
  separator l = Some d ->
  exists b l3, l = rune_bytes (8232 + b) ++ l3 /\ hex4 "2" "0" "2" d = Some (8232 + b) /\ (b = 0 \/ b = 1).
Proof.
  destruct l as [|x [|y [|z l3]]]; cbn [separator]; try discriminate.
  destruct (Ascii.eqb x _ && Ascii.eqb y _) eqn:E; [|done]. apply andb_true_iff in E as [->%Ascii.eqb_eq ->%Ascii.eqb_eq].
  destruct (Ascii.eqb z "168") eqn:E1; [|destruct (Ascii.eqb z "169") eqn:E2; [|done]]; intros [= <-].
  - apply Ascii.eqb_eq in E1 as ->. exists 0, l3. split_and!; [reflexivity..|by left].
  - apply Ascii.eqb_eq in E2 as ->. exists 1, l3. split_and!; [reflexivity..|by right].
Qed.
Lemma encode_multi c l w :
  rune_width (c :: l) = S (S w) ->
  encode_bytes 0 false (c :: l) = c :: encode_bytes (S w) false l \/
  exists l3 b d, c :: l = rune_bytes (8232 + b) ++ l3 /\ w = 1%nat /\ hex4 "2" "0" "2" d = Some (8232 + b) /\ (b = 0 \/ b = 1) /\
    encode_bytes 0 false (c :: l) = ["\"; "u"; "2"; "0"; "2"; d]%char ++ encode_bytes 0 false l3.
Proof.
  intros H. cbn [encode_bytes]. rewrite H.
  destruct (separator (c :: l)) as [d|] eqn:Es; [right|by left].
  destruct (separator_inv _ _ Es) as (b & l3 & El & Hd & Hb). exists l3, b, d. split_and!; [done| |done|done|].
  - rewrite El in H. by destruct Hb as [-> | ->]; injection H.
  - rewrite El in H. destruct Hb as [-> | ->]; injection H as <-; injection El as _ ->; by destruct l3.
Qed.

Lemma decode_encode n l k rest :
  (length l < n)%nat -> (k <= length l)%nat -> valid_bytes k l = true ->
  decode_bytes k (encode_bytes k false l ++ quote_byte :: rest) = Some (l, rest).
Proof.
  revert l k. induction n as [|n IH]; intros l k Hn Hk Hv; [lia|].
  destruct l as [|c l]; [by destruct k; [|cbn in Hk; lia]|]. cbn in Hn.
  destruct k as [|k].
  - cbn [valid_bytes] in Hv. destruct (rune_width (c :: l)) as [|[|w]] eqn:Ew; [done| |].
    + cbn [encode_bytes]. rewrite Ew, <- app_assoc, decode_escape by (by eapply rune_width_ascii).
      by rewrite IH by (done || lia).
    + destruct (encode_multi c l w Ew) as [-> | (l3 & b & d & El & -> & Hd & Hb & ->)].
      * destruct (rune_width_multi c l w Ew) as (E1 & E2 & E3).
        pose proof (rune_width_length _ _ _ Ew) as Hw.
        cbn [app decode_bytes]. rewrite E1, E2, E3.
        rewrite (rune_width_prefix c (S w) l _ Ew).
        2: { by apply encode_copies. }
        by rewrite IH by (done || lia).
      * rewrite El in *. destruct Hb as [-> | ->]; injection El as -> ->;
          cbn [length] in Hn; cbn [app decode_bytes]; change (Ascii.eqb "\" quote_byte) with false;
          change (Ascii.eqb "\" "\") with true; cbn iota; rewrite Hd; cbn [surrogate];
          (change (surrogate _) with false || idtac); cbn iota; rewrite IH by (done || lia); reflexivity.
  - cbn [encode_bytes app decode_bytes]. cbn in Hk, Hv. by rewrite IH by (done || lia).
Qed.

Lemma json_roundtrip s : ValidString s = true -> Unmarshal (Marshal s) = Some s.
Proof.
  intros H. unfold Unmarshal, Marshal. unfold bytes, of_bytes. rewrite String.list_ascii_of_string_of_list_ascii.
  change (drop_while json_space (quote_byte :: ?l)) with (quote_byte :: l). cbv beta iota.
  rewrite (decode_encode (S (length (bytes s)))) by (unfold bytes, ValidString in *; done || lia).
  cbn. by rewrite String.string_of_list_ascii_of_string.
Qed.
