(* ===== verification/GoTime.v ===== *)
(** * Timestamps

    [time.Parse(time.RFC3339, s)]: an instant as nanoseconds since the Unix
    epoch.  As Go does, the parser accepts an hour of one digit and a fraction
    of any length. *)

From stdpp Require Import base tactics list strings.
From Stdlib Require Import ZArith Lia Ascii.
From S2P Require Import Prelude GoString.

(** The day number of a date of the proleptic Gregorian calendar *)
Definition days_from_civil (y m d : Z) : Z :=
  let y := if m <=? 2 then y - 1 else y in
  let era := y / 400 in
  let yoe := y mod 400 in
  let doy := (153 * (if 2 <? m then m - 3 else m + 9) + 2) / 5 + d - 1 in
  era * 146097 + yoe * 365 + yoe / 4 - yoe / 100 + doy - 719468.
Definition leap (y : Z) : bool := (y mod 4 =? 0) && (negb (y mod 100 =? 0) || (y mod 400 =? 0)).
Definition days_in (m y : Z) : Z :=
  if m =? 2 then (if leap y then 29 else 28) else if (m =? 4) || (m =? 6) || (m =? 9) || (m =? 11) then 30 else 31.

(** [n] digits *)
Definition take_digits (n : nat) (l : list ascii) : option (Z * list ascii) :=
  if (length l <? n)%nat then None
  else match parse_digits (firstn n l) with Some v => Some (v, skipn n l) | None => None end.
Definition expect (c : ascii) (l : list ascii) : option (list ascii) :=
  match l with d :: l => if Ascii.eqb c d then Some l else None | [] => None end.
(** One or two digits *)
Definition take_hour (l : list ascii) : option (Z * list ascii) :=
  match take_digits 2 l with Some r => Some r | None => take_digits 1 l end.

(** Nanoseconds of a fraction: nine digits count. *)
Definition frac_nanos (ds : list ascii) : Z :=
  let ds := firstn 9 ds in default 0 (digits_value 0 ds) * 10 ^ (9 - Z.of_nat (length ds)).
Fixpoint take_while_digit (l : list ascii) : list ascii * list ascii :=
  match l with
  | c :: l' => if is_digit c then let '(a, b) := take_while_digit l' in (c :: a, b) else ([], l)
  | [] => ([], [])
  end.
Definition take_fraction (l : list ascii) : Z * list ascii :=
  match l with
  | p :: ((d :: _) as l') =>
      if (Ascii.eqb p "."%char || Ascii.eqb p ","%char) && is_digit d
      then let '(ds, rest) := take_while_digit l' in (frac_nanos ds, rest) else (0, l)
  | _ => (0, l)
  end.
(** The offset in seconds; nothing may follow it. *)
Definition zone (l : list ascii) : option Z :=
  match l with
  | c :: l' =>
      if Ascii.eqb c "Z"%char then match l' with [] => Some 0 | _ => None end
      else if Ascii.eqb c "+"%char || Ascii.eqb c "-"%char then
        '(hh, l1) ← take_digits 2 l'; l2 ← expect ":"%char l1; '(mm, l3) ← take_digits 2 l2;
        match l3 with
        | [] => if (24 <? hh) || (60 <? mm) then None
                else Some ((if Ascii.eqb c "-"%char then -1 else 1) * (hh * 3600 + mm * 60))
        | _ => None
        end
      else None
  | [] => None
  end.

(** The instant and its offset from UTC, in nanoseconds *)
Definition ParseZoned (s : string) : option (Z * Z) :=
  '(y, l) ← take_digits 4 (bytes s); l ← expect "-"%char l;
  '(mo, l) ← take_digits 2 l; l ← expect "-"%char l;
  '(d, l) ← take_digits 2 l; l ← expect "T"%char l;
  '(h, l) ← take_hour l; l ← expect ":"%char l;
  '(mi, l) ← take_digits 2 l; l ← expect ":"%char l;
  '(sec, l) ← take_digits 2 l;
  let '(nanos, l) := take_fraction l in
  off ← zone l;
  if (1 <=? mo) && (mo <=? 12) && (1 <=? d) && (d <=? days_in mo y) && (h <? 24) && (mi <? 60) && (sec <? 60)
  then Some ((days_from_civil y mo d * 86400 + h * 3600 + mi * 60 + sec - off) * Second + nanos, off * Second)
  else None.
Definition ParseRFC3339 (s : string) : option Z := fst <$> ParseZoned s.

(** [Time.UnmarshalJSON]: the same without the leniencies *)
Definition strict_zone (l : list ascii) : bool :=
  match rev l with
  | m0 :: m1 :: _ :: h0 :: h1 :: _ =>
      Ascii.eqb m0 "Z"%char ||
      match parse_digits [h1; h0], parse_digits [m1; m0] with Some h, Some m => (h <? 24) && (m <? 60) | _, _ => false end
  | _ => false
  end.
Definition ParseStrictZoned (s : string) : option (Z * Z) :=
  let l := bytes s in
  if bool_decide (nth_error l 12 = Some ":"%char) || bool_decide (nth_error l 19 = Some ","%char) || negb (strict_zone l)
  then None else ParseZoned s.
Definition ParseStrictRFC3339 (s : string) : option Z := fst <$> ParseStrictZoned s.
