(* ===== verification/JsonDecode.v ===== *)
(** * Request bodies

    [json.Decoder] with [DisallowUnknownFields] into the structs of the API:
    fields are found by name, by case folding when no name is equal; [null]
    leaves a value as it is and clears pointers, slices and maps; a value of
    another type or an unknown field is an error.  The text of a body is parsed
    in [JsonText]. *)

From stdpp Require Import base tactics list gmap strings.
From Stdlib Require Import ZArith Lia Ascii SpecFloat.
From S2P Require Import Prelude GoString Float64 GoParse GoTime.

Inductive json :=
  | JNull
  | JBool (b : bool)
  | JNumber (text : string)
  | JString (s : string)
  | JArray (l : list json)
  | JObject (l : list (string * json)).

(** Decoding into a variable: its value before and afterwards *)
Definition into (A : Type) : Type := json -> A -> option A.

Definition dec_string : into string := fun v old => match v with JString s => Some s | JNull => Some old | _ => None end.
Definition dec_bool : into bool := fun v old => match v with JBool b => Some b | JNull => Some old | _ => None end.
(** Integers of 64 bits: fractions and exponents are refused. *)
Definition dec_int : into Z := fun v old => match v with JNumber t => ParseInt t | JNull => Some old | _ => None end.
Definition dec_float : into F64 := fun v old => match v with JNumber t => ParseFloat t | JNull => Some old | _ => None end.
Definition dec_time : into Z := fun v old => match v with JString s => ParseStrictRFC3339 s | JNull => Some old | _ => None end.

(** An instant with the offset of its zone *)
Definition dec_zoned : into (Z * Z) := fun v old => match v with JString s => ParseStrictZoned s | JNull => Some old | _ => None end.

Definition dec_ptr {A} (zero : A) (d : into A) : into (option A) := fun v old =>
  match v with JNull => Some None | _ => Some <$> d v (default zero old) end.
Definition dec_list {A} (zero : A) (d : into A) : into (list A) := fun v _ =>
  match v with JNull => Some [] | JArray l => mapM (fun x => d x zero) l | _ => None end.
Fixpoint dec_entries {A} (zero : A) (d : into A) (l : list (string * json)) (m : gmap string A) : option (gmap string A) :=
  match l with
  | [] => Some m
  | (k, v) :: l => match d v zero with Some a => dec_entries zero d l (<[k := a]> m) | None => None end
  end.
Definition dec_map {A} (zero : A) (d : into A) : into (gmap string A) := fun v old =>
  match v with JNull => Some ∅ | JObject l => dec_entries zero d l old | _ => None end.

(** A field of a struct: how its value is decoded into the struct *)
Definition fields (S : Type) : Type := list (string * (json -> S -> option S)).
Definition field_in {S A} (get : S -> A) (set : A -> S -> S) (d : into A) : json -> S -> option S :=
  fun v s => (fun a => set a s) <$> d v (get s).
Definition find_field {S} (fs : fields S) (key : string) : option (json -> S -> option S) :=
  match List.find (fun f => f.1 =?s key) fs with
  | Some f => Some f.2
  | None => snd <$> List.find (fun f => EqualFold f.1 key) fs
  end.
Fixpoint dec_fields {S} (strict : bool) (fs : fields S) (l : list (string * json)) (s : S) : option S :=
  match l with
  | [] => Some s
  | (k, v) :: l =>
      match find_field fs k with
      | None => if strict then None else dec_fields strict fs l s
      | Some f => match f v s with Some s => dec_fields strict fs l s | None => None end
      end
  end.
(** [strict] is [DisallowUnknownFields]. *)
Definition dec_struct {S} (strict : bool) (fs : fields S) : into S := fun v s =>
  match v with JNull => Some s | JObject l => dec_fields strict fs l s | _ => None end.

(** ** Structs by the names of their fields *)

Inductive slot :=
  | SString (s : string) | SInt (n : Z) | SBool (b : bool) | SFloat (f : F64) | SStrings (l : list string) | SZoned (t : Z * Z)
  | SStringMap (m : gmap string string).
(** The fields of a struct that have been set; a field that has not is zero,
    or nil where it is a pointer. *)
Definition bag : Type := gmap string slot.
Definition str_of (m : bag) (k : string) : string := match m !! k with Some (SString s) => s | _ => "" end.
Definition int_of (m : bag) (k : string) : Z := match m !! k with Some (SInt n) => n | _ => 0 end.
Definition bool_of (m : bag) (k : string) : bool := match m !! k with Some (SBool b) => b | _ => false end.
Definition strings_of (m : bag) (k : string) : list string := match m !! k with Some (SStrings l) => l | _ => [] end.
Definition time_of (m : bag) (k : string) : Z * Z := match m !! k with Some (SZoned t) => t | _ => (zero_time, 0) end.
Definition map_of (m : bag) (k : string) : gmap string string := match m !! k with Some (SStringMap v) => v | _ => ∅ end.
Definition str_ptr (m : bag) (k : string) : option string := match m !! k with Some (SString s) => Some s | _ => None end.
Definition int_ptr (m : bag) (k : string) : option Z := match m !! k with Some (SInt n) => Some n | _ => None end.
Definition bool_ptr (m : bag) (k : string) : option bool := match m !! k with Some (SBool b) => Some b | _ => None end.
Definition float_ptr (m : bag) (k : string) : option F64 := match m !! k with Some (SFloat f) => Some f | _ => None end.
Definition strings_ptr (m : bag) (k : string) : option (list string) := match m !! k with Some (SStrings l) => Some l | _ => None end.

Inductive kind := KString | KInt | KBool | KFloat | KStrings | KTime | KStringMap.
Definition dec_kind (k : kind) (name : string) (v : json) (m : bag) : option slot :=
  match k with
  | KString => SString <$> dec_string v (str_of m name)
  | KInt => SInt <$> dec_int v (int_of m name)
  | KBool => SBool <$> dec_bool v (bool_of m name)
  | KFloat => SFloat <$> dec_float v (default f64_zero (float_ptr m name))
  | KStrings => SStrings <$> dec_list "" dec_string v (strings_of m name)
  | KTime => SZoned <$> dec_zoned v (time_of m name)
  | KStringMap => SStringMap <$> dec_map "" dec_string v (map_of m name)
  end.
Definition plain (k : kind) (name : string) : string * (json -> bag -> option bag) :=
  (name, fun v m => (fun x => <[name := x]> m) <$> dec_kind k name v m).
(** A pointer: [null] makes it nil. *)
Definition pointer (k : kind) (name : string) : string * (json -> bag -> option bag) :=
  (name, fun v m => match v with JNull => Some (delete name m) | _ => (fun x => <[name := x]> m) <$> dec_kind k name v m end).
