(* ===== verification/JsonText.v ===== *)
(** * JSON text

    The text of a JSON value: the encoder, the parser, and [DecodeJSON] of
    [internal/api/server.go], which reads the body of a request.  What the
    encoder writes the parser reads. *)

From stdpp Require Import base tactics list gmap strings.
From Stdlib Require Import ZArith Lia Ascii.
From S2P Require Import Prelude GoString GoParse Json JsonDecode.

(** ** Encoding *)

Definition sep_by (sep : list ascii) (l : list (list ascii)) : list ascii :=
  match l with [] => [] | x :: l => x ++ concat (map (app sep) l) end.
Fixpoint print_json (j : json) : list ascii :=
  match j with
  | JNull => bytes "null"
  | JBool b => bytes (if b then "true" else "false")
  | JNumber t => bytes t
  | JString s => bytes (Marshal s)
  | JArray l => "["%char :: sep_by [","%char] (map print_json l) ++ ["]"%char]
  | JObject l => "{"%char :: sep_by [","%char] (map (fun kv => bytes (Marshal kv.1) ++ ":"%char :: print_json kv.2) l) ++ ["}"%char]
  end.

(** ** Parsing *)

Definition skip : list ascii -> list ascii := drop_while json_space.
Definition number_byte (c : ascii) : bool := is_digit c || existsb (Ascii.eqb c) (bytes "+-.eE").
Fixpoint span (p : ascii -> bool) (l : list ascii) : list ascii * list ascii :=
  match l with
  | c :: l' => if p c then let '(a, b) := span p l' in (c :: a, b) else ([], l)
  | [] => ([], [])
  end.
Definition digits1 (l : list ascii) : option (list ascii) :=
  match span is_digit l with ([], _) => None | (_, r) => Some r end.
(** The grammar of numbers *)
Definition valid_number (l : list ascii) : bool :=
  let l := match l with "-"%char :: r => r | _ => l end in
  match (match l with "0"%char :: r => Some r | _ => digits1 l end) with
  | None => false
  | Some l =>
      match (match l with "."%char :: r => digits1 r | _ => Some l end) with
      | None => false
      | Some [] => true
      | Some (c :: r) =>
          (Ascii.eqb c "e" || Ascii.eqb c "E") &&
          match digits1 (match r with "+"%char :: r' | "-"%char :: r' => r' | _ => r end) with Some [] => true | _ => false end
      end
  end.

Definition literal (word : string) (l : list ascii) : option (list ascii) :=
  if bool_decide (firstn (String.length word) l = bytes word) then Some (skipn (String.length word) l) else None.
Definition scalar (l : list ascii) : option (json * list ascii) :=
  match literal "null" l, literal "true" l, literal "false" l with
  | Some r, _, _ => Some (JNull, r)
  | _, Some r, _ => Some (JBool true, r)
  | _, _, Some r => Some (JBool false, r)
  | _, _, _ => let '(n, r) := span number_byte l in if valid_number n then Some (JNumber (of_bytes n), r) else None
  end.
Definition string_token (l : list ascii) : option (string * list ascii) :=
  match skip l with
  | c :: l => if Ascii.eqb c quote_byte then (fun p => (of_bytes p.1, p.2)) <$> decode_bytes 0 l else None
  | [] => None
  end.

(** Nested values use up the fuel, two units for every byte that opens or
    separates. *)
Fixpoint parse_value (n : nat) (l : list ascii) : option (json * list ascii) :=
  match n with
  | O => None
  | S n =>
      match skip l with
      | [] => None
      | c :: r =>
          if Ascii.eqb c quote_byte then (fun p => (JString p.1, p.2)) <$> string_token (c :: r)
          else if Ascii.eqb c "[" then
            match skip r with
            | "]"%char :: r' => Some (JArray [], r')
            | _ => (fun p => (JArray p.1, p.2)) <$> parse_elements n r
            end
          else if Ascii.eqb c "{" then
            match skip r with
            | "}"%char :: r' => Some (JObject [], r')
            | _ => (fun p => (JObject p.1, p.2)) <$> parse_members n r
            end
          else scalar (c :: r)
      end
  end
with parse_elements (n : nat) (l : list ascii) : option (list json * list ascii) :=
  match n with
  | O => None
  | S n =>
      match parse_value n l with
      | None => None
      | Some (v, r) =>
          match skip r with
          | ","%char :: r => (fun p => (v :: p.1, p.2)) <$> parse_elements n r
          | "]"%char :: r => Some ([v], r)
          | _ => None
          end
      end
  end
with parse_members (n : nat) (l : list ascii) : option (list (string * json) * list ascii) :=
  match n with
  | O => None
  | S n =>
      match string_token l with
      | None => None
      | Some (k, r) =>
          match skip r with
          | ":"%char :: r =>
              match parse_value n r with
              | None => None
              | Some (v, r) =>
                  match skip r with
                  | ","%char :: r => (fun p => ((k, v) :: p.1, p.2)) <$> parse_members n r
                  | "}"%char :: r => Some ([(k, v)], r)
                  | _ => None
                  end
              end
          | _ => None
          end
      end
  end.

Fixpoint depth (j : json) : nat :=
  match j with
  | JArray l => S (fold_right max 0%nat (map depth l))
  | JObject l => S (fold_right max 0%nat (map (fun kv => depth kv.2) l))
  | _ => 0%nat
  end.
Definition maxNestingDepth : Z := 10000.
(** One value and what follows it *)
Definition parse_one (l : list ascii) : option (json * list ascii) :=
  match parse_value (2 * length l + 2) l with
  | Some (j, r) => if Z.of_nat (depth j) <=? maxNestingDepth then Some (j, r) else None
  | None => None
  end.
(** [json.Unmarshal]: one value and nothing else *)
Definition ParseJSON (s : string) : option json :=
  match parse_one (bytes s) with Some (j, r) => if forallb json_space r then Some j else None | None => None end.

(** ** Request bodies *)

Definition MaxRequestBodyBytes : Z := 2 ^ 20.
(** [Decoder.More]: whether something that is not a closing bracket follows *)
Definition decoder_more (l : list ascii) : bool :=
  match skip l with [] => false | c :: _ => negb (Ascii.eqb c "]" || Ascii.eqb c "}") end.
(** [http.MaxBytesReader]: reading fails behind the limit. *)
Definition limited (l : list ascii) : list ascii :=
  if Z.of_nat (length l) <=? MaxRequestBodyBytes then l else firstn (Z.to_nat MaxRequestBodyBytes) l.
Definition DecodeJSON {S} (fs : fields S) (zero : S) (body : string) : option S :=
  match parse_one (limited (bytes body)) with
  | None => None
  | Some (v, rest) => match dec_struct true fs v zero with None => None | Some s => if decoder_more rest then None else Some s end
  end.

(** ** The round trip *)

Lemma json_rect_nested (P : json -> Prop) :
  P JNull -> (forall b, P (JBool b)) -> (forall t, P (JNumber t)) -> (forall s, P (JString s)) ->
  (forall l, Forall P l -> P (JArray l)) -> (forall l, Forall (fun kv => P kv.2) l -> P (JObject l)) -> forall j, P j.
Proof.
  intros Hn Hb Ht Hs Ha Ho. fix IH 1. intros [|b|t|s|l|l]; [done|auto..| |].
  - apply Ha. induction l as [|x l IHl]; constructor; [apply IH|done].
  - apply Ho. induction l as [|x l IHl]; constructor; [apply IH|done].
Qed.

(** Strings in UTF-8, numbers in the grammar *)
Fixpoint valid_json (j : json) : bool :=
  match j with
  | JNull | JBool _ => true
  | JNumber t => valid_number (bytes t)
  | JString s => ValidString s
  | JArray l => forallb valid_json l
  | JObject l => forallb (fun kv => ValidString kv.1 && valid_json kv.2) l
  end.
Definition delimited (rest : list ascii) : Prop := match rest with [] => True | c :: _ => number_byte c = false end.

Lemma span_app p l rest :
  forallb p l = true -> match rest with [] => True | c :: _ => p c = false end -> span p (l ++ rest) = (l, rest).
Proof.
  intros Hl Hr. induction l as [|c l IH]; cbn in *.
  - destruct rest as [|c rest]; cbn; [done|]. by rewrite Hr.
  - apply andb_true_iff in Hl as [-> Hl]. by rewrite IH.
Qed.
Lemma span_spec p l a b : span p l = (a, b) -> l = a ++ b /\ forallb p a = true.
Proof.
  revert a b. induction l as [|c l IH]; cbn; intros a b; [by intros [= <- <-]|].
  destruct (p c) eqn:E; [|by intros [= <- <-]]. destruct (span p l) as [a' b']. intros [= <- <-].
  destruct (IH a' b' eq_refl) as [-> H]. cbn. by rewrite E.
Qed.
Lemma digit_number c : is_digit c = true -> number_byte c = true.
Proof. unfold number_byte. by intros ->. Qed.
Lemma digits1_bytes l r :
  digits1 l = Some r -> exists a, l = a ++ r /\ a <> [] /\ forallb number_byte a = true.
Proof.
  unfold digits1. destruct (span is_digit l) as [a b] eqn:E. apply span_spec in E as [-> Ha].
  destruct a as [|c a]; [done|]. intros [= <-]. exists (c :: a). split; [done|]. split; [done|].
  apply forallb_forall. intros x Hx. apply digit_number. by apply (proj1 (forallb_forall _ _) Ha).
Qed.
Lemma valid_number_bytes l : valid_number l = true -> l <> [] /\ forallb number_byte l = true.
Proof.
  unfold valid_number. intros H.
  set (l1 := match l with "-"%char :: r => r | _ => l end) in *.
  assert (l1 <> [] /\ forallb number_byte l1 = true) as [Hne Hl1].
  { destruct (match l1 with "0"%char :: r => Some r | _ => digits1 l1 end) as [l2|] eqn:E1; [|done].
    assert (exists a, l1 = a ++ l2 /\ a <> [] /\ forallb number_byte a = true) as (a & Hl & Hane & Ha).
    { destruct l1 as [|c l1']; [by destruct (digits1_bytes _ _ E1) as (? & ? & ? & _)|].
      destruct (decide (c = "0"%char)) as [->|Hc].
      - injection E1 as ->. by exists ["0"%char].
      - apply digits1_bytes. destruct c as [[] [] [] [] [] [] [] []]; first [exact E1|done]. }
    assert (forallb number_byte l2 = true) as Hl2; [|rewrite Hl; split; [by destruct a|by rewrite forallb_app, Ha]].
    clear - H.
    destruct (match l2 with "."%char :: r => digits1 r | _ => Some l2 end) as [l3|] eqn:E2; [|done].
    assert (exists a, l2 = a ++ l3 /\ forallb number_byte a = true) as (a & Hl & Ha).
    { destruct l2 as [|c l2']; [injection E2 as <-; by exists []|].
      destruct (decide (c = "."%char)) as [->|Hc].
      - apply digits1_bytes in E2 as (a & -> & _ & Ha). by exists ("."%char :: a).
      - exists []. split; [|done]. destruct c as [[] [] [] [] [] [] [] []]; first [by injection E2 as <-|done]. }
    rewrite Hl, forallb_app, Ha. clear E2 Hl Ha a. destruct l3 as [|c r]; [done|]. apply andb_true_iff in H as [Hc H]. cbn.
    assert (number_byte c = true) as -> by (apply orb_true_iff in Hc as [Hx%Ascii.eqb_eq | Hx%Ascii.eqb_eq]; subst; reflexivity). cbn.
    destruct r as [|c' r]; [done|].
    destruct (digits1 _) as [[|? ?]|] eqn:E; [|done..]. apply digits1_bytes in E as (a & E & _ & Ha). rewrite app_nil_r in E.
    destruct (decide (c' = "+"%char)) as [->|Hp]; [cbn; by rewrite E|].
    destruct (decide (c' = "-"%char)) as [->|Hm]; [cbn; by rewrite E|].
    assert (c' :: r = a) as -> by (destruct c' as [[] [] [] [] [] [] [] []]; first [exact E|done]). done. }
  clear H. subst l1. destruct l as [|c l]; [done|]. destruct (decide (c = "-"%char)) as [->|Hc]; [done|].
  split; [done|]. destruct c as [[] [] [] [] [] [] [] []]; first [exact Hl1|done].
Qed.

Lemma skip_cons c l : json_space c = false -> skip (c :: l) = c :: l.
Proof. intros H. unfold skip. cbn. by rewrite H. Qed.
Lemma number_byte_space c : number_byte c = true -> json_space c = false.
Proof. destruct c as [[] [] [] [] [] [] [] []]; intros H; vm_compute in H; first [discriminate|reflexivity]. Qed.
Lemma Marshal_head s : exists l, bytes (Marshal s) = quote_byte :: l.
Proof. unfold Marshal. rewrite bytes_of_bytes. eauto. Qed.

Lemma string_token_marshal s rest : ValidString s = true -> string_token (bytes (Marshal s) ++ rest) = Some (s, rest).
Proof.
  intros H. unfold string_token, Marshal. rewrite bytes_of_bytes. cbn [app]. rewrite skip_cons by reflexivity. rewrite Ascii.eqb_refl.
  rewrite <- app_assoc. cbn [app]. rewrite (decode_encode (S (length (bytes s)))) by (unfold ValidString in H; done || lia).
  cbn. by rewrite of_bytes_bytes.
Qed.
Lemma literal_other w c l : hd_error (bytes w) <> Some c -> w <> "" -> literal w (c :: l) = None.
Proof.
  intros H Hw. unfold literal. destruct w as [|a w]; [done|]. cbn [String.length firstn]. case_bool_decide as E; [|done].
  cbn in *. by injection E as -> _.
Qed.
Lemma scalar_number t rest : valid_number (bytes t) = true -> delimited rest -> scalar (bytes t ++ rest) = Some (JNumber t, rest).
Proof.
  intros Hv Hd. pose proof (valid_number_bytes _ Hv) as [Hne Hb]. unfold scalar.
  assert (forall w, str_in w ["null"; "true"; "false"] = true -> literal w (bytes t ++ rest) = None) as Hl.
  { intros w Hw. destruct (bytes t) as [|c l]; [done|]. cbn in Hb. apply andb_true_iff in Hb as [Hc _]. cbn [app].
    apply literal_other; [|by intros ->].
    intros E. assert (w = "null" \/ w = "true" \/ w = "false") as [-> | [-> | ->]];
      [|cbn in E; injection E as <-; vm_compute in Hc; discriminate..].
    unfold str_in in Hw. cbn in Hw. repeat (apply orb_true_iff in Hw as [Hw|Hw]; [apply String.eqb_eq in Hw; auto|]). done. }
  rewrite !Hl by reflexivity. rewrite span_app by done. rewrite Hv. by rewrite of_bytes_bytes.
Qed.

Lemma print_head j :
  valid_json j = true -> exists c l, print_json j = c :: l /\ json_space c = false /\ c <> "]"%char.
Proof.
  destruct j as [|[]|t|s|l|l]; cbn [valid_json print_json]; intros Hv; try (eexists _, _; split; [reflexivity|done]).
  apply valid_number_bytes in Hv as [Hne Hb]. destruct (bytes t) as [|c l]; [done|]. cbn in Hb. apply andb_true_iff in Hb as [Hc _].
  exists c, l. split; [done|]. split; [by apply number_byte_space|]. intros ->. discriminate Hc.
Qed.

Definition reads (j : json) : Prop := forall n rest,
  valid_json j = true -> (2 * length (print_json j) <= n)%nat -> delimited rest -> parse_value n (print_json j ++ rest) = Some (j, rest).

Lemma parse_elements_print l x n rest :
  Forall reads (x :: l) -> forallb valid_json (x :: l) = true ->
  (2 * length (sep_by [","%char] (map print_json (x :: l))) + 1 <= n)%nat ->
  parse_elements n (sep_by [","%char] (map print_json (x :: l)) ++ "]"%char :: rest) = Some (x :: l, rest).
Proof.
  revert x n. induction l as [|y l IH]; intros x n HF Hv Hn; inversion_clear HF as [|? ? Hx Hl]; cbn [forallb] in Hv;
    apply andb_true_iff in Hv as [Hvx Hvl]; destruct n as [|n]; [lia| |lia|]; cbn [parse_elements map sep_by concat app] in *.
  - rewrite app_nil_r in *. rewrite Hx; [|done|lia|done]. rewrite skip_cons by reflexivity. reflexivity.
  - rewrite length_app in Hn. cbn [length] in Hn. rewrite <- app_assoc. cbn [app]. rewrite Hx; [|done|lia|done].
    rewrite skip_cons by reflexivity. cbn [map sep_by] in IH.
    rewrite (IH y); [reflexivity|done|done|]. rewrite !length_app in *. cbn [map concat app length] in *. lia.
Qed.

Definition print_member (kv : string * json) : list ascii := bytes (Marshal kv.1) ++ ":"%char :: print_json kv.2.
Lemma parse_members_print l x n rest :
  Forall (fun kv => reads kv.2) (x :: l) -> forallb (fun kv => ValidString kv.1 && valid_json kv.2) (x :: l) = true ->
  (2 * length (sep_by [","%char] (map print_member (x :: l))) + 1 <= n)%nat ->
  parse_members n (sep_by [","%char] (map print_member (x :: l)) ++ "}"%char :: rest) = Some (x :: l, rest).
Proof.
  revert x n. induction l as [|y l IH]; intros [k v] n HF Hv Hn; inversion_clear HF as [|? ? Hx Hl]; cbn [forallb fst snd] in *;
    apply andb_true_iff in Hv as [[Hk Hvx]%andb_true_iff Hvl]; destruct n as [|n]; [lia| |lia|];
    cbn [parse_members map sep_by concat app] in *; unfold print_member at 1 in Hn; unfold print_member at 1; cbn [fst snd] in *;
    rewrite !length_app in Hn; cbn [length] in Hn; rewrite <- ?app_assoc; cbn [app]; rewrite string_token_marshal by done;
    rewrite skip_cons by reflexivity; cbv beta iota.
  - rewrite Hx; [|done|lia|done]. rewrite skip_cons by reflexivity. reflexivity.
  - rewrite <- app_assoc. cbn [app]. rewrite Hx; [|done|lia|done].
    rewrite skip_cons by reflexivity. cbn [map sep_by] in IH. rewrite app_assoc.
    rewrite (IH y); [reflexivity|done|done|]. rewrite !length_app in *. lia.
Qed.

Lemma parse_print j : reads j.
Proof.
  induction j as [|b|t|s|l IH|l IH] using json_rect_nested; intros n rest Hv Hn Hd; cbn [valid_json] in Hv.
  1: destruct n; [cbn in Hn; lia|reflexivity].
  1: destruct n; [destruct b; cbn in Hn; lia|destruct b; reflexivity].
  - cbn [print_json] in *. pose proof (scalar_number t rest Hv Hd) as Hs. apply valid_number_bytes in Hv as [Hne Hb].
    destruct (bytes t) as [|c l]; [done|]. cbn in Hb. apply andb_true_iff in Hb as [Hc _]. destruct n; [cbn in Hn; lia|].
    cbn [parse_value app]. rewrite skip_cons by (by apply number_byte_space).
    destruct (Ascii.eqb c quote_byte) eqn:E1; [apply Ascii.eqb_eq in E1; subst; discriminate Hc|].
    destruct (Ascii.eqb c "[") eqn:E2; [apply Ascii.eqb_eq in E2; subst; discriminate Hc|].
    destruct (Ascii.eqb c "{") eqn:E3; [apply Ascii.eqb_eq in E3; subst; discriminate Hc|]. exact Hs.
  - cbn [print_json] in *. pose proof (string_token_marshal s rest Hv) as Hs. destruct (Marshal_head s) as [l E]. rewrite E in *.
    destruct n; [cbn in Hn; lia|]. cbn [parse_value app] in *. rewrite skip_cons by reflexivity. rewrite Ascii.eqb_refl. by rewrite Hs.
  - cbn [print_json] in *. rewrite length_cons, length_app in Hn. cbn [length] in Hn. destruct n; [lia|].
    cbn [parse_value app]. rewrite skip_cons by reflexivity. cbv beta iota. change (Ascii.eqb "[" quote_byte) with false.
    change (Ascii.eqb "[" "[") with true. cbv iota. destruct l as [|x l]; [by cbn|]. rewrite <- app_assoc. cbn [app].
    rewrite (parse_elements_print l x n rest) by (done || lia). cbn [forallb] in Hv. apply andb_true_iff in Hv as [Hv _].
    destruct (print_head x Hv) as (c & l' & Hc & Hs & Hne). cbn [map sep_by]. rewrite Hc. cbn [app]. rewrite skip_cons by done.
    destruct c as [[] [] [] [] [] [] [] []]; first [reflexivity|done].
  - cbn [print_json] in *. rewrite length_cons, length_app in Hn. cbn [length] in Hn. destruct n; [lia|].
    cbn [parse_value app]. rewrite skip_cons by reflexivity. cbv beta iota. change (Ascii.eqb "{" quote_byte) with false.
    change (Ascii.eqb "{" "[") with false. change (Ascii.eqb "{" "{") with true. cbv iota. destruct l as [|x l]; [by cbn|].
    rewrite <- app_assoc. cbn [app]. fold print_member in *.
    rewrite (parse_members_print l x n rest) by (done || lia). cbn [map sep_by]. unfold print_member at 1.
    destruct (Marshal_head x.1) as [l' E]. rewrite E. cbn [app]. rewrite skip_cons by reflexivity. reflexivity.
Qed.

Lemma print_json_roundtrip j :
  valid_json j = true -> Z.of_nat (depth j) <= maxNestingDepth -> ParseJSON (of_bytes (print_json j)) = Some j.
Proof.
  intros Hv Hd. unfold ParseJSON, parse_one. rewrite bytes_of_bytes.
  pose proof (parse_print j (2 * length (print_json j) + 2)%nat [] Hv ltac:(lia) I) as H. rewrite app_nil_r in H. rewrite H. rewrite (proj2 (Z.leb_le _ _) Hd). reflexivity.
Qed.

(** A body may go on after its value: [Decoder.More] is false before a closing
    bracket, so the test for a second value does not see what follows. *)
Lemma trailing_bracket_accepted : DecodeJSON (plain KString "name" :: []) ∅ "{}] and more" = Some ∅.
Proof. vm_compute. reflexivity. Qed.
