(* ===== verification/Config.v ===== *)
(** * The configuration

    [internal/settings/settings.go]: the configuration record, its defaults,
    the retention presets, normalization and validation.  Durations are
    nanoseconds, ratios float64.  [url.Parse] is a parameter. *)

From stdpp Require Import base tactics list gmap strings.
From Stdlib Require Import ZArith Lia Ascii SpecFloat.
From S2P Require Import Prelude GoString Float64 GoParse Outbound Netip.

Record Paths := mkPaths {
  Paths_DataDir : string; Paths_DatabasePath : string; Paths_RuntimeDir : string; Paths_HostProc : string;
  Paths_HostSys : string; Paths_HostPasswd : string; Paths_MasterKey : string; Paths_MasterKeyFile : string;
  Paths_masterKeyLoadedFromFile : bool;
}.
Record HTTP := mkHTTP { HTTP_ListenAddress : string; HTTP_TrustedProxyCIDRs : list string }.
Record Collection := mkCollection {
  Collection_HostInterval : Z; Collection_ContainerInterval : Z; Collection_MinimumInterval : Z;
}.
Record Live := mkLive { Live_SSEInterval : Z }.
Record Persistence := mkPersistence { Persistence_RawInterval : Z; Persistence_QueueBatchLimit : Z }.
Record Retention := mkRetention {
  Retention_Preset : string; Retention_Raw : Z; Retention_OneMinute : Z; Retention_FifteenMinute : Z;
  Retention_OneHour : Z;
}.
Record Database := mkDatabase {
  Database_TargetBudgetBytes : Z; Database_WarningRatio : F64; Database_CriticalRatio : F64;
  Database_EmergencyPauseRatio : F64;
}.
Record Charts := mkCharts { Charts_MaxPointsPerSeries : Z }.
Record Docker := mkDocker { Docker_SocketPath : string; Docker_MaxConcurrency : Z }.
Record Checks := mkChecks { Checks_MaxConcurrency : Z }.
Record Notifications := mkNotifications {
  Notifications_AllowPrivateTargets : bool; Notifications_MaxConcurrency : Z;
  Notifications_QueueCapacity : Z; Notifications_DeliveryTimeout : Z; Notifications_ReminderInterval : Z;
}.
Record Logs := mkLogs { Logs_MaxResponseBytes : Z; Logs_MaxLines : Z; Logs_RedactionPatterns : list string }.
Record Coolify := mkCoolify {
  Coolify_URL : string; Coolify_APIToken : string; Coolify_APITokenFile : string;
  Coolify_AllowInsecureHTTP : bool;
}.
Record Auth := mkAuth {
  Auth_Mode : string; Auth_ProxyCIDRs : list string; Auth_IdentityHeader : string;
  Auth_AllowedSubject : string;
}.
Record Features := mkFeatures { Features_AdvancedAuth : bool; Features_Portability : bool }.
Record Prometheus := mkPrometheus { Prometheus_Enabled : bool }.
Record Sessions := mkSessions { Sessions_IdleTimeout : Z; Sessions_AbsoluteLifetime : Z }.
Record Config := mkConfig {
  c_Paths : Paths; c_HTTP : HTTP; c_Collection : Collection; c_Live : Live; c_Persistence : Persistence;
  c_Retention : Retention; c_Database : Database; c_Charts : Charts; c_Docker : Docker; c_Checks : Checks;
  c_Notifications : Notifications; c_Logs : Logs; c_Coolify : Coolify; c_Auth : Auth; c_Features : Features;
  c_Prometheus : Prometheus; c_Sessions : Sessions; c_Demo : bool;
}.

(** ** Assignments *)

Definition set_Paths (v : Paths) (c : Config) : Config :=
  mkConfig v (c_HTTP c) (c_Collection c) (c_Live c) (c_Persistence c) (c_Retention c) (c_Database c)
    (c_Charts c) (c_Docker c) (c_Checks c) (c_Notifications c) (c_Logs c) (c_Coolify c) (c_Auth c)
    (c_Features c) (c_Prometheus c) (c_Sessions c) (c_Demo c).
Definition set_HTTP (v : HTTP) (c : Config) : Config :=
  mkConfig (c_Paths c) v (c_Collection c) (c_Live c) (c_Persistence c) (c_Retention c) (c_Database c)
    (c_Charts c) (c_Docker c) (c_Checks c) (c_Notifications c) (c_Logs c) (c_Coolify c) (c_Auth c)
    (c_Features c) (c_Prometheus c) (c_Sessions c) (c_Demo c).
Definition set_Collection (v : Collection) (c : Config) : Config :=
  mkConfig (c_Paths c) (c_HTTP c) v (c_Live c) (c_Persistence c) (c_Retention c) (c_Database c) (c_Charts c)
    (c_Docker c) (c_Checks c) (c_Notifications c) (c_Logs c) (c_Coolify c) (c_Auth c) (c_Features c)
    (c_Prometheus c) (c_Sessions c) (c_Demo c).
Definition set_Live (v : Live) (c : Config) : Config :=
  mkConfig (c_Paths c) (c_HTTP c) (c_Collection c) v (c_Persistence c) (c_Retention c) (c_Database c)
    (c_Charts c) (c_Docker c) (c_Checks c) (c_Notifications c) (c_Logs c) (c_Coolify c) (c_Auth c)
    (c_Features c) (c_Prometheus c) (c_Sessions c) (c_Demo c).
Definition set_Persistence (v : Persistence) (c : Config) : Config :=
  mkConfig (c_Paths c) (c_HTTP c) (c_Collection c) (c_Live c) v (c_Retention c) (c_Database c) (c_Charts c)
    (c_Docker c) (c_Checks c) (c_Notifications c) (c_Logs c) (c_Coolify c) (c_Auth c) (c_Features c)
    (c_Prometheus c) (c_Sessions c) (c_Demo c).
Definition set_Retention (v : Retention) (c : Config) : Config :=
  mkConfig (c_Paths c) (c_HTTP c) (c_Collection c) (c_Live c) (c_Persistence c) v (c_Database c) (c_Charts c)
    (c_Docker c) (c_Checks c) (c_Notifications c) (c_Logs c) (c_Coolify c) (c_Auth c) (c_Features c)
    (c_Prometheus c) (c_Sessions c) (c_Demo c).
Definition set_Database (v : Database) (c : Config) : Config :=
  mkConfig (c_Paths c) (c_HTTP c) (c_Collection c) (c_Live c) (c_Persistence c) (c_Retention c) v
    (c_Charts c) (c_Docker c) (c_Checks c) (c_Notifications c) (c_Logs c) (c_Coolify c) (c_Auth c)
    (c_Features c) (c_Prometheus c) (c_Sessions c) (c_Demo c).
Definition set_Charts (v : Charts) (c : Config) : Config :=
  mkConfig (c_Paths c) (c_HTTP c) (c_Collection c) (c_Live c) (c_Persistence c) (c_Retention c)
    (c_Database c) v (c_Docker c) (c_Checks c) (c_Notifications c) (c_Logs c) (c_Coolify c) (c_Auth c)
    (c_Features c) (c_Prometheus c) (c_Sessions c) (c_Demo c).
Definition set_Docker (v : Docker) (c : Config) : Config :=
  mkConfig (c_Paths c) (c_HTTP c) (c_Collection c) (c_Live c) (c_Persistence c) (c_Retention c)
    (c_Database c) (c_Charts c) v (c_Checks c) (c_Notifications c) (c_Logs c) (c_Coolify c) (c_Auth c)
    (c_Features c) (c_Prometheus c) (c_Sessions c) (c_Demo c).
Definition set_Checks (v : Checks) (c : Config) : Config :=
  mkConfig (c_Paths c) (c_HTTP c) (c_Collection c) (c_Live c) (c_Persistence c) (c_Retention c)
    (c_Database c) (c_Charts c) (c_Docker c) v (c_Notifications c) (c_Logs c) (c_Coolify c) (c_Auth c)
    (c_Features c) (c_Prometheus c) (c_Sessions c) (c_Demo c).
Definition set_Notifications (v : Notifications) (c : Config) : Config :=
  mkConfig (c_Paths c) (c_HTTP c) (c_Collection c) (c_Live c) (c_Persistence c) (c_Retention c)
    (c_Database c) (c_Charts c) (c_Docker c) (c_Checks c) v (c_Logs c) (c_Coolify c) (c_Auth c)
    (c_Features c) (c_Prometheus c) (c_Sessions c) (c_Demo c).
Definition set_Logs (v : Logs) (c : Config) : Config :=
  mkConfig (c_Paths c) (c_HTTP c) (c_Collection c) (c_Live c) (c_Persistence c) (c_Retention c)
    (c_Database c) (c_Charts c) (c_Docker c) (c_Checks c) (c_Notifications c) v (c_Coolify c) (c_Auth c)
    (c_Features c) (c_Prometheus c) (c_Sessions c) (c_Demo c).
Definition set_Coolify (v : Coolify) (c : Config) : Config :=
  mkConfig (c_Paths c) (c_HTTP c) (c_Collection c) (c_Live c) (c_Persistence c) (c_Retention c)
    (c_Database c) (c_Charts c) (c_Docker c) (c_Checks c) (c_Notifications c) (c_Logs c) v (c_Auth c)
    (c_Features c) (c_Prometheus c) (c_Sessions c) (c_Demo c).
Definition set_Auth (v : Auth) (c : Config) : Config :=
  mkConfig (c_Paths c) (c_HTTP c) (c_Collection c) (c_Live c) (c_Persistence c) (c_Retention c)
    (c_Database c) (c_Charts c) (c_Docker c) (c_Checks c) (c_Notifications c) (c_Logs c) (c_Coolify c) v
    (c_Features c) (c_Prometheus c) (c_Sessions c) (c_Demo c).
Definition set_Features (v : Features) (c : Config) : Config :=
  mkConfig (c_Paths c) (c_HTTP c) (c_Collection c) (c_Live c) (c_Persistence c) (c_Retention c)
    (c_Database c) (c_Charts c) (c_Docker c) (c_Checks c) (c_Notifications c) (c_Logs c) (c_Coolify c)
    (c_Auth c) v (c_Prometheus c) (c_Sessions c) (c_Demo c).
Definition set_Prometheus (v : Prometheus) (c : Config) : Config :=
  mkConfig (c_Paths c) (c_HTTP c) (c_Collection c) (c_Live c) (c_Persistence c) (c_Retention c)
    (c_Database c) (c_Charts c) (c_Docker c) (c_Checks c) (c_Notifications c) (c_Logs c) (c_Coolify c)
    (c_Auth c) (c_Features c) v (c_Sessions c) (c_Demo c).
Definition set_Sessions (v : Sessions) (c : Config) : Config :=
  mkConfig (c_Paths c) (c_HTTP c) (c_Collection c) (c_Live c) (c_Persistence c) (c_Retention c)
    (c_Database c) (c_Charts c) (c_Docker c) (c_Checks c) (c_Notifications c) (c_Logs c) (c_Coolify c)
    (c_Auth c) (c_Features c) (c_Prometheus c) v (c_Demo c).
Definition set_Demo (v : bool) (c : Config) : Config :=
  mkConfig (c_Paths c) (c_HTTP c) (c_Collection c) (c_Live c) (c_Persistence c) (c_Retention c)
    (c_Database c) (c_Charts c) (c_Docker c) (c_Checks c) (c_Notifications c) (c_Logs c) (c_Coolify c)
    (c_Auth c) (c_Features c) (c_Prometheus c) (c_Sessions c) v.
Definition set_Paths_DataDir (v : string) (c : Config) : Config :=
  set_Paths
    (mkPaths v (Paths_DatabasePath (c_Paths c)) (Paths_RuntimeDir (c_Paths c)) (Paths_HostProc (c_Paths c)) (Paths_HostSys (c_Paths c)) (Paths_HostPasswd (c_Paths c)) (Paths_MasterKey (c_Paths c)) (Paths_MasterKeyFile (c_Paths c)) (Paths_masterKeyLoadedFromFile (c_Paths c)))
    c.
Definition set_Paths_DatabasePath (v : string) (c : Config) : Config :=
  set_Paths
    (mkPaths (Paths_DataDir (c_Paths c)) v (Paths_RuntimeDir (c_Paths c)) (Paths_HostProc (c_Paths c)) (Paths_HostSys (c_Paths c)) (Paths_HostPasswd (c_Paths c)) (Paths_MasterKey (c_Paths c)) (Paths_MasterKeyFile (c_Paths c)) (Paths_masterKeyLoadedFromFile (c_Paths c)))
    c.
Definition set_Paths_RuntimeDir (v : string) (c : Config) : Config :=
  set_Paths
    (mkPaths (Paths_DataDir (c_Paths c)) (Paths_DatabasePath (c_Paths c)) v (Paths_HostProc (c_Paths c)) (Paths_HostSys (c_Paths c)) (Paths_HostPasswd (c_Paths c)) (Paths_MasterKey (c_Paths c)) (Paths_MasterKeyFile (c_Paths c)) (Paths_masterKeyLoadedFromFile (c_Paths c)))
    c.
Definition set_Paths_HostProc (v : string) (c : Config) : Config :=
  set_Paths
    (mkPaths (Paths_DataDir (c_Paths c)) (Paths_DatabasePath (c_Paths c)) (Paths_RuntimeDir (c_Paths c)) v (Paths_HostSys (c_Paths c)) (Paths_HostPasswd (c_Paths c)) (Paths_MasterKey (c_Paths c)) (Paths_MasterKeyFile (c_Paths c)) (Paths_masterKeyLoadedFromFile (c_Paths c)))
    c.
Definition set_Paths_HostSys (v : string) (c : Config) : Config :=
  set_Paths
    (mkPaths (Paths_DataDir (c_Paths c)) (Paths_DatabasePath (c_Paths c)) (Paths_RuntimeDir (c_Paths c)) (Paths_HostProc (c_Paths c)) v (Paths_HostPasswd (c_Paths c)) (Paths_MasterKey (c_Paths c)) (Paths_MasterKeyFile (c_Paths c)) (Paths_masterKeyLoadedFromFile (c_Paths c)))
    c.
Definition set_Paths_HostPasswd (v : string) (c : Config) : Config :=
  set_Paths
    (mkPaths (Paths_DataDir (c_Paths c)) (Paths_DatabasePath (c_Paths c)) (Paths_RuntimeDir (c_Paths c)) (Paths_HostProc (c_Paths c)) (Paths_HostSys (c_Paths c)) v (Paths_MasterKey (c_Paths c)) (Paths_MasterKeyFile (c_Paths c)) (Paths_masterKeyLoadedFromFile (c_Paths c)))
    c.
Definition set_Paths_MasterKey (v : string) (c : Config) : Config :=
  set_Paths
    (mkPaths (Paths_DataDir (c_Paths c)) (Paths_DatabasePath (c_Paths c)) (Paths_RuntimeDir (c_Paths c)) (Paths_HostProc (c_Paths c)) (Paths_HostSys (c_Paths c)) (Paths_HostPasswd (c_Paths c)) v (Paths_MasterKeyFile (c_Paths c)) (Paths_masterKeyLoadedFromFile (c_Paths c)))
    c.
Definition set_Paths_MasterKeyFile (v : string) (c : Config) : Config :=
  set_Paths
    (mkPaths (Paths_DataDir (c_Paths c)) (Paths_DatabasePath (c_Paths c)) (Paths_RuntimeDir (c_Paths c)) (Paths_HostProc (c_Paths c)) (Paths_HostSys (c_Paths c)) (Paths_HostPasswd (c_Paths c)) (Paths_MasterKey (c_Paths c)) v (Paths_masterKeyLoadedFromFile (c_Paths c)))
    c.
Definition set_Paths_masterKeyLoadedFromFile (v : bool) (c : Config) : Config :=
  set_Paths
    (mkPaths (Paths_DataDir (c_Paths c)) (Paths_DatabasePath (c_Paths c)) (Paths_RuntimeDir (c_Paths c)) (Paths_HostProc (c_Paths c)) (Paths_HostSys (c_Paths c)) (Paths_HostPasswd (c_Paths c)) (Paths_MasterKey (c_Paths c)) (Paths_MasterKeyFile (c_Paths c)) v)
    c.
Definition set_HTTP_ListenAddress (v : string) (c : Config) : Config :=
  set_HTTP (mkHTTP v (HTTP_TrustedProxyCIDRs (c_HTTP c))) c.
Definition set_HTTP_TrustedProxyCIDRs (v : list string) (c : Config) : Config :=
  set_HTTP (mkHTTP (HTTP_ListenAddress (c_HTTP c)) v) c.
Definition set_Collection_HostInterval (v : Z) (c : Config) : Config :=
  set_Collection
    (mkCollection v (Collection_ContainerInterval (c_Collection c)) (Collection_MinimumInterval (c_Collection c)))
    c.
Definition set_Collection_ContainerInterval (v : Z) (c : Config) : Config :=
  set_Collection
    (mkCollection (Collection_HostInterval (c_Collection c)) v (Collection_MinimumInterval (c_Collection c)))
    c.
Definition set_Collection_MinimumInterval (v : Z) (c : Config) : Config :=
  set_Collection
    (mkCollection (Collection_HostInterval (c_Collection c)) (Collection_ContainerInterval (c_Collection c)) v)
    c.
Definition set_Live_SSEInterval (v : Z) (c : Config) : Config := set_Live (mkLive v) c.
Definition set_Persistence_RawInterval (v : Z) (c : Config) : Config :=
  set_Persistence (mkPersistence v (Persistence_QueueBatchLimit (c_Persistence c))) c.
Definition set_Persistence_QueueBatchLimit (v : Z) (c : Config) : Config :=
  set_Persistence (mkPersistence (Persistence_RawInterval (c_Persistence c)) v) c.
Definition set_Retention_Preset (v : string) (c : Config) : Config :=
  set_Retention
    (mkRetention v (Retention_Raw (c_Retention c)) (Retention_OneMinute (c_Retention c)) (Retention_FifteenMinute (c_Retention c)) (Retention_OneHour (c_Retention c)))
    c.
Definition set_Retention_Raw (v : Z) (c : Config) : Config :=
  set_Retention
    (mkRetention (Retention_Preset (c_Retention c)) v (Retention_OneMinute (c_Retention c)) (Retention_FifteenMinute (c_Retention c)) (Retention_OneHour (c_Retention c)))
    c.
Definition set_Retention_OneMinute (v : Z) (c : Config) : Config :=
  set_Retention
    (mkRetention (Retention_Preset (c_Retention c)) (Retention_Raw (c_Retention c)) v (Retention_FifteenMinute (c_Retention c)) (Retention_OneHour (c_Retention c)))
    c.
Definition set_Retention_FifteenMinute (v : Z) (c : Config) : Config :=
  set_Retention
    (mkRetention (Retention_Preset (c_Retention c)) (Retention_Raw (c_Retention c)) (Retention_OneMinute (c_Retention c)) v (Retention_OneHour (c_Retention c)))
    c.
Definition set_Retention_OneHour (v : Z) (c : Config) : Config :=
  set_Retention
    (mkRetention (Retention_Preset (c_Retention c)) (Retention_Raw (c_Retention c)) (Retention_OneMinute (c_Retention c)) (Retention_FifteenMinute (c_Retention c)) v)
    c.
Definition set_Database_TargetBudgetBytes (v : Z) (c : Config) : Config :=
  set_Database
    (mkDatabase v (Database_WarningRatio (c_Database c)) (Database_CriticalRatio (c_Database c)) (Database_EmergencyPauseRatio (c_Database c)))
    c.
Definition set_Database_WarningRatio (v : F64) (c : Config) : Config :=
  set_Database
    (mkDatabase (Database_TargetBudgetBytes (c_Database c)) v (Database_CriticalRatio (c_Database c)) (Database_EmergencyPauseRatio (c_Database c)))
    c.
Definition set_Database_CriticalRatio (v : F64) (c : Config) : Config :=
  set_Database
    (mkDatabase (Database_TargetBudgetBytes (c_Database c)) (Database_WarningRatio (c_Database c)) v (Database_EmergencyPauseRatio (c_Database c)))
    c.
Definition set_Database_EmergencyPauseRatio (v : F64) (c : Config) : Config :=
  set_Database
    (mkDatabase (Database_TargetBudgetBytes (c_Database c)) (Database_WarningRatio (c_Database c)) (Database_CriticalRatio (c_Database c)) v)
    c.
Definition set_Charts_MaxPointsPerSeries (v : Z) (c : Config) : Config := set_Charts (mkCharts v) c.
Definition set_Docker_SocketPath (v : string) (c : Config) : Config :=
  set_Docker (mkDocker v (Docker_MaxConcurrency (c_Docker c))) c.
Definition set_Docker_MaxConcurrency (v : Z) (c : Config) : Config :=
  set_Docker (mkDocker (Docker_SocketPath (c_Docker c)) v) c.
Definition set_Checks_MaxConcurrency (v : Z) (c : Config) : Config := set_Checks (mkChecks v) c.
Definition set_Notifications_AllowPrivateTargets (v : bool) (c : Config) : Config :=
  set_Notifications
    (mkNotifications v (Notifications_MaxConcurrency (c_Notifications c)) (Notifications_QueueCapacity (c_Notifications c)) (Notifications_DeliveryTimeout (c_Notifications c)) (Notifications_ReminderInterval (c_Notifications c)))
    c.
Definition set_Notifications_MaxConcurrency (v : Z) (c : Config) : Config :=
  set_Notifications
    (mkNotifications (Notifications_AllowPrivateTargets (c_Notifications c)) v (Notifications_QueueCapacity (c_Notifications c)) (Notifications_DeliveryTimeout (c_Notifications c)) (Notifications_ReminderInterval (c_Notifications c)))
    c.
Definition set_Notifications_QueueCapacity (v : Z) (c : Config) : Config :=
  set_Notifications
    (mkNotifications (Notifications_AllowPrivateTargets (c_Notifications c)) (Notifications_MaxConcurrency (c_Notifications c)) v (Notifications_DeliveryTimeout (c_Notifications c)) (Notifications_ReminderInterval (c_Notifications c)))
    c.
Definition set_Notifications_DeliveryTimeout (v : Z) (c : Config) : Config :=
  set_Notifications
    (mkNotifications (Notifications_AllowPrivateTargets (c_Notifications c)) (Notifications_MaxConcurrency (c_Notifications c)) (Notifications_QueueCapacity (c_Notifications c)) v (Notifications_ReminderInterval (c_Notifications c)))
    c.
Definition set_Notifications_ReminderInterval (v : Z) (c : Config) : Config :=
  set_Notifications
    (mkNotifications (Notifications_AllowPrivateTargets (c_Notifications c)) (Notifications_MaxConcurrency (c_Notifications c)) (Notifications_QueueCapacity (c_Notifications c)) (Notifications_DeliveryTimeout (c_Notifications c)) v)
    c.
Definition set_Logs_MaxResponseBytes (v : Z) (c : Config) : Config :=
  set_Logs (mkLogs v (Logs_MaxLines (c_Logs c)) (Logs_RedactionPatterns (c_Logs c))) c.
Definition set_Logs_MaxLines (v : Z) (c : Config) : Config :=
  set_Logs (mkLogs (Logs_MaxResponseBytes (c_Logs c)) v (Logs_RedactionPatterns (c_Logs c))) c.
Definition set_Logs_RedactionPatterns (v : list string) (c : Config) : Config :=
  set_Logs (mkLogs (Logs_MaxResponseBytes (c_Logs c)) (Logs_MaxLines (c_Logs c)) v) c.
Definition set_Coolify_URL (v : string) (c : Config) : Config :=
  set_Coolify
    (mkCoolify v (Coolify_APIToken (c_Coolify c)) (Coolify_APITokenFile (c_Coolify c)) (Coolify_AllowInsecureHTTP (c_Coolify c)))
    c.
Definition set_Coolify_APIToken (v : string) (c : Config) : Config :=
  set_Coolify
    (mkCoolify (Coolify_URL (c_Coolify c)) v (Coolify_APITokenFile (c_Coolify c)) (Coolify_AllowInsecureHTTP (c_Coolify c)))
    c.
Definition set_Coolify_APITokenFile (v : string) (c : Config) : Config :=
  set_Coolify
    (mkCoolify (Coolify_URL (c_Coolify c)) (Coolify_APIToken (c_Coolify c)) v (Coolify_AllowInsecureHTTP (c_Coolify c)))
    c.
Definition set_Coolify_AllowInsecureHTTP (v : bool) (c : Config) : Config :=
  set_Coolify
    (mkCoolify (Coolify_URL (c_Coolify c)) (Coolify_APIToken (c_Coolify c)) (Coolify_APITokenFile (c_Coolify c)) v)
    c.
Definition set_Auth_Mode (v : string) (c : Config) : Config :=
  set_Auth
    (mkAuth v (Auth_ProxyCIDRs (c_Auth c)) (Auth_IdentityHeader (c_Auth c)) (Auth_AllowedSubject (c_Auth c)))
    c.
Definition set_Auth_ProxyCIDRs (v : list string) (c : Config) : Config :=
  set_Auth
    (mkAuth (Auth_Mode (c_Auth c)) v (Auth_IdentityHeader (c_Auth c)) (Auth_AllowedSubject (c_Auth c))) c.
Definition set_Auth_IdentityHeader (v : string) (c : Config) : Config :=
  set_Auth (mkAuth (Auth_Mode (c_Auth c)) (Auth_ProxyCIDRs (c_Auth c)) v (Auth_AllowedSubject (c_Auth c))) c.
Definition set_Auth_AllowedSubject (v : string) (c : Config) : Config :=
  set_Auth (mkAuth (Auth_Mode (c_Auth c)) (Auth_ProxyCIDRs (c_Auth c)) (Auth_IdentityHeader (c_Auth c)) v) c.
Definition set_Features_AdvancedAuth (v : bool) (c : Config) : Config :=
  set_Features (mkFeatures v (Features_Portability (c_Features c))) c.
Definition set_Features_Portability (v : bool) (c : Config) : Config :=
  set_Features (mkFeatures (Features_AdvancedAuth (c_Features c)) v) c.
Definition set_Prometheus_Enabled (v : bool) (c : Config) : Config := set_Prometheus (mkPrometheus v) c.
Definition set_Sessions_IdleTimeout (v : Z) (c : Config) : Config :=
  set_Sessions (mkSessions v (Sessions_AbsoluteLifetime (c_Sessions c))) c.
Definition set_Sessions_AbsoluteLifetime (v : Z) (c : Config) : Config :=
  set_Sessions (mkSessions (Sessions_IdleTimeout (c_Sessions c)) v) c.

(** ** Defaults and presets *)

Definition day : Z := 24 * Hour.
Definition Defaults : Config :=
  mkConfig
    (mkPaths "/var/lib/binnacle" "" "" "/proc" "/sys" "/host/etc/passwd" "" "" false)
    (mkHTTP ":8080" [])
    (mkCollection (2 * Second) (2 * Second) Second)
    (mkLive (2 * Second))
    (mkPersistence (10 * Second) 60)
    (mkRetention "balanced" (48 * Hour) (30 * day) (365 * day) 0)
    (mkDatabase 1073741824 (f64_lit 80 2) (f64_lit 95 2) (f64_lit 98 2))
    (mkCharts 1000)
    (mkDocker "/var/run/docker.sock" 4)
    (mkChecks 8)
    (mkNotifications false 4 1000 (15 * Second) (2 * Hour))
    (mkLogs 1048576 5000 [])
    (mkCoolify "" "" "" false)
    (mkAuth "local" [] "X-Forwarded-User" "")
    (mkFeatures false false)
    (mkPrometheus false)
    (mkSessions (12 * Hour) (720 * Hour))
    false.
Definition RetentionPreset (name : string) : option Retention :=
  if name =?s "minimal" then Some (mkRetention name (12 * Hour) (7 * day) (90 * day) (365 * day))
  else if name =?s "balanced" then Some (c_Retention Defaults)
  else if name =?s "long-term" then Some (mkRetention name (7 * day) (90 * day) (2 * 365 * day) 0)
  else None.

(** ** Normalization and validation *)

Definition Normalize (c : Config) : Config :=
  let c := if Paths_RuntimeDir (c_Paths c) =?s ""
           then set_Paths_RuntimeDir (Path_Join [Paths_DataDir (c_Paths c); "runtime"]) c else c in
  if Paths_DatabasePath (c_Paths c) =?s ""
  then set_Paths_DatabasePath (Path_Join [Paths_DataDir (c_Paths c); "binnacle.db"]) c else c.

Definition validateExactProxy (value : string) : option string :=
  match ParsePrefix value with
  | None => Some "netip.ParsePrefix"
  | Some prefix =>
      if px_bits prefix =? BitLen (px_ip prefix) then None
      else Some "must identify one exact host (/32 for IPv4 or /128 for IPv6)"
  end.

(** The first of a list of checks that fails *)
Fixpoint first_error (l : list (option string)) : option string :=
  match l with [] => None | Some e :: _ => Some e | None :: l => first_error l end.
Definition ensure (b : bool) (message : string) : option string := if b then None else Some message.

Section validate.
Context `{MapOrder} (url_parse : string -> option URL).

Definition absolute_paths (c : Config) : gmap string string := list_to_map [
  ("data_dir", Paths_DataDir (c_Paths c)); ("database_path", Paths_DatabasePath (c_Paths c));
  ("runtime_dir", Paths_RuntimeDir (c_Paths c)); ("host_proc", Paths_HostProc (c_Paths c));
  ("host_sys", Paths_HostSys (c_Paths c)); ("host_passwd", Paths_HostPasswd (c_Paths c));
  ("docker.socket_path", Docker_SocketPath (c_Docker c))].
Definition positive_durations (c : Config) : gmap string Z := list_to_map [
  ("live.sse_interval", Live_SSEInterval (c_Live c));
  ("persistence.raw_interval", Persistence_RawInterval (c_Persistence c));
  ("sessions.idle_timeout", Sessions_IdleTimeout (c_Sessions c));
  ("sessions.absolute_lifetime", Sessions_AbsoluteLifetime (c_Sessions c))].

Definition coolify_url_ok (c : Coolify) : bool :=
  (Coolify_URL c =?s "") ||
  match url_parse (Coolify_URL c) with
  | None => false
  | Some u =>
      negb (u_Hostname u =?s "") && negb (u_HasUser u) &&
      ((u_Scheme u =?s "https") || (Coolify_AllowInsecureHTTP c && (u_Scheme u =?s "http")))
  end.
Definition notifications_ok (n : Notifications) : bool :=
  (1 <=? Notifications_MaxConcurrency n) && (Notifications_MaxConcurrency n <=? 32) &&
  (1 <=? Notifications_QueueCapacity n) && (Notifications_QueueCapacity n <=? 10000) &&
  (Second <=? Notifications_DeliveryTimeout n) && (Notifications_DeliveryTimeout n <=? Minute) &&
  (Minute <=? Notifications_ReminderInterval n) && (Notifications_ReminderInterval n <=? 24 * Hour).
Definition ratios_ok (d : Database) : bool :=
  (f64_zero <? Database_WarningRatio d)%F && (Database_WarningRatio d <? Database_CriticalRatio d)%F &&
  (Database_CriticalRatio d <? Database_EmergencyPauseRatio d)%F && (Database_EmergencyPauseRatio d <=? f64_one)%F.
Definition tiers_ok (r : Retention) : bool :=
  (0 <? Retention_Raw r) && (Retention_Raw r <? Retention_OneMinute r) &&
  (Retention_OneMinute r <? Retention_FifteenMinute r) &&
  ((Retention_OneHour r =? 0) || (Retention_FifteenMinute r <? Retention_OneHour r)).

(** [None] is a nil error.  The order in which Go visits the two maps decides
    which of several faults is reported. *)
Definition Validate (c : Config) : option string :=
  let c := Normalize c in
  let mode := Auth_Mode (c_Auth c) in
  first_error (
    map (fun '(name, path) => ensure (negb (path =?s "") && IsAbs path) (name +:+ " must be an absolute path"))
      (range_map (absolute_paths c)) ++
    [match SplitHostPort (HTTP_ListenAddress (c_HTTP c)) with Some _ => None | None => Some "http.listen_address" end] ++
    map (fun cidr => String.append "http.trusted_proxy_cidrs: " <$> validateExactProxy cidr) (HTTP_TrustedProxyCIDRs (c_HTTP c)) ++
    [ensure (str_in mode ["local"; "proxy"; "local_and_proxy"]) "auth.mode must be local, proxy, or local_and_proxy"] ++
    map (fun cidr => String.append "auth.proxy_cidrs: " <$> validateExactProxy cidr) (Auth_ProxyCIDRs (c_Auth c)) ++
    [ensure ((Paths_MasterKeyFile (c_Paths c) =?s "") || IsAbs (Paths_MasterKeyFile (c_Paths c)))
       "paths.master_key_file must be an absolute path";
     ensure ((Paths_MasterKeyFile (c_Paths c) =?s "") || (Paths_MasterKey (c_Paths c) =?s "") || Paths_masterKeyLoadedFromFile (c_Paths c))
       "paths.master_key and paths.master_key_file cannot both be configured";
     ensure ((mode =?s "local") ||
       negb ((length (Auth_ProxyCIDRs (c_Auth c)) =? 0)%nat || (TrimSpace (Auth_IdentityHeader (c_Auth c)) =?s "") ||
             (TrimSpace (Auth_AllowedSubject (c_Auth c)) =?s "")))
       "proxy auth requires proxy_cidrs, identity_header, and allowed_subject";
     ensure (Features_AdvancedAuth (c_Features c) || (mode =?s "local"))
       "proxy authentication requires features.advanced_auth=true";
     ensure (Features_Portability (c_Features c) || negb (Prometheus_Enabled (c_Prometheus c)))
       "prometheus requires features.portability=true";
     ensure ((0 <? Collection_MinimumInterval (c_Collection c)) &&
             (Collection_MinimumInterval (c_Collection c) <=? Collection_HostInterval (c_Collection c)) &&
             (Collection_MinimumInterval (c_Collection c) <=? Collection_ContainerInterval (c_Collection c)))
       "collection intervals must be at least minimum_interval"] ++
    map (fun '(name, d) => ensure (0 <? d) (name +:+ " must be positive")) (range_map (positive_durations c)) ++
    [ensure (Sessions_IdleTimeout (c_Sessions c) <=? Sessions_AbsoluteLifetime (c_Sessions c))
       "sessions.absolute_lifetime must be at least idle_timeout";
     ensure (forallb (Z.ltb 0) [Persistence_QueueBatchLimit (c_Persistence c); Charts_MaxPointsPerSeries (c_Charts c);
               Docker_MaxConcurrency (c_Docker c); Checks_MaxConcurrency (c_Checks c); Logs_MaxResponseBytes (c_Logs c);
               Logs_MaxLines (c_Logs c); Database_TargetBudgetBytes (c_Database c)])
       "limits and budgets must be positive";
     ensure ((Logs_MaxResponseBytes (c_Logs c) <=? 2 ^ 20) && (Logs_MaxLines (c_Logs c) <=? 5000) &&
             (length (Logs_RedactionPatterns (c_Logs c)) <=? 16)%nat)
       "log limits exceed the supported ceilings";
     ensure (coolify_url_ok (c_Coolify c)) "coolify.url must be a valid HTTPS URL";
     ensure (notifications_ok (c_Notifications c)) "notification limits are outside supported bounds";
     ensure (ratios_ok (c_Database c)) "database ratios must be ordered between zero and one";
     ensure (str_in (Retention_Preset (c_Retention c)) ["minimal"; "balanced"; "long-term"; "advanced"])
       "retention.preset must be minimal, balanced, long-term, or advanced";
     ensure (negb (Retention_Preset (c_Retention c) =?s "advanced") || tiers_ok (c_Retention c))
       "advanced retention tiers must be ordered"]).
End validate.

(** Keys that only a deployment can change *)
Definition UIOverridable (key : string) : bool :=
  negb (str_in key ["paths.data_dir"; "paths.database_path"; "paths.runtime_dir"; "paths.master_key"; "paths.master_key_file";
    "http.listen_address"; "docker.socket_path"; "paths.host_proc"; "paths.host_sys"; "paths.host_passwd"; "coolify.url";
    "coolify.api_token_file"; "coolify.allow_insecure_http"; "auth.mode"; "auth.proxy_cidrs"; "auth.identity_header";
    "auth.allowed_subject"; "features.advanced_auth"; "features.portability"; "prometheus.enabled";
    "notifications.allow_private_targets"; "notifications.max_concurrency"; "notifications.queue_capacity";
    "notifications.delivery_timeout"; "notifications.reminder_interval"]).
