(* ===== verification/Settings.v ===== *)
(** * Loading the configuration

    [internal/settings/load.go]: the settings by key, their sources (defaults,
    configuration file, environment, stored overrides), and what is reported
    about them.  The TOML decoder is a parameter, as are the file system and
    the environment. *)

From stdpp Require Import base tactics list gmap strings.
From Stdlib Require Import ZArith Lia Ascii SpecFloat.
From S2P Require Import Prelude GoString Float64 GoParse Outbound Config.

Inductive Source := SourceDefault | SourceFile | SourceEnvironment | SourceAdmin.
#[export] Instance Source_eq_dec : EqDecision Source.
Proof. solve_decision. Defined.
Record Effective := mkEffective { ef_Value : string; ef_Source : Source; ef_Secret : bool; ef_RestartRequired : bool }.

(** ** Settings by key *)

(** How a key is read and where its value goes *)
Record field := Field { f_type : Type; f_parse : string -> option f_type; f_put : f_type -> Config -> Config }.

(** The elements of a list without blanks, the empty ones dropped *)
Definition trimmed (l : list string) : list string := List.filter (fun s => negb (s =?s "")) (map TrimSpace l).

(** The cases of the switch.  [retention.preset] is applied before the
    others. *)
Definition cases : list (string * field) := [
  ("paths.data_dir", Field string Some set_Paths_DataDir);
  ("paths.database_path", Field string Some set_Paths_DatabasePath);
  ("paths.runtime_dir", Field string Some set_Paths_RuntimeDir);
  ("paths.host_proc", Field string Some set_Paths_HostProc);
  ("paths.host_sys", Field string Some set_Paths_HostSys);
  ("paths.host_passwd", Field string Some set_Paths_HostPasswd);
  ("paths.master_key", Field string Some set_Paths_MasterKey);
  ("paths.master_key_file", Field string Some set_Paths_MasterKeyFile);
  ("coolify.url", Field string (fun v => Some (TrimRight v ["/"%char])) set_Coolify_URL);
  ("coolify.api_token_file", Field string Some set_Coolify_APITokenFile);
  ("coolify.allow_insecure_http", Field bool ParseBool set_Coolify_AllowInsecureHTTP);
  ("auth.mode", Field string (fun v => Some (ToLower (TrimSpace v))) set_Auth_Mode);
  ("auth.proxy_cidrs", Field (list string) (fun v => Some (trimmed (Split v ","%char))) set_Auth_ProxyCIDRs);
  ("auth.identity_header", Field string (fun v => Some (TrimSpace v)) set_Auth_IdentityHeader);
  ("auth.allowed_subject", Field string Some set_Auth_AllowedSubject);
  ("prometheus.enabled", Field bool ParseBool set_Prometheus_Enabled);
  ("features.advanced_auth", Field bool ParseBool set_Features_AdvancedAuth);
  ("features.portability", Field bool ParseBool set_Features_Portability);
  ("http.listen_address", Field string Some set_HTTP_ListenAddress);
  ("http.trusted_proxy_cidrs", Field (list string) (fun v => Some (trimmed (Split v ","%char))) set_HTTP_TrustedProxyCIDRs);
  ("collection.host_interval", Field Z ParseDuration set_Collection_HostInterval);
  ("collection.container_interval", Field Z ParseDuration set_Collection_ContainerInterval);
  ("collection.minimum_interval", Field Z ParseDuration set_Collection_MinimumInterval);
  ("live.sse_interval", Field Z ParseDuration set_Live_SSEInterval);
  ("persistence.raw_interval", Field Z ParseDuration set_Persistence_RawInterval);
  ("persistence.queue_batch_limit", Field Z Atoi set_Persistence_QueueBatchLimit);
  ("retention.preset", Field unit (fun _ => Some ()) (fun _ c => c));
  ("retention.raw", Field Z ParseDuration set_Retention_Raw);
  ("retention.one_minute", Field Z ParseDuration set_Retention_OneMinute);
  ("retention.fifteen_minute", Field Z ParseDuration set_Retention_FifteenMinute);
  ("retention.one_hour", Field Z ParseDuration set_Retention_OneHour);
  ("database.target_budget_bytes", Field Z ParseInt set_Database_TargetBudgetBytes);
  ("database.warning_ratio", Field F64 ParseFloat set_Database_WarningRatio);
  ("database.critical_ratio", Field F64 ParseFloat set_Database_CriticalRatio);
  ("database.emergency_pause_ratio", Field F64 ParseFloat set_Database_EmergencyPauseRatio);
  ("charts.max_points_per_series", Field Z Atoi set_Charts_MaxPointsPerSeries);
  ("docker.socket_path", Field string Some set_Docker_SocketPath);
  ("docker.max_concurrency", Field Z Atoi set_Docker_MaxConcurrency);
  ("checks.max_concurrency", Field Z Atoi set_Checks_MaxConcurrency);
  ("notifications.allow_private_targets", Field bool ParseBool set_Notifications_AllowPrivateTargets);
  ("notifications.max_concurrency", Field Z Atoi set_Notifications_MaxConcurrency);
  ("notifications.queue_capacity", Field Z Atoi set_Notifications_QueueCapacity);
  ("notifications.delivery_timeout", Field Z ParseDuration set_Notifications_DeliveryTimeout);
  ("notifications.reminder_interval", Field Z ParseDuration set_Notifications_ReminderInterval);
  ("logs.max_response_bytes", Field Z ParseInt set_Logs_MaxResponseBytes);
  ("logs.max_lines", Field Z Atoi set_Logs_MaxLines);
  ("logs.redaction_patterns", Field (list string) (fun v => Some (trimmed (SplitOn v "||"))) set_Logs_RedactionPatterns);
  ("sessions.idle_timeout", Field Z ParseDuration set_Sessions_IdleTimeout);
  ("sessions.absolute_lifetime", Field Z ParseDuration set_Sessions_AbsoluteLifetime);
  ("demo", Field bool ParseBool set_Demo)].
Definition case (key : string) : option field := snd <$> List.find (fun e => e.1 =?s key) cases.

Definition apply_one (key value : string) (c : Config) : string + Config :=
  match case key with
  | None => inl ("unknown key " +:+ key)
  | Some f => match f_parse f value with Some v => inr (f_put f v c) | None => inl (key +:+ ": invalid value") end
  end.
Fixpoint apply_all (l : list (string * string)) (c : Config) : string + Config :=
  match l with
  | [] => inr c
  | (key, value) :: l => match apply_one key value c with inl e => inl e | inr c => apply_all l c end
  end.

Section load.
Context `{MapOrder} (url_parse : string -> option URL).

Definition apply (values : gmap string string) (c : Config) : string + Config :=
  let c := match values !! "retention.preset" with Some value => set_Retention_Preset (ToLower value) c | None => c end in
  apply_all (range_map values) c.

Definition ResolveOverrides (base : Config) (values : gmap string string) : string + Config :=
  let preset :=
    match values !! "retention.preset" with
    | Some name =>
        if name =?s "advanced" then inr base
        else match RetentionPreset (ToLower name) with
             | None => inl ("unknown retention preset " +:+ name)
             | Some r => inr (set_Retention r base)
             end
    | None => inr base
    end in
  match preset with
  | inl e => inl e
  | inr resolved =>
      match apply values resolved with
      | inl e => inl e
      | inr resolved =>
          let resolved := Normalize resolved in
          match Validate url_parse resolved with Some e => inl e | None => inr resolved end
      end
  end.

(** ** The sources *)

Definition Discover (getenv : string -> string) (exists_ : string -> bool) : string :=
  let p := getenv "BINNACLE_CONFIG_FILE" in
  if negb (p =?s "") then p
  else match List.find exists_ ["/etc/binnacle/binnacle.toml"; "/var/lib/binnacle/binnacle.toml"] with Some p => p | None => "" end.

Definition environment : gmap string string := list_to_map [
  ("BINNACLE_DATA_DIR", "paths.data_dir"); ("BINNACLE_DATABASE_PATH", "paths.database_path");
  ("BINNACLE_RUNTIME_DIR", "paths.runtime_dir"); ("BINNACLE_HOST_PROC", "paths.host_proc");
  ("BINNACLE_HOST_SYS", "paths.host_sys"); ("BINNACLE_MASTER_KEY", "paths.master_key");
  ("BINNACLE_MASTER_KEY_FILE", "paths.master_key_file"); ("BINNACLE_LISTEN_ADDRESS", "http.listen_address");
  ("BINNACLE_TRUSTED_PROXY_CIDRS", "http.trusted_proxy_cidrs");
  ("BINNACLE_HOST_INTERVAL", "collection.host_interval");
  ("BINNACLE_CONTAINER_INTERVAL", "collection.container_interval");
  ("BINNACLE_MINIMUM_INTERVAL", "collection.minimum_interval"); ("BINNACLE_SSE_INTERVAL", "live.sse_interval");
  ("BINNACLE_RAW_INTERVAL", "persistence.raw_interval");
  ("BINNACLE_QUEUE_BATCH_LIMIT", "persistence.queue_batch_limit");
  ("BINNACLE_RETENTION_PRESET", "retention.preset"); ("BINNACLE_RETENTION_RAW", "retention.raw");
  ("BINNACLE_RETENTION_ONE_MINUTE", "retention.one_minute");
  ("BINNACLE_RETENTION_FIFTEEN_MINUTE", "retention.fifteen_minute");
  ("BINNACLE_RETENTION_ONE_HOUR", "retention.one_hour");
  ("BINNACLE_DATABASE_TARGET_BUDGET_BYTES", "database.target_budget_bytes");
  ("BINNACLE_DATABASE_WARNING_RATIO", "database.warning_ratio");
  ("BINNACLE_DATABASE_CRITICAL_RATIO", "database.critical_ratio");
  ("BINNACLE_DATABASE_EMERGENCY_PAUSE_RATIO", "database.emergency_pause_ratio");
  ("BINNACLE_CHARTS_MAX_POINTS", "charts.max_points_per_series"); ("BINNACLE_DOCKER_SOCKET", "docker.socket_path");
  ("BINNACLE_DOCKER_MAX_CONCURRENCY", "docker.max_concurrency");
  ("BINNACLE_CHECKS_MAX_CONCURRENCY", "checks.max_concurrency");
  ("BINNACLE_NOTIFICATIONS_ALLOW_PRIVATE_TARGETS", "notifications.allow_private_targets");
  ("BINNACLE_NOTIFICATIONS_MAX_CONCURRENCY", "notifications.max_concurrency");
  ("BINNACLE_NOTIFICATIONS_QUEUE_CAPACITY", "notifications.queue_capacity");
  ("BINNACLE_NOTIFICATIONS_DELIVERY_TIMEOUT", "notifications.delivery_timeout");
  ("BINNACLE_NOTIFICATIONS_REMINDER_INTERVAL", "notifications.reminder_interval");
  ("BINNACLE_LOGS_MAX_RESPONSE_BYTES", "logs.max_response_bytes"); ("BINNACLE_LOGS_MAX_LINES", "logs.max_lines");
  ("BINNACLE_LOGS_REDACTION_PATTERNS", "logs.redaction_patterns");
  ("BINNACLE_SESSION_IDLE_TIMEOUT", "sessions.idle_timeout");
  ("BINNACLE_SESSION_ABSOLUTE_LIFETIME", "sessions.absolute_lifetime"); ("BINNACLE_DEMO", "demo")].
Definition coolify_environment : gmap string string := list_to_map [
  ("BINNACLE_COOLIFY_URL", "coolify.url"); ("BINNACLE_COOLIFY_API_TOKEN_FILE", "coolify.api_token_file");
  ("BINNACLE_COOLIFY_ALLOW_INSECURE_HTTP", "coolify.allow_insecure_http")].
Definition auth_environment : gmap string string := list_to_map [
  ("BINNACLE_AUTH_MODE", "auth.mode"); ("BINNACLE_AUTH_PROXY_CIDRS", "auth.proxy_cidrs");
  ("BINNACLE_AUTH_IDENTITY_HEADER", "auth.identity_header"); ("BINNACLE_AUTH_ALLOWED_SUBJECT", "auth.allowed_subject")].
Definition feature_environment : gmap string string := list_to_map [
  ("BINNACLE_FEATURE_ADVANCED_AUTH", "features.advanced_auth"); ("BINNACLE_FEATURE_PORTABILITY", "features.portability")].

Definition supported : list string :=
  map snd (map_to_list environment) ++ ["paths.host_passwd"; "coolify.url"; "coolify.api_token"; "coolify.api_token_file";
    "coolify.allow_insecure_http"; "auth.mode"; "auth.proxy_cidrs"; "auth.identity_header"; "auth.allowed_subject";
    "prometheus.enabled"; "features.advanced_auth"; "features.portability"].

(** A decoded TOML value: a table, in the order it is visited, an array of
    scalars, or a scalar as [fmt.Sprint] prints it *)
Inductive toml := TTable (entries : list (string * toml)) | TArray (elems : list string) | TScalar (text : string).
Definition Sprint (v : toml) : string :=
  match v with TScalar s => s | TArray l => "[" +:+ Join l " " +:+ "]" | TTable _ => "" end.
Fixpoint flatten (prefix : string) (v : toml) (out : gmap string string) : gmap string string :=
  match v with
  | TTable entries =>
      (fix go (l : list (string * toml)) (out : gmap string string) : gmap string string :=
         match l with
         | [] => out
         | (k, v) :: l => go l (flatten (if prefix =?s "" then k else prefix +:+ "." +:+ k) v out)
         end) entries out
  | _ => <[prefix := Sprint v]> out
  end.

(** What the loader sees of the machine: the environment, the files that can
    be read, files that are opened (whether they are regular, when they can be
    inspected, and their content, when it can be read), and the decoder. *)
Record machine := mkMachine {
  getenv : string -> string;
  exists_file : string -> bool;
  decode_file : string -> option (list (string * toml) * list string);
  read_file : string -> option string;
  open_file : string -> option (option bool * option string);
}.

Section with_machine.
Context (m : machine).

Definition readTOML (path : string) : string + gmap string string :=
  match decode_file m path with
  | None => inl ("decode " +:+ path)
  | Some (raw, k :: _) => inl ("unknown key " +:+ k +:+ " in " +:+ path)
  | Some (raw, []) =>
      let out := flatten "" (TTable raw) ∅ in
      match List.find (fun '(k, _) => negb (str_in k supported)) (range_map out) with
      | Some (k, _) => inl ("unknown key " +:+ k +:+ " in " +:+ path)
      | None => inr out
      end
  end.

(** [for env, key := range ...]: the variables that are set are applied one
    by one *)
Fixpoint apply_env (l : list (string * string)) (st : Config * gmap string Source) : string + Config * gmap string Source :=
  match l with
  | [] => inr st
  | (env, key) :: l =>
      let value := getenv m env in
      if value =?s "" then apply_env l st
      else match apply {[key := value]} st.1 with
           | inl e => inl (env +:+ ": " +:+ e)
           | inr c => apply_env l (c, <[key := SourceEnvironment]> st.2)
           end
  end.

Definition resolveMasterKeyFile (c : Config) : string + Config :=
  let path := Paths_MasterKeyFile (c_Paths c) in
  if path =?s "" then inr c
  else if negb (Paths_MasterKey (c_Paths c) =?s "") then inl "paths.master_key and paths.master_key_file cannot both be configured"
  else if negb (IsAbs path) then inl "paths.master_key_file must be an absolute path"
  else match open_file m path with
       | None => inl "read master key file"
       | Some (None, _) => inl "inspect master key file"
       | Some (Some false, _) => inl "master key file must be a regular file"
       | Some (Some true, None) => inl "read master key file"
       | Some (Some true, Some content) =>
           let raw := of_bytes (firstn 4097 (bytes content)) in
           if (4096 <? String.length raw)%nat then inl "master key file is too large"
           else
             let key := TrimRight raw ["013"%char; "010"%char] in
             if key =?s "" then inl "master key file is empty"
             else inr (set_Paths_masterKeyLoadedFromFile true (set_Paths_MasterKey key c))
       end.

Definition load_file (c : Config) : string + Config * gmap string Source :=
  let path := Discover (getenv m) (exists_file m) in
  if path =?s "" then inr (c, ∅)
  else match readTOML path with
       | inl e => inl e
       | inr values =>
           match apply values c with
           | inl e => inl ("config file " +:+ path +:+ ": " +:+ e)
           | inr c => inr (c, (fun _ => SourceFile) <$> values)
           end
       end.
Definition load_token (st : Config * gmap string Source) : string + Config * gmap string Source :=
  let token := TrimSpace (getenv m "BINNACLE_COOLIFY_API_TOKEN") in
  let '(c, sources) := if token =?s "" then st else (set_Coolify_APIToken token st.1, <["coolify.api_token" := SourceEnvironment]> st.2) in
  if (Coolify_APIToken (c_Coolify c) =?s "") && negb (Coolify_APITokenFile (c_Coolify c) =?s "") then
    match read_file m (Coolify_APITokenFile (c_Coolify c)) with
    | None => inl "read Coolify token file"
    | Some raw => if (4096 <? String.length raw)%nat then inl "Coolify token file is too large"
                  else inr (set_Coolify_APIToken (TrimSpace raw) c, sources)
    end
  else inr (c, sources).
Definition load_master_key (st : Config * gmap string Source) : string + Config * gmap string Source :=
  match resolveMasterKeyFile st.1 with
  | inl e => inl e
  | inr c =>
      inr (c, if Paths_MasterKeyFile (c_Paths c) =?s "" then st.2
              else <["paths.master_key" := default SourceDefault (st.2 !! "paths.master_key_file")]> st.2)
  end.
Fixpoint apply_overrides (l : list (string * string)) (st : Config * gmap string Source) : string + Config * gmap string Source :=
  match l with
  | [] => inr st
  | (key, value) :: l =>
      if negb (UIOverridable key) then inl ("UI override for " +:+ key +:+ " is not allowed")
      else match apply {[key := value]} st.1 with
           | inl e => inl e
           | inr c => apply_overrides l (c, <[key := SourceAdmin]> st.2)
           end
  end.

(** ** What is reported *)

Definition lookup_values (c : Config) : list (string * string) := [
    ("paths.data_dir", Paths_DataDir (c_Paths c)); ("paths.database_path", Paths_DatabasePath (c_Paths c));
    ("paths.runtime_dir", Paths_RuntimeDir (c_Paths c)); ("paths.host_proc", Paths_HostProc (c_Paths c));
    ("paths.host_sys", Paths_HostSys (c_Paths c)); ("http.listen_address", HTTP_ListenAddress (c_HTTP c));
    ("paths.host_passwd", Paths_HostPasswd (c_Paths c));
    ("paths.master_key_file", Paths_MasterKeyFile (c_Paths c)); ("coolify.url", Coolify_URL (c_Coolify c));
    ("coolify.api_token_file", Coolify_APITokenFile (c_Coolify c));
    ("coolify.allow_insecure_http", FormatBool (Coolify_AllowInsecureHTTP (c_Coolify c)));
    ("auth.mode", Auth_Mode (c_Auth c)); ("auth.proxy_cidrs", Join (Auth_ProxyCIDRs (c_Auth c)) ",");
    ("auth.identity_header", Auth_IdentityHeader (c_Auth c));
    ("auth.allowed_subject", Auth_AllowedSubject (c_Auth c));
    ("prometheus.enabled", FormatBool (Prometheus_Enabled (c_Prometheus c)));
    ("features.advanced_auth", FormatBool (Features_AdvancedAuth (c_Features c)));
    ("features.portability", FormatBool (Features_Portability (c_Features c)));
    ("http.trusted_proxy_cidrs", Join (HTTP_TrustedProxyCIDRs (c_HTTP c)) ",");
    ("docker.socket_path", Docker_SocketPath (c_Docker c));
    ("collection.host_interval", Duration_String (Collection_HostInterval (c_Collection c)));
    ("collection.container_interval", Duration_String (Collection_ContainerInterval (c_Collection c)));
    ("collection.minimum_interval", Duration_String (Collection_MinimumInterval (c_Collection c)));
    ("live.sse_interval", Duration_String (Live_SSEInterval (c_Live c)));
    ("persistence.raw_interval", Duration_String (Persistence_RawInterval (c_Persistence c)));
    ("persistence.queue_batch_limit", Itoa (Persistence_QueueBatchLimit (c_Persistence c)));
    ("retention.preset", Retention_Preset (c_Retention c));
    ("retention.raw", Duration_String (Retention_Raw (c_Retention c)));
    ("retention.one_minute", Duration_String (Retention_OneMinute (c_Retention c)));
    ("retention.fifteen_minute", Duration_String (Retention_FifteenMinute (c_Retention c)));
    ("retention.one_hour", Duration_String (Retention_OneHour (c_Retention c)));
    ("database.target_budget_bytes", Itoa (Database_TargetBudgetBytes (c_Database c)));
    ("database.warning_ratio", FormatFloat (Database_WarningRatio (c_Database c)));
    ("database.critical_ratio", FormatFloat (Database_CriticalRatio (c_Database c)));
    ("database.emergency_pause_ratio", FormatFloat (Database_EmergencyPauseRatio (c_Database c)));
    ("charts.max_points_per_series", Itoa (Charts_MaxPointsPerSeries (c_Charts c)));
    ("docker.max_concurrency", Itoa (Docker_MaxConcurrency (c_Docker c)));
    ("checks.max_concurrency", Itoa (Checks_MaxConcurrency (c_Checks c)));
    ("logs.max_response_bytes", Itoa (Logs_MaxResponseBytes (c_Logs c)));
    ("notifications.allow_private_targets", FormatBool (Notifications_AllowPrivateTargets (c_Notifications c)));
    ("notifications.max_concurrency", Itoa (Notifications_MaxConcurrency (c_Notifications c)));
    ("notifications.queue_capacity", Itoa (Notifications_QueueCapacity (c_Notifications c)));
    ("notifications.delivery_timeout", Duration_String (Notifications_DeliveryTimeout (c_Notifications c)));
    ("notifications.reminder_interval", Duration_String (Notifications_ReminderInterval (c_Notifications c)));
    ("logs.max_lines", Itoa (Logs_MaxLines (c_Logs c)));
    ("sessions.idle_timeout", Duration_String (Sessions_IdleTimeout (c_Sessions c)));
    ("sessions.absolute_lifetime", Duration_String (Sessions_AbsoluteLifetime (c_Sessions c)));
    ("demo", FormatBool (c_Demo c))].
Definition lookup_setting (c : Config) (key : string) : string :=
  match List.find (fun e => e.1 =?s key) (lookup_values c) with Some e => e.2 | None => "configured" end.
Definition secret_key (key : string) : bool := str_in key ["paths.master_key"; "coolify.api_token"; "auth.allowed_subject"].
Definition effective (c : Config) (sources : gmap string Source) : gmap string Effective :=
  list_to_map (map (fun key =>
    (key, mkEffective (if secret_key key then "configured" else lookup_setting c key)
            (default SourceDefault (sources !! key)) (secret_key key) (negb (UIOverridable key)))) supported).

(** ** Loading *)

Definition then_ {A B} (r : string + A) (k : A -> string + B) : string + B := match r with inl e => inl e | inr a => k a end.

(** [provider] is what [Overrides] answers; [None] is a nil provider. *)
Definition LoadWith (provider : option (string + gmap string string)) : string + Config * gmap string Effective :=
  then_ (load_file Defaults) (fun st =>
  then_ (apply_env (range_map environment) st) (fun st =>
  then_ (apply_env [("BINNACLE_HOST_PASSWD", "paths.host_passwd")] st) (fun st =>
  then_ (apply_env (range_map coolify_environment) st) (fun st =>
  then_ (apply_env (range_map auth_environment) st) (fun st =>
  then_ (apply_env [("BINNACLE_PROMETHEUS_ENABLED", "prometheus.enabled")] st) (fun st =>
  then_ (apply_env (range_map feature_environment) st) (fun st =>
  then_ (load_token st) (fun st =>
  then_ (load_master_key st) (fun st =>
  then_ (match provider with
         | None => inr st
         | Some (inl e) => inl e
         | Some (inr overrides) => apply_overrides (range_map overrides) st
         end) (fun '(c, sources) =>
  let c := Normalize c in
  match Validate url_parse c with
  | Some e => inl e
  | None => inr (c, effective c sources)
  end)))))))))).
(** The deployment itself has no overrides: they are resolved later. *)
Definition Load : string + Config * gmap string Effective := LoadWith (Some (inr ∅)).
End with_machine.
End load.

(** ** Secrets are not reported *)

Lemma lookup_hides c mk tok subj key :
  secret_key key = false ->
  lookup_setting (set_Paths_MasterKey mk (set_Coolify_APIToken tok (set_Auth_AllowedSubject subj c))) key = lookup_setting c key.
Proof.
  intros Hk. unfold lookup_setting, lookup_values. cbn [List.find fst].
  repeat match goal with |- context [(?a =?s key)] => destruct (String.eqb_spec a key) as [<-|_]; [first [reflexivity|discriminate Hk]|] end.
  reflexivity.
Qed.

(** What is reported of the settings, to administrators and in
    diagnostic bundles, does not depend on the master key, the Coolify token
    and the allowed proxy subject: configurations that differ only in these
    have the same report. *)
Theorem effective_hides_secrets (c : Config) (sources : gmap string Source) (mk tok subj : string) :
  effective (set_Paths_MasterKey mk (set_Coolify_APIToken tok (set_Auth_AllowedSubject subj c))) sources = effective c sources.
Proof.
  unfold effective. apply (f_equal list_to_map), map_ext. intros key.
  destruct (secret_key key) eqn:E; [reflexivity|]. rewrite lookup_hides by exact E. reflexivity.
Qed.
