(* ===== verification/SettingKeys.v ===== *)
(** * Settings are independent of each other

    Every key of [internal/settings/load.go] has a place of its own in the
    configuration: assignments to different keys commute and the last one to a
    key wins, so [apply] is a function of its map whatever order Go visits it
    in. *)

From stdpp Require Import base tactics list gmap strings.
From Stdlib Require Import ZArith Lia Ascii SpecFloat.
From S2P Require Import Prelude GoString Float64 GoParse Outbound Config Settings.

(** ** Keys are independent *)

Definition preset_field : field := Field string (fun v => Some (ToLower v)) set_Retention_Preset.
(** The key's own field, the preset's included *)
Definition field_of (key : string) : option field := if key =?s "retention.preset" then Some preset_field else case key.

Lemma case_in key f : case key = Some f -> In (key, f) cases.
Proof.
  unfold case. destruct (List.find _ cases) as [[k g]|] eqn:E; [|done]. cbn. intros [= <-].
  apply find_some in E as [Hin Hk]. cbn in Hk. by apply String.eqb_eq in Hk as ->.
Qed.
Lemma cases_put_put key f : In (key, f) cases -> forall a b c, f_put f a (f_put f b c) = f_put f a c.
Proof. unfold cases. cbn [In]. intros H. repeat (destruct H as [[= <- <-]|H]; [reflexivity|]). done. Qed.
Lemma cases_put_comm k1 f1 k2 f2 :
  In (k1, f1) cases -> In (k2, f2) cases -> k1 <> k2 -> forall a b c, f_put f1 a (f_put f2 b c) = f_put f2 b (f_put f1 a c).
Proof.
  intros H1 H2. unfold cases in *. cbn [In] in *.
  repeat (destruct H1 as [[= <- <-]|H1];
    [repeat (destruct H2 as [[= <- <-]|H2]; [first [reflexivity | intros; done]|]); done|]). done.
Qed.
Lemma cases_put_preset k f : In (k, f) cases -> forall a b c, f_put f a (set_Retention_Preset b c) = set_Retention_Preset b (f_put f a c).
Proof. unfold cases. cbn [In]. intros H. repeat (destruct H as [[= <- <-]|H]; [reflexivity|]). done. Qed.

Lemma put_put key f : field_of key = Some f -> forall a b c, f_put f a (f_put f b c) = f_put f a c.
Proof.
  unfold field_of. destruct (key =?s _); [by intros [= <-]|]. intros H%case_in. by eapply cases_put_put.
Qed.
Lemma put_comm k1 f1 k2 f2 :
  field_of k1 = Some f1 -> field_of k2 = Some f2 -> k1 <> k2 ->
  forall a b c, f_put f1 a (f_put f2 b c) = f_put f2 b (f_put f1 a c).
Proof.
  unfold field_of. destruct (String.eqb_spec k1 "retention.preset"), (String.eqb_spec k2 "retention.preset"); intros H1 H2 Hne;
    [congruence|..]; simplify_eq.
  - intros. symmetry. eapply cases_put_preset. by apply case_in.
  - intros. eapply cases_put_preset. by apply case_in.
  - eapply cases_put_comm; [by apply case_in..|done].
Qed.

(** Every setting has a value in every configuration. *)
Lemma case_has key f : field_of key = Some f -> forall c, exists x, f_put f x c = c.
Proof.
  unfold field_of. destruct (key =?s _).
  - intros [= <-] [?? ? ? ? [] ? ? ? ? ? ? ? ? ? ? ? ?]. by eexists.
  - intros H%case_in c. unfold cases in H. cbn [In] in H.
    destruct c as [[] [] [] [] [] [] [] [] [] [] [] [] [] [] [] [] [] ?].
    repeat (destruct H as [[= <- <-]|H]; [first [by exists tt | eexists; reflexivity]|]). done.
Qed.

(** ** A map of settings *)

Definition set_key (key value : string) (c : Config) : option Config :=
  f ← field_of key; v ← f_parse f value; Some (f_put f v c).
Definition set_step (key value : string) (oc : option Config) : option Config := oc ≫= set_key key value.
(** All entries of a map; the order does not matter. *)
Definition set_map (m : gmap string string) (c : Config) : option Config := map_fold set_step (Some c) m.

Lemma set_step_comm k1 v1 k2 v2 oc : k1 <> k2 -> set_step k1 v1 (set_step k2 v2 oc) = set_step k2 v2 (set_step k1 v1 oc).
Proof.
  intros Hne. destruct oc as [c|]; [|done]. unfold set_step, set_key. cbn.
  destruct (field_of k1) as [f1|] eqn:E1, (field_of k2) as [f2|] eqn:E2; cbn; try done.
  - destruct (f_parse f1 v1), (f_parse f2 v2); cbn; rewrite ?E1, ?E2; cbn; try done.
    by rewrite (put_comm _ _ _ _ E1 E2).
  - by destruct (f_parse f1 v1).
  - by destruct (f_parse f2 v2).
Qed.
Lemma set_map_fresh k v m c : m !! k = None -> set_map (<[k := v]> m) c = set_step k v (set_map m c).
Proof. intros Hk. apply map_fold_insert_L; [|done]. intros. by apply set_step_comm. Qed.
Lemma set_map_insert k v m c c1 c2 :
  set_map m c = Some c1 -> set_key k v c1 = Some c2 -> set_map (<[k := v]> m) c = Some c2.
Proof.
  intros H1 H2. destruct (m !! k) as [w|] eqn:E; [|by rewrite set_map_fresh, H1].
  rewrite <- (insert_delete_id m k w E), set_map_fresh in H1 by apply lookup_delete_eq.
  rewrite <- insert_delete_eq, set_map_fresh by apply lookup_delete_eq.
  destruct (set_map (delete k m) c) as [cd|]; [|done]. revert H1 H2. unfold set_step, set_key. cbn.
  destruct (field_of k) as [f|] eqn:Ef; [|done]. cbn. destruct (f_parse f w); [|done]. intros [= <-].
  destruct (f_parse f v); [|done]. cbn. by rewrite (put_put _ _ Ef).
Qed.

(** What a map sets is set, what it does not mention stays. *)
Lemma set_map_set m c c' k v f :
  set_map m c = Some c' -> field_of k = Some f -> m !! k = Some v -> exists x, f_parse f v = Some x /\ f_put f x c' = c'.
Proof.
  intros H Hf Hk. rewrite <- (insert_delete_id m k v Hk), set_map_fresh in H by apply lookup_delete_eq.
  destruct (set_map (delete k m) c) as [cd|]; [|done]. unfold set_step, set_key in H. cbn in H. rewrite Hf in H. cbn in H.
  destruct (f_parse f v) as [x|]; [|done]. exists x. split; [done|]. injection H as <-. apply (put_put _ _ Hf).
Qed.
Lemma set_key_keeps k v c c' k' f x :
  set_key k v c = Some c' -> k <> k' -> field_of k' = Some f -> f_put f x c = c -> f_put f x c' = c'.
Proof.
  unfold set_key. intros H Hne Hf Hx. destruct (field_of k) as [g|] eqn:Eg; [|done]. cbn in H.
  destruct (f_parse g v); [|done]. injection H as <-. rewrite (put_comm _ _ _ _ Hf Eg) by done. by rewrite Hx.
Qed.
Lemma set_map_keeps m c c' k f x :
  set_map m c = Some c' -> field_of k = Some f -> m !! k = None -> f_put f x c = c -> f_put f x c' = c'.
Proof.
  intros H Hf. revert c' H. induction m as [|j w m Hj IH] using map_ind; intros c' H Hk Hx.
  - unfold set_map in H. rewrite map_fold_empty in H. by simplify_eq.
  - apply lookup_insert_None in Hk as [Hk Hne]. rewrite set_map_fresh in H by done.
    destruct (set_map m c) as [cm|]; [|done]. eapply set_key_keeps; [exact H|done|done|]. by apply IH.
Qed.

(** ** [apply] sets its map, in any order *)

Definition ok {A} (r : string + A) : option A := match r with inr a => Some a | inl _ => None end.

Lemma set_map_put m k f x c :
  field_of k = Some f -> m !! k = None -> set_map m (f_put f x c) = f_put f x <$> set_map m c.
Proof.
  intros Hf. induction m as [|j w m Hj IH] using map_ind; intros Hk; [done|].
  apply lookup_insert_None in Hk as [Hk Hne]. rewrite !set_map_fresh, IH by done.
  destruct (set_map m c) as [cm|]; [|done]. unfold set_step, set_key. cbn.
  destruct (field_of j) as [g|] eqn:Eg; [|done]. cbn. destruct (f_parse g w); [|done]. cbn.
  by rewrite (put_comm _ _ _ _ Eg Hf).
Qed.

Definition visit (e : string * string) (oc : option Config) : option Config :=
  if e.1 =?s "retention.preset" then oc else set_step e.1 e.2 oc.
Lemma visit_none l : fold_left (fun oc e => visit e oc) l None = None.
Proof. induction l as [|e l IH]; [done|]. cbn. unfold visit at 2. by destruct (_ =?s _). Qed.
Lemma apply_all_visit l c : ok (apply_all l c) = fold_left (fun oc e => visit e oc) l (Some c).
Proof.
  revert c. induction l as [|[k v] l IH]; intros c; [done|]. cbn [apply_all fold_left]. unfold visit at 2, apply_one. cbn [fst snd].
  unfold set_step, set_key, field_of. cbn [mbind option_bind].
  destruct (String.eqb_spec k "retention.preset") as [->|Hne]; [by rewrite <- IH|].
  destruct (case k) as [f|]; cbn; [|by rewrite visit_none].
  destruct (f_parse f v); cbn; [by rewrite <- IH|by rewrite visit_none].
Qed.

Lemma visit_comm k1 v1 k2 v2 oc : k1 <> k2 -> visit (k1, v1) (visit (k2, v2) oc) = visit (k2, v2) (visit (k1, v1) oc).
Proof. intros Hne. unfold visit. cbn. destruct (k1 =?s _), (k2 =?s _); try done. by apply set_step_comm. Qed.
Lemma visit_fold m c : map_fold (fun k v => visit (k, v)) (Some c) m = set_map (delete "retention.preset" m) c.
Proof.
  induction m as [|j w m Hj IH] using map_ind; [done|].
  rewrite map_fold_insert_L by (intros; by apply visit_comm || done). rewrite IH. unfold visit. cbn.
  destruct (String.eqb_spec j "retention.preset") as [->|Hne].
  - by rewrite delete_insert_eq.
  - rewrite delete_insert_ne by done. rewrite set_map_fresh; [done|]. by rewrite lookup_delete_ne.
Qed.

Section apply.
Context `{MapOrder}.

Lemma visit_range m c : fold_left (fun oc e => visit e oc) (range_map m) (Some c) = set_map (delete "retention.preset" m) c.
Proof.
  rewrite <- visit_fold, map_fold_foldr, <- (fold_left_rev_right visit).
  transitivity (foldr visit (Some c) (map_to_list m)); [|apply foldr_ext; [by intros []|done..]].
  apply (foldr_permutation (=) visit (Some c)).
  - intros j1 [k1 v1] j2 [k2 v2] oc Hj H1 H2. apply visit_comm. intros ->. apply Hj.
    assert (NoDup (rev (range_map m)).*1) as Hnd.
    { rewrite <- Permutation_rev, range_map_perm. apply NoDup_fst_map_to_list. }
    eapply (NoDup_lookup _ _ _ k2 Hnd); rewrite list_lookup_fmap; [by rewrite H1|by rewrite H2].
  - rewrite <- Permutation_rev. apply range_map_perm.
Qed.

Lemma apply_spec values c : ok (apply values c) = set_map values c.
Proof.
  unfold apply. rewrite apply_all_visit, visit_range.
  destruct (values !! "retention.preset") as [v|] eqn:E; [|by rewrite delete_id].
  rewrite <- (insert_delete_id values _ v E) at 2. rewrite set_map_fresh by apply lookup_delete_eq.
  change (set_Retention_Preset (ToLower v) c) with (f_put preset_field (ToLower v) c).
  rewrite (set_map_put _ "retention.preset") by (done || apply lookup_delete_eq).
  by destruct (set_map (delete _ values) c).
Qed.
Lemma apply_single k v c : ok (apply {[k := v]} c) = set_key k v c.
Proof. rewrite apply_spec. unfold set_map. by rewrite map_fold_singleton. Qed.
End apply.
