(* ===== verification/SettingsLoad.v ===== *)
(** * Precedence of the configuration's sources

    What [LoadWith] of [internal/settings/load.go] makes of defaults,
    configuration file, environment and stored overrides. *)

From stdpp Require Import base tactics list gmap strings.
From Stdlib Require Import ZArith Lia Ascii SpecFloat.
From S2P Require Import Prelude GoString Float64 GoParse Outbound Config Settings SettingKeys.

(** ** Precedence *)

(** The variables with the keys they set *)
Definition variables : list (string * string) :=
  map_to_list environment ++ [("BINNACLE_HOST_PASSWD", "paths.host_passwd")] ++ map_to_list coolify_environment ++
  map_to_list auth_environment ++ [("BINNACLE_PROMETHEUS_ENABLED", "prometheus.enabled")] ++ map_to_list feature_environment.
Lemma variables_nodup : NoDup variables.*2.
Proof. apply (bool_decide_unpack _). vm_compute. exact I. Qed.

Section precedence.
Context `{MapOrder} (url_parse : string -> option URL) (m : machine).

Definition file_values : gmap string string :=
  let path := Discover (getenv m) (exists_file m) in
  if path =?s "" then ∅ else default ∅ (ok (readTOML m path)).
Definition env_value (key : string) : option string :=
  match List.find (fun e => e.2 =?s key) variables with
  | Some (env, _) => if getenv m env =?s "" then None else Some (getenv m env)
  | None => None
  end.
(** The value of a key and where it comes from: an override wins over the
    environment, which wins over the file. *)
Definition source_of (overrides : gmap string string) (key : string) : option (string * Source) :=
  match overrides !! key with
  | Some v => Some (v, SourceAdmin)
  | None => match env_value key with
            | Some v => Some (v, SourceEnvironment)
            | None => (fun v => (v, SourceFile)) <$> file_values !! key
            end
  end.

(** The configuration holds, at a key, the value it was last given, and the
    source is recorded. *)
Definition tracks (key : string) (f : field) (o : option (string * Source)) (st : Config * gmap string Source) : Prop :=
  st.2 !! key = snd <$> o /\
  match o with
  | Some (v, _) => exists x, f_parse f v = Some x /\ f_put f x st.1 = st.1
  | None => forall x, f_put f x Defaults = Defaults -> f_put f x st.1 = st.1
  end.

Lemma tracks_set key f v src o c sources c' :
  field_of key = Some f -> set_key key v c = Some c' -> tracks key f o (c, sources) ->
  tracks key f (Some (v, src)) (c', <[key := src]> sources).
Proof.
  intros Hf Hs _. split; [by cbn; rewrite lookup_insert_eq|]. unfold set_key in Hs. rewrite Hf in Hs. cbn in *.
  destruct (f_parse f v) as [x|]; [|done]. exists x. split; [done|]. injection Hs as <-. apply (put_put _ _ Hf).
Qed.
Lemma tracks_other key f o k v src c sources c' :
  field_of key = Some f -> set_key k v c = Some c' -> k <> key -> tracks key f o (c, sources) ->
  tracks key f o (c', <[k := src]> sources).
Proof.
  intros Hf Hs Hne [H1 H2]. split; [by cbn; rewrite lookup_insert_ne|]. destruct o as [[w s]|]; cbn in *.
  - destruct H2 as (x & Hx & Hp). exists x. split; [done|]. by eapply set_key_keeps.
  - intros x Hx. eapply set_key_keeps; eauto.
Qed.

Lemma tracks_file key f st :
  field_of key = Some f -> load_file m Defaults = inr st -> tracks key f ((fun v => (v, SourceFile)) <$> file_values !! key) st.
Proof.
  unfold load_file, file_values. intros Hf. destruct (_ =?s "").
  { intros [= <-]. rewrite lookup_empty. split; [by cbn; rewrite lookup_empty|exact (fun x Hx => Hx)]. }
  destruct (readTOML m _) as [e|values]; [done|]. pose proof (apply_spec values Defaults) as Ha.
  destruct (apply values Defaults) as [e|c]; [done|]. intros [= <-]. symmetry in Ha. cbn in Ha.
  change (default ∅ (ok (inr values))) with values.
  split; cbn [fst snd]; [rewrite lookup_fmap; by destruct (values !! key)|].
  destruct (values !! key) as [v|] eqn:E; cbn; [by eapply set_map_set|]. intros x Hx. by eapply set_map_keeps.
Qed.

Lemma apply_env_app l1 l2 st : apply_env m (l1 ++ l2) st = then_ (apply_env m l1 st) (apply_env m l2).
Proof. revert st. induction l1 as [|[env key] l1 IH]; intros st; [done|]. cbn. destruct (_ =?s ""); [done|]. by destruct (apply _ _). Qed.

Lemma tracks_env key f o l st st' :
  field_of key = Some f -> NoDup l.*2 -> apply_env m l st = inr st' -> tracks key f o st ->
  (key ∉ l.*2 -> tracks key f o st') /\
  (forall env, (env, key) ∈ l -> tracks key f (if getenv m env =?s "" then o else Some (getenv m env, SourceEnvironment)) st').
Proof.
  intros Hf. revert o st. induction l as [|[env k] l IH]; intros o st Hnd Ha Ht; cbn in Ha.
  { simplify_eq. split; [done|]. intros env Hin. by apply elem_of_nil in Hin. }
  cbn in Hnd. apply NoDup_cons in Hnd as [Hk Hnd].
  destruct (String.eqb_spec (getenv m env) "") as [He|He].
  - destruct (IH o st Hnd Ha Ht) as [H1 H2]. split.
    + intros Hn. apply H1. cbn in Hn. set_solver.
    + intros e [[= -> ->]|Hin]%elem_of_cons; [|by apply H2]. rewrite He. cbn. by apply H1.
  - destruct st as [c sources]. pose proof (apply_single k (getenv m env) c) as Hs. cbn in Ha.
    destruct (apply {[k := getenv m env]} c) as [e|c1]; [done|]. cbn in Hs. symmetry in Hs.
    destruct (decide (k = key)) as [->|Hne].
    + destruct (IH (Some (getenv m env, SourceEnvironment)) _ Hnd Ha) as [H1 H2]; [by eapply tracks_set|].
      split; [intros Hn; cbn in Hn; set_solver|].
      intros e [[= ->]|Hin]%elem_of_cons.
      * apply String.eqb_neq in He. rewrite He. by apply H1.
      * destruct Hk. apply list_elem_of_fmap. by exists (e, key).
    + destruct (IH o _ Hnd Ha) as [H1 H2]; [by eapply tracks_other|]. split.
      * intros Hn. apply H1. cbn in Hn. set_solver.
      * intros e [[= -> ->]|Hin]%elem_of_cons; [done|]. by apply H2.
Qed.

(** The secrets are kept apart from every other key. *)
Lemma put_token key f t x c :
  field_of key = Some f -> f_put f x c = c -> f_put f x (set_Coolify_APIToken t c) = set_Coolify_APIToken t c.
Proof.
  intros Hf Hx. transitivity (set_Coolify_APIToken t (f_put f x c)); [|by rewrite Hx].
  unfold field_of in Hf. destruct (key =?s _); [by simplify_eq|].
  apply case_in in Hf. unfold cases in Hf. cbn [In] in Hf.
  repeat (destruct Hf as [[= <- <-]|Hf]; [reflexivity|]). done.
Qed.
Lemma put_master key f k x c :
  field_of key = Some f -> key <> "paths.master_key" -> f_put f x c = c ->
  let c' := set_Paths_masterKeyLoadedFromFile true (set_Paths_MasterKey k c) in f_put f x c' = c'.
Proof.
  intros Hf Hne Hx c'. transitivity (set_Paths_masterKeyLoadedFromFile true (set_Paths_MasterKey k (f_put f x c))); [|by rewrite Hx].
  unfold field_of in Hf. destruct (key =?s _); [by simplify_eq|].
  apply case_in in Hf. unfold cases in Hf. cbn [In] in Hf.
  repeat (destruct Hf as [[= <- <-]|Hf]; [first [reflexivity|done]|]). done.
Qed.
Lemma tracks_mono key f o (c c' : Config) (s s' : gmap string Source) :
  (forall x, f_put f x c = c -> f_put f x c' = c') -> s' !! key = s !! key -> tracks key f o (c, s) -> tracks key f o (c', s').
Proof.
  intros Hc Hs [H1 H2]. split; cbn in *; [congruence|]. destruct o as [[v src]|]; [|by eauto].
  destruct H2 as (x & Hx & Hp). eauto.
Qed.
Lemma tracks_token key f o st st' :
  field_of key = Some f -> load_token m st = inr st' -> tracks key f o st -> tracks key f o st'.
Proof.
  intros Hf Hl Ht. destruct st as [c s]. unfold load_token in Hl.
  assert (key <> "coolify.api_token") as Hk by (intros ->; by vm_compute in Hf).
  destruct (TrimSpace _ =?s "").
  - repeat case_match; simplify_eq; [|done]. eapply tracks_mono; [intros; by eapply put_token|done|done].
  - cbn [fst snd] in Hl. assert (tracks key f o (set_Coolify_APIToken (TrimSpace (getenv m "BINNACLE_COOLIFY_API_TOKEN")) c,
      <["coolify.api_token" := SourceEnvironment]> s)) as Ht'.
    { eapply tracks_mono; [intros; by eapply put_token|by rewrite lookup_insert_ne|done]. }
    repeat case_match; simplify_eq; [|done]. eapply tracks_mono; [intros; by eapply put_token|done|done].
Qed.
Lemma master_key_resolved c c' :
  resolveMasterKeyFile m c = inr c' -> c' = c \/ exists k, c' = set_Paths_masterKeyLoadedFromFile true (set_Paths_MasterKey k c).
Proof.
  unfold resolveMasterKeyFile. intros H1. destruct (_ =?s ""); [left; congruence|].
  destruct (negb _); [done|]. destruct (negb _); [done|]. destruct (open_file m _) as [[[[]|] [content|]]|]; try done.
  destruct (_ <? _)%nat; [done|]. destruct (_ =?s ""); [done|]. right. injection H1 as <-. by eexists.
Qed.
Lemma tracks_master key f o st st' :
  field_of key = Some f -> key <> "paths.master_key" -> load_master_key m st = inr st' -> tracks key f o st -> tracks key f o st'.
Proof.
  intros Hf Hk Hl Ht. destruct st as [c s]. unfold load_master_key in Hl. cbn [fst snd] in Hl.
  destruct (resolveMasterKeyFile m c) as [e|c'] eqn:Er; [done|]. injection Hl as <-. eapply tracks_mono; [| |exact Ht].
  - intros x Hx. apply master_key_resolved in Er as [->|[k ->]]; [done|]. by eapply put_master.
  - destruct (_ =?s ""); [done|]. by rewrite lookup_insert_ne.
Qed.
Lemma tracks_overrides key f o l st st' :
  field_of key = Some f -> NoDup l.*1 -> apply_overrides l st = inr st' -> tracks key f o st ->
  (key ∉ l.*1 -> tracks key f o st') /\ (forall v, (key, v) ∈ l -> tracks key f (Some (v, SourceAdmin)) st').
Proof.
  intros Hf. revert o st. induction l as [|[k v] l IH]; intros o st Hnd Ha Ht; cbn in Ha.
  { simplify_eq. split; [done|]. intros v Hin. by apply elem_of_nil in Hin. }
  cbn in Hnd. apply NoDup_cons in Hnd as [Hk Hnd]. destruct (negb _); [done|].
  destruct st as [c sources]. pose proof (apply_single k v c) as Hs. cbn in Ha.
  destruct (apply {[k := v]} c) as [e|c1]; [done|]. cbn in Hs. symmetry in Hs.
  destruct (decide (k = key)) as [->|Hne].
  - destruct (IH (Some (v, SourceAdmin)) _ Hnd Ha) as [H1 H2]; [by eapply tracks_set|].
    split; [intros Hn; cbn in Hn; set_solver|]. intros w [[= ->]|Hin]%elem_of_cons; [by apply H1|].
    destruct Hk. apply list_elem_of_fmap. by exists (key, w).
  - destruct (IH o _ Hnd Ha) as [H1 H2]; [by eapply tracks_other|]. split.
    + intros Hn. apply H1. cbn in Hn. set_solver.
    + intros w [[= -> ->]|Hin]%elem_of_cons; [done|]. by apply H2.
Qed.

Lemma then_inr {A B} (r : string + A) (k : A -> string + B) b : then_ r k = inr b -> exists a, r = inr a /\ k a = inr b.
Proof. destruct r; [done|]. eauto. Qed.

Lemma inr_pair {A B C} (a a' : B) (b b' : C) : @inr A _ (a, b) = inr (a', b') -> a = a' /\ b = b'.
Proof. by intros [= -> ->]. Qed.

(** The loops over the environment, as one *)
Definition visited : list (string * string) :=
  range_map environment ++ [("BINNACLE_HOST_PASSWD", "paths.host_passwd")] ++ range_map coolify_environment ++
  range_map auth_environment ++ [("BINNACLE_PROMETHEUS_ENABLED", "prometheus.enabled")] ++ range_map feature_environment.
Lemma visited_perm : visited ≡ₚ variables.
Proof. unfold visited, variables. repeat first [apply range_map_perm | apply Permutation_app | apply Permutation_refl]. Qed.

Lemma tracks_visited key f o st st' :
  field_of key = Some f -> apply_env m visited st = inr st' -> tracks key f o st ->
  tracks key f (match env_value key with Some v => Some (v, SourceEnvironment) | None => o end) st'.
Proof.
  intros Hf Ha Ht. assert (NoDup visited.*2) as Hnd by (rewrite visited_perm; apply variables_nodup).
  destruct (tracks_env key f o visited st st' Hf Hnd Ha Ht) as [H1 H2]. unfold env_value.
  destruct (List.find _ variables) as [[env k]|] eqn:E.
  - apply find_some in E as [Hin Hk]. cbn in Hk. apply String.eqb_eq in Hk as ->.
    specialize (H2 env). destruct (getenv m env =?s ""); apply H2; rewrite visited_perm; by apply list_elem_of_In.
  - apply H1. rewrite visited_perm. intros ([env k] & -> & Hin)%list_elem_of_fmap. cbn in *.
    apply list_elem_of_In in Hin. pose proof (find_none _ _ E _ Hin) as Hn. cbn in Hn. rewrite String.eqb_refl in Hn. discriminate.
Qed.

Lemma supported_nodup : NoDup supported.
Proof. apply (bool_decide_unpack _). vm_compute. exact I. Qed.
Lemma field_supported key f : field_of key = Some f -> In key supported.
Proof.
  unfold field_of. destruct (String.eqb_spec key "retention.preset") as [->|].
  - intros _. apply (proj1 (str_in_spec _ _)). vm_compute. reflexivity.
  - intros Hc%case_in. unfold cases in Hc. cbn [In] in Hc.
    repeat (destruct Hc as [[= <- _]|Hc]; [apply (proj1 (str_in_spec _ _)); vm_compute; reflexivity|]). destruct Hc.
Qed.
Lemma keyed_fst {A B} (g : A -> B) (l : list A) : (map (fun a => (a, g a)) l).*1 = l.
Proof. induction l as [|a l IH]; [done|]. cbn. by f_equal. Qed.
Lemma effective_source c sources key :
  In key supported -> ef_Source <$> effective c sources !! key = Some (default SourceDefault (sources !! key)).
Proof.
  intros Hin. unfold effective.
  set (g := fun k => mkEffective (if secret_key k then "configured" else lookup_setting c k)
            (default SourceDefault (sources !! k)) (secret_key k) (negb (UIOverridable k))).
  rewrite (elem_of_list_to_map_1 _ key (g key)).
  - reflexivity.
  - rewrite keyed_fst. apply supported_nodup.
  - apply (proj2 (list_elem_of_In _ _)). exact (in_map (fun k => (k, g k)) supported key Hin).
Qed.

Lemma overrides_allowed l st st' : apply_overrides l st = inr st' -> forall k v, (k, v) ∈ l -> UIOverridable k = true.
Proof.
  revert st. induction l as [|[k v] l IH]; intros st Ha k' v' Hin; [by apply elem_of_nil in Hin|]. cbn in Ha.
  destruct (UIOverridable k) eqn:E; [|done]. cbn in Ha. destruct (apply _ _); [done|].
  apply elem_of_cons in Hin as [[= -> ->]|Hin]; [done|]. by eapply IH.
Qed.

Definition overrides_of (provider : option (string + gmap string string)) : gmap string string :=
  match provider with Some (inr o) => o | _ => ∅ end.

(** Up to the overrides *)
Definition overrides_phase (provider : option (string + gmap string string)) (st : Config * gmap string Source) :
  string + Config * gmap string Source :=
  match provider with
  | None => inr st
  | Some (inl e) => inl e
  | Some (inr overrides) => apply_overrides (range_map overrides) st
  end.
Lemma overrides_phase_allowed provider st st' :
  overrides_phase provider st = inr st' -> forall key, is_Some (overrides_of provider !! key) -> UIOverridable key = true.
Proof.
  destruct provider as [[e|o]|]; cbn; [done| |intros _ key; rewrite lookup_empty; by intros [? ?]].
  intros Ha key [v Hv]. eapply overrides_allowed; [exact Ha|]. rewrite range_map_perm. by apply elem_of_map_to_list.
Qed.
Lemma overrides_phase_tracks provider st st' key f o :
  field_of key = Some f -> overrides_phase provider st = inr st' -> tracks key f o st ->
  tracks key f (match overrides_of provider !! key with Some v => Some (v, SourceAdmin) | None => o end) st'.
Proof.
  intros Hf Ha Ht. destruct provider as [[e|ov]|]; cbn in *; [done| |simplify_eq; by rewrite lookup_empty].
  assert (NoDup (range_map ov).*1) as Hnd by (rewrite range_map_perm; apply NoDup_fst_map_to_list).
  destruct (tracks_overrides key f o _ st st' Hf Hnd Ha Ht) as [H1 H2].
  destruct (ov !! key) as [v|] eqn:E.
  - apply H2. rewrite range_map_perm. by apply elem_of_map_to_list.
  - apply H1. rewrite range_map_perm. intros ([k v] & -> & Hin)%list_elem_of_fmap.
    apply elem_of_map_to_list in Hin. cbn in E. congruence.
Qed.

Lemma load_phases provider c eff :
  LoadWith url_parse m provider = inr (c, eff) ->
  exists st2 st3,
    (forall key f, field_of key = Some f -> key <> "paths.master_key" ->
       tracks key f (match env_value key with Some v => Some (v, SourceEnvironment) | None => (fun v => (v, SourceFile)) <$> file_values !! key end) st2) /\
    overrides_phase provider st2 = inr st3 /\ c = Normalize st3.1 /\ Validate url_parse c = None /\ eff = effective c st3.2.
Proof.
  unfold LoadWith. fold (overrides_phase provider). intros (s0 & Hfile & He)%then_inr.
  apply then_inr in He as (s1 & H1 & He). apply then_inr in He as (s2 & H2 & He). apply then_inr in He as (s3 & H3 & He).
  apply then_inr in He as (s4 & H4 & He). apply then_inr in He as (s5 & H5 & He). apply then_inr in He as (s6 & H6 & He).
  apply then_inr in He as (s7 & H7 & He). apply then_inr in He as (s8 & H8 & He). apply then_inr in He as ([c3 src3] & H9 & He).
  exists s8, (c3, src3). split.
  - intros key f Hf Hk. eapply tracks_master; [done|done|exact H8|]. eapply tracks_token; [done|exact H7|].
    eapply tracks_visited; [done| |by eapply tracks_file]. unfold visited.
    rewrite apply_env_app, H1. cbn [then_]. rewrite apply_env_app, H2. cbn [then_]. rewrite apply_env_app, H3. cbn [then_].
    rewrite apply_env_app, H4. cbn [then_]. rewrite apply_env_app, H5. exact H6.
  - split; [exact H9|]. destruct (Validate url_parse (Normalize c3)) eqn:Ev; [discriminate|].
    apply inr_pair in He as [<- <-]. cbn [fst snd]. split; [reflexivity|]. split; [exact Ev|reflexivity].
Qed.

(** C21 (functional): settings take effect by precedence.  When loading
    succeeds the configuration is valid, and every key except the master key
    has the value of its strongest source (stored override, environment
    variable, configuration file, default, in this order), read by the key's
    own parser, whatever order Go visits its maps in; the source that is
    reported is that one; and no override is of a key that only a deployment
    may change. *)
Theorem load_precedence (provider : option (string + gmap string string)) (c : Config) (eff : gmap string Effective) :
  LoadWith url_parse m provider = inr (c, eff) ->
  Validate url_parse c = None /\
  (forall key, is_Some (overrides_of provider !! key) -> UIOverridable key = true) /\
  exists pre, c = Normalize pre /\
  forall key f, field_of key = Some f -> key <> "paths.master_key" ->
    match source_of (overrides_of provider) key with
    | Some (v, src) =>
        (exists x, f_parse f v = Some x /\ f_put f x pre = pre) /\ ef_Source <$> eff !! key = Some src
    | None =>
        (forall x, f_put f x Defaults = Defaults -> f_put f x pre = pre) /\ ef_Source <$> eff !! key = Some SourceDefault
    end.
Proof.
  intros (st2 & st3 & Htr & Hov & Hc & Hval & Heff)%load_phases.
  split; [exact Hval|]. split; [exact (overrides_phase_allowed _ _ _ Hov)|]. exists (st3.1). split; [exact Hc|].
  intros key f Hf Hk. pose proof (overrides_phase_tracks _ _ _ _ _ _ Hf Hov (Htr key f Hf Hk)) as Ht.
  rewrite Heff, effective_source by exact (field_supported _ _ Hf).
  unfold source_of. destruct (overrides_of provider !! key) as [v|]; [|destruct (env_value key) as [v|]; [|destruct (file_values !! key) as [v|]]];
    destruct Ht as [-> Hx]; (split; [exact Hx|reflexivity]).
Qed.
End precedence.

(** ** Examples *)

(** A file, variables and stored overrides together *)
Definition sample_machine : machine := mkMachine
  (fun k => if k =?s "BINNACLE_HOST_INTERVAL" then "5s" else if k =?s "BINNACLE_FEATURE_PORTABILITY" then "true" else "")
  (fun p => p =?s "/etc/binnacle/binnacle.toml")
  (fun _ => Some ([("collection", TTable [("host_interval", TScalar "3s"); ("container_interval", TScalar "3s")])], []))
  (fun _ => None) (fun _ => None).
Definition sample_overrides : gmap string string := {["collection.host_interval" := "7s"]}.

Lemma loaded {A B} (r : A + B) (d : B) : (if r then false else true) = true -> r = inr (match r with inr b => b | inl _ => d end).
Proof. by destruct r. Qed.
Definition sample_load : Config * gmap string Effective :=
  match LoadWith (fun _ => None) sample_machine (Some (inr sample_overrides)) with inr r => r | inl _ => (Defaults, ∅) end.
Lemma load_precedence_witness :
  Collection_HostInterval (c_Collection sample_load.1) = 7 * Second /\
  Collection_ContainerInterval (c_Collection sample_load.1) = 3 * Second /\ Validate (fun _ => None) sample_load.1 = None.
Proof.
  split; [vm_compute; reflexivity|]. split; [vm_compute; reflexivity|].
  refine (proj1 (load_precedence (fun _ => None) sample_machine (Some (inr sample_overrides)) sample_load.1 sample_load.2 _)).
  rewrite <- surjective_pairing. apply loaded. vm_compute. reflexivity.
Defined.

Definition only_env (env value : string) : machine :=
  mkMachine (fun k => if k =?s env then value else "") (fun _ => false) (fun _ => None) (fun _ => None) (fun _ => None).
Definition only_file (entries : list (string * toml)) : machine :=
  mkMachine (fun _ => "") (fun _ => true) (fun _ => Some (entries, [])) (fun _ => None) (fun _ => None).
Definition retention_of (r : string + Config * gmap string Effective) : option (string * Z) :=
  match r with inr (c, _) => Some (Retention_Preset (c_Retention c), Retention_Raw (c_Retention c)) | inl _ => None end.

(** A preset from the deployment only changes the preset's name: the tiers
    stay those of the balanced preset, also after the stored overrides are
    resolved. *)
Lemma deployment_preset_ignored :
  let loaded := Load (fun _ => None) (only_env "BINNACLE_RETENTION_PRESET" "minimal") in
  retention_of loaded = Some ("minimal", 48 * Hour) /\
  (ok loaded ≫= fun r => ok (ResolveOverrides (fun _ => None) r.1 ∅) ≫= fun c => Some (Retention_Raw (c_Retention c))) = Some (48 * Hour) /\
  Retention_Raw <$> (RetentionPreset "minimal") = Some (12 * Hour).
Proof. split_and!; vm_compute; reflexivity. Qed.
(** The token's key passes the check of the file's keys and is unknown to
    the switch. *)
Lemma file_token_rejected :
  str_in "coolify.api_token" supported = true /\
  Load (fun _ => None) (only_file [("coolify", TTable [("api_token", TScalar "secret")])]) =
    inl "config file /etc/binnacle/binnacle.toml: unknown key coolify.api_token".
Proof. split; vm_compute; reflexivity. Qed.
(** Arrays are printed with brackets and blanks, which the key's parser does
    not take apart. *)
Lemma toml_arrays_misread :
  (exists e, Load (fun _ => None) (only_file [("http", TTable [("trusted_proxy_cidrs", TArray ["10.0.0.1/32"])])]) = inl e) /\
  (ok (Load (fun _ => None) (only_file [("logs", TTable [("redaction_patterns", TArray ["foo"; "bar"])])])) ≫=
    fun r => Some (Logs_RedactionPatterns (c_Logs r.1))) = Some ["[foo bar]"].
Proof. split; [eexists|]; vm_compute; reflexivity. Qed.
(** Tiers out of order are accepted as long as the preset is not advanced. *)
Lemma unordered_tiers_accepted :
  (ok (ResolveOverrides (fun _ => None) Defaults {["retention.raw" := "8760h"]}) ≫= fun c => Some (tiers_ok (c_Retention c))) = Some false.
Proof. vm_compute. reflexivity. Qed.
