(* ===== verification/Db.v ===== *)
(** * Statements, transactions and failures

    The services talk to one SQLite database through [database/sql].  A
    computation here reads and writes a database value [D]; every statement
    may fail, either because the engine refuses it (a violated constraint)
    or because of an engine, disk or context failure, which the schedule
    [w_faults] decides statement by statement.  [with_tx] is the
    [BeginTx] / [defer Rollback] / [Commit] pattern.  [w_rand] numbers the
    draws from [crypto/rand], [w_clock] lists the readings [time.Now] gives. *)

From stdpp Require Import base tactics list gmap strings pretty.
From Stdlib Require Import ZArith Lia Sorting.Sorted.
From S2P Require Import Prelude.

(** The errors the code distinguishes: [sql.ErrNoRows], a refused
    constraint, an engine failure, a nil dereference, and the rest. *)
Inductive gerr :=
  | ENoRows
  | EFault
  | EConstraint (what : string)
  | EPanic
  | EMsg (s : string).

#[export] Instance gerr_eq_dec : EqDecision gerr.
Proof. solve_decision. Defined.

Record world (D : Type) := World {
  w_db : D;
  w_faults : list bool;
  w_rand : nat;
  w_clock : list Z;
}.
Arguments World {D} _ _ _ _.
Arguments w_db {D} _.
Arguments w_faults {D} _.
Arguments w_rand {D} _.
Arguments w_clock {D} _.

Definition tx (D A : Type) : Type := world D -> (gerr + A) * world D.

(** Hex strings drawn from [crypto/rand]; distinct draws are distinct
    strings (16 random bytes do not repeat). *)
Class Rand := {
  rand_hex : nat -> string;
  rand_hex_inj : Inj (=) (=) rand_hex;
}.
#[export] Existing Instance rand_hex_inj.

(** A concrete source, for evaluating examples. *)
#[export] Instance pretty_rand : Rand := {| rand_hex := pretty |}.

Section ops.
Context {D : Type}.

Definition ret {A} (a : A) : tx D A := fun w => (inr a, w).
Definition throw {A} (e : gerr) : tx D A := fun w => (inl e, w).

Definition bind {A B} (m : tx D A) (k : A -> tx D B) : tx D B := fun w =>
  match m w with
  | (inl e, w') => (inl e, w')
  | (inr a, w') => k a w'
  end.

(** The next entry of the failure schedule; an exhausted schedule is a
    healthy engine. *)
Definition next_fault (w : world D) : bool * world D :=
  match w_faults w with
  | [] => (false, w)
  | b :: fs => (b, World (w_db w) fs (w_rand w) (w_clock w))
  end.

(** One statement.  A refused or failed statement changes nothing. *)
Definition exec {A} (f : D -> gerr + (A * D)) : tx D A := fun w =>
  let '(bad, w1) := next_fault w in
  if bad : bool then (inl EFault, w1)
  else match f (w_db w1) with
       | inl e => (inl e, w1)
       | inr (a, d) => (inr a, World d (w_faults w1) (w_rand w1) (w_clock w1))
       end.

Definition query {A} (f : D -> A) : tx D A := exec (fun d => inr (f d, d)).

(** [QueryRow(...).Scan(...)]: no row is an error. *)
Definition query_row {A} (f : D -> option A) : tx D A :=
  exec (fun d => match f d with Some a => inr (a, d) | None => inl ENoRows end).

(** [errors.Is(err, sql.ErrNoRows)] turned into an option; other errors go
    through. *)
Definition catch_norows {A} (m : tx D A) : tx D (option A) := fun w =>
  match m w with
  | (inl ENoRows, w') => (inr None, w')
  | (inl e, w') => (inl e, w')
  | (inr a, w') => (inr (Some a), w')
  end.

(** [_ = f()] and [_, _ = f()]: the error is dropped. *)
Definition ignore {A} (m : tx D A) : tx D unit := fun w => (inr (), (m w).2).

(** [v := a; _ = f(&v)]: on an error the variable keeps its value. *)
Definition or_default {A} (a : A) (m : tx D A) : tx D A := fun w =>
  match m w with (inl _, w') => (inr a, w') | r => r end.

(** The result or the error of a computation, as a value *)
Definition attempt {A} (m : tx D A) : tx D (gerr + A) := fun w =>
  let '(r, w') := m w in (inr r, w').

(** [if err != nil { return other }] *)
Definition map_err {A} (f : gerr -> gerr) (m : tx D A) : tx D A := fun w =>
  match m w with (inl e, w') => (inl (f e), w') | r => r end.

Definition rand_id `{Rand} : tx D string := fun w =>
  (inr (rand_hex (w_rand w)), World (w_db w) (w_faults w) (S (w_rand w)) (w_clock w)).

(** [time.Now()]; an exhausted list reads the epoch. *)
Definition time_now : tx D Z := fun w =>
  match w_clock w with
  | [] => (inr 0, w)
  | t :: ts => (inr t, World (w_db w) (w_faults w) (w_rand w) ts)
  end.

(** Begin, run, commit; every error on the way rolls the database back. *)
Definition with_tx {A} (m : tx D A) : tx D A := fun w =>
  let '(bad, w1) := next_fault w in
  if bad : bool then (inl EFault, w1)
  else match m w1 with
       | (inl e, w2) => (inl e, World (w_db w1) (w_faults w2) (w_rand w2) (w_clock w2))
       | (inr a, w2) =>
           let '(bad, w3) := next_fault w2 in
           if bad : bool then (inl EFault, World (w_db w1) (w_faults w3) (w_rand w3) (w_clock w3))
           else (inr a, w3)
       end.

(** [for _, v := range l { if err := f(v); err != nil { return err } }] *)
Fixpoint iter_tx {A} (f : A -> tx D unit) (l : list A) : tx D unit :=
  match l with
  | [] => ret ()
  | a :: l => bind (f a) (fun _ => iter_tx f l)
  end.

Lemma bind_inr {A B} (m : tx D A) (k : A -> tx D B) w b w' :
  bind m k w = (inr b, w') -> exists a w1, m w = (inr a, w1) /\ k a w1 = (inr b, w').
Proof. unfold bind. destruct (m w) as [[e|a] w1]; [done|]. eauto. Qed.
Lemma query_inr {A} (f : D -> A) w a w' :
  query f w = (inr a, w') -> a = f (w_db w) /\ w_db w' = w_db w.
Proof.
  unfold query, exec, next_fault. destruct (w_faults w) as [|[] fs]; [| done |]; intros [= <- <-]; done.
Qed.
End ops.

Declare Scope tx_scope.
Delimit Scope tx_scope with tx.
Notation "x <- m ;; k" := (bind m (fun x => k))
  (at level 100, m at next level, right associativity) : tx_scope.
Notation "' p <- m ;; k" := (bind m (fun x => match x with p => k end))
  (at level 100, p pattern, m at next level, right associativity) : tx_scope.
Notation "m ;;; k" := (bind m (fun _ => k)) (at level 100, right associativity) : tx_scope.
#[global] Open Scope tx_scope.

(** ** A Hoare logic for statements

    [triple P m Q E]: from a database satisfying [P], [m] either returns a
    value with [Q], or an error with [E]. *)
Section triples.
Context {D : Type}.
Implicit Types (P : D -> Prop) (E : gerr -> D -> Prop).

Definition triple {A} P (m : tx D A) (Q : A -> D -> Prop) E : Prop :=
  forall w, P (w_db w) ->
    match m w with
    | (inr a, w') => Q a (w_db w')
    | (inl e, w') => E e (w_db w')
    end.

Lemma triple_conseq {A} P P' (m : tx D A) Q Q' E E' :
  triple P' m Q' E' ->
  (forall d, P d -> P' d) ->
  (forall a d, Q' a d -> Q a d) ->
  (forall e d, E' e d -> E e d) ->
  triple P m Q E.
Proof.
  intros H HP HQ HE w Hw. specialize (H w (HP _ Hw)).
  destruct (m w) as [[]]; auto.
Qed.

Lemma triple_ret {A} (a : A) P Q E : (forall d, P d -> Q a d) -> triple P (ret a) Q E.
Proof. intros H w Hw. apply H, Hw. Qed.

Lemma triple_throw {A} e P (Q : A -> D -> Prop) E :
  (forall d, P d -> E e d) -> triple P (throw e) Q E.
Proof. intros H w Hw. apply H, Hw. Qed.

Lemma triple_bind {A B} P (m : tx D A) (k : A -> tx D B) R Q E :
  triple P m R E -> (forall a, triple (R a) (k a) Q E) -> triple P (bind m k) Q E.
Proof.
  intros Hm Hk w Hw. unfold bind. specialize (Hm w Hw).
  destruct (m w) as [[e|a] w']; [done|]. by apply Hk.
Qed.

Lemma next_fault_db (w : world D) : w_db (next_fault w).2 = w_db w.
Proof. unfold next_fault. by destruct (w_faults w). Qed.

Lemma triple_exec {A} (f : D -> gerr + (A * D)) P Q E :
  (forall d, P d -> E EFault d) ->
  (forall d, P d -> match f d with inl e => E e d | inr (a, d') => Q a d' end) ->
  triple P (exec f) Q E.
Proof.
  intros HF HQ w Hw. unfold exec. pose proof (next_fault_db w) as Hdb.
  destruct (next_fault w) as [bad w1]; cbn in *. rewrite <- Hdb in Hw.
  destruct bad; [by apply HF|]. specialize (HQ _ Hw).
  by destruct (f (w_db w1)) as [|[]].
Qed.

Lemma triple_query {A} (f : D -> A) P Q E :
  (forall d, P d -> E EFault d) -> (forall d, P d -> Q (f d) d) -> triple P (query f) Q E.
Proof. intros HF HQ. by apply triple_exec. Qed.

Lemma triple_query_row {A} (f : D -> option A) P Q E :
  (forall d, P d -> E EFault d) ->
  (forall d, P d -> match f d with Some a => Q a d | None => E ENoRows d end) ->
  triple P (query_row f) Q E.
Proof.
  intros HF HQ. apply triple_exec; [done|]. intros d Hd. specialize (HQ d Hd). by destruct (f d).
Qed.

Lemma triple_catch {A} (m : tx D A) P Q E :
  triple P m (fun a d => Q (Some a) d) (fun e d => if decide (e = ENoRows) then Q None d else E e d) ->
  triple P (catch_norows m) Q E.
Proof.
  intros H w Hw. specialize (H w Hw). unfold catch_norows.
  destruct (m w) as [[e|a] w']; [|done]. case_decide as He; [by subst|]. by destruct e.
Qed.

Lemma triple_rand `{Rand} P Q E : (forall s d, P d -> Q s d) -> triple P rand_id Q E.
Proof. intros HQ w Hw. by apply HQ. Qed.

Lemma triple_now P Q E : (forall t d, P d -> Q t d) -> triple P time_now Q E.
Proof. intros HQ w Hw. unfold time_now. by destruct (w_clock w); apply HQ. Qed.

Lemma triple_ignore {A} (m : tx D A) P Q E :
  triple P m (fun _ d => Q () d) (fun _ d => Q () d) -> triple P (ignore m) Q E.
Proof. intros H w Hw. specialize (H w Hw). unfold ignore. by destruct (m w) as [[]]. Qed.

Lemma triple_iter {A} (I : D -> Prop) (f : A -> tx D unit) l E :
  (forall a, a ∈ l -> triple I (f a) (fun _ d => I d) E) ->
  triple I (iter_tx f l) (fun _ d => I d) E.
Proof.
  induction l as [|a l IH]; intros H; cbn.
  - by apply triple_ret.
  - eapply triple_bind; [apply H; set_solver|]. intros ?. apply IH. set_solver.
Qed.

(** A transaction either commits all of its effect or none of it. *)
Lemma triple_with_tx {A} P (m : tx D A) (Q : A -> D -> Prop) E :
  triple P m Q (fun _ _ => True) ->
  (forall e d, P d -> E e d) ->
  triple P (with_tx m) Q E.
Proof.
  intros Hm HE w Hw. unfold with_tx. pose proof (next_fault_db w) as Hdb.
  destruct (next_fault w) as [bad w1]; cbn in *. rewrite <- Hdb in Hw.
  destruct bad; [by apply HE|]. specialize (Hm w1 Hw).
  destruct (m w1) as [[e|a] w2]; cbn; [by apply HE|].
  pose proof (next_fault_db w2) as Hdb2.
  destruct (next_fault w2) as [bad w3]; cbn in *. rewrite <- Hdb2 in Hm.
  destruct bad; [by apply HE|done].
Qed.

(** Atomicity, stated on a run. *)
Lemma with_tx_atomic {A} (m : tx D A) (w w' : world D) e :
  with_tx m w = (inl e, w') -> w_db w' = w_db w.
Proof.
  intros Hrun.
  assert (triple (fun d => d = w_db w) (with_tx m) (fun _ _ => True) (fun _ d => d = w_db w)) as H.
  { apply triple_with_tx; [|done]. intros w0 _. by destruct (m w0) as [[]]. }
  specialize (H w eq_refl). by rewrite Hrun in H.
Qed.
End triples.

(** ** Frames

    [preserves I m]: [m] keeps [I] whether it succeeds or fails. *)
Definition preserves {D A} (I : D -> Prop) (m : tx D A) : Prop :=
  triple I m (fun _ d => I d) (fun _ d => I d).

Section preserves.
Context {D : Type}.
Implicit Types I : D -> Prop.

Lemma preserves_ret {A} (a : A) I : preserves I (ret a).
Proof. by apply triple_ret. Qed.
Lemma preserves_throw {A} e I : preserves I (@throw D A e).
Proof. by apply triple_throw. Qed.
Lemma preserves_bind {A B} (m : tx D A) (k : A -> tx D B) I :
  preserves I m -> (forall a, preserves I (k a)) -> preserves I (bind m k).
Proof. intros Hm Hk. eapply triple_bind; [exact Hm|]. intros a. apply Hk. Qed.
Lemma preserves_exec {A} (f : D -> gerr + (A * D)) I :
  (forall d, I d -> match f d with inl _ => True | inr (_, d') => I d' end) ->
  preserves I (exec f).
Proof.
  intros H. apply triple_exec; [done|]. intros d Hd. specialize (H d Hd). by destruct (f d) as [|[]].
Qed.
Lemma preserves_query {A} (f : D -> A) I : preserves I (query f).
Proof. by apply preserves_exec. Qed.
Lemma preserves_query_row {A} (f : D -> option A) I : preserves I (query_row f).
Proof. apply preserves_exec. intros d Hd. by destruct (f d). Qed.
Lemma preserves_catch {A} (m : tx D A) I : preserves I m -> preserves I (catch_norows m).
Proof.
  intros H w Hw. specialize (H w Hw). unfold catch_norows.
  by destruct (m w) as [[[]|] w'].
Qed.
Lemma preserves_rand `{Rand} I : preserves I (@rand_id D _).
Proof. by apply triple_rand. Qed.
Lemma preserves_now I : preserves I (@time_now D).
Proof. by apply triple_now. Qed.
Lemma preserves_ignore {A} (m : tx D A) I : preserves I m -> preserves I (ignore m).
Proof. intros H. by apply triple_ignore. Qed.
Lemma preserves_default {A} (a : A) (m : tx D A) I : preserves I m -> preserves I (or_default a m).
Proof. intros H w Hw. specialize (H w Hw). unfold or_default. by destruct (m w) as [[]]. Qed.
Lemma preserves_map_err {A} f (m : tx D A) I : preserves I m -> preserves I (map_err f m).
Proof. intros H w Hw. specialize (H w Hw). unfold map_err. by destruct (m w) as [[] ?]. Qed.
Lemma preserves_attempt {A} (m : tx D A) I : preserves I m -> preserves I (attempt m).
Proof. intros H w Hw. specialize (H w Hw). unfold attempt. by destruct (m w) as [[] ?]. Qed.
Lemma preserves_iter {A} (f : A -> tx D unit) l I :
  (forall a, preserves I (f a)) -> preserves I (iter_tx f l).
Proof. intros H. apply triple_iter. intros a _. apply H. Qed.
Lemma preserves_with_tx {A} (m : tx D A) I :
  triple I m (fun _ d => I d) (fun _ _ => True) -> preserves I (with_tx m).
Proof. intros H. by apply triple_with_tx. Qed.
Lemma preserves_weaken {A} (m : tx D A) I :
  preserves I m -> triple I m (fun _ d => I d) (fun _ _ => True).
Proof. intros H. by eapply triple_conseq. Qed.
End preserves.

#[export] Hint Resolve preserves_ret preserves_throw preserves_query preserves_query_row
  preserves_rand preserves_now preserves_catch preserves_ignore preserves_weaken : go.

(** One step of a frame proof. *)
Ltac frame_step :=
  match goal with
  | |- preserves _ (bind _ _) => apply preserves_bind; [|intros ?]
  | |- preserves _ (ret _) => apply preserves_ret
  | |- preserves _ (throw _) => apply preserves_throw
  | |- preserves _ (query _) => apply preserves_query
  | |- preserves _ (query_row _) => apply preserves_query_row
  | |- preserves _ (catch_norows _) => apply preserves_catch
  | |- preserves _ (ignore _) => apply preserves_ignore
  | |- preserves _ (map_err _ _) => apply preserves_map_err
  | |- preserves _ (attempt _) => apply preserves_attempt
  | |- preserves _ (or_default _ _) => apply preserves_default
  | |- preserves _ rand_id => apply preserves_rand
  | |- preserves _ time_now => apply preserves_now
  | |- preserves _ (iter_tx _ _) => apply preserves_iter; intros ?
  | |- preserves _ (with_tx _) => apply preserves_with_tx, preserves_weaken
  | |- preserves _ (match ?x with _ => _ end) => destruct x
  end.
Ltac frame_auto := repeat frame_step.

(** ** Symbolic execution

    [runs d m Q]: every run of [m] from the database [d] that succeeds ends
    with [Q].  What a failing transaction did on the way does not matter,
    since it is rolled back. *)
Definition runs {D A} (d : D) (m : tx D A) (Q : A -> D -> Prop) : Prop :=
  triple (fun d' => d' = d) m Q (fun _ _ => True).

Section runs.
Context {D : Type}.
Implicit Types d : D.

Lemma runs_ret {A} d (a : A) (Q : A -> D -> Prop) : Q a d -> runs d (ret a) Q.
Proof. intros H. apply triple_ret. by intros ? ->. Qed.
Lemma runs_throw {A} d e (Q : A -> D -> Prop) : runs d (throw e) Q.
Proof. by apply triple_throw. Qed.
Lemma runs_bind {A B} d (m : tx D A) (k : A -> tx D B) Q :
  runs d m (fun a d' => runs d' (k a) Q) -> runs d (bind m k) Q.
Proof.
  intros H. eapply triple_bind; [exact H|]. intros a w Hw. by apply (Hw w).
Qed.
Lemma runs_mono {A} d (m : tx D A) (Q Q' : A -> D -> Prop) :
  runs d m Q' -> (forall a d', Q' a d' -> Q a d') -> runs d m Q.
Proof. intros H HQ. by eapply triple_conseq. Qed.
Lemma runs_exec {A} d (f : D -> gerr + (A * D)) (Q : A -> D -> Prop) :
  (forall a d', f d = inr (a, d') -> Q a d') -> runs d (exec f) Q.
Proof.
  intros H. apply triple_exec; [done|]. intros ? ->. destruct (f d) as [|[]]; auto.
Qed.
Lemma runs_query {A} d (f : D -> A) (Q : A -> D -> Prop) : Q (f d) d -> runs d (query f) Q.
Proof. intros H. apply runs_exec. by intros ? ? [= <- <-]. Qed.
Lemma runs_query_row {A} d (f : D -> option A) (Q : A -> D -> Prop) :
  (forall a, f d = Some a -> Q a d) -> runs d (query_row f) Q.
Proof. intros H. apply runs_exec. intros a d'. destruct (f d); [|done]. intros [= <- <-]. auto. Qed.
Lemma runs_find {A} d (f : D -> option A) (Q : option A -> D -> Prop) :
  Q (f d) d -> runs d (catch_norows (query_row f)) Q.
Proof.
  intros HQ. apply triple_catch, triple_query_row.
  - intros ? ->. by rewrite decide_False.
  - intros ? ->. destruct (f d); [done|]. by rewrite decide_True.
Qed.
Lemma runs_default {A} d (a : A) (f : D -> A) (Q : A -> D -> Prop) :
  Q (f d) d -> Q a d -> runs d (or_default a (query f)) Q.
Proof.
  intros Hf Ha w Hw. unfold or_default, query, exec. pose proof (next_fault_db w) as Hdb.
  destruct (next_fault w) as [[] w1]; cbn in *; rewrite ?Hdb, Hw; done.
Qed.
Lemma runs_attempt {A} d (m : tx D A) (Q : A -> D -> Prop) :
  runs d m Q -> runs d (attempt m) (fun r d' => match r with inr a => Q a d' | inl _ => True end).
Proof. intros H w Hw. specialize (H w Hw). unfold attempt. by destruct (m w) as [[] ?]. Qed.
Lemma runs_map_err {A} d f (m : tx D A) Q : runs d m Q -> runs d (map_err f m) Q.
Proof. intros H w Hw. specialize (H w Hw). unfold map_err. by destruct (m w) as [[] ?]. Qed.
Lemma runs_rand `{Rand} d (Q : string -> D -> Prop) : (forall s, Q s d) -> runs d rand_id Q.
Proof. intros H'. apply triple_rand. by intros s ? ->. Qed.
Lemma runs_now d (Q : Z -> D -> Prop) : (forall t, Q t d) -> runs d time_now Q.
Proof. intros H'. apply triple_now. by intros t ? ->. Qed.
Lemma runs_preserves {A} d (m : tx D A) (I : D -> Prop) :
  preserves I m -> I d -> runs d m (fun _ d' => I d').
Proof. intros H HI. eapply triple_conseq; [exact H|by intros ? ->|done|done]. Qed.
Lemma runs_and {A} d (m : tx D A) (Q1 Q2 : A -> D -> Prop) :
  runs d m Q1 -> runs d m Q2 -> runs d m (fun a d' => Q1 a d' /\ Q2 a d').
Proof.
  intros H1 H2 w Hw. specialize (H1 w Hw). specialize (H2 w Hw). by destruct (m w) as [[]].
Qed.
Lemma runs_iter {A} (I : D -> Prop) (f : A -> tx D unit) l d :
  (forall a d', In a l -> I d' -> runs d' (f a) (fun _ d'' => I d'')) -> I d ->
  runs d (iter_tx f l) (fun _ d' => I d').
Proof.
  revert d. induction l as [|a l IH]; intros d Hf Hd; cbn; [by apply runs_ret|].
  apply runs_bind. eapply runs_mono; [apply Hf; cbn; auto|]. intros ? d' Hd'.
  apply IH; [|done]. intros; apply Hf; cbn; auto.
Qed.
Lemma runs_tx {A} d (m : tx D A) Q : runs d m Q -> runs d (with_tx m) Q.
Proof. intros H. by apply triple_with_tx. Qed.
(** A run that cannot succeed *)
Lemma runs_never {A} d (m : tx D A) (w : world D) :
  runs d m (fun _ _ => False) -> w_db w = d -> exists e, (m w).1 = inl e.
Proof. intros H Hw. specialize (H w Hw). destruct (m w) as [[e|a] w']; [by exists e|done]. Qed.
Lemma runs_with_tx {A} d (m : tx D A) Q :
  runs d m Q -> triple (fun d' => d' = d) (with_tx m) Q (fun _ d' => d' = d).
Proof. intros H. by apply triple_with_tx. Qed.
(** A transaction keeps an invariant when every successful run of its body does. *)
Lemma tx_preserves {A} (m : tx D A) (I : D -> Prop) :
  (forall d, I d -> runs d m (fun _ d' => I d')) -> preserves I (with_tx m).
Proof.
  intros H. apply preserves_with_tx. intros w Hw. by apply (H (w_db w) Hw w).
Qed.
End runs.

(** One step of symbolic execution; leaves the statements with hypotheses to
    the caller. *)
Ltac sym_step :=
  match goal with
  | |- runs _ (bind _ _) _ => apply runs_bind
  | |- runs _ (ret _) _ => apply runs_ret
  | |- runs _ (throw _) _ => apply runs_throw
  | |- runs _ (query _) _ => apply runs_query
  | |- runs _ (query_row _) _ => apply runs_query_row; intros ? ?
  | |- runs _ (catch_norows (query_row _)) _ => apply runs_find
  | |- runs _ (map_err _ _) _ => apply runs_map_err
  | |- runs _ rand_id _ => apply runs_rand; intros ?
  | |- runs _ time_now _ => apply runs_now; intros ?
  | |- runs _ (exec _) _ => apply runs_exec; intros ? ? ?
  | |- runs _ (match ?x with _ => _ end) _ => destruct x eqn:?
  end.
Ltac sym := repeat sym_step.

Lemma next_fault_clock {D} (w : world D) : w_clock (next_fault w).2 = w_clock w.
Proof. unfold next_fault. by destruct (w_faults w). Qed.
Lemma query_row_inv {D A} (f : D -> option A) (w w' : world D) a :
  query_row f w = (inr a, w') -> f (w_db w) = Some a /\ w_clock w' = w_clock w /\ w_db w' = w_db w.
Proof.
  unfold query_row, exec. pose proof (next_fault_db w) as Hd. pose proof (next_fault_clock w) as Hc.
  destruct (next_fault w) as [[] w1]; cbn in *; [done|]. rewrite Hd.
  destruct (f (w_db w)) eqn:E; intros; simplify_eq. by cbn.
Qed.

(** ** Tables

    A table whose order matters is the list of its rows in insertion order. *)
Section tables.
Context {R : Type}.
Implicit Types (p : R -> bool) (t : list R).

Definition sql_update p (f : R -> R) t : list R := map (fun r => if p r then f r else r) t.
Definition sql_delete p t : list R := List.filter (fun r => negb (p r)) t.
Definition sql_count p t : Z := Z.of_nat (length (List.filter p t)).
Definition sql_exists p t : bool := existsb p t.
Definition sql_find p t : option R := List.find p t.

(** [ORDER BY key DESC LIMIT 1] over the rows satisfying [p]. *)
Definition sql_latest p (key : R -> Z) t : option R :=
  fold_left (fun acc r =>
    if p r then
      match acc with
      | None => Some r
      | Some b => if key b <? key r then Some r else acc
      end
    else acc) t None.

Lemma sql_exists_true p t : sql_exists p t = true <-> exists r, In r t /\ p r = true.
Proof. apply existsb_exists. Qed.
Lemma sql_exists_false p t : sql_exists p t = false <-> forall r, In r t -> p r = false.
Proof.
  unfold sql_exists. rewrite <- not_true_iff_false, existsb_exists. split.
  - intros H r Hr. destruct (p r) eqn:E; [|done]. exfalso; eauto.
  - intros H (r & Hr & E). by rewrite H in E.
Qed.
Lemma in_sql_update p f t r :
  In r (sql_update p f t) <-> exists r0, In r0 t /\ r = (if p r0 then f r0 else r0).
Proof. unfold sql_update. rewrite in_map_iff. naive_solver. Qed.
Lemma in_sql_delete p t r : In r (sql_delete p t) <-> In r t /\ p r = false.
Proof. unfold sql_delete. by rewrite filter_In, negb_true_iff. Qed.
Lemma sql_update_map {K} (key : R -> K) p f t :
  (forall r, key (f r) = key r) -> map key (sql_update p f t) = map key t.
Proof.
  intros H. unfold sql_update. rewrite map_map. apply map_ext. intros r. by destruct (p r).
Qed.
Lemma sql_find_some p t r : sql_find p t = Some r -> In r t /\ p r = true.
Proof. apply find_some. Qed.
Lemma sql_find_none p t : sql_find p t = None -> forall r, In r t -> p r = false.
Proof. intros H r Hr. by eapply find_none. Qed.

Lemma sql_latest_acc p key t acc :
  match fold_left (fun acc r =>
    if p r then
      match acc with
      | None => Some r
      | Some b => if key b <? key r then Some r else acc
      end
    else acc) t acc with
  | None => acc = None /\ (forall r, In r t -> p r = false)
  | Some b => (acc = Some b \/ (In b t /\ p b = true)) /\
      (forall r, In r t -> p r = true -> key r <= key b) /\
      (forall a, acc = Some a -> key a <= key b)
  end.
Proof.
  revert acc. induction t as [|x t IH]; intros acc; cbn [fold_left].
  - destruct acc; naive_solver lia.
  - specialize (IH (if p x then match acc with
      | None => Some x | Some b => if key b <? key x then Some x else acc end else acc)).
    destruct (fold_left _ t _) as [b|].
    + destruct IH as (H1 & H2 & H3).
      destruct (p x) eqn:Ep; [destruct acc as [a|]; [destruct (key a <? key x) eqn:El|]|];
        split_and!; cbn; intros; destruct_or?; destruct_and?; simplify_eq; eauto;
        first [congruence | specialize (H3 _ eq_refl); lia].
    + destruct IH as (H1 & H2).
      destruct (p x) eqn:Ep; [destruct acc as [a|]; [destruct (key a <? key x) eqn:El|]|];
        simplify_eq; split; [done|]; intros r [->|]; eauto.
Qed.

Lemma sql_latest_some p key t b :
  sql_latest p key t = Some b ->
  In b t /\ p b = true /\ forall r, In r t -> p r = true -> key r <= key b.
Proof.
  unfold sql_latest. intros H. pose proof (sql_latest_acc p key t None) as Ha.
  rewrite H in Ha. naive_solver.
Qed.
Lemma sql_latest_none p key t :
  sql_latest p key t = None -> forall r, In r t -> p r = false.
Proof.
  unfold sql_latest. intros H. pose proof (sql_latest_acc p key t None) as Ha.
  rewrite H in Ha. naive_solver.
Qed.

Lemma sql_count_app p t1 t2 : sql_count p (t1 ++ t2) = sql_count p t1 + sql_count p t2.
Proof. unfold sql_count. rewrite List.filter_app, length_app. lia. Qed.
Lemma sql_count_cons p r t : sql_count p (r :: t) = (if p r then 1 else 0) + sql_count p t.
Proof. unfold sql_count. cbn. destruct (p r); cbn [length]; lia. Qed.
Lemma sql_count_nonneg p t : 0 <= sql_count p t.
Proof. unfold sql_count. lia. Qed.
Lemma sql_count_zero p t : sql_count p t = 0 <-> forall r, In r t -> p r = false.
Proof.
  induction t as [|x t IH]; [by cbn|]. rewrite sql_count_cons. pose proof (sql_count_nonneg p t).
  cbn. split.
  - intros Hc r Hr. destruct (p x) eqn:Ep; [lia|]. destruct Hr as [<-|Hr]; [done|].
    apply IH; [lia|done].
  - intros Hr. rewrite (Hr x) by auto. cbn. apply IH. auto.
Qed.
Lemma sql_count_ext p q t : (forall r, In r t -> p r = q r) -> sql_count p t = sql_count q t.
Proof.
  induction t as [|x t IH]; [done|]. cbn. intros Hr. rewrite !sql_count_cons, Hr by auto.
  f_equal. auto.
Qed.
Lemma sql_count_update p q f t :
  (forall r, In r t -> q r = true -> p (f r) = p r) -> sql_count p (sql_update q f t) = sql_count p t.
Proof.
  induction t as [|x t IH]; [done|]. intros Hr. cbn [sql_update map]. rewrite !sql_count_cons.
  fold (sql_update q f t). rewrite IH by (intros; apply Hr; cbn; auto).
  destruct (q x) eqn:Eq; [|done]. by rewrite Hr by (cbn; auto).
Qed.
Lemma sql_count_delete p q t :
  (forall r, In r t -> q r = true -> p r = false) -> sql_count p (sql_delete q t) = sql_count p t.
Proof.
  induction t as [|x t IH]; [done|]. intros Hr. cbn [sql_delete List.filter]. rewrite sql_count_cons.
  fold (sql_delete q t). rewrite <- IH by (intros; apply Hr; cbn; auto).
  destruct (q x) eqn:Eq; cbn; [by rewrite Hr by (cbn; auto)|]. by rewrite sql_count_cons.
Qed.
(** Updating one row through its key takes it out of the count. *)
Lemma sql_count_update_one (key : R -> string) p f t a :
  NoDup (map key t) -> In a t -> p a = true -> p (f a) = false ->
  sql_count p (sql_update (fun r => String.eqb (key r) (key a)) f t) = sql_count p t - 1.
Proof.
  intros Hnd Ha Hp Hf. induction t as [|x t IH]; [done|].
  cbn [sql_update map] in *. rewrite !sql_count_cons. fold (sql_update (fun r => String.eqb (key r) (key a)) f t).
  apply NoDup_cons in Hnd as [Hx Hnd]. destruct Ha as [->|Ha].
  - rewrite String.eqb_refl, Hp, Hf. rewrite sql_count_update; [lia|].
    intros r Hr Hk%String.eqb_eq. exfalso. apply Hx. rewrite <- Hk.
    by apply list_elem_of_In, in_map.
  - rewrite (IH Hnd Ha). destruct (String.eqb (key x) (key a)) eqn:E; [|lia].
    apply String.eqb_eq in E. exfalso. apply Hx. rewrite E. by apply list_elem_of_In, in_map.
Qed.

Lemma nodup_map_delete {K} (key : R -> K) q t :
  NoDup (map key t) -> NoDup (map key (sql_delete q t)).
Proof.
  induction t as [|x t IH]; cbn; [done|]. intros [Hx Hnd]%NoDup_cons.
  destruct (q x); cbn; [auto|]. apply NoDup_cons. split; [|auto].
  intros (r & Hk & Hr)%list_elem_of_fmap. apply Hx. rewrite Hk.
  apply list_elem_of_fmap_2, list_elem_of_In. by apply list_elem_of_In, in_sql_delete in Hr as [? _].
Qed.
Lemma nodup_key_inj {K} (key : R -> K) t a b :
  NoDup (map key t) -> In a t -> In b t -> key a = key b -> a = b.
Proof.
  induction t as [|x t IH]; cbn; [done|]. intros [Hx Hnd]%NoDup_cons Ha Hb Hk.
  destruct Ha as [->|Ha], Hb as [->|Hb]; auto; exfalso; apply Hx.
  - rewrite Hk. by apply list_elem_of_In, in_map.
  - rewrite <- Hk. by apply list_elem_of_In, in_map.
Qed.

(** [ORDER BY]: a stable insertion sort by [le], the comparison of the sort
    keys. *)
Fixpoint sql_insert (le : R -> R -> bool) (x : R) (l : list R) : list R :=
  match l with
  | [] => [x]
  | y :: l' => if le y x then y :: sql_insert le x l' else x :: l
  end.
Definition sql_order_by (le : R -> R -> bool) (l : list R) : list R :=
  fold_left (fun acc x => sql_insert le x acc) l [].

(** [LIMIT n OFFSET k] *)
Definition sql_limit (n k : Z) (l : list R) : list R :=
  firstn (Z.to_nat n) (skipn (Z.to_nat k) l).

Lemma sql_insert_perm le x l : sql_insert le x l ≡ₚ x :: l.
Proof.
  induction l as [|y l IH]; cbn; [done|]. destruct (le y x); [|done].
  rewrite IH. constructor.
Qed.
Lemma sql_order_by_perm le l : sql_order_by le l ≡ₚ l.
Proof.
  unfold sql_order_by. cut (forall acc,
    fold_left (fun acc x => sql_insert le x acc) l acc ≡ₚ acc ++ l); [intros H; apply (H [])|].
  induction l as [|x l IH]; intros acc; cbn; [by rewrite app_nil_r|].
  rewrite IH, sql_insert_perm, <- Permutation_middle. done.
Qed.
Lemma sql_insert_sorted le x l :
  (forall a b, le a b = false -> le b a = true) ->
  Sorted (fun a b => le a b = true) l -> Sorted (fun a b => le a b = true) (sql_insert le x l).
Proof.
  intros Htot. induction l as [|y l IH]; cbn; intros Hs; [auto|].
  destruct (le y x) eqn:E.
  - inversion_clear Hs as [|? ? Hs' Hd]. constructor; [auto|].
    destruct l as [|z l]; cbn; [auto|]. destruct (le z x); constructor; auto.
    by inversion_clear Hd.
  - constructor; [done|]. constructor. auto.
Qed.
Lemma sql_order_by_sorted le l :
  (forall a b, le a b = false -> le b a = true) ->
  Sorted (fun a b => le a b = true) (sql_order_by le l).
Proof.
  intros Htot. unfold sql_order_by.
  cut (forall acc, Sorted (fun a b => le a b = true) acc ->
    Sorted (fun a b => le a b = true) (fold_left (fun acc x => sql_insert le x acc) l acc)); [auto|].
  induction l as [|x l IH]; intros acc Hs; cbn; [done|]. by apply IH, sql_insert_sorted.
Qed.
(** [DELETE ... WHERE rowid IN (SELECT rowid ... WHERE p LIMIT n)] *)
Fixpoint delete_first (p : R -> bool) (n : nat) (t : list R) : list R :=
  match t, n with
  | r :: t', S n' => if p r then delete_first p n' t' else r :: delete_first p n t'
  | _, _ => t
  end.

Lemma delete_first_incl p n t r : In r (delete_first p n t) -> In r t.
Proof.
  revert n. induction t as [|x t IH]; intros [|n]; cbn; [done|done|done|].
  destruct (p x); [intros ?%IH; auto|]. intros [->|?%IH]; auto.
Qed.
(** What is not selected stays, in order. *)
Lemma delete_first_rest p n t : sql_delete p (delete_first p n t) = sql_delete p t.
Proof.
  unfold sql_delete. revert n. induction t as [|x t IH]; intros [|n]; [done|done|done|]. cbn [delete_first].
  destruct (p x) eqn:E; cbn [List.filter]; rewrite E; cbn [negb]; [apply IH|f_equal; apply IH].
Qed.
Lemma delete_first_count p n t :
  sql_count p (delete_first p n t) = Z.max 0 (sql_count p t - Z.of_nat n).
Proof.
  revert n. induction t as [|x t IH]; intros n; [cbn; by destruct n|].
  destruct n as [|n]; [cbn [delete_first]; pose proof (sql_count_nonneg p (x :: t)); lia|].
  cbn [delete_first]. destruct (p x) eqn:E; rewrite !sql_count_cons, ?E, IH; [lia|].
  pose proof (sql_count_nonneg p t). lia.
Qed.
Lemma delete_first_length p n t :
  Z.of_nat (length t) - Z.of_nat (length (delete_first p n t)) = Z.min (Z.of_nat n) (sql_count p t).
Proof.
  revert n. induction t as [|x t IH]; intros n; [destruct n; unfold sql_count; cbn [delete_first List.filter length]; lia|].
  destruct n as [|n]; [cbn [delete_first]; pose proof (sql_count_nonneg p (x :: t)); lia|].
  cbn [delete_first]. destruct (p x) eqn:E; rewrite sql_count_cons, E; cbn [length]; [specialize (IH n)|specialize (IH (S n))]; lia.
Qed.
Lemma sql_delete_none p t : sql_count p t = 0 -> sql_delete p t = t.
Proof.
  rewrite sql_count_zero. intros H. unfold sql_delete. induction t as [|x t IH]; [done|]. cbn [List.filter].
  rewrite (H x) by (by left). cbn [negb]. f_equal. apply IH. intros r Hr. apply H. by right.
Qed.

Lemma sql_limit_length n k l : 0 <= n -> Z.of_nat (length (sql_limit n k l)) <= n.
Proof. intros. unfold sql_limit. rewrite length_firstn. lia. Qed.
End tables.

Lemma sql_find_app {R} (p : R -> bool) t u :
  sql_find p (t ++ u) = match sql_find p t with Some r => Some r | None => sql_find p u end.
Proof. induction t as [|r t IH]; cbn; [done|]. by destruct (p r). Qed.

(** SQLite's [length] of a text: the characters before the first NUL, a byte
    from 192 up taking the continuation bytes that follow it. *)
Fixpoint char_length_from (lead : bool) (s : string) : Z :=
  match s with
  | String.EmptyString => 0
  | String.String c s =>
      let n := Z.of_nat (Ascii.nat_of_ascii c) in
      if lead && ((128 <=? n) && (n <? 192)) then char_length_from true s
      else if n =? 0 then 0 else 1 + char_length_from (192 <=? n) s
  end.
Definition char_length : string -> Z := char_length_from false.

(** ** Constrained statements *)

(** [INSERT] into a table whose primary key is [key]. *)
Definition insert_pk {R} (key : R -> string) (r : R) (t : list R) : gerr + list R :=
  if existsb (fun r' => key r' =?s key r) t then inl (EConstraint "PRIMARY KEY")
  else inr (t ++ [r]).

Lemma insert_pk_inv {R} (key : R -> string) r t t' :
  insert_pk key r t = inr t' -> t' = t ++ [r] /\ forall r', In r' t -> key r' <> key r.
Proof.
  unfold insert_pk. case_match eqn:E; [done|]. intros [= <-]. split; [done|].
  intros r' Hr' Hk. apply not_true_iff_false in E. apply E, existsb_exists.
  exists r'. by rewrite Hk, String.eqb_refl.
Qed.

Lemma insert_pk_nodup {R} (key : R -> string) r t t' :
  insert_pk key r t = inr t' -> NoDup (map key t) -> NoDup (map key t').
Proof.
  intros [-> Hne]%insert_pk_inv Hnd. rewrite map_app. apply NoDup_app. split_and!; [done| |].
  - intros k Hk [<-|[]]%list_elem_of_In. apply list_elem_of_In, in_map_iff in Hk as (r' & Hk & Hin).
    by apply (Hne r').
  - repeat constructor. by intros ?%not_elem_of_nil.
Qed.

Lemma insert_pk_fresh {R} (key : R -> string) r t :
  sql_find (fun x => key x =?s key r) t = None -> insert_pk key r t = inr (t ++ [r]).
Proof.
  intros Hf. unfold insert_pk. destruct (existsb _ t) eqn:E; [|done].
  apply existsb_exists in E as (x & Hx & Hk). by rewrite (sql_find_none _ _ Hf x Hx) in Hk.
Qed.

(** Replacing a table, when the statement is not refused. *)
Definition put {D T} (set : T -> D -> D) (t : gerr + T) (d : D) : gerr + (unit * D) :=
  match t with inl e => inl e | inr t => inr (tt, set t d) end.

Definition guard_c {D} (b : bool) (what : string) (k : gerr + (unit * D)) : gerr + (unit * D) :=
  if b then k else inl (EConstraint what).

(** [UPDATE] and [DELETE] statements, with [RowsAffected]. *)
Definition update_rows {D R} (get : D -> list R) (set : list R -> D -> D)
    (p : R -> bool) (f : R -> R) : tx D Z :=
  exec (fun d => inr (sql_count p (get d), set (sql_update p f (get d)) d)).
Definition delete_rows {D R} (get : D -> list R) (set : list R -> D -> D)
    (p : R -> bool) : tx D Z :=
  exec (fun d => inr (sql_count p (get d), set (sql_delete p (get d)) d)).

Lemma put_inr {D T} (set : T -> D -> D) t d u d' :
  put set t d = inr (u, d') -> exists t', t = inr t' /\ d' = set t' d.
Proof. unfold put. destruct t; [done|]. intros [= <- <-]. eauto. Qed.
Lemma guard_c_inr {D} b what (k : gerr + (unit * D)) r : guard_c b what k = inr r -> b = true /\ k = inr r.
Proof. unfold guard_c. by destruct b. Qed.

(** Opens a successful constrained statement. *)
Ltac sql_inv H :=
  repeat first
    [ apply guard_c_inr in H; destruct H as [? H]
    | apply put_inr in H; destruct H as (? & H & ->) ].

Lemma exec_preserves {D A} (I : D -> Prop) (f : D -> gerr + (A * D)) :
  (forall d a d', I d -> f d = inr (a, d') -> I d') -> preserves I (exec f).
Proof.
  intros H. apply preserves_exec. intros d Hd. destruct (f d) as [|[]] eqn:E; [done|]. eauto.
Qed.

(** [if err == nil { for rows.Next() ... }] *)
Lemma or_default_query {D A} (a : A) (f : D -> A) (w : world D) :
  exists x w', or_default a (query f) w = (inr x, w') /\ w_db w' = w_db w /\
    (w_faults w = [] -> x = f (w_db w) /\ w_faults w' = []).
Proof.
  unfold or_default, query, exec, next_fault. destruct (w_faults w) as [|[] fs] eqn:E; cbn; eauto 10;
    eexists _, _; split_and!; try reflexivity; done.
Qed.

(** ** Invariants that mention the random draws

    [keeps n0 P m]: started after at least [n0] draws, [m] keeps [P], which
    may say of the database which draws it holds.  [P] only grows with the
    number of draws made. *)
Definition keeps {D A} (n0 : nat) (P : nat -> D -> Prop) (m : tx D A) : Prop :=
  forall w, (n0 <= w_rand w)%nat -> P (w_rand w) (w_db w) ->
    (w_rand w <= w_rand (m w).2)%nat /\ P (w_rand (m w).2) (w_db (m w).2).

Section keeps.
Context {D : Type} (P : nat -> D -> Prop).
Context (P_mono : forall n n' d, P n d -> (n <= n')%nat -> P n' d).

Lemma next_fault_rand (w : world D) : w_rand (next_fault w).2 = w_rand w.
Proof. unfold next_fault. by destruct (w_faults w). Qed.

Lemma keeps_ret {A} n0 (a : A) : keeps n0 P (ret a).
Proof using Type. intros w _ H. by split. Qed.
Lemma keeps_throw {A} n0 e : keeps n0 P (@throw D A e).
Proof using Type. intros w _ H. by split. Qed.
Lemma keeps_bind {A B} n0 (m : tx D A) (k : A -> tx D B) :
  keeps n0 P m -> (forall a, keeps n0 P (k a)) -> keeps n0 P (bind m k).
Proof using Type.
  intros Hm Hk w Hn Hw. unfold bind. specialize (Hm w Hn Hw).
  destruct (m w) as [[e|a] w1]; cbn in *; [done|]. destruct Hm as [Hle H1].
  destruct (Hk a w1 ltac:(lia) H1) as [Hle' H2]. split; [lia|done].
Qed.
Lemma keeps_rand `{Rand} {B} n0 (k : string -> tx D B) :
  (forall n, (n0 <= n)%nat -> keeps (S n) P (k (rand_hex n))) -> keeps n0 P (bind rand_id k).
Proof using P_mono.
  intros Hk w Hn Hw. unfold bind, rand_id. set (w1 := World _ _ _ _).
  destruct (Hk (w_rand w) Hn w1) as [Hle H1]; cbn in *; [lia|eapply P_mono; [done|lia]|].
  split; [lia|done].
Qed.
Lemma keeps_exec {A} n0 (f : D -> gerr + (A * D)) :
  (forall n d a d', (n0 <= n)%nat -> P n d -> f d = inr (a, d') -> P n d') -> keeps n0 P (exec f).
Proof using Type.
  intros Hf w Hn Hw. unfold exec. pose proof (next_fault_db w) as Hd. pose proof (next_fault_rand w) as Hr.
  destruct (next_fault w) as [[] w1]; cbn in *; rewrite <- Hd, <- Hr in *; [done|].
  destruct (f (w_db w1)) as [e|[a d']] eqn:E; cbn; [done|]. split; [done|]. by eapply Hf.
Qed.
Lemma keeps_query {A} n0 (f : D -> A) : keeps n0 P (query f).
Proof using Type. apply keeps_exec. intros n d a d' _ H [= _ <-]. done. Qed.
Lemma keeps_query_row {A} n0 (f : D -> option A) : keeps n0 P (query_row f).
Proof using Type. apply keeps_exec. intros n d a d' _ H. destruct (f d); [|done]. by intros [= _ <-]. Qed.
Lemma keeps_now n0 : keeps n0 P (@time_now D).
Proof using Type. intros w _ H. unfold time_now. by destruct (w_clock w). Qed.
Lemma keeps_ignore {A} n0 (m : tx D A) : keeps n0 P m -> keeps n0 P (ignore m).
Proof using Type. done. Qed.
Lemma keeps_default {A} n0 (a : A) (m : tx D A) : keeps n0 P m -> keeps n0 P (or_default a m).
Proof using Type.
  intros H w Hn Hw. specialize (H w Hn Hw). unfold or_default. by destruct (m w) as [[] w1].
Qed.
Lemma keeps_catch {A} n0 (m : tx D A) : keeps n0 P m -> keeps n0 P (catch_norows m).
Proof using Type.
  intros H w Hn Hw. specialize (H w Hn Hw). unfold catch_norows. by destruct (m w) as [[[]|] w1].
Qed.
Lemma keeps_map_err {A} n0 f (m : tx D A) : keeps n0 P m -> keeps n0 P (map_err f m).
Proof using Type.
  intros H w Hn Hw. specialize (H w Hn Hw). unfold map_err. by destruct (m w) as [[] w1].
Qed.
Lemma keeps_with_tx {A} n0 (m : tx D A) : keeps n0 P m -> keeps n0 P (with_tx m).
Proof using P_mono.
  intros Hm w Hn Hw. unfold with_tx. pose proof (next_fault_db w) as Hd. pose proof (next_fault_rand w) as Hr.
  destruct (next_fault w) as [[] w1]; cbn in *; rewrite <- Hd, <- Hr in *; [done|].
  destruct (Hm w1 Hn Hw) as [Hle H2]. destruct (m w1) as [[e|a] w2]; cbn in *; [by eauto|].
  pose proof (next_fault_db w2) as Hd2. pose proof (next_fault_rand w2) as Hr2.
  destruct (next_fault w2) as [[] w3]; cbn in *; rewrite Hr2; [by eauto|]. by rewrite Hd2.
Qed.
Lemma keeps_iter {A} n0 (f : A -> tx D unit) l :
  (forall a, keeps n0 P (f a)) -> keeps n0 P (iter_tx f l).
Proof using Type.
  intros Hf. induction l as [|a l IH]; cbn; [apply keeps_ret|]. by apply keeps_bind.
Qed.
End keeps.

(** One step of a [keeps] proof; leaves the statements. *)
Ltac keep_step mono :=
  match goal with
  | |- keeps _ _ (bind rand_id _) => apply (keeps_rand _ mono); intros ? ?
  | |- keeps _ _ (bind _ _) => apply keeps_bind; [|intros ?]
  | |- keeps _ _ (ret _) => apply keeps_ret
  | |- keeps _ _ (throw _) => apply keeps_throw
  | |- keeps _ _ (query _) => apply keeps_query
  | |- keeps _ _ (query_row _) => apply keeps_query_row
  | |- keeps _ _ (catch_norows _) => apply keeps_catch
  | |- keeps _ _ (ignore _) => apply keeps_ignore
  | |- keeps _ _ (map_err _ _) => apply keeps_map_err
  | |- keeps _ _ (or_default _ _) => apply keeps_default
  | |- keeps _ _ (with_tx _) => apply (keeps_with_tx _ mono)
  | |- keeps _ _ time_now => apply keeps_now
  | |- keeps _ _ (match ?x with _ => _ end) => destruct x eqn:?
  | |- keeps _ _ (let _ := _ in _) => cbn zeta
  end.
Ltac keep_auto mono := repeat keep_step mono.

(** A query of a healthy engine *)
Lemma query_row_healthy {D A} (f : D -> option A) d n clock :
  query_row f (World d [] n clock) =
    match f d with Some a => (inr a, World d [] n clock) | None => (inl ENoRows, World d [] n clock) end.
Proof. unfold query_row, exec. cbn. by destruct (f d). Qed.
