(* ===== verification/Preferences.v ===== *)
(** * User preferences

    [internal/preferences/repository.go]: one row of display preferences per
    user, validated when it is written and when it is read. *)

From stdpp Require Import base tactics list gmap strings.
From Stdlib Require Import ZArith Lia Ascii.
From S2P Require Import Prelude GoString Json Db.

Definition SchemaVersion : Z := 1.
Definition ErrInvalid : gerr := EMsg "preferences are invalid".

(** [Value] *)
Record Preferences := mkPreferences {
  pv_SchemaVersion : Z; pv_Theme : string; pv_Density : string; pv_PinnedResources : list string;
  pv_LandingPage : string; pv_ChartRange : string; pv_UpdatedAt : Z;
}.

(** [user_preferences], with the users its rows refer to *)
Record PreferenceRow := mkPreferenceRow {
  pr_user_id : string; pr_schema_version : Z; pr_theme : string; pr_density : string; pr_pinned_resources_json : string;
  pr_landing_page : string; pr_chart_range : string; pr_updated_at : Z;
}.
Record PreferenceDB := mkPreferenceDB { pd_users : list string; pd_rows : list PreferenceRow }.

Definition themes := ["system"; "dark"; "light"].
Definition densities := ["comfortable"; "compact"].
Definition landing_pages := ["watch"; "resources"; "server"; "events"; "alerts"].
Definition chart_ranges := ["1h"; "6h"; "24h"; "7d"; "30d"].

Definition oneOf (value : string) (allowed : list string) : bool := existsb (String.eqb value) allowed.
Fixpoint valid_pins (seen l : list string) : bool :=
  match l with
  | [] => true
  | id :: l =>
      if negb (id =?s TrimSpace id) || (String.length id <? 1)%nat || (128 <? String.length id)%nat || oneOf id seen
      then false else valid_pins (id :: seen) l
  end.
(** [validate]; [true] is a nil error. *)
Definition validate (v : Preferences) : bool :=
  (pv_SchemaVersion v =? SchemaVersion) && oneOf (pv_Theme v) themes && oneOf (pv_Density v) densities &&
  oneOf (pv_LandingPage v) landing_pages && oneOf (pv_ChartRange v) chart_ranges &&
  (length (pv_PinnedResources v) <=? 12)%nat && valid_pins [] (pv_PinnedResources v).

(** ** Lists of strings as JSON *)

(** [json.Marshal] of a slice; an empty one is nil here. *)
Fixpoint marshal_rest (l : list string) : list ascii :=
  match l with
  | [] => ["]"%char]
  | s :: l => ","%char :: bytes (Marshal s) ++ marshal_rest l
  end.
Definition MarshalStrings (l : list string) : string :=
  match l with
  | [] => "null"
  | s :: l => of_bytes ("["%char :: bytes (Marshal s) ++ marshal_rest l)
  end.
(** One string at the front *)
Definition take_string (l : list ascii) : option (string * list ascii) :=
  match drop_while json_space l with
  | c :: l' => if Ascii.eqb c quote_byte
               then match decode_bytes 0 l' with Some (v, rest) => Some (of_bytes v, rest) | None => None end else None
  | [] => None
  end.
(** After an element; the fuel is the length. *)
Fixpoint take_strings (fuel : nat) (l : list ascii) : option (list string) :=
  match fuel with
  | O => None
  | S fuel =>
      match drop_while json_space l with
      | c :: l' =>
          if Ascii.eqb c "]"%char then (if forallb json_space l' then Some [] else None)
          else if Ascii.eqb c ","%char then
            match take_string l' with Some (s, rest) => (fun r => s :: r) <$> take_strings fuel rest | None => None end
          else None
      | [] => None
      end
  end.
(** [json.Unmarshal] into a nil slice *)
Definition UnmarshalStrings (raw : string) : option (list string) :=
  match drop_while json_space (bytes raw) with
  | "["%char :: l =>
      match drop_while json_space l with
      | "]"%char :: l' => if forallb json_space l' then Some [] else None
      | _ => match take_string l with
             | Some (s, rest) => (fun r => s :: r) <$> take_strings (S (length rest)) rest
             | None => None
             end
      end
  | "n"%char :: "u"%char :: "l"%char :: "l"%char :: rest => if forallb json_space rest then Some [] else None
  | _ => None
  end.

(** ** The repository *)

Definition row_ok (r : PreferenceRow) (d : PreferenceDB) : bool :=
  str_in (pr_user_id r) (pd_users d) && (pr_schema_version r =? 1) && str_in (pr_theme r) themes && str_in (pr_density r) densities &&
  (char_length (pr_pinned_resources_json r) <=? 4096) && str_in (pr_landing_page r) landing_pages && str_in (pr_chart_range r) chart_ranges.
(** [INSERT ... ON CONFLICT(user_id) DO UPDATE] *)
Definition upsert_preferences (r : PreferenceRow) (d : PreferenceDB) : gerr + (unit * PreferenceDB) :=
  guard_c (row_ok r d) "user_preferences"
    (inr ((), mkPreferenceDB (pd_users d)
      (if sql_exists (fun x => pr_user_id x =?s pr_user_id r) (pd_rows d)
       then sql_update (fun x => pr_user_id x =?s pr_user_id r) (fun _ => r) (pd_rows d) else pd_rows d ++ [r]))).

(** [None] is a user without stored preferences. *)
Definition Preferences_Get (userID : string) : tx PreferenceDB (option Preferences) :=
  row <- catch_norows (query_row (fun d => sql_find (fun r => pr_user_id r =?s userID) (pd_rows d))) ;;
  match row with
  | None => ret None
  | Some r =>
      match UnmarshalStrings (pr_pinned_resources_json r) with
      | None => throw (EMsg "stored preferences are invalid")
      | Some pins =>
          let v at_ := mkPreferences (pr_schema_version r) (pr_theme r) (pr_density r) pins (pr_landing_page r) (pr_chart_range r) at_ in
          if validate (v zero_time) then ret (Some (v (of_unix_milli (pr_updated_at r))))
          else throw (EMsg "stored preferences are invalid")
      end
  end.

Definition Preferences_Put (userID : string) (value : Preferences) : tx PreferenceDB Preferences :=
  let value := mkPreferences SchemaVersion (pv_Theme value) (pv_Density value) (pv_PinnedResources value)
                 (pv_LandingPage value) (pv_ChartRange value) (pv_UpdatedAt value) in
  if negb (validate value) then throw ErrInvalid
  else
    now <- time_now ;;
    let value := mkPreferences (pv_SchemaVersion value) (pv_Theme value) (pv_Density value) (pv_PinnedResources value)
                   (pv_LandingPage value) (pv_ChartRange value) now in
    exec (upsert_preferences (mkPreferenceRow userID (pv_SchemaVersion value) (pv_Theme value) (pv_Density value)
      (MarshalStrings (pv_PinnedResources value)) (pv_LandingPage value) (pv_ChartRange value) (time_unix_milli now))) ;;;
    ret value.

(** ** The round trip *)

Lemma take_string_marshal s rest :
  ValidString s = true -> take_string (bytes (Marshal s) ++ rest) = Some (s, rest).
Proof.
  intros H. unfold take_string, Marshal, bytes, of_bytes. rewrite String.list_ascii_of_string_of_list_ascii.
  cbn [app]. change (drop_while json_space (quote_byte :: ?l)) with (quote_byte :: l). cbv beta iota.
  rewrite Ascii.eqb_refl, <- app_assoc. cbn [app].
  rewrite (decode_encode (S (length (bytes s)))) by (unfold bytes, ValidString in *; done || lia).
  by rewrite String.string_of_list_ascii_of_string.
Qed.
Lemma take_strings_marshal l fuel :
  forallb ValidString l = true -> (length (marshal_rest l) <= fuel)%nat -> take_strings fuel (marshal_rest l) = Some l.
Proof.
  revert fuel. induction l as [|s l IH]; intros fuel Hv Hf; destruct fuel as [|fuel]; cbn [marshal_rest length] in Hf; try lia; [done|].
  cbn [forallb] in Hv. apply andb_true_iff in Hv as [Hs Hl]. cbn [marshal_rest take_strings].
  change (drop_while json_space (","%char :: ?l)) with (","%char :: l). cbn [Ascii.eqb].
  change (Ascii.eqb "," "]") with false. change (Ascii.eqb "," ",") with true. cbv iota.
  rewrite take_string_marshal by done. rewrite IH; [done|done|]. rewrite length_app in Hf. lia.
Qed.
Lemma strings_roundtrip l : forallb ValidString l = true -> UnmarshalStrings (MarshalStrings l) = Some l.
Proof.
  destruct l as [|s l]; [done|]. cbn [forallb]. intros [Hs Hl]%andb_true_iff. unfold UnmarshalStrings, MarshalStrings.
  unfold bytes at 1, of_bytes. rewrite String.list_ascii_of_string_of_list_ascii.
  change (drop_while json_space ("["%char :: ?l)) with ("["%char :: l). cbv beta iota.
  rewrite take_string_marshal by done. unfold Marshal, bytes at 1, of_bytes. rewrite String.list_ascii_of_string_of_list_ascii.
  cbn [app]. change (drop_while json_space (quote_byte :: ?l)) with (quote_byte :: l). cbv beta iota.
  by rewrite take_strings_marshal by (done || lia).
Qed.

Definition stored_as (v : Preferences) (now : Z) : Preferences :=
  mkPreferences SchemaVersion (pv_Theme v) (pv_Density v) (pv_PinnedResources v) (pv_LandingPage v) (pv_ChartRange v) now.

Lemma find_upserted r t :
  sql_find (fun x => pr_user_id x =?s pr_user_id r)
    (if sql_exists (fun x => pr_user_id x =?s pr_user_id r) t
     then sql_update (fun x => pr_user_id x =?s pr_user_id r) (fun _ => r) t else t ++ [r]) = Some r.
Proof.
  unfold sql_exists, sql_find, sql_update. induction t as [|x t IH]; cbn; [by rewrite String.eqb_refl|].
  destruct (pr_user_id x =?s pr_user_id r) eqn:E; cbn; [by rewrite String.eqb_refl|].
  destruct (existsb _ t); cbn; rewrite ?E; exact IH.
Qed.
Lemma other_upserted r t u :
  u <> pr_user_id r ->
  sql_find (fun x => pr_user_id x =?s u)
    (if sql_exists (fun x => pr_user_id x =?s pr_user_id r) t
     then sql_update (fun x => pr_user_id x =?s pr_user_id r) (fun _ => r) t else t ++ [r]) = sql_find (fun x => pr_user_id x =?s u) t.
Proof.
  intros Hne. assert ((pr_user_id r =?s u) = false) as Hu by (by apply String.eqb_neq).
  unfold sql_exists, sql_find, sql_update. destruct (existsb _ t).
  - induction t as [|x t IH]; [done|]. cbn. destruct (String.eqb_spec (pr_user_id x) (pr_user_id r)) as [E|E]; cbn.
    + rewrite Hu, E, Hu. exact IH.
    + by destruct (pr_user_id x =?s u).
  - induction t as [|x t IH]; cbn; [by rewrite Hu|]. by destruct (pr_user_id x =?s u).
Qed.

(** Preferences that are saved are read back.  When [Put]
    succeeds, with any statement having failed before, the user's preferences
    are read back as they were saved, with the time of the write in
    milliseconds, and nobody else's change. *)
Theorem preferences_roundtrip (u : string) (v v' : Preferences) (w w' : world PreferenceDB) (rn : nat) (ck : list Z) :
  forallb ValidString (pv_PinnedResources v) = true -> Preferences_Put u v w = (inr v', w') ->
  v' = stored_as v (pv_UpdatedAt v') /\
  (Preferences_Get u (World (w_db w') [] rn ck)).1 = inr (Some (stored_as v (of_unix_milli (time_unix_milli (pv_UpdatedAt v'))))) /\
  forall u', u' <> u -> (Preferences_Get u' (World (w_db w') [] rn ck)).1 = (Preferences_Get u' (World (w_db w) [] rn ck)).1.
Proof.
  intros Hpins. unfold Preferences_Put. cbn zeta. destruct (validate (mkPreferences _ _ _ _ _ _ _)) eqn:Ev; [|done]. cbn [negb].
  intros (now & w1 & Hnow & H)%bind_inr. apply bind_inr in H as (? & w2 & Hex & H). injection H as <- <-. cbn [pv_UpdatedAt].
  assert (w_db w1 = w_db w) as Hdb by (unfold time_now in Hnow; destruct (w_clock w); injection Hnow as _ <-; done).
  unfold exec in Hex. pose proof (next_fault_db w1) as Hf. destruct (next_fault w1) as [bad w1'] eqn:En. cbn [snd] in Hf.
  destruct bad; [done|]. destruct (upsert_preferences _ _) as [e|[[] d]] eqn:Eu; [done|]. injection Hex as _ <-. cbn [w_db].
  apply guard_c_inr in Eu as [_ Eu]. injection Eu as <-. rewrite Hf, Hdb.
  set (r := mkPreferenceRow u _ _ _ _ _ _ _). split; [reflexivity|]. split.
  - unfold Preferences_Get, bind, catch_norows, query_row, exec. cbn [next_fault w_faults w_db pd_rows].
    pose proof (find_upserted r (pd_rows (w_db w))) as Hfind. cbn [pr_user_id r] in Hfind. cbn [pr_user_id r]. rewrite Hfind.
    cbn [pr_pinned_resources_json pr_schema_version pr_theme pr_density pr_landing_page pr_chart_range pr_updated_at r].
    rewrite strings_roundtrip by done. cbn. unfold validate in *. cbn in *. by rewrite Ev.
  - intros u' Hne. unfold Preferences_Get, bind, catch_norows, query_row, exec. cbn [next_fault w_faults w_db pd_rows].
    rewrite (other_upserted r) by done. destruct (sql_find _ _) as [r0|]; [|done].
    destruct (UnmarshalStrings _); [|done]. cbn beta zeta. destruct (validate (mkPreferences (pr_schema_version r0) _ _ _ _ _ _)); reflexivity.
Qed.

(** ** Witness and finding *)

Definition sample_preferences : Preferences := mkPreferences 0 "dark" "compact" ["res_1"; "res_2"] "watch" "24h" 0.
Lemma preferences_roundtrip_witness :
  exists v' w', Preferences_Put "usr_1" sample_preferences (World (mkPreferenceDB ["usr_1"] []) [] 0%nat [5000000]) = (inr v', w') /\
    (Preferences_Get "usr_1" (World (w_db w') [] 0%nat [])).1 = inr (Some (stored_as sample_preferences 5000000)).
Proof.
  destruct (Preferences_Put "usr_1" sample_preferences (World (mkPreferenceDB ["usr_1"] []) [] 0%nat [5000000])) as [[e|v'] w'] eqn:E;
    [vm_compute in E; discriminate|].
  exists v', w'. split; [reflexivity|].
  pose proof (preferences_roundtrip "usr_1" sample_preferences v' _ w' 0%nat [] eq_refl E) as (_ & Hget & _).
  assert (pv_UpdatedAt v' = 5000000) as Ht by (vm_compute in E; injection E as <- _; reflexivity).
  rewrite Hget, Ht. reflexivity.
Defined.

(** Pins that pass the validation can be refused by the table: escapes make
    their JSON longer than its limit. *)
Lemma valid_pins_refused :
  let pin i := of_bytes (repeat "<"%char 120 ++ bytes (Itoa i)) in
  let v := mkPreferences 1 "dark" "compact" (map pin [1; 2; 3; 4; 5; 6; 7; 8]) "watch" "24h" 0 in
  validate v = true /\
  (Preferences_Put "usr_1" v (World (mkPreferenceDB ["usr_1"] []) [] 0%nat [])).1 = inl (EConstraint "user_preferences").
Proof. vm_compute. done. Qed.
