(* ===== verification/SettingsStore.v ===== *)
(** * The stored settings

    [internal/settings/store.go]: the overrides an administrator stores, with
    a revision against lost updates, an audit trail in the same transaction,
    and the configuration in force.  The methods of the service exclude each
    other by its mutex; the database is set before they are used. *)

From stdpp Require Import base tactics list gmap strings.
From Stdlib Require Import ZArith Lia Ascii SpecFloat.
From S2P Require Import Prelude GoString Float64 GoParse Json Outbound Config Settings SettingKeys Db.

Record SettingRow := mkSettingRow { sr_key : string; sr_value_json : string; sr_updated_at : Z; sr_updated_by : string }.
Record AuditRow := mkAuditRow {
  au_revision : Z; au_setting_key : string; au_previous_value_json : option string; au_new_value_json : string;
  au_actor : string; au_changed_at : Z;
}.
(** [settings], [settings_audit] in the order of its ids, and
    [application_metadata] *)
Record SettingsDB := mkSettingsDB { sd_settings : list SettingRow; sd_audit : list AuditRow; sd_metadata : gmap string string }.
Definition set_settings (t : list SettingRow) (d : SettingsDB) : SettingsDB := mkSettingsDB t (sd_audit d) (sd_metadata d).
Definition set_audit (t : list AuditRow) (d : SettingsDB) : SettingsDB := mkSettingsDB (sd_settings d) t (sd_metadata d).
Definition set_metadata (t : gmap string string) (d : SettingsDB) : SettingsDB := mkSettingsDB (sd_settings d) (sd_audit d) t.
(** As the migrations leave them *)
Definition fresh_settings : SettingsDB := mkSettingsDB [] [] {["settings_revision" := "0"]}.

Definition ErrRevisionConflict : gerr := EMsg "settings revision conflict".

Inductive ApplyMode := ApplyLive | ApplyRestart.
Record SettingView := mkView { vw_Value : string; vw_Source : Source; vw_ApplyMode : ApplyMode }.
Record Snapshot := mkSettingsSnapshot { sn_Revision : Z; sn_Values : gmap string SettingView; sn_Features : Features }.
(** [sv_applied] lists the configurations passed to the [apply] callback. *)
Record Service := mkService {
  sv_base : Config; sv_effective : gmap string Effective; sv_current : Config; sv_applied : list Config;
}.
Definition NewService (base : Config) (effective : gmap string Effective) : Service := mkService base effective base [].
Definition CurrentRetentionPreset (s : Service) : string := Retention_Preset (c_Retention (sv_current s)).
Definition take_effect (c : Config) (s : Service) : Service :=
  mkService (sv_base s) (sv_effective s) c (sv_applied s ++ [c]).

Definition editable : gmap string ApplyMode := list_to_map (map (fun k => (k, ApplyLive)) [
  "collection.host_interval"; "collection.container_interval"; "persistence.raw_interval"; "retention.preset";
  "retention.raw"; "retention.one_minute"; "retention.fifteen_minute"; "retention.one_hour";
  "database.target_budget_bytes"; "charts.max_points_per_series"; "sessions.idle_timeout"; "sessions.absolute_lifetime"]).
Definition visible : gmap string ApplyMode :=
  editable ∪ list_to_map (map (fun k => (k, ApplyRestart)) ["paths.data_dir"; "http.listen_address"; "docker.socket_path";
    "paths.host_proc"; "paths.host_sys"]).

Definition lift {D A} (r : gerr + A) : tx D A := match r with inl e => throw e | inr a => ret a end.
Definition lift_msg {D A} (r : string + A) : tx D A := match r with inl e => throw (EMsg e) | inr a => ret a end.

Fixpoint decode_rows (rows : list SettingRow) (values : gmap string string) : gerr + gmap string string :=
  match rows with
  | [] => inr values
  | r :: rows =>
      match Unmarshal (sr_value_json r) with
      | None => inl (EMsg ("decode setting " +:+ sr_key r))
      | Some value => decode_rows rows (<[sr_key r := value]> values)
      end
  end.
Definition by_key (a b : SettingRow) : bool := String.leb (sr_key a) (sr_key b).
Definition overrides : tx SettingsDB (gmap string string) :=
  bind (query (fun d => sql_order_by by_key (sd_settings d))) (fun rows => lift (decode_rows rows ∅)).

Definition revision : tx SettingsDB Z :=
  bind (query_row (fun d => sd_metadata d !! "settings_revision")) (fun raw =>
  match ParseInt raw with Some n => ret n | None => throw (EMsg "strconv.ParseInt") end).

(** [INSERT ... ON CONFLICT(key) DO UPDATE] *)
Definition upsert (r : SettingRow) (t : list SettingRow) : list SettingRow :=
  if sql_exists (fun x => sr_key x =?s sr_key r) t
  then sql_update (fun x => sr_key x =?s sr_key r) (fun _ => r) t else t ++ [r].

Section service.
Context `{MapOrder} (url_parse : string -> option URL).

Definition setting_view (s : Service) (ov : gmap string string) (c : Config) (key : string) (mode : ApplyMode) : SettingView :=
  let source := match sv_effective s !! key with Some e => ef_Source e | None => SourceDefault end in
  let source := match ov !! key with Some _ => SourceAdmin | None => source end in
  mkView (lookup_setting c key) source mode.
Definition snapshot_of (s : Service) (ov : gmap string string) (rev : Z) (c : Config) : Snapshot :=
  mkSettingsSnapshot rev (map_imap (fun key mode => Some (setting_view s ov c key mode)) visible) (c_Features c).

Definition Service_Snapshot (s : Service) : tx SettingsDB Snapshot :=
  bind overrides (fun ov => bind revision (fun rev =>
  bind (lift_msg (ResolveOverrides url_parse (sv_base s) ov)) (fun resolved => ret (snapshot_of s ov rev resolved)))).
Definition snapshotLocked (s : Service) : tx SettingsDB Snapshot :=
  bind overrides (fun ov => bind revision (fun rev => ret (snapshot_of s ov rev (sv_current s)))).

Definition Initialize (s : Service) : tx SettingsDB Service :=
  bind overrides (fun ov => bind (lift_msg (ResolveOverrides url_parse (sv_base s) ov)) (fun resolved => ret (take_effect resolved s))).

(** The two statements of one change *)
Definition write_change (current : gmap string string) (next now : Z) (actor : string) (change : string * string) : tx SettingsDB unit :=
  let '(key, value) := change in
  let raw := Marshal value in
  bind (exec (fun d => inr ((), set_settings (upsert (mkSettingRow key raw now actor) (sd_settings d)) d))) (fun _ =>
  exec (fun d => inr ((), set_audit (sd_audit d ++ [mkAuditRow next key (Marshal <$> current !! key) raw actor now]) d))).
Definition write_revision (next : Z) : tx SettingsDB unit :=
  exec (fun d => inr ((), set_metadata (alter (fun _ => Itoa next) "settings_revision" (sd_metadata d)) d)).

(** The transaction of a patch: the configuration it resolves to *)
Definition patch_tx (base : Config) (expected : Z) (changes : gmap string string) (actor : string) : tx SettingsDB Config :=
  with_tx (
    bind revision (fun currentRevision =>
    if negb (currentRevision =? expected) then throw ErrRevisionConflict
    else bind overrides (fun current =>
    let merged := changes ∪ current in
    bind (lift_msg (ResolveOverrides url_parse base merged)) (fun resolved =>
    let next := wrap64 (currentRevision + 1) in
    bind time_now (fun now =>
    bind (iter_tx (write_change current next (time_unix_milli now) actor) (range_map changes)) (fun _ =>
    bind (write_revision next) (fun _ => ret resolved))))))).

Definition not_editable (key : string) : bool := negb (bool_decide (is_Some (editable !! key)) && UIOverridable key).

(** What is answered, and the service afterwards: an error behind the commit
    leaves the change in force. *)
Definition Patch (s : Service) (expected : Z) (changes : gmap string string) (actor : string) :
  tx SettingsDB ((gerr + Snapshot) * Service) :=
  if (size changes =? 0)%nat || (16 <? size changes)%nat
  then ret (inl (EMsg "one to sixteen settings changes are required"), s)
  else match List.find (fun '(key, _) => not_editable key) (range_map changes) with
       | Some (key, _) => ret (inl (EMsg ("setting " +:+ key +:+ " is not editable")), s)
       | None =>
           bind (attempt (patch_tx (sv_base s) expected changes actor)) (fun r =>
           match r with
           | inl e => ret (inl e, s)
           | inr resolved =>
               let s' := take_effect resolved s in
               bind (attempt (snapshotLocked s')) (fun r => ret (r, s'))
           end)
       end.

(** Up to three attempts; [inl] is the error that is returned. *)
Fixpoint preset_attempts (n : nat) (s : Service) (preset actor : string) : tx SettingsDB ((gerr + unit) * Service) :=
  match n with
  | O => ret (inl ErrRevisionConflict, s)
  | S n =>
      bind (attempt (Service_Snapshot s)) (fun r =>
      match r with
      | inl e => ret (inl e, s)
      | inr snapshot =>
          bind (Patch s (sn_Revision snapshot) {["retention.preset" := preset]} actor) (fun '(r, s') =>
          match r with
          | inl e => if bool_decide (e = ErrRevisionConflict) then preset_attempts n s' preset actor else ret (inl e, s')
          | inr _ => ret (inr (), s')
          end)
      end)
  end.
Definition SetRetentionPreset (s : Service) (preset actor : string) : tx SettingsDB ((gerr + unit) * Service) :=
  if CurrentRetentionPreset s =?s preset then ret (inr (), s)
  else match RetentionPreset preset with
       | None => ret (inl (EMsg "retention preset is invalid"), s)
       | Some _ => preset_attempts 3 s preset actor
       end.
End service.
