(* ===== verification/SettingsAudit.v ===== *)
(** * Stored settings survive and are accounted for

    Over [internal/settings/store.go]: whatever is patched, in whatever order,
    with statements failing anywhere, the audit trail explains the stored
    settings, the revision counts the commits, and a restart comes up with the
    configuration that was in force. *)

From stdpp Require Import base tactics list gmap strings sorting.
From Stdlib Require Import ZArith Lia Ascii SpecFloat Sorting.Sorted.
From S2P Require Import Prelude GoString Float64 GoParse Json Outbound Config Settings SettingKeys Db SettingsStore.

(** ** What the rows stand for *)

Record represents (t : list SettingRow) (M : gmap string string) : Prop := {
  rp_nodup : NoDup (map sr_key t);
  rp_rows : forall r, In r t -> exists v, M !! sr_key r = Some v /\ sr_value_json r = Marshal v;
  rp_keys : forall k v, M !! k = Some v -> ValidString v = true /\ exists r, In r t /\ sr_key r = k;
}.

Lemma decode_rows_ok rows acc (M : gmap string string) :
  (forall r, In r rows -> exists v, M !! sr_key r = Some v /\ sr_value_json r = Marshal v /\ ValidString v = true) ->
  exists out, decode_rows rows acc = inr out /\
    forall k, out !! k = if str_in k (map sr_key rows) then M !! k else acc !! k.
Proof.
  revert acc. induction rows as [|r rows IH]; intros acc Hr; [by exists acc|].
  destruct (Hr r (or_introl eq_refl)) as (v & Hv & Hj & Hval). cbn [decode_rows]. rewrite Hj, json_roundtrip by done.
  destruct (IH (<[sr_key r := v]> acc)) as (out & Ho & Hk); [intros; apply Hr; by right|].
  exists out. split; [done|]. intros k. rewrite Hk.
  change (str_in k (map sr_key (r :: rows))) with ((k =?s sr_key r) || str_in k (map sr_key rows)).
  destruct (str_in k (map sr_key rows)).
  - by rewrite orb_true_r.
  - destruct (String.eqb_spec k (sr_key r)) as [->|Hne]; cbn [orb]; [by rewrite lookup_insert_eq|by rewrite lookup_insert_ne].
Qed.
Lemma decode_represented t M : represents t M -> decode_rows (sql_order_by by_key t) ∅ = inr M.
Proof.
  intros [Hnd Hr Hk]. destruct (decode_rows_ok (sql_order_by by_key t) ∅ M) as (out & -> & Ho).
  - intros r Hin. assert (In r t) as Hin' by (by rewrite <- (sql_order_by_perm by_key t)).
    destruct (Hr r Hin') as (v & Hv & Hj). exists v. split_and!; [done|done|]. by eapply Hk.
  - f_equal. apply map_eq. intros k. rewrite Ho. destruct (str_in k _) eqn:E; [done|]. rewrite lookup_empty.
    destruct (M !! k) as [v|] eqn:EM; [|done]. destruct (Hk k v EM) as (_ & r & Hin & Hkr).
    apply not_true_iff_false in E. destruct E. apply str_in_spec. rewrite <- Hkr. apply in_map.
    by rewrite (sql_order_by_perm by_key t).
Qed.

Lemma represents_upsert t M k v now actor :
  represents t M -> ValidString v = true -> represents (upsert (mkSettingRow k (Marshal v) now actor) t) (<[k := v]> M).
Proof.
  intros [Hnd Hr Hk] Hval. unfold upsert. cbn [sr_key]. destruct (sql_exists _ t) eqn:Ex; constructor.
  - unfold sql_update. rewrite map_map. erewrite map_ext; [exact Hnd|]. intros r. by destruct (String.eqb_spec (sr_key r) k).
  - intros r (r0 & Hin & ->)%in_sql_update. destruct (sr_key r0 =?s k) eqn:E; cbn.
    + exists v. by rewrite lookup_insert_eq.
    + apply String.eqb_neq in E. rewrite lookup_insert_ne by done. by apply Hr.
  - intros k' v'. apply sql_exists_true in Ex as (r & Hin & Hrk).
    destruct (decide (k' = k)) as [->|Hne].
    + rewrite lookup_insert_eq. intros [= <-]. split; [done|]. exists (mkSettingRow k (Marshal v) now actor). split; [|done].
      apply in_sql_update. exists r. by rewrite Hrk.
    + rewrite lookup_insert_ne by done. intros HM. destruct (Hk k' v' HM) as (? & r' & Hin' & Hkr'). split; [done|].
      exists r'. split; [|done]. apply in_sql_update. exists r'. rewrite Hkr'. by rewrite (proj2 (String.eqb_neq _ _)).
  - pose proof (proj1 (sql_exists_false _ _) Ex) as Hn. rewrite map_app. apply NoDup_app. split_and!; [done| |by apply NoDup_singleton].
    intros x Hx%list_elem_of_In ->%list_elem_of_singleton. apply in_map_iff in Hx as (r & Hkr & Hin). cbn in Hkr.
    specialize (Hn r Hin). cbn in Hn. by rewrite Hkr, String.eqb_refl in Hn.
  - intros r [Hin|[<-|[]]]%in_app_or; [|exists v; cbn; by rewrite lookup_insert_eq].
    pose proof (proj1 (sql_exists_false _ _) Ex r Hin) as Hn. cbn in Hn. apply String.eqb_neq in Hn.
    rewrite lookup_insert_ne by done. by apply Hr.
  - intros k' v'. destruct (decide (k' = k)) as [->|Hne].
    + rewrite lookup_insert_eq. intros [= <-]. split; [done|]. eexists. split; [by apply in_or_app; right; left|done].
    + rewrite lookup_insert_ne by done. intros HM. destruct (Hk k' v' HM) as (? & r' & Hin' & Hkr'). split; [done|].
      exists r'. split; [by apply in_or_app; left|done].
Qed.

(** ** The audit trail *)

Definition replay_step (m : gmap string string) (a : AuditRow) : gmap string string := <[au_setting_key a := au_new_value_json a]> m.
(** The values that the trail leaves *)
Definition replay (m : gmap string string) (trail : list AuditRow) : gmap string string := fold_left replay_step trail m.
(** Every entry names the value it replaced. *)
Fixpoint chained (m : gmap string string) (trail : list AuditRow) : Prop :=
  match trail with
  | [] => True
  | a :: trail => au_previous_value_json a = m !! au_setting_key a /\ chained (replay_step m a) trail
  end.
Lemma chained_app m t1 t2 : chained m (t1 ++ t2) <-> chained m t1 /\ chained (replay m t1) t2.
Proof. revert m. induction t1 as [|a t1 IH]; intros m; cbn; [naive_solver|]. rewrite IH. naive_solver. Qed.

Definition audit_row (current : gmap string string) (next now : Z) (actor : string) (change : string * string) : AuditRow :=
  mkAuditRow next change.1 (Marshal <$> current !! change.1) (Marshal change.2) actor now.
Definition insert_all (l : list (string * string)) (m : gmap string string) : gmap string string :=
  fold_left (fun m e => <[e.1 := e.2]> m) l m.

Lemma replay_changes current next now actor l m :
  replay (Marshal <$> m) (map (audit_row current next now actor) l) = Marshal <$> insert_all l m.
Proof.
  revert m. induction l as [|[k v] l IH]; intros m; [done|].
  change (replay (<[k := Marshal v]> (Marshal <$> m)) (map (audit_row current next now actor) l) = Marshal <$> insert_all l (<[k := v]> m)).
  by rewrite <- fmap_insert, IH.
Qed.
Lemma chained_changes current next now actor l m :
  NoDup l.*1 -> (forall k, k ∈ l.*1 -> m !! k = current !! k) ->
  chained (Marshal <$> m) (map (audit_row current next now actor) l).
Proof.
  revert m. induction l as [|[k v] l IH]; intros m Hnd Hm; [done|]. cbn in Hnd, Hm. apply NoDup_cons in Hnd as [Hk Hnd].
  cbn [map chained]. split.
  - cbn. rewrite lookup_fmap, Hm by set_solver. done.
  - change (replay_step _ _) with (<[k := Marshal v]> (Marshal <$> m)). rewrite <- fmap_insert. apply IH; [done|].
    intros k' Hk'. rewrite lookup_insert_ne by set_solver. apply Hm. set_solver.
Qed.
Lemma insert_all_app l1 l2 m : insert_all (l1 ++ l2) m = insert_all l2 (insert_all l1 m).
Proof. apply fold_left_app. Qed.
Lemma insert_all_lookup l m k :
  insert_all l m !! k = match list_to_map (M := gmap string string) (rev l) !! k with Some v => Some v | None => m !! k end.
Proof.
  revert m. induction l as [|[j v] l IH] using rev_ind; intros m; [by cbn; rewrite lookup_empty|].
  rewrite insert_all_app, rev_app_distr. cbn. destruct (decide (j = k)) as [->|Hne].
  - by rewrite !lookup_insert_eq.
  - rewrite !lookup_insert_ne by done. apply IH.
Qed.
Lemma insert_all_union `{MapOrder} (changes m : gmap string string) : insert_all (range_map changes) m = changes ∪ m.
Proof.
  apply map_eq. intros k. rewrite insert_all_lookup, lookup_union.
  assert (list_to_map (rev (range_map changes)) = changes) as ->.
  { rewrite <- (list_to_map_to_list changes) at 2. apply list_to_map_proper.
    - rewrite <- Permutation_rev, range_map_perm. apply NoDup_fst_map_to_list.
    - rewrite <- Permutation_rev. apply range_map_perm. }
  by destruct (changes !! k), (m !! k).
Qed.

(** ** The invariant of the tables *)

Record settings_ok (d : SettingsDB) (M : gmap string string) (n : Z) : Prop := {
  so_rows : represents (sd_settings d) M;
  so_revision : sd_metadata d !! "settings_revision" = Some (Itoa n);
  so_range : 0 <= n;
  so_replay : replay ∅ (sd_audit d) = Marshal <$> M;
  so_chained : chained ∅ (sd_audit d);
  so_revisions : forall r, In r (map au_revision (sd_audit d)) <-> 1 <= r <= n;
  so_sorted : StronglySorted Z.le (map au_revision (sd_audit d));
}.
Lemma fresh_settings_ok : settings_ok fresh_settings ∅ 0.
Proof.
  split; cbn; [|done|lia|done|done| |constructor].
  - split; cbn; [constructor|done|]. intros k v. by rewrite lookup_empty.
  - intros r. split; [done|lia].
Qed.

Lemma overrides_runs d M n : settings_ok d M n -> runs d overrides (fun ov d' => ov = M /\ d' = d).
Proof. intros Hd. unfold overrides. sym. rewrite (decode_represented _ _ (so_rows _ _ _ Hd)). by sym. Qed.
Lemma revision_runs d M n : settings_ok d M n -> n <= max_int64 -> runs d revision (fun r d' => r = n /\ d' = d).
Proof.
  intros Hd Hn. unfold revision. sym; try done. rewrite (so_revision _ _ _ Hd) in *. simplify_eq.
  pose proof (so_range _ _ _ Hd). rewrite ParseInt_Itoa in * by (unfold in_int64, min_int64; lia). by simplify_eq.
Qed.

Lemma write_changes_runs current next now actor l : forall d M,
  represents (sd_settings d) M -> Forall (fun e => ValidString e.2 = true) l ->
  runs d (iter_tx (write_change current next now actor) l) (fun _ d' =>
    represents (sd_settings d') (insert_all l M) /\
    sd_audit d' = sd_audit d ++ map (audit_row current next now actor) l /\ sd_metadata d' = sd_metadata d).
Proof.
  induction l as [|[k v] l IH]; intros d M Hr Hv; cbn [iter_tx].
  { apply runs_ret. split_and!; [done|by rewrite app_nil_r|done]. }
  apply Forall_cons in Hv as [Hv Hvs]. unfold write_change at 1. sym. simplify_eq.
  eapply runs_mono; [apply (IH _ (<[k := v]> M)); [by apply represents_upsert|done]|].
  cbn. intros _ d' (H1 & H2 & H3). split_and!; [done| |done]. by rewrite H2, <- app_assoc.
Qed.

(** ** One patch *)

Section patch.
Context `{MapOrder} (url_parse : string -> option URL).

Definition valid_changes (changes : gmap string string) : Prop := map_Forall (fun _ v => ValidString v = true) changes.

Lemma changes_valid changes : valid_changes changes -> Forall (fun e => ValidString e.2 = true) (range_map changes).
Proof.
  intros Hv. apply Forall_forall. intros [k v] Hin. rewrite range_map_perm in Hin. apply elem_of_map_to_list in Hin.
  by apply (Hv k v).
Qed.
Lemma changes_keys (changes : gmap string string) : NoDup (range_map changes).*1.
Proof. rewrite range_map_perm. apply NoDup_fst_map_to_list. Qed.

Lemma settings_ok_patched d d' M n changes now actor :
  settings_ok d M n -> changes <> ∅ ->
  represents (sd_settings d') (insert_all (range_map changes) M) ->
  sd_audit d' = sd_audit d ++ map (audit_row M (n + 1) now actor) (range_map changes) ->
  sd_metadata d' !! "settings_revision" = Some (Itoa (n + 1)) ->
  settings_ok d' (changes ∪ M) (n + 1).
Proof.
  intros [Hr Hrev Hn Hre Hch Hrs Hso] Hne Hr' Ha Hm. rewrite insert_all_union in Hr'.
  assert (map au_revision (map (audit_row M (n + 1) now actor) (range_map changes)) = map (fun _ => n + 1) (range_map changes)) as Hrl
    by (by rewrite map_map).
  split; [done|done|lia|..]; rewrite Ha.
  - unfold replay. rewrite fold_left_app. fold (replay ∅ (sd_audit d)). rewrite Hre.
    fold (replay (Marshal <$> M) (map (audit_row M (n + 1) now actor) (range_map changes))).
    by rewrite replay_changes, insert_all_union.
  - apply chained_app. split; [done|]. rewrite Hre. by apply chained_changes; [apply changes_keys|].
  - intros r. rewrite map_app, in_app_iff, Hrs, Hrl, in_map_iff. split.
    + intros [?|(e & <- & _)]; lia.
    + intros Hrr. destruct (decide (r <= n)); [left; lia|right].
      destruct (range_map changes) as [|e l] eqn:E; [|exists e; split; [lia|by left]].
      destruct Hne. apply map_to_list_empty_iff, Permutation_nil_r. rewrite <- (range_map_perm changes). by rewrite E.
  - rewrite map_app, Hrl. apply StronglySorted_app_2; [|done|].
    + intros x y Hx%list_elem_of_In%Hrs Hy%list_elem_of_In%in_map_iff. destruct Hy as (e & <- & _). lia.
    + clear. induction (range_map changes) as [|e l IH]; cbn; constructor; [done|].
      apply Forall_forall. intros x Hx%list_elem_of_In%in_map_iff. destruct Hx as (? & <- & _). lia.
Qed.

Lemma patch_tx_runs base d M n expected changes actor :
  settings_ok d M n -> n < max_int64 -> valid_changes changes -> changes <> ∅ ->
  runs d (patch_tx url_parse base expected changes actor) (fun resolved d' =>
    n = expected /\ ResolveOverrides url_parse base (changes ∪ M) = inr resolved /\ settings_ok d' (changes ∪ M) (n + 1) /\
    exists now, sd_audit d' = sd_audit d ++ map (audit_row M (n + 1) now actor) (range_map changes)).
Proof.
  intros Hd Hn Hv Hne. unfold patch_tx. apply runs_tx, runs_bind.
  eapply runs_mono; [apply (revision_runs d M n Hd); lia|]. intros ? ? [-> ->].
  destruct (Z.eqb_spec n expected) as [<-|]; cbn [negb]; [|apply runs_throw]. apply runs_bind.
  eapply runs_mono; [by apply (overrides_runs d M n)|]. intros ? ? [-> ->]. apply runs_bind.
  destruct (ResolveOverrides url_parse base (changes ∪ M)) as [e|resolved] eqn:Er; cbn [lift_msg]; [apply runs_throw|].
  apply runs_ret, runs_bind, runs_now. intros t. apply runs_bind.
  pose proof (so_range _ _ _ Hd). rewrite (wrap64_id (n + 1)) by (unfold in_int64, min_int64, max_int64 in *; lia).
  eapply runs_mono; [apply write_changes_runs; [apply (so_rows _ _ _ Hd)|by apply changes_valid]|].
  cbn. intros _ d1 (H1 & H2 & H3). apply runs_bind. unfold write_revision. apply runs_exec. intros [] d2 [= <-].
  apply runs_ret. split_and!; [done|done| |by eexists].
  eapply settings_ok_patched; [done|done|exact H1|exact H2|]. cbn. by rewrite lookup_alter_eq, H3, (so_revision _ _ _ Hd).
Qed.

Lemma snapshotLocked_same s d : preserves (fun d' => d' = d) (snapshotLocked s).
Proof.
  unfold snapshotLocked, overrides, revision, lift. frame_auto.
Qed.
Lemma snapshotLocked_revision s d M n :
  settings_ok d M n -> n <= max_int64 -> runs d (snapshotLocked s) (fun snap _ => sn_Revision snap = n).
Proof.
  intros Hd Hn. unfold snapshotLocked. apply runs_bind. eapply runs_mono; [by apply (overrides_runs d M n)|]. intros ? ? [-> ->].
  apply runs_bind. eapply runs_mono; [by apply (revision_runs d M n)|]. intros ? ? [-> ->]. by apply runs_ret.
Qed.

(** What a patch did *)
Record patched (s : Service) (d : SettingsDB) (M : gmap string string) (n expected : Z) (changes : gmap string string) (actor : string)
  (r : gerr + Snapshot) (s' : Service) (d' : SettingsDB) : Prop := {
  pt_expected : n = expected;
  pt_editable : forall key, is_Some (changes !! key) -> is_Some (editable !! key);
  pt_current : ResolveOverrides url_parse (sv_base s) (changes ∪ M) = inr (sv_current s');
  pt_service : s' = take_effect (sv_current s') s;
  pt_tables : settings_ok d' (changes ∪ M) (n + 1);
  pt_audit : exists now, sd_audit d' = sd_audit d ++ map (audit_row M (n + 1) now actor) (range_map changes);
  pt_answer : forall snap, r = inr snap -> sn_Revision snap = n + 1;
}.

Lemma patch_outcome s M n expected changes actor w :
  settings_ok (w_db w) M n -> n < max_int64 -> valid_changes changes ->
  exists r s' w', Patch url_parse s expected changes actor w = (inr (r, s'), w') /\
    (((exists e, r = inl e) /\ s' = s /\ w_db w' = w_db w) \/
     patched s (w_db w) M n expected changes actor r s' (w_db w')).
Proof.
  intros Hd Hn Hv. unfold Patch. destruct (_ || _) eqn:Esz; [eexists _, _, _; split; [done|left; eauto]|].
  destruct (List.find _ _) as [[k v]|] eqn:Ef; [eexists _, _, _; split; [done|left; eauto]|].
  assert (changes <> ∅) as Hne by (intros ->; by rewrite map_size_empty in Esz).
  unfold bind at 1, attempt at 1. destruct (patch_tx _ _ _ _ _ w) as [[e|resolved] w1] eqn:Ep.
  { eexists _, _, _. split; [done|]. left. split; [eauto|]. split; [done|]. by eapply with_tx_atomic. }
  pose proof (patch_tx_runs (sv_base s) (w_db w) M n expected changes actor Hd Hn Hv Hne w eq_refl) as Hr. rewrite Ep in Hr.
  destruct Hr as (He & Hres & Hok & Hau). pose proof (snapshotLocked_same (take_effect resolved s) (w_db w1) w1 eq_refl) as Hsame.
  pose proof (snapshotLocked_revision (take_effect resolved s) (w_db w1) _ _ Hok ltac:(lia) w1 eq_refl) as Hrev.
  unfold bind, attempt. destruct (snapshotLocked _ w1) as [r w2]. eexists _, _, _. split; [done|]. right.
  assert (w_db w2 = w_db w1) as -> by (by destruct r).
  split; [done| |done|done|done|done|].
  - intros key [v Hk]. assert (In (key, v) (range_map changes)) as Hin
      by (rewrite range_map_perm; by apply list_elem_of_In, elem_of_map_to_list).
    pose proof (find_none _ _ Ef _ Hin) as Hne'. cbn in Hne'. unfold not_editable in Hne'.
    apply negb_false_iff, andb_true_iff in Hne' as [Hed _]. by apply bool_decide_eq_true in Hed.
  - intros snap ->. done.
Qed.
End patch.

(** ** Runs

    Patches, preset changes by the onboarding and restarts, one after the
    other.  Without a service the process is down: a restart that fails ends
    it. *)

Inductive settings_op :=
  | OpPatch (expected : Z) (changes : gmap string string) (actor : string)
  | OpPreset (preset actor : string)
  | OpRestart.
Definition op_valid (o : settings_op) : Prop := match o with OpPatch _ changes _ => valid_changes changes | _ => True end.

Section runs.
Context `{MapOrder} (url_parse : string -> option URL) (base : Config) (eff : gmap string Effective).

Definition service_of {A} (s : Service) (r : (gerr + A * Service) * world SettingsDB) : option Service * world SettingsDB :=
  match r with (inr (_, s'), w) => (Some s', w) | (inl _, w) => (Some s, w) end.
Definition run_op (st : option Service * world SettingsDB) (o : settings_op) : option Service * world SettingsDB :=
  let '(up, w) := st in
  match o, up with
  | OpRestart, _ => match Initialize url_parse (NewService base eff) w with (inr s, w') => (Some s, w') | (inl _, w') => (None, w') end
  | OpPatch expected changes actor, Some s => service_of s (Patch url_parse s expected changes actor w)
  | OpPreset preset actor, Some s => service_of s (SetRetentionPreset url_parse s preset actor w)
  | _, None => st
  end.
Definition run_ops (ops : list settings_op) (st : option Service * world SettingsDB) := fold_left run_op ops st.

(** The configuration in force is what the stored settings resolve to. *)
Definition in_force (M : gmap string string) (s : Service) : Prop :=
  sv_base s = base /\ ResolveOverrides url_parse base M = inr (sv_current s).
Definition state_ok (bound : Z) (up : option Service) (d : SettingsDB) : Prop :=
  exists M n, settings_ok d M n /\ n <= bound /\ (forall s, up = Some s -> in_force M s).

Lemma state_ok_patch bound s w expected changes actor :
  state_ok bound (Some s) (w_db w) -> bound < max_int64 -> valid_changes changes ->
  exists r s' w', Patch url_parse s expected changes actor w = (inr (r, s'), w') /\ state_ok (bound + 1) (Some s') (w_db w').
Proof.
  intros (M & n & Hd & Hn & Hs) Hb Hv.
  destruct (patch_outcome url_parse s M n expected changes actor w Hd ltac:(lia) Hv) as (r & s' & w' & -> & Ho).
  exists r, s', w'. split; [done|]. destruct (Hs s eq_refl) as [Hbase Hcur]. destruct Ho as [(_ & -> & ->)|Hp].
  - exists M, n. split_and!; [done|lia|done].
  - exists (changes ∪ M), (n + 1). split_and!; [apply Hp|lia|]. intros ? [= <-]. split.
    + rewrite (pt_service _ _ _ _ _ _ _ _ _ _ _ Hp). done.
    + rewrite <- Hbase. apply Hp.
Qed.

Lemma Service_Snapshot_same s d : preserves (fun d' => d' = d) (Service_Snapshot url_parse s).
Proof. unfold Service_Snapshot, overrides, revision, lift, lift_msg. frame_auto. Qed.
Lemma preset_valid preset r : RetentionPreset preset = Some r -> valid_changes {["retention.preset" := preset]}.
Proof.
  unfold RetentionPreset. intros Hp k v [_ <-]%lookup_singleton_Some.
  destruct (String.eqb_spec preset "minimal") as [->|]; [done|]. destruct (String.eqb_spec preset "balanced") as [->|]; [done|].
  by destruct (String.eqb_spec preset "long-term") as [->|].
Qed.
Lemma state_ok_preset k bound s w preset actor :
  valid_changes {["retention.preset" := preset]} ->
  state_ok bound (Some s) (w_db w) -> bound + Z.of_nat k <= max_int64 ->
  exists r s' w', preset_attempts url_parse k s preset actor w = (inr (r, s'), w') /\ state_ok (bound + Z.of_nat k) (Some s') (w_db w').
Proof.
  intros Hv. revert bound s w. induction k as [|k IH]; intros bound s w Hs Hb.
  { eexists _, _, _. split; [done|]. cbn. by rewrite Z.add_0_r. }
  assert (forall up d b b', b <= b' -> state_ok b up d -> state_ok b' up d) as Hmono.
  { intros up d b b' Hle (M & n & ? & ? & ?). exists M, n. split_and!; [done|lia|done]. }
  cbn [preset_attempts]. unfold bind at 1, attempt. pose proof (Service_Snapshot_same s (w_db w) w eq_refl) as Hsame.
  destruct (Service_Snapshot url_parse s w) as [[e|snap] w1].
  { eexists _, _, _. split; [done|]. rewrite Hsame. eapply Hmono; [|exact Hs]. lia. }
  unfold bind at 1. rewrite <- Hsame in Hs.
  destruct (state_ok_patch bound s w1 (sn_Revision snap) _ actor Hs ltac:(lia) Hv) as (r & s' & w' & -> & Hs').
  destruct r as [e|snap'].
  - destruct (bool_decide _).
    + destruct (IH (bound + 1) s' w' Hs' ltac:(lia)) as (r & s2 & w2 & -> & Hs2). exists r, s2, w2. split; [done|].
      eapply Hmono; [|exact Hs2]. lia.
    + eexists _, _, _. split; [done|]. eapply Hmono; [|exact Hs']. lia.
  - eexists _, _, _. split; [done|]. eapply Hmono; [|exact Hs']. lia.
Qed.

Lemma Initialize_runs d M n s :
  settings_ok d M n ->
  runs d (Initialize url_parse s) (fun s' d' => d' = d /\ ResolveOverrides url_parse (sv_base s) M = inr (sv_current s') /\ sv_base s' = sv_base s).
Proof.
  intros Hd. unfold Initialize. apply runs_bind. eapply runs_mono; [by apply (overrides_runs d M n)|]. intros ? ? [-> ->].
  destruct (ResolveOverrides _ _ M); cbn; by sym.
Qed.
Lemma Initialize_same s d : preserves (fun d' => d' = d) (Initialize url_parse s).
Proof. unfold Initialize, overrides, lift, lift_msg. frame_auto. Qed.

Lemma state_ok_op bound up w o :
  state_ok bound up (w_db w) -> bound + 3 <= max_int64 -> op_valid o ->
  state_ok (bound + 3) (run_op (up, w) o).1 (w_db (run_op (up, w) o).2).
Proof.
  intros Hs Hb Hv.
  assert (forall up d b, b <= bound + 3 -> state_ok b up d -> state_ok (bound + 3) up d) as Hmono.
  { intros up' d b Hle (M & n & ? & ? & ?). exists M, n. split_and!; [done|lia|done]. }
  destruct o as [expected changes actor|preset actor|]; cbn [run_op].
  - destruct up as [s|]; [|eapply Hmono; [|exact Hs]; lia].
    destruct (state_ok_patch bound s w expected changes actor Hs ltac:(lia) Hv) as (r & s' & w' & -> & Hs'). cbn.
    eapply Hmono; [|exact Hs']. lia.
  - destruct up as [s|]; [|eapply Hmono; [|exact Hs]; lia]. unfold SetRetentionPreset.
    destruct (_ =?s preset); [cbn; eapply Hmono; [|exact Hs]; lia|].
    destruct (RetentionPreset preset) as [r0|] eqn:Ep; [|cbn; eapply Hmono; [|exact Hs]; lia].
    destruct (state_ok_preset 3 bound s w preset actor (preset_valid _ _ Ep) Hs ltac:(lia)) as (r & s' & w' & -> & Hs'). exact Hs'.
  - destruct Hs as (M & n & Hd & Hn & _). pose proof (Initialize_runs (w_db w) M n (NewService base eff) Hd w eq_refl) as Hr.
    pose proof (Initialize_same (NewService base eff) (w_db w) w eq_refl) as Hsame.
    destruct (Initialize _ _ w) as [[e|s] w1]; cbn; rewrite Hsame; exists M, n; (split_and!; [done|lia|]); [done|].
    intros ? [= <-]. destruct Hr as (_ & Hres & Hbase). by split.
Qed.
Lemma state_ok_ops ops bound up w :
  state_ok bound up (w_db w) -> bound + 3 * Z.of_nat (length ops) <= max_int64 -> Forall op_valid ops ->
  state_ok (bound + 3 * Z.of_nat (length ops)) (run_ops ops (up, w)).1 (w_db (run_ops ops (up, w)).2).
Proof.
  revert bound up w. induction ops as [|o ops IH]; intros bound up w Hs Hb Hv; [by cbn; rewrite Z.add_0_r|].
  apply Forall_cons in Hv as [Ho Hv]. cbn [length] in *. pose proof (state_ok_op bound up w o Hs ltac:(lia) Ho) as H1.
  change (run_ops (o :: ops) (up, w)) with (run_ops ops (run_op (up, w) o)). destruct (run_op (up, w) o) as [up' w'].
  replace (bound + 3 * Z.of_nat (S (length ops))) with ((bound + 3) + 3 * Z.of_nat (length ops)) by lia. by apply IH; [|lia|].
Qed.

Definition start (faults : list bool) (rn : nat) (ck : list Z) : option Service * world SettingsDB :=
  (None, World fresh_settings faults rn ck).
Lemma run_start_ok ops faults rn ck :
  3 * Z.of_nat (length ops) <= max_int64 -> Forall op_valid ops ->
  state_ok (3 * Z.of_nat (length ops)) (run_ops ops (start faults rn ck)).1 (w_db (run_ops ops (start faults rn ck)).2).
Proof.
  intros Hl Hv. apply (state_ok_ops ops 0 None (World fresh_settings faults rn ck)); [|lia|done].
  exists ∅, 0. split_and!; [apply fresh_settings_ok|lia|done].
Qed.

(** The audit trail accounts for the stored settings.  After
    any sequence of patches, preset changes and restarts, with any statement
    failing: replaying the trail gives exactly the stored values, every entry
    names the value it replaced, entries are in the order of their revisions,
    each revision up to the current one has entries and no other does, and the
    configuration in force is the deployment's with the stored values
    applied. *)
Theorem settings_audited (ops : list settings_op) (faults : list bool) (rn : nat) (ck : list Z) :
  3 * Z.of_nat (length ops) <= max_int64 -> Forall op_valid ops ->
  exists M n, settings_ok (w_db (run_ops ops (start faults rn ck)).2) M n /\ n <= 3 * Z.of_nat (length ops) /\
    forall s, (run_ops ops (start faults rn ck)).1 = Some s -> ResolveOverrides url_parse base M = inr (sv_current s).
Proof.
  intros Hl Hv. destruct (run_start_ok ops faults rn ck Hl Hv) as (M & n & Hd & Hn & Hs).
  exists M, n. split_and!; [done|done|]. intros s Hsome. apply (Hs s Hsome).
Qed.

(** C19 (roundtrip): a restart keeps the settings.  After any sequence of
    patches, preset changes and restarts, with any statement failing, starting
    again on the same deployment configuration succeeds when storage is
    healthy and puts the same configuration in force. *)
Theorem settings_restart (ops : list settings_op) (faults : list bool) (rn rn' : nat) (ck ck' : list Z) (s : Service) (w : world SettingsDB) :
  3 * Z.of_nat (length ops) <= max_int64 -> Forall op_valid ops -> run_ops ops (start faults rn ck) = (Some s, w) ->
  exists s' w', Initialize url_parse (NewService base eff) (World (w_db w) [] rn' ck') = (inr s', w') /\
    sv_current s' = sv_current s /\ w_db w' = w_db w.
Proof.
  intros Hl Hv Hrun. destruct (run_start_ok ops faults rn ck Hl Hv) as (M & n & Hd & _ & Hs). rewrite Hrun in Hd, Hs. cbn [fst snd] in Hd, Hs.
  destruct (Hs s eq_refl) as [_ Hres]. unfold Initialize, overrides, bind, query, exec. cbn [next_fault w_faults w_db] in *.
  rewrite (decode_represented _ _ (so_rows _ _ _ Hd)). cbn. rewrite Hres. cbn. by eexists _, _.
Qed.
End runs.

(** C20 (safety): a patch commits whole or not at all, and never over a change
    its author has not seen.  With any statement failing, a patch either
    changes neither the tables nor the configuration and answers with an
    error, or the expected revision was the current one, all its keys are
    editable, the configuration in force is the stored settings with the
    changes applied, the revision is the next one, and the trail has one more
    entry per change. *)
Theorem settings_patch `{MapOrder} (url_parse : string -> option URL) (s : Service) (M : gmap string string) (n expected : Z)
  (changes : gmap string string) (actor : string) (w : world SettingsDB) :
  settings_ok (w_db w) M n -> n < max_int64 -> valid_changes changes ->
  exists r s' w', Patch url_parse s expected changes actor w = (inr (r, s'), w') /\
    (((exists e, r = inl e) /\ s' = s /\ w_db w' = w_db w) \/
     patched url_parse s (w_db w) M n expected changes actor r s' (w_db w')).
Proof. apply patch_outcome. Qed.

(** ** Witnesses *)

Definition sample_change : gmap string string := {["collection.host_interval" := "3s"]}.
Lemma sample_change_valid : valid_changes sample_change.
Proof. unfold sample_change. intros k v [_ <-]%lookup_singleton_Some. done. Qed.
Definition sample_ops : list settings_op := [OpRestart; OpPatch 0 sample_change "usr_admin"; OpPreset "long-term" "usr_onboarding"].
Lemma sample_ops_valid : Forall op_valid sample_ops.
Proof. repeat constructor. apply sample_change_valid. Qed.

Lemma settings_patch_witness :
  exists r s' w', Patch (fun _ => None) (NewService Defaults ∅) 0 sample_change "usr_admin" (World fresh_settings [] 0%nat [1000]) = (inr (r, s'), w') /\
    patched (fun _ => None) (NewService Defaults ∅) fresh_settings ∅ 0 0 sample_change "usr_admin" r s' (w_db w').
Proof.
  destruct (settings_patch (fun _ => None) (NewService Defaults ∅) ∅ 0 0 sample_change "usr_admin" (World fresh_settings [] 0%nat [1000])
    fresh_settings_ok ltac:(vm_compute; reflexivity) sample_change_valid) as (r & s' & w' & E & [((e & ->) & _)|Hp]); [|exists r, s', w'; split; [exact E|exact Hp]].
  exfalso. apply (f_equal (fun x => match x.1 with inr (inr _, _) => true | _ => false end)) in E. vm_compute in E. discriminate E.
Defined.
Lemma settings_audited_witness :
  exists M n, settings_ok (w_db (run_ops (fun _ => None) Defaults ∅ sample_ops (start [false; true] 0%nat [])).2) M n /\ n <= 9 /\
    forall s, (run_ops (fun _ => None) Defaults ∅ sample_ops (start [false; true] 0%nat [])).1 = Some s ->
      ResolveOverrides (fun _ => None) Defaults M = inr (sv_current s).
Proof.
  exact (settings_audited (fun _ => None) Defaults ∅ sample_ops [false; true] 0%nat [] ltac:(vm_compute; discriminate) sample_ops_valid).
Defined.
Definition sample_state := run_ops (fun _ => None) Defaults ∅ sample_ops (start [] 0%nat []).
Definition sample_service : Service := default (NewService Defaults ∅) sample_state.1.
Lemma sample_in_force :
  Collection_HostInterval (c_Collection (sv_current sample_service)) = 3 * Second /\
  Retention_Raw (c_Retention (sv_current sample_service)) = 7 * day.
Proof. vm_compute. done. Qed.
Lemma settings_restart_witness :
  exists s' w', Initialize (fun _ => None) (NewService Defaults ∅) (World (w_db sample_state.2) [] 0%nat []) = (inr s', w') /\
    sv_current s' = sv_current sample_service /\ w_db w' = w_db sample_state.2.
Proof.
  refine (settings_restart (fun _ => None) Defaults ∅ sample_ops [] 0%nat 0%nat [] [] sample_service sample_state.2
    ltac:(vm_compute; discriminate) sample_ops_valid _).
  rewrite (surjective_pairing (run_ops _ _ _ _ _)). apply (f_equal (fun u => (u, sample_state.2))).
  unfold sample_service. assert (is_Some sample_state.1) as [s Hs] by (apply (bool_decide_unpack _); vm_compute; exact I).
  fold sample_state. by rewrite Hs.
Defined.

(** ** Findings *)

(** A patch is answered with an error although it is stored and in force when
    the snapshot behind the commit cannot be read. *)
Lemma committed_patch_reports_error :
  let '(r, w) := Patch (fun _ => None) (NewService Defaults ∅) 0 sample_change "usr_admin"
    (World fresh_settings [false; false; false; false; false; false; false; true] 0%nat []) in
  match r with
  | inr (inl EFault, s) => Collection_HostInterval (c_Collection (sv_current s)) = 3 * Second /\ length (sd_settings (w_db w)) = 1%nat
  | _ => False
  end.
Proof. vm_compute. done. Qed.
