(* ===== verification/AlertState.v ===== *)
(** * Alert catalogue and lifecycle

    [internal/alerts/types.go] and [internal/alerts/state.go]: severities,
    phases, rules, the built-in rule catalogue, silence presets, and the
    lifecycle transition [Advance], with what whole runs of it guarantee:
    debouncing, recovery, cooldown, repeat spacing, and that a persistent
    failure fires once suppression ends. *)

From stdpp Require Import base tactics list gmap strings.
From Stdlib Require Import ZArith Lia.
From S2P Require Import Prelude Float64.

(** ** Data *)

(** [type Severity string] *)
Definition Severity : Type := string.
Definition Warning : Severity := "warning".
Definition Critical : Severity := "critical".

(** [PhaseEmpty] is the zero value [""] of the Go string type. *)
Inductive Phase := PhaseEmpty | Healthy | Pending | Firing | Recovering.

#[export] Instance phase_eq_dec : EqDecision Phase.
Proof. solve_decision. Defined.

Definition FamilyHostCPU : string := "host_cpu_warning".
Definition FamilyHostMemory : string := "host_memory_warning".
Definition FamilyFilesystemWarning : string := "filesystem_warning".
Definition FamilyFilesystemCritical : string := "filesystem_critical".
Definition FamilyInodeWarning : string := "inode_warning".
Definition FamilyInodeCritical : string := "inode_critical".
Definition FamilyRestartStorm : string := "restart_storm".
Definition FamilyOOMLoop : string := "oom_loop".
Definition FamilyRequiredCheck : string := "required_check_failure".
Definition FamilyOptionalCheck : string := "optional_check_failure".
Definition FamilyDockerDown : string := "docker_collector_down".
Definition FamilyPersistence : string := "persistence_failure".

Record Rule := mkRule {
  r_ID : string;
  r_Family : string;
  r_Name : string;
  r_BuiltIn : bool;
  r_Enabled : bool;
  r_Severity : Severity;
  r_ScopeType : string;
  r_ScopeID : string;
  r_Threshold : option F64;
  r_RecoveryThreshold : option F64;
  r_TriggerDuration : Z;
  r_RecoveryDuration : Z;
  r_Window : Z;
  r_Cooldown : Z;
  r_Repeat : Z;
  r_SuppressDuringDeployment : bool;
}.

(** [Rule{}] *)
Definition zero_rule : Rule :=
  mkRule "" "" "" false false "" "" "" None None 0 0 0 0 0 false.

(** [rule.RecoveryDuration = d] *)
Definition with_recovery (d : Z) (r : Rule) : Rule :=
  mkRule (r_ID r) (r_Family r) (r_Name r) (r_BuiltIn r) (r_Enabled r) (r_Severity r)
    (r_ScopeType r) (r_ScopeID r) (r_Threshold r) (r_RecoveryThreshold r)
    (r_TriggerDuration r) d (r_Window r) (r_Cooldown r) (r_Repeat r)
    (r_SuppressDuringDeployment r).

Record State := mkState {
  s_Phase : Phase;
  s_Since : Z;
  s_LastNotifiedAt : option Z;
  s_CooldownUntil : option Z;
}.

Record Transition := mkTransition {
  t_State : State;
  t_Triggered : bool;
  t_Repeated : bool;
  t_Resolved : bool;
}.

(** ** Silence presets

    [off] is the offset from UTC, in nanoseconds, of the location of [now]
    (JSON timestamps carry a fixed offset). *)
Definition Day : Z := 24 * Hour.

Definition SilencePresetEnd (off now : Z) (preset : string) (custom : Z) : option Z :=
  if bool_decide (preset = "30m") then Some (time_add now (30 * Minute))
  else if bool_decide (preset = "1h") then Some (time_add now Hour)
  else if bool_decide (preset = "4h") then Some (time_add now (4 * Hour))
  else if bool_decide (preset = "tomorrow") then
    Some ((now + off + Day) / Day * Day - off)
  else if bool_decide (preset = "custom") then
    if now <? custom then Some custom else None
  else None.

(** ** The built-in catalogue *)

Definition builtin (id family name : string) (sev : Severity)
    (threshold recovery : option Z) (trig recov window : Z) (suppress : bool) : Rule :=
  mkRule id family name true true sev "global" ""
    (f64_of_Z <$> threshold) (f64_of_Z <$> recovery) trig recov window 0 0 suppress.

Definition DefaultRules : list Rule := [
  builtin "builtin-host-cpu-warning" FamilyHostCPU "Host CPU warning" Warning
    (Some 90) (Some 80) (5 * Minute) (2 * Minute) 0 false;
  builtin "builtin-host-memory-warning" FamilyHostMemory "Host memory warning" Warning
    (Some 85) (Some 80) (10 * Minute) (2 * Minute) 0 false;
  builtin "builtin-filesystem-warning" FamilyFilesystemWarning "Filesystem warning" Warning
    (Some 80) (Some 80) (5 * Minute) (2 * Minute) 0 false;
  builtin "builtin-filesystem-critical" FamilyFilesystemCritical "Filesystem critical" Critical
    (Some 95) (Some 90) (2 * Minute) (2 * Minute) 0 false;
  builtin "builtin-inode-warning" FamilyInodeWarning "Inode warning" Warning
    (Some 80) (Some 80) (5 * Minute) (2 * Minute) 0 false;
  builtin "builtin-inode-critical" FamilyInodeCritical "Inode critical" Critical
    (Some 95) (Some 90) (2 * Minute) (2 * Minute) 0 false;
  builtin "builtin-restart-storm" FamilyRestartStorm "Restart storm" Warning
    (Some 3) None 0 (10 * Minute) (10 * Minute) true;
  builtin "builtin-oom-loop" FamilyOOMLoop "OOM loop" Critical
    (Some 2) None 0 (10 * Minute) (10 * Minute) false;
  builtin "builtin-required-check" FamilyRequiredCheck "Required check failure" Critical
    None None (2 * Minute) (2 * Minute) 0 true;
  builtin "builtin-optional-check" FamilyOptionalCheck "Optional check failure" Warning
    None None (2 * Minute) (2 * Minute) 0 true;
  builtin "builtin-docker-down" FamilyDockerDown "Docker collector down" Critical
    None None (2 * Minute) Minute 0 false;
  builtin "builtin-persistence-failure" FamilyPersistence "Persistence failure" Critical
    None None 0 Minute 0 false ].

(** ** The lifecycle transition *)

Definition cooldown_over (now : Z) (until : option Z) : bool :=
  match until with None => true | Some u => negb (now <? u) end.

Definition Advance (now : Z) (previous : State) (failing recovered suppressed : bool)
    (rule : Rule) : Transition :=
  let previous :=
    if decide (s_Phase previous = PhaseEmpty) then mkState Healthy now None None else previous in
  let stay := mkTransition previous false false false in
  match s_Phase previous with
  | PhaseEmpty => stay
  | Healthy =>
      if failing then
        mkTransition (mkState Pending now None (s_CooldownUntil previous)) false false false
      else stay
  | Pending =>
      if negb failing then
        mkTransition (mkState Healthy now None (s_CooldownUntil previous)) false false false
      else if (r_TriggerDuration rule <=? time_sub now (s_Since previous))
              && negb suppressed && cooldown_over now (s_CooldownUntil previous) then
        mkTransition (mkState Firing now (Some now) (s_CooldownUntil previous)) true false false
      else stay
  | Firing =>
      if recovered then
        mkTransition (mkState Recovering now (s_LastNotifiedAt previous) (s_CooldownUntil previous))
          false false false
      else
        match s_LastNotifiedAt previous with
        | Some last =>
            if negb suppressed && (0 <? r_Repeat rule)
               && (r_Repeat rule <=? time_sub now last) then
              mkTransition (mkState Firing (s_Since previous) (Some now) (s_CooldownUntil previous))
                false true false
            else stay
        | None => stay
        end
  | Recovering =>
      if failing then
        mkTransition (mkState Firing now (s_LastNotifiedAt previous) (s_CooldownUntil previous))
          false false false
      else if recovered && (r_RecoveryDuration rule <=? time_sub now (s_Since previous)) then
        mkTransition (mkState Healthy now None (Some (time_add now (r_Cooldown rule))))
          false false true
      else stay
  end.

(** ** Runs: one observation after another under one rule *)

Record Obs := mkObs {
  o_now : Z;
  o_failing : bool;
  o_recovered : bool;
  o_suppressed : bool;
}.

Definition step (rule : Rule) (s : State) (o : Obs) : Transition :=
  Advance (o_now o) s (o_failing o) (o_recovered o) (o_suppressed o) rule.

Fixpoint run (rule : Rule) (s : State) (os : list Obs) : State :=
  match os with
  | [] => s
  | o :: os => run rule (t_State (step rule s o)) os
  end.

Fixpoint trace (rule : Rule) (s : State) (os : list Obs) : list Transition :=
  match os with
  | [] => []
  | o :: os => let t := step rule s o in t :: trace rule (t_State t) os
  end.

Lemma run_app rule s os os' : run rule s (os ++ os') = run rule (run rule s os) os'.
Proof. revert s. induction os; cbn; auto. Qed.

Lemma run_snoc rule s os o : run rule s (os ++ [o]) = t_State (step rule (run rule s os) o).
Proof. by rewrite run_app. Qed.

Lemma trace_app rule s os os' :
  trace rule s (os ++ os') = trace rule s os ++ trace rule (run rule s os) os'.
Proof. revert s. induction os; cbn; intros; [done|]. f_equal. auto. Qed.

(** An alert is open in these phases. *)
Definition active (s : State) : bool :=
  match s_Phase s with Firing | Recovering => true | _ => false end.

Definition quiet (s : State) : Prop := s_Phase s = Healthy \/ s_Phase s = PhaseEmpty.

(** Case analysis on one transition from state [s] under observation [o]. *)
Ltac advance_cases s o :=
  destruct s as [[] ? [?|] ?], o as [? [] [] []];
  unfold step, Advance in *; cbn in *; split_ifs; bool_hyps.

Ltac advance_done :=
  intros; destruct_and?; simplify_eq; split_and?; first [done | by auto | blia].

(** The flags of a transition, as functions of what it started from. *)
Lemma advance_triggered rule s o :
  t_Triggered (step rule s o) = true <->
  s_Phase s = Pending /\ o_failing o = true /\ o_suppressed o = false /\
  r_TriggerDuration rule <= time_sub (o_now o) (s_Since s) /\
  cooldown_over (o_now o) (s_CooldownUntil s) = true.
Proof. advance_cases s o; split; advance_done. Qed.

Lemma advance_resolved rule s o :
  t_Resolved (step rule s o) = true <->
  s_Phase s = Recovering /\ o_failing o = false /\ o_recovered o = true /\
  r_RecoveryDuration rule <= time_sub (o_now o) (s_Since s).
Proof. advance_cases s o; split; advance_done. Qed.

Lemma advance_repeated rule s o :
  t_Repeated (step rule s o) = true ->
  s_Phase s = Firing /\ o_recovered o = false /\ o_suppressed o = false /\
  exists last, s_LastNotifiedAt s = Some last /\
    0 < r_Repeat rule <= time_sub (o_now o) last.
Proof.
  advance_cases s o; intros; simplify_eq; split_and!; auto; eexists; (split; [done|lia]).
Qed.

(** *** Alternation *)

Inductive Mark := MTrigger | MResolve.

Definition marks (t : Transition) : list Mark :=
  (if t_Triggered t then [MTrigger] else []) ++ (if t_Resolved t then [MResolve] else []).

(** A well-bracketed sequence: a trigger when no alert is open, a resolution
    when one is, and [final] says whether one is open at the end. *)
Fixpoint alternates (open : bool) (ms : list Mark) (final : bool) : Prop :=
  match ms with
  | [] => open = final
  | MTrigger :: ms => open = false /\ alternates true ms final
  | MResolve :: ms => open = true /\ alternates false ms final
  end.

Lemma step_active rule s o :
  let t := step rule s o in
  (marks t = [] /\ active (t_State t) = active s) \/
  (marks t = [MTrigger] /\ active s = false /\ active (t_State t) = true) \/
  (marks t = [MResolve] /\ active s = true /\ active (t_State t) = false).
Proof. advance_cases s o; advance_done. Qed.

(** *** Debouncing *)

Lemma step_pending rule s o :
  s_Phase (t_State (step rule s o)) = Pending ->
  o_failing o = true /\
  (s_Since (t_State (step rule s o)) = o_now o \/
   (s_Phase s = Pending /\ s_Since (t_State (step rule s o)) = s_Since s)).
Proof. advance_cases s o; advance_done. Qed.

Lemma step_recovering rule s o :
  s_Phase (t_State (step rule s o)) = Recovering ->
  (s_Phase s = Firing /\ o_recovered o = true /\ s_Since (t_State (step rule s o)) = o_now o) \/
  (s_Phase s = Recovering /\ o_failing o = false /\
   s_Since (t_State (step rule s o)) = s_Since s).
Proof. advance_cases s o; advance_done. Qed.

(** What the flags say about the alert being open before and after. *)
Lemma advance_flags rule s o :
  let t := step rule s o in
  if t_Triggered t then active s = false /\ active (t_State t) = true
  else if t_Repeated t then active s = true /\ active (t_State t) = true
  else if t_Resolved t then active s = true /\ active (t_State t) = false
  else active (t_State t) = active s.
Proof. advance_cases s o; done. Qed.

(** While pending, every observation since [s_Since] was failing. *)
Lemma pending_history rule s0 os :
  quiet s0 -> s_Phase (run rule s0 os) = Pending ->
  exists os1 o1 os2, os = os1 ++ o1 :: os2 /\ o_now o1 = s_Since (run rule s0 os) /\
    Forall (fun o => o_failing o = true) (o1 :: os2).
Proof.
  intros Hq. induction os as [|o os IH] using rev_ind.
  - cbn. destruct Hq as [-> | ->]; done.
  - rewrite run_snoc. intros [Hf [Hs|[Hp Hs]]]%step_pending.
    + exists os, o, []. rewrite Hs. auto.
    + destruct (IH Hp) as (os1 & o1 & os2 & -> & Hnow & Hall).
      exists os1, o1, (os2 ++ [o]). rewrite Hs, <- app_assoc. split; [done|]. split; [done|].
      apply (Forall_app _ (o1 :: os2)); auto.
Qed.

(** While recovering, nothing failed since [s_Since], when the firing alert
    was first seen recovered. *)
Lemma recovering_history rule s0 os :
  s_Phase s0 <> Recovering -> s_Phase (run rule s0 os) = Recovering ->
  exists os1 o1 os2, os = os1 ++ o1 :: os2 /\ o_now o1 = s_Since (run rule s0 os) /\
    s_Phase (run rule s0 os1) = Firing /\ o_recovered o1 = true /\
    Forall (fun o => o_failing o = false) os2.
Proof.
  intros Hq. induction os as [|o os IH] using rev_ind; [done|].
  rewrite run_snoc. intros [(Hp & Hr & Hs)|(Hp & Hf & Hs)]%step_recovering.
  - exists os, o, []. rewrite Hs. auto.
  - destruct (IH Hp) as (os1 & o1 & os2 & -> & Hnow & Hph & Hr & Hall).
    exists os1, o1, (os2 ++ [o]). rewrite Hs, <- app_assoc. split_and!; try done.
    apply Forall_app; auto.
Qed.

(** *** Cooldown *)

Lemma step_cooldown rule s o :
  s_Phase s <> PhaseEmpty -> active s = false -> t_Triggered (step rule s o) = false ->
  let s' := t_State (step rule s o) in
  s_Phase s' <> PhaseEmpty /\ active s' = false /\ s_CooldownUntil s' = s_CooldownUntil s.
Proof. advance_cases s o; advance_done. Qed.

Lemma run_cooldown rule s os :
  s_Phase s <> PhaseEmpty -> active s = false ->
  Forall (fun t => t_Triggered t = false) (trace rule s os) ->
  s_CooldownUntil (run rule s os) = s_CooldownUntil s.
Proof.
  revert s. induction os as [|o os IH]; intros s Hp Ha Ht; cbn in *; [done|].
  inversion_clear Ht as [|? ? Ht1 Ht2].
  destruct (step_cooldown rule s o Hp Ha Ht1) as (Hp' & Ha' & <-). by apply IH.
Qed.

(** *** Notifications *)

Definition notified (t : Transition) : bool := t_Triggered t || t_Repeated t.

(** The last notification of the open alert was at [n]. *)
Definition last_at (n : Z) (s : State) : Prop :=
  active s = true -> s_LastNotifiedAt s = Some n.

Lemma step_notified rule s o :
  notified (step rule s o) = true ->
  last_at (o_now o) (t_State (step rule s o)).
Proof. unfold last_at, notified. advance_cases s o; advance_done. Qed.

Lemma run_last_at rule s os n :
  last_at n s -> Forall (fun t => notified t = false) (trace rule s os) ->
  last_at n (run rule s os).
Proof.
  revert s. induction os as [|o os IH]; intros s Hl Ht; cbn in *; [done|].
  inversion_clear Ht as [|? ? Ht1 Ht2]. apply IH; [|done].
  revert Hl Ht1. unfold last_at, notified. advance_cases s o; advance_done.
Qed.

(** *** Persistent failures *)

(** Until it fires, an unbroken run of failures that began at [t0] leaves the
    rule pending since [t0], its cooldown untouched. *)
Lemma failing_run rule s os t0 cd :
  s_Phase s = Pending -> s_Since s = t0 -> s_CooldownUntil s = cd ->
  Forall (fun o => o_failing o = true) os ->
  Exists (fun t => t_Triggered t = true) (trace rule s os) \/
  (s_Phase (run rule s os) = Pending /\ s_Since (run rule s os) = t0 /\
   s_CooldownUntil (run rule s os) = cd).
Proof.
  revert s. induction os as [|o os IH]; intros s Hp Hs Hc Hf; cbn; [auto|].
  inversion_clear Hf as [|? ? Hf1 Hf2].
  destruct (t_Triggered (step rule s o)) eqn:Et; [by left; constructor|].
  destruct (IH (t_State (step rule s o))) as [H|H]; [| | |done| |]; auto.
  all: revert Hp Hs Hc Hf1 Et; clear; advance_cases s o; advance_done.
Qed.

Lemma step_quiet_failing rule s o now :
  quiet s -> o_failing o = true -> cooldown_over now (s_CooldownUntil s) = true ->
  let s' := t_State (step rule s o) in
  s_Phase s' = Pending /\ s_Since s' = o_now o /\
  cooldown_over now (s_CooldownUntil s') = true.
Proof. unfold quiet. advance_cases s o; intros [|]; advance_done. Qed.

(** ** Properties *)

(** C23 (safety): debouncing.  From a quiet state an alert fires only when an
    unbroken sequence of failing observations reaches back at least
    [TriggerDuration], and the last of them is not suppressed. *)
Theorem trigger_debounced (rule : Rule) (s0 : State) (os : list Obs) (o : Obs) :
  quiet s0 ->
  t_Triggered (step rule (run rule s0 os) o) = true ->
  o_suppressed o = false /\
  exists os1 o1 os2, os = os1 ++ o1 :: os2 /\
    Forall (fun o => o_failing o = true) (o1 :: os2 ++ [o]) /\
    r_TriggerDuration rule <= time_sub (o_now o) (o_now o1).
Proof.
  intros Hq (Hp & Hf & Hsup & Hd & _)%advance_triggered. split; [done|].
  destruct (pending_history _ _ _ Hq Hp) as (os1 & o1 & os2 & -> & Hnow & Hall).
  exists os1, o1, os2. rewrite Hnow. split_and!; try done.
  apply (Forall_app _ (o1 :: os2)); auto.
Qed.

(** A rule that fires after two minutes, recovers after one and cools down for ten. *)
Definition sample_rule : Rule :=
  mkRule "r" FamilyHostCPU "CPU" false true Warning "global" "" None None
    (2 * Minute) Minute 0 (10 * Minute) (5 * Minute) false.

Definition sample_obs (minute : Z) (failing recovered : bool) : Obs :=
  mkObs (minute * Minute) failing recovered false.

Lemma trigger_debounced_witness :
  let os := [sample_obs 1 true false; sample_obs 2 true false] in
  exists os1 o1 os2, os = os1 ++ o1 :: os2 /\
    Forall (fun o => o_failing o = true) (o1 :: os2 ++ [sample_obs 3 true false]) /\
    r_TriggerDuration sample_rule <= time_sub (3 * Minute) (o_now o1).
Proof.
  apply (trigger_debounced sample_rule (mkState Healthy 0 None None) _ (sample_obs 3 true false));
    [by left | by vm_compute].
Defined.

(** An alert resolves only after it was firing, was seen
    recovered at least [RecoveryDuration] ago, and was seen failing at no
    evaluation since. *)
Theorem resolve_debounced (rule : Rule) (s0 : State) (os : list Obs) (o : Obs) :
  quiet s0 ->
  t_Resolved (step rule (run rule s0 os) o) = true ->
  exists os1 o1 os2, os = os1 ++ o1 :: os2 /\
    s_Phase (run rule s0 os1) = Firing /\ o_recovered o1 = true /\ o_recovered o = true /\
    Forall (fun o => o_failing o = false) (os2 ++ [o]) /\
    r_RecoveryDuration rule <= time_sub (o_now o) (o_now o1).
Proof.
  intros Hq (Hp & Hf & Hr & Hd)%advance_resolved.
  destruct (recovering_history rule s0 os) as (os1 & o1 & os2 & -> & Hnow & Hph & Hr1 & Hall);
    [by destruct Hq as [-> | ->] | done |].
  exists os1, o1, os2. rewrite Hnow. split_and!; try done. apply Forall_app; auto.
Qed.

Lemma resolve_debounced_witness :
  let os := [sample_obs 1 true false; sample_obs 3 true false; sample_obs 4 false true] in
  exists os1 o1 os2, os = os1 ++ o1 :: os2 /\
    s_Phase (run sample_rule (mkState Healthy 0 None None) os1) = Firing /\
    o_recovered o1 = true /\ true = true /\
    Forall (fun o => o_failing o = false) (os2 ++ [sample_obs 5 false true]) /\
    r_RecoveryDuration sample_rule <= time_sub (5 * Minute) (o_now o1).
Proof.
  apply (resolve_debounced sample_rule (mkState Healthy 0 None None) _ (sample_obs 5 false true));
    [by left | by vm_compute].
Defined.

(** Triggers and resolutions alternate.  Whatever is observed, in
    whatever order, the events of one rule's run are a trigger, its
    resolution, a trigger, and so on, starting with a trigger when the run
    starts without an open alert; and the alert is open at the end exactly when
    the last of them is a trigger. *)
Theorem lifecycle_alternates (rule : Rule) (s0 : State) (os : list Obs) :
  alternates (active s0) (concat (map marks (trace rule s0 os))) (active (run rule s0 os)).
Proof.
  revert s0. induction os as [|o os IH]; intros s; cbn; [done|].
  specialize (IH (t_State (step rule s o))).
  destruct (step_active rule s o) as [[-> E]|[(-> & E & E')|(-> & E & E')]];
    cbn; rewrite ?E, ?E' in *; auto.
Qed.

(** Cooldown.  After an alert resolves, the same rule does not fire
    again before [Cooldown] has passed since that resolution. *)
Theorem cooldown_respected (rule : Rule) (s : State) (o1 : Obs) (os : list Obs) (o2 : Obs) :
  t_Resolved (step rule s o1) = true ->
  let s1 := t_State (step rule s o1) in
  Forall (fun t => t_Triggered t = false) (trace rule s1 os) ->
  t_Triggered (step rule (run rule s1 os) o2) = true ->
  o_now o1 + r_Cooldown rule <= o_now o2.
Proof.
  intros Hr s1 Ht (_ & _ & _ & _ & Hc)%advance_triggered.
  assert (s_Phase s1 = Healthy /\ s_CooldownUntil s1 = Some (time_add (o_now o1) (r_Cooldown rule)))
    as [Hp Hu].
  { subst s1. revert Hr. clear. advance_cases s o1; advance_done. }
  rewrite run_cooldown, Hu in Hc; [|by rewrite Hp| by unfold active; rewrite Hp |done].
  unfold cooldown_over, time_add in Hc. lia.
Qed.

Lemma cooldown_respected_witness :
  o_now (sample_obs 5 false true) + r_Cooldown sample_rule <= o_now (sample_obs 15 true false).
Proof.
  apply (cooldown_respected sample_rule (mkState Recovering (4 * Minute) (Some 0) None)
           (sample_obs 5 false true) [sample_obs 6 true false; sample_obs 14 true false]
           (sample_obs 15 true false)); vm_compute; auto.
Defined.

(** Reminders are spaced.  Between a notification (a trigger or a
    reminder) and the next reminder at least [Repeat] passes, and reminders
    exist only when [Repeat] is positive. *)
Theorem reminders_spaced (rule : Rule) (s : State) (o1 : Obs) (os : list Obs) (o2 : Obs) :
  notified (step rule s o1) = true ->
  let s1 := t_State (step rule s o1) in
  Forall (fun t => notified t = false) (trace rule s1 os) ->
  t_Repeated (step rule (run rule s1 os) o2) = true ->
  0 < r_Repeat rule <= time_sub (o_now o2) (o_now o1).
Proof.
  intros Hn%step_notified s1 Ht (Hp & _ & _ & last & Hl & Hd)%advance_repeated.
  pose proof (run_last_at _ _ _ _ Hn Ht) as Hla. unfold last_at, active in Hla.
  subst s1. rewrite Hp, Hl in Hla. specialize (Hla eq_refl). by simplify_eq.
Qed.

Lemma reminders_spaced_witness :
  0 < r_Repeat sample_rule <= time_sub (8 * Minute) (3 * Minute).
Proof.
  apply (reminders_spaced sample_rule (mkState Pending Minute None None)
           (sample_obs 3 true false) [sample_obs 4 false true; sample_obs 5 true false]
           (sample_obs 8 true false)); vm_compute; auto.
Defined.

(** A persistent failure fires.  If a rule that is not in an open
    alert sees only failures from [o1] on, then an unsuppressed observation at
    least [TriggerDuration] later, past the cooldown, has the alert triggered
    no later than there. *)
Theorem persistent_failure_fires (rule : Rule) (s0 : State) (o1 : Obs) (os : list Obs) (o : Obs) :
  quiet s0 ->
  Forall (fun o => o_failing o = true) (o1 :: os ++ [o]) ->
  r_TriggerDuration rule <= time_sub (o_now o) (o_now o1) ->
  o_suppressed o = false ->
  cooldown_over (o_now o) (s_CooldownUntil s0) = true ->
  Exists (fun t => t_Triggered t = true) (trace rule s0 (o1 :: os ++ [o])).
Proof.
  intros Hq [Hf1 [Hfs Hf]%Forall_app]%Forall_cons Hd Hsup Hc. inversion_clear Hf as [|? ? Hfo _].
  destruct (step_quiet_failing rule s0 o1 (o_now o) Hq Hf1 Hc) as (Hp & Hs & Hc').
  cbn. right. rewrite trace_app. apply Exists_app.
  destruct (failing_run rule _ os _ _ Hp Hs eq_refl Hfs) as [H|(Hp' & Hs' & Hcd)]; [by left|].
  right. cbn. left. apply advance_triggered. rewrite Hs', Hcd. auto.
Qed.

Lemma persistent_failure_fires_witness :
  Exists (fun t => t_Triggered t = true)
    (trace sample_rule (mkState PhaseEmpty 0 None None)
       (sample_obs 1 true false :: [sample_obs 2 true false] ++ [sample_obs 3 true false])).
Proof.
  apply (persistent_failure_fires sample_rule (mkState PhaseEmpty 0 None None));
    [by right | repeat constructor | by vm_compute | done | done].
Defined.
