(* ===== verification/Schema.v ===== *)
(** * The monitoring tables

    The tables of [migrations/004], [015] and [017] that checks, alerts,
    incidents and notifications share, one record per row with the columns
    the code reads or writes.  Tables are row lists in insertion order, but
    for the upserted ones, which are maps on their primary key.  The
    statements that a constraint can refuse are here, with the constraint:
    primary keys, [UNIQUE], [CHECK], foreign keys (the connection turns them
    on) and the channel-limit trigger. *)

From stdpp Require Import base tactics list gmap strings.
From Stdlib Require Import ZArith Lia.
From S2P Require Import Prelude Float64 Db AlertState.

(** ** Rows *)

(** [resources], the columns checks and alerts read. *)
Record ResourceRow := mkResourceRow {
  res_id : string; res_project_name : option string; res_status : string;
  res_archived_at : option Z;
}.

(** [events] *)
Record EventRow := mkEventRow {
  ev_id : string; ev_ts : Z; ev_resource_id : option string; ev_type : string;
  ev_severity : string; ev_summary : string; ev_correlation_key : string;
  ev_source : string; ev_created_at : Z;
}.

(** [filesystem_samples_1m] *)
Record FsRow := mkFsRow {
  fs_ts : Z; fs_mount_key : string; fs_used_pct : option F64; fs_inodes_used_pct : option F64;
}.

(** [health_checks] *)
Record CheckRow := mkCheckRow {
  ck_id : string; ck_resource_id : string; ck_name : string; ck_url : string; ck_method : string;
  ck_interval : Z; ck_timeout : Z; ck_status_min : Z; ck_status_max : Z;
  ck_body : option string; ck_required : bool; ck_enabled : bool;
  ck_created_at : Z; ck_updated_at : Z;
}.

(** [health_check_state], keyed by [check_id] *)
Record CheckStateRow := mkCheckStateRow {
  cs_status : string; cs_failure_code : option string; cs_latency_ms : option Z;
  cs_checked_at : option Z; cs_successes : Z; cs_failures : Z;
  cs_next_run_at : option Z; cs_updated_at : Z;
}.

(** [alert_rules] *)
Record RuleRow := mkRuleRow {
  ru_id : string; ru_family : string; ru_name : string; ru_built_in : bool; ru_enabled : bool;
  ru_severity : string; ru_scope_type : string; ru_scope_id : string;
  ru_threshold : option F64; ru_recovery_threshold : option F64;
  ru_trigger_seconds : Z; ru_recovery_seconds : Z; ru_window_seconds : Z;
  ru_cooldown_seconds : Z; ru_repeat_seconds : Z; ru_suppress : bool;
  ru_created_at : Z; ru_updated_at : Z;
}.

(** [alert_evaluation_state], keyed by [dedup_key]; [details_json] repeats
    the observed value and is read nowhere. *)
Record EvalRow := mkEvalRow {
  es_rule_id : string; es_target_type : string; es_target_id : string; es_phase : Phase;
  es_phase_since : Z; es_last_evaluated_at : Z; es_last_notified_at : option Z;
  es_cooldown_until : option Z; es_observed_value : option F64;
}.

(** [alerts] *)
Record AlertRow := mkAlertRow {
  al_id : string; al_dedup_key : string; al_rule_id : string; al_family : string;
  al_severity : string; al_target_type : string; al_target_id : string; al_status : string;
  al_started_at : Z; al_resolved_at : option Z; al_last_observed_at : Z;
  al_observed_value : option F64; al_message : string;
}.

(** [silences] *)
Record SilenceRow := mkSilenceRow {
  si_id : string; si_scope_type : string; si_scope_id : string; si_reason : string;
  si_starts_at : Z; si_ends_at : Z; si_created_by : string; si_created_at : Z;
}.

(** [deployment_grace_periods], keyed by [resource_id] *)
Record GraceRow := mkGraceRow { gr_starts_at : Z; gr_ends_at : Z; gr_confidence : string }.

(** [incidents] *)
Record IncidentRow := mkIncidentRow {
  in_id : string; in_group_key : string; in_status : string; in_severity : string;
  in_target_type : string; in_target_id : string; in_title : string; in_opened_at : Z;
  in_updated_at : Z; in_resolved_at : option Z; in_version : Z; in_next_reminder_at : option Z;
}.

(** [incident_alerts] *)
Record MemberRow := mkMemberRow {
  im_incident_id : string; im_alert_id : string; im_joined_at : Z; im_resolved_at : option Z;
}.

(** [notification_channels]; [config_json] holds an object, of which the code
    reads string members only. *)
Record ChannelRow := mkChannelRow {
  cn_id : string; cn_name : string; cn_kind : string; cn_enabled : bool;
  cn_minimum_severity : string; cn_notify_resolved : bool; cn_config : gmap string string;
  cn_secret_ref : string; cn_created_at : Z; cn_updated_at : Z; cn_deleted_at : option Z;
}.

(** What [payload_json] encodes: the incident with up to twenty of its
    alerts, or nothing for a test message. *)
Record MemberAlert := mkMemberAlert {
  ma_ID : string; ma_Family : string; ma_Severity : string; ma_Status : string;
  ma_Message : string; ma_StartedAt : Z; ma_ResolvedAt : option Z;
}.

Record Incident := mkIncident {
  i_ID : string; i_GroupKey : string; i_Status : string; i_Severity : string;
  i_TargetType : string; i_TargetID : string; i_Title : string; i_AlertCount : Z;
  i_FiringCount : Z; i_OpenedAt : Z; i_UpdatedAt : Z; i_ResolvedAt : option Z;
  i_Version : Z; i_Alerts : list MemberAlert;
}.

Record Payload := mkPayload {
  p_eventType : string; p_deliveryId : string; p_idempotencyKey : string;
  p_incident : option Incident;
}.

(** [notification_deliveries] *)
Record DeliveryRow := mkDeliveryRow {
  de_id : string; de_channel_id : string; de_incident_id : option string; de_event_type : string;
  de_payload : Payload; de_idempotency_key : string; de_status : string; de_attempt_count : Z;
  de_next_attempt_at : option Z; de_started_at : option Z; de_completed_at : option Z;
  de_failure_code : option string; de_created_at : Z; de_updated_at : Z;
}.

(** [encrypted_secrets], keyed by [key] *)
Record SecretRow := mkSecretRow {
  sec_ciphertext : string; sec_nonce : string; sec_algorithm : string;
  sec_key_version : Z; sec_updated_at : Z;
}.

(** ** The database *)

Record DB := mkDB {
  db_resources : list ResourceRow;
  db_events : list EventRow;
  db_filesystems : list FsRow;
  db_checks : list CheckRow;
  db_check_state : gmap string CheckStateRow;
  db_rules : list RuleRow;
  db_eval : gmap string EvalRow;
  db_alerts : list AlertRow;
  db_silences : list SilenceRow;
  db_grace : gmap string GraceRow;
  db_incidents : list IncidentRow;
  db_members : list MemberRow;
  db_channels : list ChannelRow;
  db_deliveries : list DeliveryRow;
  db_secrets : gmap string SecretRow;
}.

Definition empty_db : DB := mkDB [] [] [] [] ∅ [] ∅ [] [] ∅ [] [] [] [] ∅.

(** Replacing one table. *)
Definition set_events (t : list EventRow) (d : DB) : DB :=
  mkDB (db_resources d) t (db_filesystems d) (db_checks d) (db_check_state d) (db_rules d)
    (db_eval d) (db_alerts d) (db_silences d) (db_grace d) (db_incidents d) (db_members d)
    (db_channels d) (db_deliveries d) (db_secrets d).
Definition set_checks (t : list CheckRow) (d : DB) : DB :=
  mkDB (db_resources d) (db_events d) (db_filesystems d) t (db_check_state d) (db_rules d)
    (db_eval d) (db_alerts d) (db_silences d) (db_grace d) (db_incidents d) (db_members d)
    (db_channels d) (db_deliveries d) (db_secrets d).
Definition set_check_state (t : gmap string CheckStateRow) (d : DB) : DB :=
  mkDB (db_resources d) (db_events d) (db_filesystems d) (db_checks d) t (db_rules d)
    (db_eval d) (db_alerts d) (db_silences d) (db_grace d) (db_incidents d) (db_members d)
    (db_channels d) (db_deliveries d) (db_secrets d).
Definition set_rules (t : list RuleRow) (d : DB) : DB :=
  mkDB (db_resources d) (db_events d) (db_filesystems d) (db_checks d) (db_check_state d) t
    (db_eval d) (db_alerts d) (db_silences d) (db_grace d) (db_incidents d) (db_members d)
    (db_channels d) (db_deliveries d) (db_secrets d).
Definition set_eval (t : gmap string EvalRow) (d : DB) : DB :=
  mkDB (db_resources d) (db_events d) (db_filesystems d) (db_checks d) (db_check_state d)
    (db_rules d) t (db_alerts d) (db_silences d) (db_grace d) (db_incidents d) (db_members d)
    (db_channels d) (db_deliveries d) (db_secrets d).
Definition set_alerts (t : list AlertRow) (d : DB) : DB :=
  mkDB (db_resources d) (db_events d) (db_filesystems d) (db_checks d) (db_check_state d)
    (db_rules d) (db_eval d) t (db_silences d) (db_grace d) (db_incidents d) (db_members d)
    (db_channels d) (db_deliveries d) (db_secrets d).
Definition set_silences (t : list SilenceRow) (d : DB) : DB :=
  mkDB (db_resources d) (db_events d) (db_filesystems d) (db_checks d) (db_check_state d)
    (db_rules d) (db_eval d) (db_alerts d) t (db_grace d) (db_incidents d) (db_members d)
    (db_channels d) (db_deliveries d) (db_secrets d).
Definition set_grace (t : gmap string GraceRow) (d : DB) : DB :=
  mkDB (db_resources d) (db_events d) (db_filesystems d) (db_checks d) (db_check_state d)
    (db_rules d) (db_eval d) (db_alerts d) (db_silences d) t (db_incidents d) (db_members d)
    (db_channels d) (db_deliveries d) (db_secrets d).
Definition set_incidents (t : list IncidentRow) (d : DB) : DB :=
  mkDB (db_resources d) (db_events d) (db_filesystems d) (db_checks d) (db_check_state d)
    (db_rules d) (db_eval d) (db_alerts d) (db_silences d) (db_grace d) t (db_members d)
    (db_channels d) (db_deliveries d) (db_secrets d).
Definition set_members (t : list MemberRow) (d : DB) : DB :=
  mkDB (db_resources d) (db_events d) (db_filesystems d) (db_checks d) (db_check_state d)
    (db_rules d) (db_eval d) (db_alerts d) (db_silences d) (db_grace d) (db_incidents d) t
    (db_channels d) (db_deliveries d) (db_secrets d).
Definition set_channels (t : list ChannelRow) (d : DB) : DB :=
  mkDB (db_resources d) (db_events d) (db_filesystems d) (db_checks d) (db_check_state d)
    (db_rules d) (db_eval d) (db_alerts d) (db_silences d) (db_grace d) (db_incidents d)
    (db_members d) t (db_deliveries d) (db_secrets d).
Definition set_deliveries (t : list DeliveryRow) (d : DB) : DB :=
  mkDB (db_resources d) (db_events d) (db_filesystems d) (db_checks d) (db_check_state d)
    (db_rules d) (db_eval d) (db_alerts d) (db_silences d) (db_grace d) (db_incidents d)
    (db_members d) (db_channels d) t (db_secrets d).
Definition set_secrets (t : gmap string SecretRow) (d : DB) : DB :=
  mkDB (db_resources d) (db_events d) (db_filesystems d) (db_checks d) (db_check_state d)
    (db_rules d) (db_eval d) (db_alerts d) (db_silences d) (db_grace d) (db_incidents d)
    (db_members d) (db_channels d) (db_deliveries d) t.

(** ** Constraints *)

(** [REAL] columns hold NaN as NULL. *)
Definition sql_real (v : F64) : option F64 :=
  match v with SpecFloat.S754_nan => None | _ => Some v end.

Definition rule_exists (id : string) (d : DB) : bool :=
  sql_exists (fun r => ru_id r =?s id) (db_rules d).
Definition resource_exists (id : string) (d : DB) : bool :=
  sql_exists (fun r => res_id r =?s id) (db_resources d).
