(* ===== verification/Secrets.v ===== *)
(** * The encrypted secret store

    [internal/auth/secrets.go] over any database with an
    [encrypted_secrets] table.  AES-GCM is a parameter with the laws its
    documentation gives: opening what was sealed returns the plaintext, and
    opening under other associated data fails. *)

From stdpp Require Import base tactics list gmap strings.
From Stdlib Require Import ZArith Lia Ascii.
From S2P Require Import Prelude GoString Db AlertState Schema.

Definition SecretAlgorithm : string := "AES-256-GCM".
Definition SecretKeyVersion : Z := 1.
Definition ErrMasterKeyMissing : gerr := EMsg "master encryption key is not configured".
Definition ErrSecretNotFound : gerr := EMsg "encrypted secret was not found".

(** A database with the table. *)
Class SecretTable (D : Type) := {
  get_secrets : D -> gmap string SecretRow;
  put_secrets : gmap string SecretRow -> D -> D;
  get_put_secrets : forall t d, get_secrets (put_secrets t d) = t;
}.

#[export] Instance db_secret_table : SecretTable DB := {|
  get_secrets := db_secrets;
  put_secrets := set_secrets;
  get_put_secrets := fun t d => eq_refl;
|}.

(** [cipher.AEAD] under one key: nonce, text and associated data. *)
Class AEAD := {
  aead_seal : string -> string -> string -> string;
  aead_open : string -> string -> string -> option string;
  aead_open_seal : forall n p a, aead_open n (aead_seal n p a) a = Some p;
  aead_bound : forall n p a a', a <> a' -> aead_open n (aead_seal n p a) a' = None;
}.

Section store.
Context {D : Type} `{SecretTable D} `{Rand}.

(** A [SecretStore] whose [aead] is nil when no master key is configured. *)
Context (aead : option AEAD).

Definition Available : bool := match aead with Some _ => true | None => false end.

Definition Put (key plaintext : string) : tx D unit :=
  match aead with
  | None => throw ErrMasterKeyMissing
  | Some c =>
      if (key =?s "") || (plaintext =?s "") then throw (EMsg "secret key and value are required")
      else
        nonce <- rand_id ;;
        now <- time_now ;;
        exec (fun d => inr (tt, put_secrets (<[key := mkSecretRow (aead_seal nonce plaintext key)
          nonce SecretAlgorithm SecretKeyVersion (time_unix_milli now)]> (get_secrets d)) d))
  end.

Definition open_row (c : AEAD) (key : string) (r : SecretRow) : tx D string :=
  if negb (sec_algorithm r =?s SecretAlgorithm) || negb (sec_key_version r =? SecretKeyVersion)
  then throw (EMsg "encrypted secret uses an unsupported algorithm or key version")
  else match aead_open (sec_nonce r) (sec_ciphertext r) key with
       | None => throw (EMsg "encrypted secret could not be decrypted")
       | Some p => ret p
       end.

Definition Get (key : string) : tx D string :=
  match aead with
  | None => throw ErrMasterKeyMissing
  | Some c =>
      found <- catch_norows (query_row (fun d => get_secrets d !! key)) ;;
      match found with None => throw ErrSecretNotFound | Some r => open_row c key r end
  end.

Definition Delete (key : string) : tx D unit :=
  exec (fun d => inr (tt, put_secrets (delete key (get_secrets d)) d)).

Record SecretStatus := mkSecretStatus {
  ss_Configured : bool; ss_Algorithm : string; ss_KeyVersion : Z;
}.

Definition Status (key : string) : tx D SecretStatus :=
  found <- catch_norows (query_row (fun d => get_secrets d !! key)) ;;
  ret (match found with
       | None => mkSecretStatus false "" 0
       | Some r => mkSecretStatus true (sec_algorithm r) (sec_key_version r)
       end).

(** What the table holds under [key], readable with the cipher [c]. *)
Definition holds_secret (c : AEAD) (key value : string) (d : D) : Prop :=
  exists r, get_secrets d !! key = Some r /\ sec_algorithm r = SecretAlgorithm /\
    sec_key_version r = SecretKeyVersion /\ sec_ciphertext r = aead_seal (sec_nonce r) value key.

Lemma get_holds c key value d :
  aead = Some c -> holds_secret c key value d -> runs d (Get key) (fun v d' => v = value /\ d' = d).
Proof.
  intros Hc (r & Hr & Ha & Hv & Hs). unfold Get. rewrite Hc. apply runs_bind, runs_find.
  rewrite Hr. unfold open_row. rewrite Ha, Hv, String.eqb_refl, Z.eqb_refl, Hs, aead_open_seal.
  by apply runs_ret.
Qed.

(** A row copied from another key's is refused. *)
Lemma get_foreign c key key' value d r :
  aead = Some c -> holds_secret c key' value d -> key <> key' ->
  get_secrets d !! key' = Some r -> get_secrets d !! key = Some r ->
  runs d (Get key) (fun _ _ => False).
Proof.
  intros Hc (r' & Hr' & Ha & Hv & Hs) Hne Hr Hk. simplify_eq. unfold Get. rewrite Hc.
  apply runs_bind, runs_find. rewrite Hk. unfold open_row.
  rewrite Ha, Hv, String.eqb_refl, Z.eqb_refl, Hs, aead_bound by congruence. apply runs_throw.
Qed.

Lemma put_holds c key value d :
  aead = Some c ->
  runs d (Put key value) (fun _ d' => holds_secret c key value d' /\
    forall k, k <> key -> get_secrets d' !! k = get_secrets d !! k).
Proof.
  intros Hc. unfold Put. rewrite Hc. destruct (_ || _); [apply runs_throw|].
  apply runs_bind, runs_rand. intros nonce. apply runs_bind, runs_now. intros t.
  apply runs_exec. intros [] d' [= <-]. unfold holds_secret. rewrite get_put_secrets. split.
  - eexists. rewrite lookup_insert_eq. by split_and!.
  - intros k Hne. by rewrite lookup_insert_ne.
Qed.

(** C30 (roundtrip): what is put is what is got.  When [Put] succeeds, a later [Get] of
    the key can only return the value put, every other key reads as before, and
    a ciphertext moved to another key's row is refused. *)
Theorem secret_roundtrip (c : AEAD) (key value : string) (w : world D) :
  aead = Some c ->
  let '(r, w1) := Put key value w in
  r = inr tt ->
  (forall w2, w_db w2 = w_db w1 ->
    match (Get key w2).1 with inr v => v = value | inl e => e = EFault end) /\
  (forall k, k <> key -> get_secrets (w_db w1) !! k = get_secrets (w_db w) !! k) /\
  (forall k row d', k <> key -> get_secrets (w_db w1) !! key = Some row ->
    d' = put_secrets (<[k := row]> (get_secrets (w_db w1))) (w_db w1) ->
    runs d' (Get k) (fun _ _ => False)).
Proof.
  intros Hc. destruct (Put key value w) as [r w1] eqn:E. intros ->.
  assert (holds_secret c key value (w_db w1) /\
    (forall k, k <> key -> get_secrets (w_db w1) !! k = get_secrets (w_db w) !! k)) as [Hh Hk].
  { pose proof (put_holds c key value (w_db w) Hc w eq_refl) as Ht. by rewrite E in Ht. }
  split_and!; [|done|].
  - intros w2 Hw2. destruct Hh as (r & Hr & Ha & Hv & Hs). rewrite <- Hw2 in Hr.
    unfold Get, bind, catch_norows, query_row, exec. rewrite Hc.
    pose proof (next_fault_db w2) as Hf. destruct (next_fault w2) as [[] w3]; cbn in *; [done|].
    rewrite Hf, Hr. unfold open_row.
    by rewrite Ha, Hv, String.eqb_refl, Z.eqb_refl, Hs, aead_open_seal.
  - intros k row d' Hne Hrow ->. destruct Hh as (r & Hr & Ha & Hv & Hs).
    apply (get_foreign c k key value _ row); auto; rewrite ?get_put_secrets.
    + exists r. rewrite get_put_secrets, lookup_insert_ne by done. auto.
    + by rewrite lookup_insert_ne.
    + by rewrite lookup_insert_eq.
Qed.
End store.

(** ** A concrete cipher

    It hides nothing, but satisfies the laws: the associated data goes in
    front of the text, its length in unary before it. *)

Definition frame_of (a : string) : list ascii :=
  replicate (length (bytes a)) "x"%char ++ "y"%char :: bytes a.

Lemma frame_inj a a' l l' : frame_of a ++ l = frame_of a' ++ l' -> a = a' /\ l = l'.
Proof.
  unfold frame_of. rewrite <- !app_assoc. cbn.
  assert (forall n n' (t t' : list ascii), replicate n "x"%char ++ "y"%char :: t =
    replicate n' "x"%char ++ "y"%char :: t' -> n = n' /\ t = t') as H.
  { induction n as [|n IH]; intros [|n'] t t'; cbn; intros E; simplify_eq; auto.
    apply IH in E as [-> ->]. auto. }
  intros [Hlen E]%H. apply app_inj_1 in E as [E ->]; [|done]. split; [|done].
  rewrite <- (String.string_of_list_ascii_of_string a), <- (String.string_of_list_ascii_of_string a').
  unfold bytes in E. by rewrite E.
Qed.

Definition plain_open (n c a : string) : option string :=
  if decide (take (length (frame_of a)) (bytes c) = frame_of a)
  then Some (of_bytes (drop (length (frame_of a)) (bytes c))) else None.

Lemma plain_open_seal n p a : plain_open n (of_bytes (frame_of a ++ bytes p)) a = Some p.
Proof.
  unfold plain_open, bytes, of_bytes. rewrite String.list_ascii_of_string_of_list_ascii.
  rewrite take_app_length, decide_True, drop_app_length by done.
  by rewrite String.string_of_list_ascii_of_string.
Qed.

Lemma plain_bound n p a a' : a <> a' -> plain_open n (of_bytes (frame_of a ++ bytes p)) a' = None.
Proof.
  unfold plain_open, bytes, of_bytes. intros Hne. rewrite String.list_ascii_of_string_of_list_ascii.
  rewrite decide_False; [done|]. intros E. apply Hne.
  set (l := frame_of a ++ _) in E.
  apply (frame_inj a a' (String.list_ascii_of_string p) (drop (length (frame_of a')) l)).
  rewrite <- E at 1. by rewrite take_drop.
Qed.

#[export] Instance plain_aead : AEAD := {|
  aead_seal n p a := of_bytes (frame_of a ++ bytes p);
  aead_open := plain_open;
  aead_open_seal := plain_open_seal;
  aead_bound := plain_bound;
|}.

Lemma secret_roundtrip_witness :
  let w := World empty_db [] 0 [] in
  let '(r, w1) := Put (Some plain_aead) "k" "v" w in
  (Get (Some plain_aead) "k" w1).1 = inr "v" /\
  (r = inr tt ->
  (forall w2, w_db w2 = w_db w1 ->
    match (Get (Some plain_aead) "k" w2).1 with inr v => v = "v" | inl e => e = EFault end) /\
  (forall k, k <> "k" -> get_secrets (w_db w1) !! k = get_secrets (w_db w) !! k) /\
  (forall k row d', k <> "k" -> get_secrets (w_db w1) !! "k" = Some row ->
    d' = put_secrets (<[k := row]> (get_secrets (w_db w1))) (w_db w1) ->
    runs d' (Get (Some plain_aead) k) (fun _ _ => False))).
Proof.
  split; [by vm_compute|].
  exact (secret_roundtrip (Some plain_aead) plain_aead "k" "v" (World empty_db [] 0 []) eq_refl).
Defined.
