(* ===== verification/AlertRepository.v ===== *)
(** * Rules, alerts and silences in the database

    [internal/alerts/repository.go], with the [IncidentSink] interface of
    [types.go] through which alert transitions reach the incident
    repository. *)

From stdpp Require Import base tactics list gmap strings.
From Stdlib Require Import ZArith Lia.
From S2P Require Import Prelude Float64 Db AlertState Schema.

(** ** Data *)

(** [type Alert struct] *)
Record Alert := mkAlert {
  a_ID : string; a_DedupKey : string; a_RuleID : string; a_Family : string;
  a_Severity : Severity; a_TargetType : string; a_TargetID : string; a_Status : string;
  a_StartedAt : Z; a_ResolvedAt : option Z; a_LastObservedAt : Z;
  a_ObservedValue : option F64; a_Message : string; a_IncidentID : string;
}.

(** [type Silence struct] *)
Record Silence := mkSilence {
  sl_ID : string; sl_ScopeType : string; sl_ScopeID : string; sl_Reason : string;
  sl_StartsAt : Z; sl_EndsAt : Z; sl_CreatedBy : string; sl_CreatedAt : Z;
}.

(** [type IncidentSink interface]: runs inside the transaction of the alert
    transition. *)
Record IncidentSink := mkIncidentSink {
  AlertFiredTx : Alert -> Z -> tx DB unit;
  AlertResolvedTx : string -> Z -> tx DB unit;
}.

(** The tables an incident sink must leave alone. *)
Definition alert_view (d : DB) :=
  (db_rules d, db_eval d, db_alerts d, db_events d, db_silences d, db_grace d, db_resources d).

(** What alert evaluation relies on: the sink does not touch the alerts side
    of the database.  The incident repository provides an instance. *)
Class SinkFrame (s : IncidentSink) : Prop := {
  fired_frame : forall a now v, preserves (fun d => alert_view d = v) (AlertFiredTx s a now);
  resolved_frame : forall id now v, preserves (fun d => alert_view d = v) (AlertResolvedTx s id now);
}.

Definition dedup (family target : string) : string := family +:+ ":" +:+ target.
Definition message (rule : Rule) (target : string) : string := r_Name rule +:+ " on " +:+ target.

(** ** Rules *)

Definition rule_row (v : Rule) (built_in : bool) (cooldown repeat now : Z) : RuleRow :=
  mkRuleRow (r_ID v) (r_Family v) (r_Name v) built_in (r_Enabled v) (r_Severity v)
    (r_ScopeType v) (r_ScopeID v)
    (r_Threshold v ≫= sql_real) (r_RecoveryThreshold v ≫= sql_real)
    (seconds_of_dur (r_TriggerDuration v)) (seconds_of_dur (r_RecoveryDuration v))
    (seconds_of_dur (r_Window v)) cooldown repeat (r_SuppressDuringDeployment v) now now.

(** [INSERT INTO alert_rules]: the severity and scope checks, then
    [UNIQUE(family, scope_type, scope_id)] and the primary key. *)
Definition insert_rule (r : RuleRow) (d : DB) : gerr + (unit * DB) :=
  guard_c (str_in (ru_severity r) ["warning"; "critical"]) "severity"
  (guard_c (str_in (ru_scope_type r)
     ["global"; "host"; "filesystem"; "project"; "resource"; "check"]) "scope_type"
  (guard_c (negb (sql_exists (fun r' => (ru_family r' =?s ru_family r) &&
       (ru_scope_type r' =?s ru_scope_type r) && (ru_scope_id r' =?s ru_scope_id r))
       (db_rules d))) "UNIQUE"
  (put set_rules (insert_pk ru_id r (db_rules d)) d))).

(** [... ON CONFLICT(id) DO NOTHING] *)
Definition seed_rule (r : RuleRow) (d : DB) : gerr + (unit * DB) :=
  if rule_exists (ru_id r) d then inr (tt, d) else insert_rule r d.

Definition SeedDefaults (db_open : bool) : tx DB unit :=
  if negb db_open then throw (EMsg "alerts repository unavailable")
  else
    now <- time_now ;;
    with_tx (iter_tx (fun v =>
      exec (seed_rule (rule_row v (r_BuiltIn v) 300 7200 (time_unix now)))) DefaultRules).

(** [rows.Scan] of one rule *)
Definition scan_rule (r : RuleRow) : Rule :=
  mkRule (ru_id r) (ru_family r) (ru_name r) (ru_built_in r) (ru_enabled r) (ru_severity r)
    (ru_scope_type r) (ru_scope_id r) (ru_threshold r) (ru_recovery_threshold r)
    (dur_seconds (ru_trigger_seconds r)) (dur_seconds (ru_recovery_seconds r))
    (dur_seconds (ru_window_seconds r)) (dur_seconds (ru_cooldown_seconds r))
    (dur_seconds (ru_repeat_seconds r)) (ru_suppress r).

(** [ORDER BY built_in DESC,name] *)
Definition rule_le (a b : RuleRow) : bool :=
  if Bool.eqb (ru_built_in a) (ru_built_in b) then String.leb (ru_name a) (ru_name b)
  else ru_built_in a.

Definition Rules : tx DB (list Rule) :=
  query (fun d => map scan_rule (sql_order_by rule_le (db_rules d))).

Definition valid_severity (s : Severity) : bool := (s =?s Warning) || (s =?s Critical).

Definition UpdateRule (v : Rule) : tx DB unit :=
  if negb (valid_severity (r_Severity v)) then throw (EMsg "invalid severity")
  else if (r_TriggerDuration v <? 0) || (r_RecoveryDuration v <? 0) ||
          (r_Repeat v <? 0) || (r_Cooldown v <? 0) then throw (EMsg "invalid duration")
  else
    now <- time_now ;;
    n <- update_rows db_rules set_rules (fun r => ru_id r =?s r_ID v) (fun r =>
      mkRuleRow (ru_id r) (ru_family r) (ru_name r) (ru_built_in r) (r_Enabled v) (r_Severity v)
        (ru_scope_type r) (ru_scope_id r)
        (r_Threshold v ≫= sql_real) (r_RecoveryThreshold v ≫= sql_real)
        (seconds_of_dur (r_TriggerDuration v)) (seconds_of_dur (r_RecoveryDuration v))
        (seconds_of_dur (r_Window v)) (seconds_of_dur (r_Cooldown v))
        (seconds_of_dur (r_Repeat v)) (r_SuppressDuringDeployment v)
        (ru_created_at r) (time_unix now)) ;;
    if n =? 0 then throw ENoRows else ret tt.

Definition CreateRule (v : Rule) : tx DB unit :=
  if (r_ID v =?s "") || (r_Family v =?s "") || (r_Name v =?s "") ||
     (r_ScopeType v =?s "global") || (r_ScopeID v =?s "") then throw (EMsg "invalid scoped rule")
  else if negb (valid_severity (r_Severity v)) then throw (EMsg "invalid severity")
  else if negb (str_in (r_ScopeType v) ["host"; "filesystem"; "project"; "resource"; "check"])
  then throw (EMsg "invalid scope")
  else
    now <- time_now ;;
    exec (insert_rule (rule_row v false (seconds_of_dur (r_Cooldown v))
                         (seconds_of_dur (r_Repeat v)) (time_unix now))).

(** ** Alerts *)

Definition severity_rank (s : string) : Z := if s =?s "critical" then 0 else 1.

(** [ORDER BY CASE a.severity WHEN 'critical' THEN 0 ELSE 1 END,a.started_at DESC] *)
Definition alert_le (a b : AlertRow) : bool :=
  (severity_rank (al_severity a) <? severity_rank (al_severity b)) ||
  ((severity_rank (al_severity a) =? severity_rank (al_severity b)) &&
   (al_started_at b <=? al_started_at a)).

Definition scan_alert (d : DB) (a : AlertRow) : Alert :=
  mkAlert (al_id a) (al_dedup_key a) (al_rule_id a) (al_family a) (al_severity a)
    (al_target_type a) (al_target_id a) (al_status a) (of_unix (al_started_at a))
    (of_unix <$> al_resolved_at a) (of_unix (al_last_observed_at a)) (al_observed_value a)
    (al_message a)
    (default "" (im_incident_id <$> sql_find (fun m => im_alert_id m =?s al_id a) (db_members d))).

Definition alert_matches (status severity resource family : string) (a : AlertRow) : bool :=
  ((status =?s "") || (al_status a =?s status)) &&
  ((severity =?s "") || (al_severity a =?s severity)) &&
  ((resource =?s "") || (al_target_id a =?s resource)) &&
  ((family =?s "") || (al_family a =?s family)).

Definition page_limit (limit : Z) : Z := if (limit <? 1) || (100 <? limit) then 50 else limit.
Definition page_offset (offset : Z) : Z := if offset <? 0 then 0 else offset.

Definition Alerts (status severity resource family : string) (limit offset : Z)
    : tx DB (list Alert) :=
  query (fun d => map (scan_alert d)
    (sql_limit (page_limit limit) (page_offset offset)
      (sql_order_by alert_le
        (List.filter (alert_matches status severity resource family) (db_alerts d))))).

(** ** Silences *)

Definition scan_silence (s : SilenceRow) : Silence :=
  mkSilence (si_id s) (si_scope_type s) (si_scope_id s) (si_reason s)
    (of_unix (si_starts_at s)) (of_unix (si_ends_at s)) (si_created_by s)
    (of_unix (si_created_at s)).

Definition Silences (activeOnly : bool) : tx DB (list Silence) :=
  unixepoch <- time_now ;;
  let now := time_unix unixepoch in
  query (fun d => map scan_silence
    (sql_order_by (fun a b => si_ends_at b <=? si_ends_at a)
      (List.filter (fun s => negb activeOnly || (si_starts_at s <=? now) && (now <? si_ends_at s))
         (db_silences d)))).

Definition str_len (s : string) : Z := Z.of_nat (String.length s).

Definition insert_silence (s : SilenceRow) (d : DB) : gerr + (unit * DB) :=
  guard_c (str_in (si_scope_type s) ["server"; "project"; "resource"; "rule"]) "scope_type"
  (guard_c ((1 <=? char_length (si_reason s)) && (char_length (si_reason s) <=? 500)) "reason"
  (guard_c (si_starts_at s <? si_ends_at s) "ends_at"
  (put set_silences (insert_pk si_id s (db_silences d)) d))).

Definition CreateSilence `{Rand} (s : Silence) : tx DB Silence :=
  if (time_sub (sl_EndsAt s) (sl_StartsAt s) <=? 0) ||
     (365 * 24 * Hour <? time_sub (sl_EndsAt s) (sl_StartsAt s)) ||
     (str_len (sl_Reason s) <? 1) || (500 <? str_len (sl_Reason s))
  then throw (EMsg "invalid silence")
  else
    id <- (if sl_ID s =?s "" then rand_id else ret (sl_ID s)) ;;
    now <- time_now ;;
    exec (insert_silence (mkSilenceRow id (sl_ScopeType s) (sl_ScopeID s) (sl_Reason s)
      (time_unix (sl_StartsAt s)) (time_unix (sl_EndsAt s)) (sl_CreatedBy s) (time_unix now))) ;;;
    ret (mkSilence id (sl_ScopeType s) (sl_ScopeID s) (sl_Reason s) (sl_StartsAt s) (sl_EndsAt s)
           (sl_CreatedBy s) now).

Definition DeleteSilence (id : string) : tx DB unit :=
  n <- delete_rows db_silences set_silences (fun s => si_id s =?s id) ;;
  if n =? 0 then throw ENoRows else ret tt.

(** ** Retention *)

(** [DELETE FROM alerts ...] cascades to [incident_alerts]. *)
Definition delete_alerts (p : AlertRow -> bool) (d : DB) : DB :=
  let gone m := sql_exists (fun a => p a && (al_id a =?s im_alert_id m)) (db_alerts d) in
  set_members (sql_delete gone (db_members d)) (set_alerts (sql_delete p (db_alerts d)) d).

Definition expired_alert (cutoff : Z) (a : AlertRow) : bool :=
  (al_status a =?s "resolved") &&
  match al_resolved_at a with Some r => r <? cutoff | None => false end.

Definition Cleanup (now : Z) : tx DB unit :=
  with_tx (
    exec (fun d => inr (tt,
      delete_alerts (expired_alert (time_unix (time_add now (- (365 * 24 * Hour))))) d)) ;;;
    delete_rows db_silences set_silences (fun s =>
      si_ends_at s <? time_unix (time_add now (- (90 * 24 * Hour)))) ;;;
    exec (fun d => inr (tt,
      set_grace (filter (fun kv => time_unix now <= gr_ends_at kv.2) (db_grace d)) d))).
