(* ===== verification/Checks.v ===== *)
(** * Health checks

    [internal/checks]: validation of a check, the runner that performs one
    over HTTP under the outbound policy, and the repository.  DNS, the dialer,
    the servers and [url.Parse] are parameters. *)

From stdpp Require Import base tactics list gmap strings.
From Stdlib Require Import ZArith Lia Ascii.
From S2P Require Import Prelude GoString Outbound Float64 Db AlertState Schema AlertRepository.

(** ** [types.go] *)

Definition MinInterval : Z := 10 * Second.
Definition MaxInterval : Z := Hour.
Definition MinTimeout : Z := Second.
Definition MaxTimeout : Z := 30 * Second.
Definition MaxBodyRead : Z := Z.shiftl 64 10.

Definition FailureDNS : string := "dns".
Definition FailureTimeout : string := "timeout".
Definition FailureConnection : string := "connection".
Definition FailureTLS : string := "tls_handshake".
Definition FailureUnexpectedStatus : string := "unexpected_status".
Definition FailureBodyMismatch : string := "body_mismatch".
Definition FailureTargetBlocked : string := "target_blocked".

Record Check := mkCheck {
  c_ID : string; c_ResourceID : string; c_Name : string; c_URL : string; c_Method : string;
  c_Interval : Z; c_Timeout : Z; c_ExpectedStatusMin : Z; c_ExpectedStatusMax : Z;
  c_BodySubstring : string; c_Required : bool; c_Enabled : bool;
  c_CreatedAt : Z; c_UpdatedAt : Z;
}.

(** The result's counters are read from the repository only. *)
Record Result := mkResult {
  r_CheckID : string; r_Status : string; r_FailureCode : string; r_HTTPStatus : Z;
  r_Latency : Z; r_LatencyMS : Z; r_CheckedAt : Z;
}.

Section checks.
Context (url_parse : string -> option URL).

(** The error text, or [None]. *)
Definition Validate (c : Check) : option string :=
  if (TrimSpace (c_ResourceID c) =?s "") || (TrimSpace (c_Name c) =?s "")
  then Some "resource and name are required"
  else if (120 <? str_len (c_Name c)) || (2048 <? str_len (c_URL c))
  then Some "name or URL is too long"
  else match url_parse (c_URL c) with
  | None => Some "target must be an HTTP or HTTPS URL without credentials"
  | Some target =>
      let host := ToLower (TrimSuffix (u_Hostname target) ".") in
      if (u_Hostname target =?s "") ||
         (negb (u_Scheme target =?s "http") && negb (u_Scheme target =?s "https")) ||
         u_HasUser target
      then Some "target must be an HTTP or HTTPS URL without credentials"
      else if (host =?s "localhost") || HasSuffix host ".localhost"
      then Some "localhost targets are blocked"
      else if negb (c_Method c =?s "GET") && negb (c_Method c =?s "HEAD")
      then Some "method must be GET or HEAD"
      else if (c_Interval c <? MinInterval) || (MaxInterval <? c_Interval c)
      then Some "interval must be between 10 seconds and 1 hour"
      else if (c_Timeout c <? MinTimeout) || (MaxTimeout <? c_Timeout c)
      then Some "timeout must be between 1 and 30 seconds"
      else if (c_ExpectedStatusMin c <? 100) || (599 <? c_ExpectedStatusMax c) ||
              (c_ExpectedStatusMax c <? c_ExpectedStatusMin c)
      then Some "invalid expected status range"
      else if 256 <? str_len (c_BodySubstring c) then Some "body substring exceeds 256 bytes"
      else None
  end.
End checks.

(** ** [runner.go] *)

(** An [error] as [classify] looks at it: its text, whether it is a context
    deadline or [ETIMEDOUT], a [net.Error] that timed out, or a TLS record
    header error. *)
Record CheckErr := mkCheckErr {
  ce_text : string; ce_deadline : bool; ce_timeout : bool; ce_record_header : bool;
}.
Definition text_err (s : string) : CheckErr := mkCheckErr s false false false.

Definition classify (err : CheckErr) : string :=
  let s := ce_text err in
  if Contains s FailureTargetBlocked then FailureTargetBlocked
  else if Contains s FailureDNS then FailureDNS
  else if ce_deadline err then FailureTimeout
  else if ce_timeout err then FailureTimeout
  else if ce_record_header err || Contains (ToLower s) "tls" || Contains (ToLower s) "certificate"
  then FailureTLS
  else FailureConnection.

(** The text of the policy's errors *)
Definition outbound_text (e : OutboundError) : string :=
  match e with
  | ErrBlocked => "outbound target is blocked"
  | ErrDNS => "outbound target DNS lookup failed"
  | ErrDial => ""
  end.

(** [(&url.Error{op, url, err}).Error()]; the wrapped error stays visible to
    [errors.Is] and [errors.As]. *)
Definition quote : string := String (ascii_of_nat 34) EmptyString.
Definition url_error (op url : string) (e : CheckErr) : CheckErr :=
  mkCheckErr (op +:+ " " +:+ quote +:+ url +:+ quote +:+ ": " +:+ ce_text e)
    (ce_deadline e) (ce_timeout e) (ce_record_header e).
Definition urlErrorOp (method : string) : string :=
  match method with
  | EmptyString => "Get"
  | String c rest => String c (ToLower rest)
  end.

(** A method [http.NewRequest] accepts: empty, or a token. *)
Definition is_token_byte (c : ascii) : bool :=
  is_digit c || is_lower c || is_upper c ||
  existsb (Ascii.eqb c) (bytes "!#$%&'*+-.^_`|~").
Definition valid_method (m : string) : bool := forallb is_token_byte (bytes m).

(** A server's answer to one request; the body is [None] when reading it
    fails. *)
Inductive HttpReply :=
  | ReplyError (e : CheckErr)
  | ReplyRedirect (location : string)
  | ReplyFinal (status : Z) (body : option string).

(** What a run did to the network: the requested URLs and the addresses
    dialled, in order. *)
Record NetTrace := mkNetTrace { nt_requests : list string; nt_dialled : list Addr }.
Definition no_trace : NetTrace := mkNetTrace [] [].
Definition trace_app (a b : NetTrace) : NetTrace :=
  mkNetTrace (nt_requests a ++ nt_requests b) (nt_dialled a ++ nt_dialled b).

Section runner.
Context (AllowPrivate : bool).
Context (lookup : nat -> string -> option (list Addr)).
Context (url_parse : string -> option URL).
Context (dial : Addr -> string -> bool).
(** The host and port [net/http] dials for a URL, the error of the last
    failed dial, and the server behind an address. *)
Context (dial_target : string -> string * string).
Context (dial_error : string -> CheckErr).
Context (server : nat -> Addr -> string -> HttpReply).

Definition validateURL (call : nat) (raw : string) : option CheckErr :=
  match ValidateURL AllowPrivate lookup url_parse call raw ["http"; "https"] with
  | inr _ => None
  | inl ErrDNS => Some (text_err (FailureDNS +:+ ": " +:+ outbound_text ErrDNS))
  | inl _ => Some (text_err FailureTargetBlocked)
  end.

(** [client.Do]: one request, then as many redirects as [budget] allows; a
    redirect is checked by [CheckRedirect] before it is followed.  Every
    request dials through the policy, keep-alives being off.  [call] numbers
    the DNS lookups. *)
Fixpoint client_do (op : string) (budget call : nat) (url : string) :
    NetTrace * (CheckErr + (Z * option string)) :=
  let '(host, port) := dial_target url in
  let '(tried, conn) := DialContext AllowPrivate lookup dial call host port in
  let t := mkNetTrace [url] tried in
  match conn with
  | inl ErrDial => (t, inl (url_error op url (dial_error url)))
  | inl e => (t, inl (url_error op url (text_err (outbound_text e))))
  | inr a =>
      match server call a url with
      | ReplyError e => (t, inl (url_error op url e))
      | ReplyFinal status body => (t, inr (status, body))
      | ReplyRedirect location =>
          match budget with
          | O => (t, inl (url_error op url (text_err "redirect limit exceeded")))
          | S budget =>
              match validateURL (call + 1) location with
              | Some e => (t, inl (url_error op url e))
              | None =>
                  let '(t', r) := client_do op budget (call + 2) location in (trace_app t t', r)
              end
          end
      end
  end.

(** [r.Run], started at [started] and answered at [finished]. *)
Definition Run (check : Check) (started finished : Z) : NetTrace * Result :=
  let failed code status latency :=
    mkResult (c_ID check) "failure" code status latency (Z.quot latency Millisecond) started in
  match validateURL 0 (c_URL check) with
  | Some e => (no_trace, failed (classify e) 0 0)
  | None =>
      if negb (valid_method (c_Method check)) then (no_trace, failed FailureTargetBlocked 0 0)
      else
        let '(t, r) := client_do (urlErrorOp (c_Method check)) 3 1 (c_URL check) in
        let latency := time_sub finished started in
        match r with
        | inl e => (t, failed (classify e) 0 latency)
        | inr (status, body) =>
            if (status <? c_ExpectedStatusMin check) || (c_ExpectedStatusMax check <? status)
            then (t, failed FailureUnexpectedStatus status latency)
            else
              let success := (t, mkResult (c_ID check) "success" "" status latency
                                   (Z.quot latency Millisecond) started) in
              if negb (c_BodySubstring check =?s "") && negb (c_Method check =?s "HEAD") then
                match body with
                | None => (t, failed FailureConnection status latency)
                | Some b =>
                    let read := of_bytes (firstn (Z.to_nat (MaxBodyRead + 1)) (bytes b)) in
                    if (MaxBodyRead <? str_len read) || negb (Contains read (c_BodySubstring check))
                    then (t, failed FailureBodyMismatch status latency)
                    else success
                end
              else success
        end
  end.
End runner.

(** ** [repository.go] *)

Definition nullString (v : string) : option string := if v =?s "" then None else Some v.

Definition check_row (c : Check) (created updated : Z) : CheckRow :=
  mkCheckRow (c_ID c) (c_ResourceID c) (c_Name c) (c_URL c) (c_Method c)
    (seconds_of_dur (c_Interval c)) (seconds_of_dur (c_Timeout c)) (c_ExpectedStatusMin c)
    (c_ExpectedStatusMax c) (nullString (c_BodySubstring c)) (c_Required c) (c_Enabled c)
    created updated.

(** The [CHECK] and foreign-key constraints of [health_checks] *)
Definition check_row_ok (r : CheckRow) (d : DB) : bool :=
  resource_exists (ck_resource_id r) d && str_in (ck_method r) ["GET"; "HEAD"] &&
  (10 <=? ck_interval r) && (ck_interval r <=? 3600) &&
  (1 <=? ck_timeout r) && (ck_timeout r <=? 30) &&
  (100 <=? ck_status_min r) && (ck_status_min r <=? 599) &&
  (100 <=? ck_status_max r) && (ck_status_max r <=? 599) && (ck_status_min r <=? ck_status_max r) &&
  match ck_body r with None => true | Some b => str_len b <=? 256 end.

Definition insert_check (r : CheckRow) (d : DB) : gerr + (unit * DB) :=
  guard_c (check_row_ok r d) "health_checks" (put set_checks (insert_pk ck_id r (db_checks d)) d).

Definition scanCheck (r : CheckRow) : Check :=
  mkCheck (ck_id r) (ck_resource_id r) (ck_name r) (ck_url r) (ck_method r)
    (dur_seconds (ck_interval r)) (dur_seconds (ck_timeout r)) (ck_status_min r) (ck_status_max r)
    (default "" (ck_body r)) (ck_required r) (ck_enabled r) (of_unix (ck_created_at r))
    (of_unix (ck_updated_at r)).

Section repository.
Context (url_parse : string -> option URL).

Definition Create (c : Check) : tx DB unit :=
  match Validate url_parse c with
  | Some e => throw (EMsg e)
  | None =>
      now <- time_now ;;
      if c_ID c =?s "" then throw (EMsg "check id is required")
      else exec (insert_check (check_row c (time_unix now) (time_unix now)))
  end.

Definition Update (c : Check) : tx DB unit :=
  match Validate url_parse c with
  | Some e => throw (EMsg e)
  | None =>
      now <- time_now ;;
      n <- exec (fun d =>
        let hit r := ck_id r =?s c_ID c in
        let change r := check_row c (ck_created_at r) (time_unix now) in
        if sql_exists hit (db_checks d) && negb (check_row_ok (check_row c 0 0) d)
        then inl (EConstraint "health_checks")
        else inr (sql_count hit (db_checks d), set_checks (sql_update hit change (db_checks d)) d)) ;;
      if n =? 0 then throw ENoRows else ret tt
  end.
End repository.

(** [DELETE], with the cascade to the check's state *)
Definition Checks_Delete (id : string) : tx DB unit :=
  exec (fun d => inr (tt,
    set_check_state (delete id (db_check_state d))
      (set_checks (sql_delete (fun r => ck_id r =?s id) (db_checks d)) d))).

Definition Checks_Get (id : string) : tx DB Check :=
  query_row (fun d => scanCheck <$> sql_find (fun r => ck_id r =?s id) (db_checks d)).

Definition Checks_List (limit offset : Z) : tx DB (list Check) :=
  let limit := if (limit <? 1) || (100 <? limit) then 50 else limit in
  let offset := if offset <? 0 then 0 else offset in
  query (fun d => map scanCheck (sql_limit limit offset
    (sql_order_by (fun a b => ck_created_at b <=? ck_created_at a) (db_checks d)))).

Record PrometheusState := mkPrometheusState { ps_CheckID : string; ps_ResourceID : string; ps_Status : string }.

Definition PrometheusStates (limit : Z) : tx DB (list PrometheusState) :=
  let limit := if (limit <? 1) || (1000 <? limit) then 1000 else limit in
  query (fun d => map (fun c => mkPrometheusState (ck_id c) (ck_resource_id c)
      (match db_check_state d !! ck_id c with Some s => cs_status s | None => "unknown" end))
    (sql_limit limit 0 (sql_order_by (fun a b => String.leb (ck_id a) (ck_id b))
       (List.filter ck_enabled (db_checks d))))).

(** [s.next_run_at] of the outer join *)
Definition next_run (d : DB) (c : CheckRow) : option Z :=
  match db_check_state d !! ck_id c with Some s => cs_next_run_at s | None => None end.

Definition check_due (now : Z) (d : DB) (c : CheckRow) : bool :=
  ck_enabled c &&
  sql_exists (fun r => (res_id r =?s ck_resource_id c) &&
    match res_archived_at r with None => true | Some _ => false end &&
    negb (str_in (res_status r) ["paused"; "archived"])) (db_resources d) &&
  match next_run d c with None => true | Some t => t <=? time_unix now end.

(** [ORDER BY COALESCE(s.next_run_at,0),c.id] *)
Definition due_before (d : DB) (a b : CheckRow) : bool :=
  let ka := default 0 (next_run d a) in
  let kb := default 0 (next_run d b) in
  (ka <? kb) || ((ka =? kb) && String.leb (ck_id a) (ck_id b)).

Definition Due (now limit : Z) : tx DB (list Check) :=
  if (limit <? 1) || (1000 <? limit) then throw (EMsg "invalid due-check limit")
  else query (fun d => map scanCheck
    (sql_limit limit 0 (sql_order_by (due_before d) (List.filter (check_due now d) (db_checks d))))).

Definition count_if (b : bool) (n : Z) : Z := if b then n else 0.

Definition save_row (interval : Z) (r : Result) (at_ : Z) (old : option CheckStateRow) : CheckStateRow :=
  let ok := r_Status r =?s "success" in
  let bad := r_Status r =?s "failure" in
  let '(s, f) := match old with
                 | None => (count_if ok 1, count_if bad 1)
                 | Some o => (count_if ok (cs_successes o + 1), count_if bad (cs_failures o + 1))
                 end in
  mkCheckStateRow (r_Status r) (nullString (r_FailureCode r)) (Some (r_LatencyMS r))
    (Some (time_unix at_)) s f (Some (time_unix (time_add at_ interval))) (time_unix at_).

Definition SaveResult (c : Check) (result : Result) : tx DB unit :=
  at_ <- (if is_zero_time (r_CheckedAt result) then time_now else ret (r_CheckedAt result)) ;;
  exec (fun d =>
    guard_c (sql_exists (fun r => ck_id r =?s r_CheckID result) (db_checks d)) "FOREIGN KEY"
    (guard_c (str_in (r_Status result) ["unknown"; "success"; "failure"; "running"]) "status"
    (inr (tt, set_check_state (<[r_CheckID result :=
      save_row (c_Interval c) result at_ (db_check_state d !! r_CheckID result)]> (db_check_state d)) d)))).

(** ** Properties of the runner *)

Definition failure_codes : list string :=
  [FailureDNS; FailureTimeout; FailureConnection; FailureTLS; FailureUnexpectedStatus;
   FailureBodyMismatch; FailureTargetBlocked].

Lemma classify_code e : In (classify e) failure_codes.
Proof. unfold classify. repeat case_match; cbn; tauto. Qed.

(** A URL health checks may request: HTTP or HTTPS, without credentials. *)
Definition web_url (url_parse : string -> option URL) (u : string) : Prop :=
  exists p, url_parse u = Some p /\ In (u_Scheme p) ["http"; "https"] /\ u_HasUser p = false.

Section runner_properties.
Context (AllowPrivate : bool).
Context (lookup : nat -> string -> option (list Addr)).
Context (url_parse : string -> option URL).
Context (dial : Addr -> string -> bool).
Context (dial_target : string -> string * string).
Context (dial_error : string -> CheckErr).
Context (server : nat -> Addr -> string -> HttpReply).
Notation allowed := (fun a => Allowed AllowPrivate a = true).
Notation client_do := (client_do AllowPrivate lookup url_parse dial dial_target dial_error server).
Notation Run := (Run AllowPrivate lookup url_parse dial dial_target dial_error server).

Lemma validateURL_web call u :
  validateURL AllowPrivate lookup url_parse call u = None -> web_url url_parse u.
Proof.
  unfold validateURL, ValidateURL, web_url. destruct (url_parse u) as [p|]; [|done].
  destruct ((_ =?s _) || _) eqn:E1; [done|]. bool_hyps.
  destruct (existsb _ _) eqn:E2; cbn; [|done]. intros _. exists p. split_and!; [done| |done].
  apply existsb_exists in E2 as (s & Hs & ->%String.eqb_eq). done.
Qed.

Lemma client_do_policy op budget call url :
  web_url url_parse url ->
  let t := (client_do op budget call url).1 in
  Forall allowed (nt_dialled t) /\ Forall (web_url url_parse) (nt_requests t) /\
  (length (nt_requests t) <= budget + 1)%nat.
Proof.
  revert call url. induction budget as [|budget IH]; intros call url Hu; cbn;
    destruct (dial_target url) as [host port];
    pose proof (DialContext_allowed AllowPrivate lookup dial call host port) as [Hd _];
    destruct (DialContext _ _ _ call host port) as [tried [[]|a]]; cbn in *;
    try (split_and!; [done|by repeat constructor|lia]);
    destruct (server call a url) as [e|loc|st b]; cbn;
    try (split_and!; [done|by repeat constructor|lia]).
  destruct (validateURL _ _ _ (call + 1) loc) as [e|] eqn:E; cbn;
    [split_and!; [done|by repeat constructor|lia]|].
  apply validateURL_web in E. specialize (IH (call + 2)%nat loc E).
  destruct (client_do op budget (call + 2) loc) as [t' r]; cbn in *.
  destruct IH as (H1 & H2 & H3). split_and!; [by apply Forall_app| |lia].
  by constructor.
Qed.

(** C31 (safety): a check stays within the policy and explains itself.  Whatever
    DNS and the servers answer, a run makes at most four requests, each to an
    HTTP or HTTPS URL without credentials, and dials only allowed addresses,
    redirects included; it reports success without a failure code and with a
    status in the expected range, or a failure with one of the documented
    codes. *)
Theorem check_run_policy (check : Check) (started finished : Z) :
  let '(t, r) := Run check started finished in
  Forall (fun a => Allowed AllowPrivate a = true) (nt_dialled t) /\
  Forall (web_url url_parse) (nt_requests t) /\
  (length (nt_requests t) <= 4)%nat /\
  r_CheckID r = c_ID check /\ r_CheckedAt r = started /\
  (r_Status r = "success" /\ r_FailureCode r = "" /\
     c_ExpectedStatusMin check <= r_HTTPStatus r <= c_ExpectedStatusMax check \/
   r_Status r = "failure" /\ In (r_FailureCode r) failure_codes).
Proof.
  unfold Run. destruct (validateURL _ _ _ 0 _) as [e|] eqn:E.
  { split_and!; try done; [cbn; lia|]. right. split; [done|]. apply classify_code. }
  apply validateURL_web in E.
  destruct (negb (valid_method (c_Method check))).
  { split_and!; try done; [cbn; lia|]. right. cbn. tauto. }
  pose proof (client_do_policy (urlErrorOp (c_Method check)) 3 1 _ E) as H.
  destruct (client_do _ 3 1 _) as [t [e|[status body]]]; cbn zeta in H; destruct H as (H1 & H2 & H3).
  { split_and!; try done. right. split; [done|]. apply classify_code. }
  destruct ((status <? _) || _) eqn:Er.
  { split_and!; try done. right. cbn. tauto. }
  bool_hyps. destruct (negb _ && negb _);
    [destruct body as [b|]; [destruct ((_ <? _) || _)|]|];
    split_and!; try done;
    first [left; split_and!; cbn; first [done|lia] | right; cbn; tauto].
Qed.
End runner_properties.

(** ** Properties of the repository *)

(** A whole number of seconds *)
Definition whole_seconds (d : Z) : Prop := d mod Second = 0.

Lemma seconds_exact d :
  whole_seconds d -> 0 <= d <= MaxInterval -> dur_seconds (seconds_of_dur d) = d.
Proof.
  unfold whole_seconds, seconds_of_dur, dur_seconds, MaxInterval, Hour, Minute, Second. intros Hm Hd.
  rewrite Z.quot_div_nonneg by lia. pose proof (Z.div_mod d 1000000000).
  rewrite wrap64_id; unfold in_int64, min_int64, max_int64; lia.
Qed.

Lemma seconds_bounds d lo hi :
  0 <= lo -> lo * Second <= d <= hi * Second -> lo <= seconds_of_dur d <= hi.
Proof.
  unfold seconds_of_dur, Second. intros Hlo Hd. rewrite Z.quot_div_nonneg by lia.
  split; [apply Z.div_le_lower_bound|apply Z.div_le_upper_bound]; lia.
Qed.

Lemma nullString_default v : default "" (nullString v) = v.
Proof. unfold nullString. destruct (v =?s "") eqn:E; [|done]. by apply String.eqb_eq in E as ->. Qed.

(** What validation establishes of the stored row. *)
Lemma validate_row url_parse c d created updated :
  Validate url_parse c = None -> resource_exists (c_ResourceID c) d = true ->
  check_row_ok (check_row c created updated) d = true /\
  MinInterval <= c_Interval c <= MaxInterval /\ MinTimeout <= c_Timeout c <= MaxTimeout.
Proof.
  intros Hv Hres. unfold Validate in Hv. repeat (case_match; [done|]). case_match; [|done].
  repeat (case_match; [done|]). bool_hyps. split; [|lia].
  unfold check_row_ok, check_row.
  cbn [ck_resource_id ck_method ck_interval ck_timeout ck_status_min ck_status_max ck_body].
  rewrite Hres. cbn [andb].
  assert (10 <= seconds_of_dur (c_Interval c) <= 3600).
  { apply seconds_bounds; [lia|]. unfold MinInterval, MaxInterval, Hour, Minute in *. lia. }
  assert (1 <= seconds_of_dur (c_Timeout c) <= 30).
  { apply seconds_bounds; [lia|]. unfold MinTimeout, MaxTimeout in *. lia. }
  assert (str_in (c_Method c) ["GET"; "HEAD"] = true) as ->.
  { unfold str_in. cbn. destruct (c_Method c =?s "GET"); [done|].
    destruct (c_Method c =?s "HEAD"); [done|]. done. }
  assert (match nullString (c_BodySubstring c) with None => true | Some b => str_len b <=? 256 end = true)
    as ->; [|rewrite !andb_true_iff, !Z.leb_le; split_and!; first [done|lia]].
  unfold nullString. destruct (c_BodySubstring c =?s ""); [done|lia].
Qed.

Lemma checks_get_value id d n clock :
  (Checks_Get id (World d [] n clock)).1 =
    match sql_find (fun r => ck_id r =?s id) (db_checks d) with
    | Some r => inr (scanCheck r)
    | None => inl ENoRows
    end.
Proof. unfold Checks_Get, query_row, exec. cbn. by destruct (sql_find _ _). Qed.

(** A created check reads back.  When storage does not fail, a valid
    check with an identifier of its own, whole-second durations and a known
    resource is stored, since validation implies every constraint of the
    table; reading it gives it back with the creation instant to the second,
    and every other check reads as before. *)
Theorem check_create_get (url_parse : string -> option URL) (c : Check) (d : DB)
    (n : nat) (now : Z) (clock : list Z) :
  Validate url_parse c = None -> c_ID c <> "" ->
  resource_exists (c_ResourceID c) d = true ->
  sql_find (fun r => ck_id r =?s c_ID c) (db_checks d) = None ->
  whole_seconds (c_Interval c) -> whole_seconds (c_Timeout c) ->
  let '(r, w) := Create url_parse c (World d [] n (now :: clock)) in
  r = inr tt /\
  (Checks_Get (c_ID c) w).1 =
    inr (mkCheck (c_ID c) (c_ResourceID c) (c_Name c) (c_URL c) (c_Method c) (c_Interval c)
      (c_Timeout c) (c_ExpectedStatusMin c) (c_ExpectedStatusMax c) (c_BodySubstring c)
      (c_Required c) (c_Enabled c) (of_unix (time_unix now)) (of_unix (time_unix now))) /\
  forall id, id <> c_ID c -> (Checks_Get id w).1 = (Checks_Get id (World d [] n (now :: clock))).1.
Proof.
  intros Hv Hid Hres Hf Hi Ht.
  destruct (validate_row url_parse c d (time_unix now) (time_unix now) Hv Hres) as (Hok & Hbi & Hbt).
  set (row := check_row c (time_unix now) (time_unix now)) in *.
  assert (insert_check row d = inr (tt, set_checks (db_checks d ++ [row]) d)) as Hins.
  { unfold insert_check, guard_c. by rewrite Hok, insert_pk_fresh. }
  unfold Create. rewrite Hv. unfold bind, time_now, exec, next_fault.
  cbn [w_clock w_faults w_db w_rand]. apply String.eqb_neq in Hid. rewrite Hid.
  cbn [w_clock w_faults w_db w_rand]. fold row. rewrite Hins.
  rewrite checks_get_value. cbn [set_checks db_checks]. rewrite sql_find_app, Hf.
  split_and!; [done| |].
  - unfold row, check_row, sql_find. cbn [List.find ck_id]. rewrite String.eqb_refl. unfold scanCheck.
    cbn -[dur_seconds seconds_of_dur of_unix time_unix nullString].
    rewrite nullString_default, !seconds_exact; try done;
      unfold MinInterval, MinTimeout, MaxTimeout, MaxInterval, Hour, Minute, Second in *; lia.
  - intros id Hne. rewrite !checks_get_value. cbn [set_checks db_checks]. rewrite sql_find_app.
    unfold row, check_row, sql_find. cbn [List.find ck_id].
    rewrite (proj2 (String.eqb_neq (c_ID c) id)) by congruence. by destruct (List.find _ _).
Qed.

(** The length of the run of results satisfying [p] that ends the list *)
Fixpoint streak (p : Result -> bool) (latest_first : list Result) : Z :=
  match latest_first with
  | [] => 0
  | r :: l => if p r then 1 + streak p l else 0
  end.
Definition succeeded (r : Result) : bool := r_Status r =?s "success".
Definition failed (r : Result) : bool := r_Status r =?s "failure".

Lemma streak_cons p r l : streak p (r :: l) = if p r then 1 + streak p l else 0.
Proof. done. Qed.

(** The stored state agrees with the results saved so far, latest first. *)
Definition state_of (c : Check) (latest_first : list Result) (s : option CheckStateRow) : Prop :=
  match latest_first with
  | [] => s = None
  | last :: _ => exists row, s = Some row /\ cs_status row = r_Status last /\
      cs_successes row = streak succeeded latest_first /\
      cs_failures row = streak failed latest_first /\
      cs_next_run_at row = Some (time_unix (r_CheckedAt last + c_Interval c))
  end.

Lemma save_row_state c r at_ prev s :
  at_ = r_CheckedAt r -> state_of c prev s ->
  state_of c (r :: prev) (Some (save_row (c_Interval c) r at_ s)).
Proof.
  intros -> Hs. cbn. eexists. split; [done|]. unfold save_row.
  destruct prev as [|r0 prev]; cbn in Hs.
  - subst s. cbn. unfold succeeded, failed, count_if. repeat case_match; done.
  - destruct Hs as (row & -> & _ & Hsu & Hfa & _). cbn [cs_status cs_successes cs_failures cs_next_run_at].
    split_and!; [done| | |done]; unfold count_if.
    + rewrite streak_cons, <- Hsu. unfold succeeded. destruct (r_Status r =?s _); lia.
    + rewrite streak_cons, <- Hfa. unfold failed. destruct (r_Status r =?s _); lia.
Qed.

Lemma save_streaks c results w :
  w_faults w = [] ->
  sql_exists (fun r => ck_id r =?s c_ID c) (db_checks (w_db w)) = true ->
  db_check_state (w_db w) !! c_ID c = None ->
  (forall r, In r results ->
    r_CheckID r = c_ID c /\ In (r_Status r) ["success"; "failure"] /\
    is_zero_time (r_CheckedAt r) = false) ->
  let '(e, w') := iter_tx (SaveResult c) results w in
  e = inr tt /\ state_of c (rev results) (db_check_state (w_db w') !! c_ID c).
Proof.
  intros Hf Hex Hn. cut (forall prev, state_of c prev (db_check_state (w_db w) !! c_ID c) ->
    (forall r, In r results -> r_CheckID r = c_ID c /\ In (r_Status r) ["success"; "failure"] /\
       is_zero_time (r_CheckedAt r) = false) ->
    let '(e, w') := iter_tx (SaveResult c) results w in
    e = inr tt /\ state_of c (rev results ++ prev) (db_check_state (w_db w') !! c_ID c)).
  { intros H Hr. specialize (H [] Hn Hr). by rewrite app_nil_r in H. }
  clear Hn. revert w Hf Hex. induction results as [|r results IH]; intros w Hf Hex prev Hs Hr; [done|].
  destruct (Hr r (or_introl eq_refl)) as (Hid & Hst & Hz). cbn [iter_tx].
  assert (exists w', SaveResult c r w = (inr tt, w') /\ w_faults w' = [] /\
    db_checks (w_db w') = db_checks (w_db w) /\
    state_of c (r :: prev) (db_check_state (w_db w') !! c_ID c)) as (w' & E & Hf' & Hc & Hs').
  { unfold SaveResult. rewrite Hz. unfold bind, ret, exec, next_fault. rewrite Hf, Hid, Hex.
    apply str_in_spec in Hst.
    assert (str_in (r_Status r) ["unknown"; "success"; "failure"; "running"] = true) as ->.
    { apply str_in_spec in Hst. apply str_in_spec. cbn in *. tauto. }
    eexists. split; [done|]. split_and!; [done|done|]. cbn. rewrite lookup_insert_eq.
    by apply save_row_state. }
  unfold bind. rewrite E. cbn [rev]. rewrite <- app_assoc.
  apply IH; [done|by rewrite Hc|done|]. intros r' Hr'. apply Hr. by right.
Qed.

(** The counters are the current streaks.  Saving any results of
    one check in order leaves as consecutive successes and failures the
    lengths of the runs of successes and of failures at the end of the
    history, and schedules the next run one interval after the last result. *)
Theorem check_streaks (c : Check) (results : list Result) (last : Result) (w : world DB) :
  w_faults w = [] ->
  sql_exists (fun r => ck_id r =?s c_ID c) (db_checks (w_db w)) = true ->
  db_check_state (w_db w) !! c_ID c = None ->
  (forall r, In r (results ++ [last]) ->
    r_CheckID r = c_ID c /\ In (r_Status r) ["success"; "failure"] /\
    is_zero_time (r_CheckedAt r) = false) ->
  let '(e, w') := iter_tx (SaveResult c) (results ++ [last]) w in
  e = inr tt /\
  exists s, db_check_state (w_db w') !! c_ID c = Some s /\
    cs_status s = r_Status last /\
    cs_successes s = streak succeeded (rev (results ++ [last])) /\
    cs_failures s = streak failed (rev (results ++ [last])) /\
    cs_next_run_at s = Some (time_unix (r_CheckedAt last + c_Interval c)).
Proof.
  intros Hf Hex Hn Hr.
  pose proof (save_streaks c (results ++ [last]) w Hf Hex Hn Hr) as H.
  destruct (iter_tx _ _ w) as [e w']. destruct H as (-> & Hs). split; [done|].
  rewrite rev_app_distr in *. cbn [rev app] in *. destruct Hs as (s & Hs & Hst & Hrest). eauto 10.
Qed.

(** ** Witnesses *)

Definition sample_parse (s : string) : option URL :=
  if HasPrefix s "https://" then Some (mkURL "https" "example.org" false) else None.
Definition sample_check : Check :=
  mkCheck "chk_1" "res_1" "home" "https://example.org/" "GET" (30 * Second) (5 * Second) 200 299 ""
    true true 0 0.
Definition sample_resource_db : DB :=
  mkDB [mkResourceRow "res_1" None "running" None] [] [] [] ∅ [] ∅ [] [] ∅ [] [] [] [] ∅.

Lemma check_create_get_witness :
  let '(r, w) := Create sample_parse sample_check (World sample_resource_db [] 0 [1700000000 * Second]) in
  r = inr tt /\ exists c, (Checks_Get "chk_1" w).1 = inr c /\ c_Interval c = 30 * Second.
Proof.
  pose proof (check_create_get sample_parse sample_check sample_resource_db 0 (1700000000 * Second) []
    eq_refl (fun E => match E with eq_refl => I end) eq_refl eq_refl eq_refl eq_refl) as H.
  destruct (Create _ _ _) as [r w]. destruct H as (-> & Hg & _). split; [done|].
  eexists. split; [exact Hg|]. reflexivity.
Defined.

Definition sample_result (status : string) (at_ : Z) : Result :=
  mkResult "chk_1" status (if status =?s "success" then "" else FailureTimeout) 0 0 0 at_.

Lemma check_streaks_witness :
  let w := (Create sample_parse sample_check (World sample_resource_db [] 0 [])).2 in
  let rs := map (fun s => sample_result s Second) ["failure"; "success"; "failure"] in
  let '(e, w') := iter_tx (SaveResult sample_check) (rs ++ [sample_result "failure" Minute]) w in
  e = inr tt /\ exists s, db_check_state (w_db w') !! "chk_1" = Some s /\ cs_failures s = 2.
Proof.
  cbv zeta. set (w := (Create _ _ _).2). set (rs := map _ _).
  pose proof (check_streaks sample_check rs (sample_result "failure" Minute) w eq_refl eq_refl eq_refl) as H.
  assert (forall r, In r (rs ++ [sample_result "failure" Minute]) ->
    r_CheckID r = c_ID sample_check /\ In (r_Status r) ["success"; "failure"] /\
    is_zero_time (r_CheckedAt r) = false) as Hr.
  { intros r. unfold rs. cbn. intros [<- | [<- | [<- | [<- | []]]]]; cbn; tauto. }
  specialize (H Hr). destruct (iter_tx _ _ w) as [e w']. destruct H as (-> & s & Hs & _ & _ & Hf & _).
  split; [done|]. exists s. split; [exact Hs|]. rewrite Hf. reflexivity.
Defined.

(** The classification reads the error's whole text, the URL included: a
    refused connection to a host whose name contains dns is reported as a DNS
    failure.  An address the policy refuses when dialling is reported as a
    connection failure, as its text is not the code looked for. *)
Lemma classification_reads_url :
  classify (url_error "Get" "https://dns.example.org/" (text_err "connect: connection refused")) =
    FailureDNS /\
  classify (url_error "Get" "https://example.org/" (text_err (outbound_text ErrBlocked))) =
    FailureConnection.
Proof. by vm_compute. Qed.
