(* ===== verification/CheckScheduler.v ===== *)
(** * The check scheduler

    [internal/checks/scheduler.go]: one goroutine queues due checks, a fixed
    number of workers run them, and requests run checks on demand, all
    interleaved.  A state holds the shared map, the channel and where every
    goroutine stands; a step is one of them passing one synchronisation point.
    The runner is the source's interface: any function from checks to
    results.  Everything else in the server may change the database between
    two steps. *)

From stdpp Require Import base tactics list gmap strings relations.
From Stdlib Require Import ZArith Lia.
From S2P Require Import Prelude GoString Outbound Float64 Db AlertState Schema AlertRepository Checks.

(** ** State *)

(** Where [schedule] stands: waiting for the ticker, ranging over the due
    checks, about to send a reserved check, or returned. *)
Inductive SchedulePc :=
  | AtSelect
  | Ranging (rest : list Check)
  | Sending (c : Check) (rest : list Check)
  | Returned.

Record Scheduler := mkScheduler {
  sc_active : gset string;
  sc_queue : list Check;
  sc_schedule : SchedulePc;
  sc_workers : list Check;
  sc_requests : list Check;
  sc_cancelled : bool;
}.

(** [NewScheduler]: the number of workers and the capacity of the queue *)
Definition scheduler_max (max : Z) : Z := if max <? 1 then 1 else max.
Definition queue_cap (max : Z) : Z := scheduler_max max * 2.
Definition NewScheduler : Scheduler := mkScheduler ∅ [] AtSelect [] [] false.

Definition reserve (id : string) (s : Scheduler) : bool * Scheduler :=
  if bool_decide (id ∈ sc_active s) then (false, s)
  else (true, mkScheduler ({[id]} ∪ sc_active s) (sc_queue s) (sc_schedule s) (sc_workers s)
                (sc_requests s) (sc_cancelled s)).
Definition release (id : string) (s : Scheduler) : Scheduler :=
  mkScheduler (sc_active s ∖ {[id]}) (sc_queue s) (sc_schedule s) (sc_workers s) (sc_requests s)
    (sc_cancelled s).

Definition set_schedule (pc : SchedulePc) (s : Scheduler) : Scheduler :=
  mkScheduler (sc_active s) (sc_queue s) pc (sc_workers s) (sc_requests s) (sc_cancelled s).
Definition set_queue (q : list Check) (s : Scheduler) : Scheduler :=
  mkScheduler (sc_active s) q (sc_schedule s) (sc_workers s) (sc_requests s) (sc_cancelled s).
Definition set_workers (l : list Check) (s : Scheduler) : Scheduler :=
  mkScheduler (sc_active s) (sc_queue s) (sc_schedule s) l (sc_requests s) (sc_cancelled s).
Definition set_requests (l : list Check) (s : Scheduler) : Scheduler :=
  mkScheduler (sc_active s) (sc_queue s) (sc_schedule s) (sc_workers s) l (sc_cancelled s).
Definition set_cancelled (s : Scheduler) : Scheduler :=
  mkScheduler (sc_active s) (sc_queue s) (sc_schedule s) (sc_workers s) (sc_requests s) true.

(** ** Steps *)

Section scheduler.
Context (max : Z) (runner : Check -> Result -> Prop).

Inductive sched_step : Scheduler * world DB -> Scheduler * world DB -> Prop :=
  (** [schedule]: the ticker fires and [Due] answers, or fails. *)
  | step_due s w now cs w' :
      sc_schedule s = AtSelect -> Due now (queue_cap max) w = (inr cs, w') ->
      sched_step (s, w) (set_schedule (Ranging cs) s, w')
  | step_due_error s w now e w' :
      sc_schedule s = AtSelect -> Due now (queue_cap max) w = (inl e, w') ->
      sched_step (s, w) (s, w')
  | step_range_end s w :
      sc_schedule s = Ranging [] -> sched_step (s, w) (set_schedule AtSelect s, w)
  | step_skip s w c cs s' :
      sc_schedule s = Ranging (c :: cs) -> reserve (c_ID c) s = (false, s') ->
      sched_step (s, w) (set_schedule (Ranging cs) s', w)
  | step_reserve s w c cs s' :
      sc_schedule s = Ranging (c :: cs) -> reserve (c_ID c) s = (true, s') ->
      sched_step (s, w) (set_schedule (Sending c cs) s', w)
  | step_send s w c cs :
      sc_schedule s = Sending c cs -> Z.of_nat (length (sc_queue s)) < queue_cap max ->
      sched_step (s, w) (set_queue (sc_queue s ++ [c]) (set_schedule (Ranging cs) s), w)
  | step_full s w c cs :
      sc_schedule s = Sending c cs -> queue_cap max <= Z.of_nat (length (sc_queue s)) ->
      sched_step (s, w) (set_schedule Returned (release (c_ID c) s), w)
  (** A worker receives a check, runs it, saves the result and releases it. *)
  | step_receive s w c q :
      sc_queue s = c :: q -> Z.of_nat (length (sc_workers s)) < scheduler_max max ->
      sched_step (s, w) (set_queue q (set_workers (sc_workers s ++ [c]) s), w)
  | step_finish s w l c l' r e w' :
      sc_workers s = l ++ c :: l' -> runner c r -> SaveResult c r w = (e, w') ->
      sched_step (s, w) (release (c_ID c) (set_workers (l ++ l') s), w')
  (** [RunNow] reserves the check or is refused; its deferred release runs
      whether or not the result was saved. *)
  | step_run_now s w id c w' s' :
      Checks_Get id w = (inr c, w') -> c_Enabled c = true -> reserve (c_ID c) s = (true, s') ->
      sched_step (s, w) (set_requests (c :: sc_requests s) s', w')
  | step_run_now_end s w l c l' r e w' :
      sc_requests s = l ++ c :: l' -> runner c r -> SaveResult c r w = (e, w') ->
      sched_step (s, w) (release (c_ID c) (set_requests (l ++ l') s), w')
  (** [Stop] cancels the context: [schedule] returns at its next selection. *)
  | step_cancel s w : sched_step (s, w) (set_cancelled s, w)
  | step_cancel_select s w :
      sc_cancelled s = true -> sc_schedule s = AtSelect ->
      sched_step (s, w) (set_schedule Returned s, w)
  | step_cancel_send s w c cs :
      sc_cancelled s = true -> sc_schedule s = Sending c cs ->
      sched_step (s, w) (set_schedule Returned (release (c_ID c) s), w)
  (** Any other part of the server uses the database. *)
  | step_other s w w' : sched_step (s, w) (s, w').

(** ** Exclusion *)

Definition sending (pc : SchedulePc) : list Check :=
  match pc with Sending c _ => [c] | _ => [] end.
(** The checks reserved: about to be queued, queued, or running. *)
Definition in_flight (s : Scheduler) : list Check :=
  sending (sc_schedule s) ++ sc_queue s ++ sc_workers s ++ sc_requests s.
Definition flight_ids (s : Scheduler) : list string := map c_ID (in_flight s).

Record sched_inv (s : Scheduler) : Prop := {
  si_nodup : NoDup (flight_ids s);
  si_active : forall id, id ∈ sc_active s <-> id ∈ flight_ids s;
  si_queue : Z.of_nat (length (sc_queue s)) <= queue_cap max;
  si_workers : Z.of_nat (length (sc_workers s)) <= scheduler_max max;
}.

(** A step that only moves reserved checks around keeps the invariant. *)
Lemma inv_move s s' :
  sched_inv s -> in_flight s' ≡ₚ in_flight s -> sc_active s' = sc_active s ->
  Z.of_nat (length (sc_queue s')) <= queue_cap max ->
  Z.of_nat (length (sc_workers s')) <= scheduler_max max -> sched_inv s'.
Proof.
  intros [Hn Ha Hq Hw] Hp Hact Hq' Hw'. unfold flight_ids in *.
  assert (map c_ID (in_flight s') ≡ₚ map c_ID (in_flight s)) as Hp' by (by apply Permutation_map).
  split; [by rewrite Hp'| |done|done]. intros id. unfold flight_ids. by rewrite Hact, Ha, Hp'.
Qed.

(** Reserving a check and putting it anywhere *)
Lemma inv_reserve c s s1 s' :
  sched_inv s -> reserve (c_ID c) s = (true, s1) ->
  in_flight s' ≡ₚ c :: in_flight s -> sc_active s' = sc_active s1 ->
  sc_queue s' = sc_queue s -> sc_workers s' = sc_workers s -> sched_inv s'.
Proof.
  intros [Hn Ha Hq Hw] Hr Hp Hact Hq' Hw'. unfold reserve in Hr.
  destruct (bool_decide (c_ID c ∈ sc_active s)) eqn:E; simplify_eq. cbn in Hact.
  apply bool_decide_eq_false in E.
  assert (flight_ids s' ≡ₚ c_ID c :: flight_ids s) as Hp'.
  { unfold flight_ids. by apply (Permutation_map c_ID) in Hp. }
  split; [| |by rewrite Hq'|by rewrite Hw'].
  - rewrite Hp'. constructor; [by rewrite <- Ha|done].
  - intros id. rewrite Hact, Hp', elem_of_union, elem_of_singleton, elem_of_cons, Ha. done.
Qed.

(** Releasing a check that leaves the flight *)
Lemma inv_release c s s' :
  sched_inv s -> in_flight s ≡ₚ c :: in_flight s' ->
  sc_active s' = sc_active s ∖ {[c_ID c]} -> 
  Z.of_nat (length (sc_queue s')) <= queue_cap max ->
  Z.of_nat (length (sc_workers s')) <= scheduler_max max -> sched_inv s'.
Proof.
  intros [Hn Ha Hq Hw] Hp Hact Hq' Hw'.
  assert (flight_ids s ≡ₚ c_ID c :: flight_ids s') as Hp'.
  { unfold flight_ids. by apply (Permutation_map c_ID) in Hp. }
  rewrite Hp' in Hn. apply NoDup_cons in Hn as [Hni Hn]. split; [done| |done|done].
  intros id. rewrite Hact, elem_of_difference, elem_of_singleton, Ha, Hp', elem_of_cons. split.
  - by intros [[->|H] Hne].
  - intros H. split; [by right|]. by intros ->.
Qed.

(** The checks in flight, after one step *)
Ltac flight :=
  unfold in_flight, set_schedule, set_queue, set_workers, set_requests, release in *; cbn in *;
  repeat match goal with
  | H : sc_schedule _ = _ |- _ => rewrite H in *; clear H
  | H : sc_queue _ = _ |- _ => rewrite H in *; clear H
  | H : sc_workers _ = _ |- _ => rewrite H in *; clear H
  | H : sc_requests _ = _ |- _ => rewrite H in *; clear H
  end; cbn in *; try done; try solve_Permutation; rewrite ?length_app in *; cbn in *; try lia.

Lemma sched_step_inv s w s' w' : sched_step (s, w) (s', w') -> sched_inv s -> sched_inv s'.
Proof.
  intros Hs Hi. pose proof (si_queue s Hi) as Hq. pose proof (si_workers s Hi) as Hw.
  inversion Hs; subst; clear Hs; try done.
  - apply (inv_move _ _ Hi); flight.
  - apply (inv_move _ _ Hi); flight.
  - unfold reserve in *. case_bool_decide; simplify_eq. apply (inv_move _ _ Hi); flight.
  - eapply (inv_reserve c _ _ _ Hi); [done|..]; unfold reserve in *; case_bool_decide; simplify_eq; flight.
  - apply (inv_move _ _ Hi); flight.
  - apply (inv_release c _ _ Hi); flight.
  - apply (inv_move _ _ Hi); flight.
  - apply (inv_release c _ _ Hi); flight.
  - eapply (inv_reserve c _ _ _ Hi); [done|..]; unfold reserve in *; case_bool_decide; simplify_eq; flight.
  - apply (inv_release c _ _ Hi); flight.
  - apply (inv_move _ _ Hi); flight.
  - apply (inv_move _ _ Hi); flight.
  - apply (inv_release c _ _ Hi); flight.
Qed.

Lemma new_scheduler_inv : sched_inv NewScheduler.
Proof.
  split; cbn; [constructor|set_solver| |]; unfold queue_cap, scheduler_max; case_match; lia.
Qed.

Lemma reachable_inv p q : rtc sched_step p q -> sched_inv p.1 -> sched_inv q.1.
Proof.
  induction 1 as [[s w]|[s1 w1] [s2 w2] [s3 w3] Hs _ IH]; [done|]. intros Hi. by apply IH, (sched_step_inv _ _ _ _ Hs).
Qed.

(** C32 (safety): a check never runs twice at a time.  In every state the
    scheduler, its workers and requests can reach, whatever the other parts
    of the server do to the database, the running checks are pairwise
    different, at most the configured number of workers run, the queue is
    within its capacity, and a check is reserved exactly while it is about to
    be queued, queued or running: no reservation leaks. *)
Theorem check_runs_exclusive (w0 w : world DB) (s : Scheduler) :
  rtc sched_step (NewScheduler, w0) (s, w) ->
  NoDup (map c_ID (sc_workers s ++ sc_requests s)) /\
  Z.of_nat (length (sc_workers s)) <= scheduler_max max /\
  Z.of_nat (length (sc_queue s)) <= queue_cap max /\
  forall id, id ∈ sc_active s <-> exists c, c_ID c = id /\
    (c ∈ sending (sc_schedule s) \/ c ∈ sc_queue s \/ c ∈ sc_workers s \/ c ∈ sc_requests s).
Proof.
  intros Hr. destruct (reachable_inv _ _ Hr new_scheduler_inv) as [Hn Ha Hq Hw]. cbn in *.
  unfold flight_ids, in_flight in *. split_and!; [|done|done|].
  - rewrite !map_app in Hn. apply NoDup_app in Hn as (_ & _ & Hn).
    apply NoDup_app in Hn as (_ & _ & Hn). by rewrite map_app.
  - intros id. rewrite Ha. setoid_rewrite <- elem_of_app. setoid_rewrite <- elem_of_app.
    setoid_rewrite <- elem_of_app. split.
    + intros (c & -> & Hc)%list_elem_of_fmap. eauto.
    + intros (c & <- & Hc). apply list_elem_of_fmap. eauto.
Qed.

(** ** Giving up *)

Lemma returned_step p q :
  sched_step p q -> sc_schedule p.1 = Returned ->
  sc_schedule q.1 = Returned /\ sc_queue q.1 `suffix_of` sc_queue p.1.
Proof.
  intros Hs Hr. destruct Hs; cbn in *; try congruence; try (split; [done|reflexivity]).
  - split; [done|]. rewrite H. by exists [c].
  - unfold reserve in *. case_bool_decide; simplify_eq. by split.
Qed.

Lemma returned_forever p q :
  rtc sched_step p q -> sc_schedule p.1 = Returned ->
  sc_schedule q.1 = Returned /\ sc_queue q.1 `suffix_of` sc_queue p.1.
Proof.
  induction 1 as [p|p p' q Hs _ IH]; intros Hr; [by split|].
  destruct (returned_step _ _ Hs Hr) as [Hr' Hq]. destruct (IH Hr') as [Hr'' Hq'].
  split; [done|]. by etrans.
Qed.
End scheduler.

Definition sample_runner (c : Check) (r : Result) : Prop := r = mkResult (c_ID c) "success" "" 200 0 0 1.

Definition due_db (ids : list string) : DB :=
  mkDB [mkResourceRow "res_1" None "running" None] [] []
    (map (fun id => mkCheckRow id "res_1" id "https://example.org/" "GET" 30 5 200 299 None true true 0 0) ids)
    ∅ [] ∅ [] [] ∅ [] [] [] [] ∅.
Definition due_world (ids : list string) : world DB := World (due_db ids) [] 0 [].
Definition due_check (id : string) : Check :=
  mkCheck id "res_1" id "https://example.org/" "GET" (30 * Second) (5 * Second) 200 299 "" true true 0 0.

(** Two checks are queued and a worker takes one. *)
Lemma sample_running :
  rtc (sched_step 1 sample_runner) (NewScheduler, due_world ["x"; "y"])
    (mkScheduler ({["y"]} ∪ {["x"]}) [due_check "y"] AtSelect [due_check "x"] [] false,
     due_world ["x"; "y"]).
Proof.
  eapply rtc_l. { eapply (step_due _ _ _ _ 0); [done|by vm_compute]. }
  eapply rtc_l. { by eapply step_reserve. }
  eapply rtc_l. { by eapply step_send. }
  eapply rtc_l. { by eapply step_reserve. }
  eapply rtc_l. { by eapply step_send. }
  eapply rtc_l. { by eapply step_range_end. }
  eapply rtc_l. { by eapply step_receive. }
  match goal with |- rtc _ (?a, ?w) (?b, ?w') => replace a with b; [reflexivity|] end.
  reflexivity.
Qed.

Lemma check_runs_exclusive_witness :
  exists s w, rtc (sched_step 1 sample_runner) (NewScheduler, due_world ["x"; "y"]) (s, w) /\
    sc_workers s = [due_check "x"] /\ NoDup (map c_ID (sc_workers s ++ sc_requests s)).
Proof.
  eexists _, _. split; [exact sample_running|]. split; [reflexivity|].
  exact (proj1 (check_runs_exclusive 1 sample_runner _ _ _ sample_running)).
Defined.

(** The scheduler can give up for good.  When the queue is full,
    [schedule] returns instead of waiting for the next tick: with one worker,
    two checks in flight and two new ones created meanwhile, it returns
    although nobody stopped it, and whatever happens afterwards no check is
    ever queued again. *)
Theorem scheduler_gives_up :
  exists s w, rtc (sched_step 1 sample_runner) (NewScheduler, due_world ["x"; "y"]) (s, w) /\
    sc_cancelled s = false /\ sc_schedule s = Returned /\
    forall s' w', rtc (sched_step 1 sample_runner) (s, w) (s', w') ->
      sc_schedule s' = Returned /\ sc_queue s' `suffix_of` sc_queue s.
Proof.
  eexists _, _. split; [|split_and!].
  - etrans; [apply sample_running|].
    eapply rtc_l. { apply (step_other _ _ _ _ (due_world ["x"; "y"; "a"; "b"])). }
    eapply rtc_l. { eapply (step_due _ _ _ _ 0); [done|by vm_compute]. }
    eapply rtc_l. { by eapply step_reserve. }
    eapply rtc_l. { by eapply step_send. }
    eapply rtc_l. { by eapply step_reserve. }
    eapply rtc_l. { by eapply step_full. }
    reflexivity.
  - reflexivity.
  - reflexivity.
  - intros s' w' Hr. exact (returned_forever _ _ _ _ Hr eq_refl).
Qed.
