(* ===== verification/Metrics.v ===== *)
(** * The metrics engine and the persistence queue

    [internal/metrics]: the observation types, the in-memory [Engine] that
    publishes snapshots and events to live subscribers, and the bounded
    [BatchQueue] in front of the database writer. *)

From stdpp Require Import base tactics list gmap strings.
From Stdlib Require Import ZArith Lia Sorting.Sorted.
From S2P Require Import Prelude Float64.

(** ** Types ([types.go]) *)

Definition Sequence : Type := Z.

Definition UnitBytes : string := "bytes".
Definition UnitBytesPerSecond : string := "bytes_per_second".
Definition UnitPercent : string := "percent".
Definition UnitCount : string := "count".
Definition Unit_Valid (u : string) : bool :=
  str_in u [UnitBytes; UnitBytesPerSecond; UnitPercent; UnitCount].

Definition ResourceID_Valid (id : string) : bool :=
  String.prefix "res_" id && (4 <? Z.of_nat (String.length id)).
Definition ContainerID_Valid (id : string) : bool := 12 <=? Z.of_nat (String.length id).

Definition StatusHealthy : string := "healthy".
Definition StatusPaused : string := "paused".
Definition StatusUnknown : string := "unknown".
Definition StatusDegraded : string := "degraded".
Definition StatusDown : string := "down".
Definition StatusArchived : string := "archived".
Definition ResourceStatus_Valid (s : string) : bool :=
  str_in s [StatusHealthy; StatusPaused; StatusUnknown; StatusDegraded; StatusDown; StatusArchived].

Definition CollectorHealthy : string := "healthy".
Definition CollectorDegraded : string := "degraded".
Definition CollectorDown : string := "down".
Definition CollectorUnknown : string := "unknown".
Definition CollectorState_Valid (s : string) : bool :=
  str_in s [CollectorHealthy; CollectorDegraded; CollectorDown; CollectorUnknown].

Record HostObservation := mkHost {
  h_At : Z;
  h_CPUPercent : option F64;
  h_CPUUserPercent : option F64;
  h_CPUSystemPercent : option F64;
  h_CPUIOWaitPercent : option F64;
  h_CPUStealPercent : option F64;
  h_MemoryUsedBytes : option Z;
  h_MemoryTotalBytes : option Z;
  h_MemoryAvailableBytes : option Z;
  h_MemoryPercent : option F64;
  h_MemoryCachedBytes : option Z;
  h_MemoryBuffersBytes : option Z;
  h_SwapUsedBytes : option Z;
  h_SwapTotalBytes : option Z;
  h_SwapPercent : option F64;
  h_Load1 : option F64;
  h_Load5 : option F64;
  h_Load15 : option F64;
  h_NetworkRXBPS : option F64;
  h_NetworkTXBPS : option F64;
  h_NetworkRXPacketsPS : option F64;
  h_NetworkTXPacketsPS : option F64;
  h_NetworkRXErrorsDelta : option Z;
  h_NetworkTXErrorsDelta : option Z;
  h_NetworkRXDropsDelta : option Z;
  h_NetworkTXDropsDelta : option Z;
  h_DiskReadBPS : option F64;
  h_DiskWriteBPS : option F64;
  h_DiskReadIOPS : option F64;
  h_DiskWriteIOPS : option F64;
  h_DiskUsedBytes : option Z;
  h_DiskTotalBytes : option Z;
  h_UptimeSeconds : option F64;
}.

Definition zero_host : HostObservation :=
  mkHost zero_time None None None None None None None None None None None None None None None
    None None None None None None None None None None None None None None None None None.

Record ResourceComponent := mkComponent {
  rc_ID : string; rc_Name : string; rc_Status : string; rc_RuntimeState : string;
  rc_HealthStatus : string; rc_CPUHostPercent : option F64; rc_MemoryBytes : option Z;
  rc_RXBPS : option F64; rc_TXBPS : option F64; rc_BlockReadBPS : option F64;
  rc_BlockWriteBPS : option F64; rc_PIDs : option Z;
}.

Record ResourceSnapshot := mkResource {
  rs_ID : string; rs_Name : string; rs_Status : string; rs_SignalStatus : string;
  rs_CPUHostPercent : option F64; rs_MemoryBytes : option Z; rs_RXBPS : option F64;
  rs_TXBPS : option F64; rs_BlockReadBPS : option F64; rs_BlockWriteBPS : option F64;
  rs_LastSeenAt : Z; rs_Category : string; rs_Context : string; rs_Project : string;
  rs_Environment : string; rs_Infrastructure : bool; rs_Components : list ResourceComponent;
  rs_StableKey : string; rs_SourceKind : string; rs_ManualName : bool; rs_ManualContext : bool;
}.

Record CollectorHealth := mkCollector {
  co_Name : string; co_State : string; co_Reason : string; co_FreshAt : Z;
}.
Definition zero_collector : CollectorHealth := mkCollector "" "" "" zero_time.

Record Event := mkEvent {
  e_ID : Sequence; e_At : Z; e_Type : string; e_ResourceID : string;
  e_ContainerInstance : string; e_Severity : string; e_Message : string;
  e_Details : string; e_CorrelationKey : string;
}.

Record Snapshot := mkSnapshot {
  sn_Sequence : Sequence; sn_At : Z; sn_BootIdentity : string; sn_Host : HostObservation;
  sn_Resources : list ResourceSnapshot; sn_Collectors : gmap string CollectorHealth;
}.
Definition zero_snapshot : Snapshot := mkSnapshot 0 zero_time "" zero_host [] ∅.

Record FilesystemObservation := mkFilesystem {
  fo_At : Z; fo_MountKey : string; fo_MountPoint : string; fo_FSType : string;
  fo_TotalBytes : option Z; fo_UsedBytes : option Z; fo_AvailableBytes : option Z;
  fo_UsedPercent : option F64; fo_InodesTotal : option Z; fo_InodesUsed : option Z;
  fo_InodesUsedPercent : option F64;
}.

Record PersistenceBatch := mkBatch {
  pb_Snapshot : Snapshot; pb_Events : list Event; pb_Filesystems : list FilesystemObservation;
}.

(** [TimeRange.Validate] *)
Definition TimeRange_Validate (from to : Z) : bool :=
  negb (is_zero_time from || is_zero_time to || negb (from <? to)).

(** ** The engine ([engine.go])

    A live subscriber's Go channel is a bounded buffer; [ch_closed] marks
    [close].  Values copied by [clone] cannot be aliased here. *)

Inductive LiveMessage := LiveSnapshot (s : Snapshot) | LiveEvent (e : Event).

Record Chan := mkChan { ch_buf : list LiveMessage; ch_closed : bool }.
Definition live_capacity : nat := 33.

Record Engine := mkEngine {
  en_snapshot : Snapshot;
  en_events : list Event;
  en_filesystems : list FilesystemObservation;
  en_maxEvents : nat;
  en_chans : gmap Z Chan;
  en_live : gset Z;
  en_nextSub : Z;
  en_nextMessage : Sequence;
}.

Definition NewEngine (maxEvents : Z) : Engine :=
  mkEngine zero_snapshot [] [] (Z.to_nat (if maxEvents <? 1 then 128 else maxEvents)) ∅ ∅ 0 0.

(** [select { case ch <- m: default: }] *)
Definition try_send (c : Chan) (m : LiveMessage) : Chan * bool :=
  if decide (length (ch_buf c) < live_capacity)%nat
  then (mkChan (ch_buf c ++ [m]) (ch_closed c), true) else (c, false).
(** [select { case <-ch: default: }] *)
Definition try_recv (c : Chan) : Chan := mkChan (tail (ch_buf c)) (ch_closed c).

Definition sendLive (c : Chan) (m : LiveMessage) : Chan * bool :=
  match m with
  | LiveSnapshot _ => ((try_send (try_recv c) m).1, true)
  | LiveEvent _ => try_send c m
  end.

(** The events of one publication to one subscriber: [false] when the first
    one that does not fit disconnects it. *)
Fixpoint send_events (c : Chan) (events : list Event) : Chan * bool :=
  match events with
  | [] => (c, true)
  | e :: es =>
      let '(c', ok) := sendLive c (LiveEvent e) in
      if ok then send_events c' es else (mkChan (ch_buf c') true, false)
  end.

Definition publish_live (s : Snapshot) (events : list Event) (c : Chan) : Chan * bool :=
  send_events (sendLive c (LiveSnapshot s)).1 events.

(** The events of a publication as they enter the ring, with the message
    counter after them. *)
Fixpoint assign_ids (next : Sequence) (events : list Event) : list Event * Sequence :=
  match events with
  | [] => ([], next)
  | e :: es =>
      let '(next1, e1) :=
        if e_ID e =? 0 then
          let n := wrapu64 (next + 1) in
          (n, mkEvent n (e_At e) (e_Type e) (e_ResourceID e) (e_ContainerInstance e)
                (e_Severity e) (e_Message e) (e_Details e) (e_CorrelationKey e))
        else (next, e) in
      let '(es', next2) := assign_ids next1 es in
      (e1 :: es', next2)
  end.

Definition keep_last {A} (n : nat) (l : list A) : list A := skipn (length l - n) l.

(** The snapshot as it is published: numbered and timestamped. *)
Definition stamp (now : Z) (snapshot : Snapshot) (e : Engine) : Snapshot :=
  mkSnapshot (wrapu64 (en_nextMessage e + 1))
    (if is_zero_time (sn_At snapshot) then now else sn_At snapshot)
    (sn_BootIdentity snapshot) (sn_Host snapshot) (sn_Resources snapshot) (sn_Collectors snapshot).

Definition Publish (now : Z) (snapshot : Snapshot) (events : list Event) (e : Engine) : Engine :=
  let s := stamp now snapshot e in
  let '(es, next) := assign_ids (sn_Sequence s) events in
  let sent := publish_live s events <$> filter (fun ic => ic.1 ∈ en_live e) (en_chans e) in
  mkEngine s (keep_last (en_maxEvents e) (en_events e ++ es)) (en_filesystems e) (en_maxEvents e)
    ((fst <$> sent) ∪ en_chans e)
    (en_live e ∖ dom (filter (fun ic => ic.2.2 = false) sent)) (en_nextSub e) next.

Definition Subscribe (e : Engine) : Z * Engine :=
  let id := wrapu64 (en_nextSub e + 1) in
  let c := mkChan [] false in
  let c := if 0 <? sn_Sequence (en_snapshot e)
           then (sendLive c (LiveSnapshot (en_snapshot e))).1 else c in
  (id, mkEngine (en_snapshot e) (en_events e) (en_filesystems e) (en_maxEvents e)
         (<[id := c]> (en_chans e)) ({[id]} ∪ en_live e) id (en_nextMessage e)).

(** [Subscription.Close] *)
Definition Unsubscribe (id : Z) (e : Engine) : Engine :=
  if decide (id ∈ en_live e) then
    mkEngine (en_snapshot e) (en_events e) (en_filesystems e) (en_maxEvents e)
      (alter (fun c => mkChan (ch_buf c) true) id (en_chans e)) (en_live e ∖ {[id]})
      (en_nextSub e) (en_nextMessage e)
  else e.

(** The subscriber takes the next message from its channel. *)
Definition Receive (id : Z) (e : Engine) : option LiveMessage * Engine :=
  (en_chans e !! id ≫= fun c => head (ch_buf c),
   mkEngine (en_snapshot e) (en_events e) (en_filesystems e) (en_maxEvents e)
     (alter try_recv id (en_chans e)) (en_live e) (en_nextSub e) (en_nextMessage e)).

Definition PublishFilesystems (obs : list FilesystemObservation) (e : Engine) : Engine :=
  mkEngine (en_snapshot e) (en_events e) obs (en_maxEvents e) (en_chans e) (en_live e)
    (en_nextSub e) (en_nextMessage e).

Definition Engine_Snapshot (e : Engine) : Snapshot := en_snapshot e.
Definition Engine_PersistenceBatch (e : Engine) : PersistenceBatch :=
  mkBatch (en_snapshot e) (en_events e) (en_filesystems e).
Definition SSEClients (e : Engine) : Z := Z.of_nat (size (en_live e)).
Definition EventsAfter (id : Sequence) (e : Engine) : list Event :=
  List.filter (fun v => id <? e_ID v) (en_events e).

(** ** The persistence queue ([queue.go]) *)

Record BatchQueue (A : Type) := mkQueue { q_items : list A; q_Limit : Z; q_Dropped : Z }.
Arguments mkQueue {A} _ _ _.
Arguments q_items {A} _.
Arguments q_Limit {A} _.
Arguments q_Dropped {A} _.

Definition Push {A} (v : A) (q : BatchQueue A) : BatchQueue A :=
  let limit := if q_Limit q <=? 0 then 60 else q_Limit q in
  if limit <=? Z.of_nat (length (q_items q)) then
    mkQueue (tail (q_items q) ++ [v]) limit (q_Dropped q + 1)
  else mkQueue (q_items q ++ [v]) limit (q_Dropped q).

Definition Pop {A} (q : BatchQueue A) : option A * BatchQueue A :=
  match q_items q with
  | [] => (None, q)
  | v :: vs => (Some v, mkQueue vs (q_Limit q) (q_Dropped q))
  end.

Definition Depth {A} (q : BatchQueue A) : Z := Z.of_nat (length (q_items q)).

(** ** Runs of the engine *)

Inductive EngineOp :=
  | OpPublish (now : Z) (s : Snapshot) (events : list Event)
  | OpSubscribe
  | OpUnsubscribe (id : Z)
  | OpReceive (id : Z)
  | OpFilesystems (obs : list FilesystemObservation).

Definition engine_step (e : Engine) (op : EngineOp) : Engine :=
  match op with
  | OpPublish now s events => Publish now s events e
  | OpSubscribe => (Subscribe e).2
  | OpUnsubscribe id => Unsubscribe id e
  | OpReceive id => (Receive id e).2
  | OpFilesystems obs => PublishFilesystems obs e
  end.

Definition engine_run (e : Engine) (ops : list EngineOp) : Engine := fold_left engine_step ops e.

(** ** Channels *)

Lemma keep_last_length {A} n (l : list A) : (length (keep_last n l) <= n)%nat.
Proof. unfold keep_last. rewrite length_skipn. lia. Qed.

Lemma try_send_bound c m :
  (length (ch_buf c) <= live_capacity)%nat ->
  (length (ch_buf (try_send c m).1) <= live_capacity)%nat.
Proof. unfold try_send. case_decide; cbn; rewrite ?length_app; cbn; lia. Qed.

Lemma try_recv_bound c :
  (length (ch_buf c) <= live_capacity)%nat -> (length (ch_buf (try_recv c)) < live_capacity)%nat.
Proof. unfold try_recv, live_capacity. destruct (ch_buf c); cbn; lia. Qed.

Lemma sendLive_bound c m :
  (length (ch_buf c) <= live_capacity)%nat ->
  (length (ch_buf (sendLive c m).1) <= live_capacity)%nat.
Proof.
  intros H. destruct m; cbn -[try_send]; apply try_send_bound; [|done].
  pose proof (try_recv_bound c H). lia.
Qed.

Lemma send_events_spec c es c' ok :
  send_events c es = (c', ok) ->
  (length (ch_buf c) <= live_capacity)%nat ->
  (length (ch_buf c') <= live_capacity)%nat /\
  (ok = true -> ch_buf c' = ch_buf c ++ map LiveEvent es /\ ch_closed c' = ch_closed c) /\
  (ok = false -> ch_closed c' = true).
Proof.
  revert c. induction es as [|e es IH]; intros c; cbn [send_events map].
  - intros [= <- <-] H. rewrite app_nil_r. naive_solver.
  - pose proof (sendLive_bound c (LiveEvent e)) as Hb.
    destruct (sendLive c (LiveEvent e)) as [c1 ok1] eqn:E. destruct ok1.
    + intros Hs H. destruct (IH c1 Hs (Hb H)) as (H1 & H2 & H3). split_and!; auto.
      intros Hok. destruct (H2 Hok) as [-> ->]. revert E. unfold sendLive, try_send.
      case_decide; intros; simplify_eq/=. by rewrite <- app_assoc.
    + intros [= <- <-] H. split_and!; auto; done.
Qed.

(** What one publication does to a subscriber's channel: it is disconnected,
    or everything published is in it, in order, after what was left. *)
Lemma publish_live_spec s es c c' ok :
  publish_live s es c = (c', ok) ->
  (length (ch_buf c) <= live_capacity)%nat ->
  (length (ch_buf c') <= live_capacity)%nat /\
  (ok = true -> ch_buf c' = tail (ch_buf c) ++ LiveSnapshot s :: map LiveEvent es /\
                ch_closed c' = ch_closed c) /\
  (ok = false -> ch_closed c' = true).
Proof.
  intros H Hb. unfold publish_live in H.
  destruct (send_events_spec _ _ _ _ H (sendLive_bound c (LiveSnapshot s) Hb)) as (H1 & H2 & H3).
  split_and!; auto. intros Hok. destruct (H2 Hok) as [-> ->].
  pose proof (try_recv_bound c Hb). unfold sendLive, try_send.
  rewrite decide_True by done. cbn. by rewrite <- app_assoc.
Qed.

(** ** The engine's invariant *)

Record engine_ok (e : Engine) : Prop := {
  ok_events : (length (en_events e) <= en_maxEvents e)%nat;
  ok_live : forall id, id ∈ en_live e -> exists c, en_chans e !! id = Some c /\ ch_closed c = false;
  ok_bufs : forall id c, en_chans e !! id = Some c -> (length (ch_buf c) <= live_capacity)%nat;
}.

Lemma publish_chans now s es e id :
  en_chans (Publish now s es e) !! id =
    if decide (id ∈ en_live e) then fst ∘ publish_live (stamp now s e) es <$> en_chans e !! id
    else en_chans e !! id.
Proof.
  unfold Publish. destruct (assign_ids _ _) as [es' next]. cbn.
  rewrite lookup_union, !lookup_fmap, map_lookup_filter.
  destruct (en_chans e !! id) as [c|]; cbn; [|by case_decide].
  case_decide; [by rewrite option_guard_True|by rewrite option_guard_False].
Qed.

Lemma publish_alive now s es e id :
  id ∈ en_live (Publish now s es e) <->
  id ∈ en_live e /\
  forall c, en_chans e !! id = Some c -> (publish_live (stamp now s e) es c).2 = true.
Proof.
  unfold Publish. destruct (assign_ids _ _) as [es' next]. cbn.
  rewrite elem_of_difference, not_elem_of_dom, map_lookup_filter_None.
  split; intros [Hl H]; (split; [done|]).
  - intros c Hc. rewrite lookup_fmap, map_lookup_filter, Hc in H. cbn in H.
    rewrite option_guard_True in H by done. cbn in H. destruct H as [|H]; [done|].
    specialize (H _ eq_refl). by destruct (publish_live _ _ _).2.
  - right. intros x (c & <- & [Hc _]%map_lookup_filter_Some)%lookup_fmap_Some. cbn.
    by rewrite (H c Hc).
Qed.

Lemma publish_ok now s es e : engine_ok e -> engine_ok (Publish now s es e).
Proof.
  intros [He Hl Hb]. split.
  - unfold Publish. destruct (assign_ids _ _). cbn. apply keep_last_length.
  - intros id [Hid Hok]%publish_alive. destruct (Hl id Hid) as (c & Hec & Hcl).
    rewrite publish_chans, decide_True, Hec by done. unfold compose. cbn. eexists; split; [done|].
    specialize (Hok c Hec). destruct (publish_live _ es c) as [c' ok] eqn:E.
    destruct (publish_live_spec _ _ _ _ _ E) as (_ & H & _); [by eapply Hb|].
    cbn in *. by rewrite (proj2 (H Hok)).
  - intros id c. rewrite publish_chans. case_decide; [|apply Hb].
    intros (c0 & Hc0 & ->)%fmap_Some. unfold compose. destruct (publish_live _ es c0) as [c' ok] eqn:E.
    destruct (publish_live_spec _ _ _ _ _ E) as (H' & _); [by eapply Hb|done].
Qed.

Lemma subscribe_ok e : engine_ok e -> engine_ok (Subscribe e).2.
Proof.
  intros [He Hl Hb]. split; cbn -[sendLive]; [done| |].
  - intros id. destruct (decide (id = wrapu64 (en_nextSub e + 1))) as [->|Hne].
    + intros _. rewrite lookup_insert_eq. eexists; split; [done|]. by case_match.
    + rewrite lookup_insert_ne by done. intros Hid. apply Hl. set_solver.
  - intros id c [[_ <-]|[_ H]]%lookup_insert_Some; [|by eapply Hb].
    case_match; [apply sendLive_bound|]; cbn; unfold live_capacity; lia.
Qed.

Lemma unsubscribe_ok id e : engine_ok e -> engine_ok (Unsubscribe id e).
Proof.
  intros [He Hl Hb]. unfold Unsubscribe. case_decide; [|done]. split; cbn; [done| |].
  - intros id' Hid'. rewrite lookup_alter_ne by set_solver. apply Hl. set_solver.
  - intros id' c [(? & c0 & H' & ->)|[_ H']]%lookup_alter_Some; cbn; by eapply Hb.
Qed.

Lemma receive_ok id e : engine_ok e -> engine_ok (Receive id e).2.
Proof.
  intros [He Hl Hb]. split; cbn; [done| |].
  - intros id' Hid'. destruct (Hl id' Hid') as (c & Hc & Hcl).
    destruct (decide (id' = id)) as [->|].
    + rewrite lookup_alter_eq, Hc. eauto.
    + rewrite lookup_alter_ne by done. eauto.
  - intros id' c [(? & c0 & H & ->)|[_ H]]%lookup_alter_Some; [|by eapply Hb].
    pose proof (try_recv_bound c0). specialize (Hb _ _ H). lia.
Qed.

Lemma filesystems_ok obs e : engine_ok e -> engine_ok (PublishFilesystems obs e).
Proof. by intros [He Hl Hb]; split. Qed.

#[export] Hint Resolve filesystems_ok publish_ok subscribe_ok unsubscribe_ok receive_ok : go.

Lemma engine_run_ok e ops : engine_ok e -> engine_ok (engine_run e ops).
Proof.
  revert e. induction ops as [|op ops IH]; intros e He; cbn; [done|]. apply IH.
  destruct op; cbn [engine_step]; auto with go.
Qed.

Lemma new_engine_ok n : engine_ok (NewEngine n).
Proof. split; cbn; [lia|set_solver|done]. Qed.

(** ** Event numbering *)

Lemma assign_ids_zero next es es' next' :
  assign_ids next es = (es', next') ->
  Forall (fun e => e_ID e = 0) es -> 0 <= next -> next + Z.of_nat (length es) < 2 ^ 64 ->
  next' = next + Z.of_nat (length es) /\
  map e_ID es' = seqZ (next + 1) (Z.of_nat (length es)).
Proof.
  revert next es' next'. induction es as [|e es IH]; intros next es' next'; cbn [assign_ids].
  - intros [= <- <-] _ _ _. cbn. split; [lia|done].
  - intros H [Hz Hes]%Forall_cons Hn Hb. cbn [length] in *. rewrite Hz in H. cbn in H.
    rewrite wrapu64_id in H by (unfold in_uint64; lia).
    destruct (assign_ids (next + 1) es) as [es1 n1] eqn:E. simplify_eq.
    destruct (IH _ _ _ E Hes) as [-> Hm]; [lia..|]. split; [lia|]. cbn [map].
    rewrite Hm, (seqZ_cons (next + 1)) by lia. f_equal. f_equal; lia.
Qed.

(** Ring order: the events kept are numbered in increasing order, below the
    message counter. *)
Record ids_ok (e : Engine) : Prop := {
  ids_sorted : StronglySorted Z.lt (map e_ID (en_events e));
  ids_bound : Forall (fun v => e_ID v <= en_nextMessage e) (en_events e);
  ids_nonneg : 0 <= en_nextMessage e;
}.

Lemma strongly_sorted_app (l1 l2 : list Z) :
  StronglySorted Z.lt l1 -> StronglySorted Z.lt l2 ->
  (forall x y, x ∈ l1 -> y ∈ l2 -> x < y) -> StronglySorted Z.lt (l1 ++ l2).
Proof.
  induction l1 as [|x l1 IH]; cbn; intros H1 H2 H; [done|].
  inversion_clear H1. constructor; [apply IH; set_solver|].
  apply Forall_app. split; [done|]. apply Forall_forall. set_solver.
Qed.

Lemma strongly_sorted_seqZ a n : StronglySorted Z.lt (seqZ a n).
Proof.
  destruct (Z.le_ge_cases n 0); [rewrite seqZ_nil by lia; constructor|].
  revert a. pattern n. apply natlike_ind; [constructor| |done]. intros m Hm IH a.
  rewrite seqZ_cons by lia. constructor; [by rewrite Z.pred_succ|].
  apply Forall_forall. intros y [? ?]%elem_of_seqZ. lia.
Qed.

Lemma strongly_sorted_skipn n (l : list Z) :
  StronglySorted Z.lt l -> StronglySorted Z.lt (skipn n l).
Proof. revert l. induction n; intros [|] H; cbn; [done..|]. inversion_clear H. auto. Qed.

Lemma publish_ids now s es e :
  ids_ok e -> Forall (fun v => e_ID v = 0) es ->
  en_nextMessage e + 1 + Z.of_nat (length es) < 2 ^ 64 ->
  ids_ok (Publish now s es e) /\
  en_nextMessage (Publish now s es e) = en_nextMessage e + 1 + Z.of_nat (length es).
Proof.
  intros [Hs Hb Hn] Hz Hlt. unfold Publish. cbn [sn_Sequence stamp].
  rewrite wrapu64_id by (unfold in_uint64; lia).
  destruct (assign_ids _ _) as [es' next] eqn:E.
  destruct (assign_ids_zero _ _ _ _ E Hz) as [-> Hm]; [lia..|].
  split; [|done]. split; cbn; [| |lia].
  - unfold keep_last. rewrite <- skipn_map, map_app, Hm.
    apply strongly_sorted_skipn, strongly_sorted_app; [done|apply strongly_sorted_seqZ|].
    intros x y (v & -> & Hv)%list_elem_of_fmap [Hy _]%elem_of_seqZ.
    rewrite Forall_forall in Hb. specialize (Hb _ Hv). lia.
  - apply Forall_drop, Forall_app. split.
    + eapply Forall_impl; [exact Hb|]. cbn. lia.
    + apply Forall_forall. intros v Hv. assert (e_ID v ∈ map e_ID es') as Hin.
      { by apply list_elem_of_fmap_2. }
      rewrite Hm in Hin. apply elem_of_seqZ in Hin. lia.
Qed.

(** How many numbers an operation draws, and that it lets the engine number
    its events. *)
Definition op_messages (op : EngineOp) : Z :=
  match op with OpPublish _ _ es => 1 + Z.of_nat (length es) | _ => 0 end.
Definition op_unnumbered (op : EngineOp) : Prop :=
  match op with OpPublish _ _ es => Forall (fun v => e_ID v = 0) es | _ => True end.
Definition ops_messages (ops : list EngineOp) : Z := foldr (fun op n => op_messages op + n) 0 ops.

Lemma ops_messages_nonneg ops : 0 <= ops_messages ops.
Proof.
  unfold ops_messages. induction ops as [|op ops IH]; cbn [foldr]; [done|].
  destruct op; cbn [op_messages]; lia.
Qed.

Lemma engine_run_ids e ops :
  ids_ok e -> Forall op_unnumbered ops -> en_nextMessage e + ops_messages ops < 2 ^ 64 ->
  ids_ok (engine_run e ops).
Proof.
  revert e. induction ops as [|op ops IH]; intros e He Hz Hlt; cbn; [done|].
  apply Forall_cons in Hz as [Hz Hzs]. pose proof (ops_messages_nonneg ops).
  change (ops_messages (op :: ops)) with (op_messages op + ops_messages ops) in Hlt.
  destruct op as [now s es| |id|id|obs]; cbn [op_messages op_unnumbered engine_step] in *.
  - destruct (publish_ids now s es e He Hz) as [He' Hn]; [lia|]. apply IH; [done..|lia].
  - apply IH; auto. by destruct He; split.
  - apply IH; auto; unfold Unsubscribe; case_decide; auto. by destruct He; split.
  - apply IH; auto. by destruct He; split.
  - apply IH; auto. by destruct He; split.
Qed.

Lemma events_after_suffix e l1 ev l2 :
  ids_ok e -> en_events e = l1 ++ ev :: l2 -> EventsAfter (e_ID ev) e = l2.
Proof.
  intros [Hs _ _] E. unfold EventsAfter. rewrite E in *. clear E. induction l1 as [|x l1 IH]; cbn in *.
  - inversion_clear Hs as [|? ? Hs' Hall]. rewrite (proj2 (Z.ltb_ge _ _)) by lia.
    clear Hs'. induction l2 as [|y l2 IH]; cbn in *; [done|]. inversion_clear Hall.
    rewrite (proj2 (Z.ltb_lt _ _)) by lia. f_equal. auto.
  - inversion_clear Hs as [|? ? Hs' Hall]. rewrite (proj2 (Z.ltb_ge _ _)); [auto|].
    rewrite map_app in Hall. apply Forall_app in Hall as [_ Hall]. inversion_clear Hall. lia.
Qed.

(** ** Properties *)

(** Whatever mixture of publications, subscriptions,
    disconnections and receives the engine goes through, it keeps at most
    [maxEvents] events, no subscriber's buffer exceeds the channel capacity,
    and every registered subscriber has an open channel. *)
Theorem engine_invariant (maxEvents : Z) (ops : list EngineOp) :
  let e := engine_run (NewEngine maxEvents) ops in
  (length (en_events e) <= en_maxEvents e)%nat /\
  (forall id, id ∈ en_live e -> exists c, en_chans e !! id = Some c /\ ch_closed c = false) /\
  (forall id c, en_chans e !! id = Some c -> (length (ch_buf c) <= live_capacity)%nat).
Proof.
  cbn. destruct (engine_run_ok _ ops (new_engine_ok maxEvents)) as [H1 H2 H3]. auto.
Qed.

(** A publication reaches every subscriber whole or closes it.
    After [Publish], a subscriber that is still registered has, after what it
    had not read yet, the new snapshot and then all the events; one that could
    not take them is closed and no longer registered. *)
Theorem publish_whole_or_closed (maxEvents : Z) (ops : list EngineOp) (now : Z) (s : Snapshot)
    (events : list Event) (id : Z) (c : Chan) :
  let e := engine_run (NewEngine maxEvents) ops in
  let e' := Publish now s events e in
  id ∈ en_live e -> en_chans e !! id = Some c ->
  exists c', en_chans e' !! id = Some c' /\
    if decide (id ∈ en_live e')
    then ch_buf c' = tail (ch_buf c) ++ LiveSnapshot (en_snapshot e') :: map LiveEvent events
    else ch_closed c' = true.
Proof.
  cbn. intros Hid Hc. set (e := engine_run _ ops) in *.
  pose proof (engine_run_ok _ ops (new_engine_ok maxEvents)) as Hok.
  rewrite publish_chans, decide_True, Hc by done. eexists; split; [done|]. unfold compose.
  destruct (publish_live (stamp now s e) events c) as [c' ok] eqn:E. cbn.
  destruct (publish_live_spec _ _ _ _ _ E) as (_ & Ht & Hf); [by eapply ok_bufs|].
  replace (en_snapshot (Publish now s events e)) with (stamp now s e)
    by (unfold Publish; by destruct (assign_ids _ _)).
  pose proof (publish_alive now s events e id) as Ha. destruct ok.
  - rewrite decide_True; [by apply Ht|]. apply Ha. split; [done|]. intros ? ?; simplify_eq.
    by rewrite E.
  - rewrite decide_False; [by apply Hf|]. intros [_ H]%Ha. specialize (H c Hc). by rewrite E in H.
Qed.

Lemma publish_whole_or_closed_witness :
  exists c', en_chans (Publish 5 zero_snapshot [] (engine_run (NewEngine 4) [OpSubscribe])) !! 1
    = Some c' /\
    if decide (1 ∈ en_live (Publish 5 zero_snapshot [] (engine_run (NewEngine 4) [OpSubscribe])))
    then ch_buf c' = tail [] ++ LiveSnapshot (en_snapshot
      (Publish 5 zero_snapshot [] (engine_run (NewEngine 4) [OpSubscribe]))) :: map LiveEvent []
    else ch_closed c' = true.
Proof.
  apply (publish_whole_or_closed 4 [OpSubscribe] 5 zero_snapshot [] 1 (mkChan [] false));
    [by apply (bool_decide_unpack _) | by vm_compute].
Defined.

(** Replay after a reconnect is exact.  When producers leave
    event numbering to the engine and the 64-bit counter does not overflow,
    [EventsAfter] for the last event a client saw returns precisely the kept
    events that follow it, in order. *)
Theorem replay_exact (maxEvents : Z) (ops : list EngineOp) (l1 l2 : list Event) (ev : Event) :
  Forall op_unnumbered ops -> ops_messages ops < 2 ^ 64 ->
  let e := engine_run (NewEngine maxEvents) ops in
  en_events e = l1 ++ ev :: l2 -> EventsAfter (e_ID ev) e = l2.
Proof.
  cbn. intros Hz Hlt. apply events_after_suffix, engine_run_ids; [|done|cbn; lia].
  split; cbn; [constructor|constructor|lia].
Qed.

Definition sample_event (type : string) : Event := mkEvent 0 0 type "" "" "" "" "" "".

Lemma replay_exact_witness :
  let e := engine_run (NewEngine 2)
    [OpPublish 1 zero_snapshot [sample_event "a"; sample_event "b"; sample_event "c"]] in
  EventsAfter 3 e = [mkEvent 4 0 "c" "" "" "" "" "" ""].
Proof.
  apply (replay_exact 2 [OpPublish 1 zero_snapshot
           [sample_event "a"; sample_event "b"; sample_event "c"]] []
           [mkEvent 4 0 "c" "" "" "" "" "" ""] (mkEvent 3 0 "b" "" "" "" "" "" ""));
    [repeat constructor | by vm_compute | by vm_compute].
Defined.

(** Live subscribers can miss events without noticing.  A snapshot
    makes room by dropping the oldest queued message even when the buffer has
    space and even when that message is an event: a subscriber that has read
    nothing through three publications stays connected, and the event of the first one
    is gone from its buffer. *)
Theorem live_event_dropped :
  let e := engine_run (NewEngine 128)
    [OpSubscribe; OpPublish 1 zero_snapshot [sample_event "oom"];
     OpPublish 2 zero_snapshot []; OpPublish 3 zero_snapshot []] in
  1 ∈ en_live e /\
  exists c, en_chans e !! 1 = Some c /\ ch_closed c = false /\ length (ch_buf c) = 2%nat /\
    Forall (fun m => match m with LiveEvent _ => False | LiveSnapshot _ => True end) (ch_buf c).
Proof.
  split; [by apply (bool_decide_unpack _)|]. vm_compute. eexists. split; [done|].
  repeat constructor.
Qed.

(** ** The queue, as a whole *)

Inductive QueueOp (A : Type) := QPush (v : A) | QPop.
Arguments QPush {A} _.
Arguments QPop {A}.

(** A run returns the values popped, in order. *)
Fixpoint queue_run {A} (q : BatchQueue A) (ops : list (QueueOp A)) : list A * BatchQueue A :=
  match ops with
  | [] => ([], q)
  | QPush v :: ops => queue_run (Push v q) ops
  | QPop :: ops =>
      let '(r, q1) := Pop q in
      let '(out, q2) := queue_run q1 ops in
      (match r with Some v => v :: out | None => out end, q2)
  end.

Definition pushes {A} (ops : list (QueueOp A)) : list A :=
  omap (fun op => match op with QPush v => Some v | QPop => None end) ops.

Definition effective_limit {A} (q : BatchQueue A) : Z := if q_Limit q <=? 0 then 60 else q_Limit q.

Lemma push_spec {A} (v : A) q :
  Depth q <= effective_limit q ->
  Depth (Push v q) <= effective_limit (Push v q) /\
  effective_limit (Push v q) = effective_limit q /\
  exists lost, q_items q ++ [v] = lost ++ q_items (Push v q) /\
    q_Dropped (Push v q) = q_Dropped q + Z.of_nat (length lost).
Proof.
  unfold Push, Depth. fold (effective_limit q). intros Hd.
  assert (0 < effective_limit q) by (unfold effective_limit; case_match; lia).
  assert (forall items d, effective_limit (mkQueue items (effective_limit q) d : BatchQueue A)
            = effective_limit q) as Hl.
  { intros. unfold effective_limit at 1. cbn. case_match; [lia|done]. }
  case_match eqn:E; rewrite Hl; cbn; rewrite length_app; cbn.
  - apply Z.leb_le in E. destruct (q_items q) as [|x xs] eqn:Ei; cbn [length tail] in *; [lia|].
    split_and!; [lia|done|]. exists [x]. split; [done|cbn; lia].
  - apply Z.leb_gt in E. split_and!; [lia|done|]. exists []. split; [done|cbn; lia].
Qed.

Lemma queue_run_spec {A} (ops : list (QueueOp A)) (q q' : BatchQueue A) out :
  Depth q <= effective_limit q -> queue_run q ops = (out, q') ->
  Depth q' <= effective_limit q /\
  exists gone, q_items q ++ pushes ops = gone ++ q_items q' /\ out `sublist_of` gone /\
    Z.of_nat (length gone) = Z.of_nat (length out) + (q_Dropped q' - q_Dropped q).
Proof.
  revert q out. induction ops as [|[v|] ops IH]; intros q out Hd; cbn [queue_run].
  - intros [= <- <-]. split; [done|]. exists []. cbn. rewrite app_nil_r. split_and!; [done..|lia].
  - intros Hr. destruct (push_spec v q Hd) as (Hd1 & Hl1 & lost & Hlost & Hdr).
    destruct (IH _ _ Hd1 Hr) as (Hd' & gone & Hg & Hsub & Hn).
    split; [by rewrite <- Hl1|]. exists (lost ++ gone). cbn [pushes omap list_omap].
    fold (pushes ops). rewrite (cons_middle v), app_assoc, Hlost, <- !app_assoc, Hg.
    split_and!; [done|by apply sublist_inserts_l|]. rewrite length_app. lia.
  - unfold Pop. destruct (q_items q) as [|x xs] eqn:Ei.
    + destruct (queue_run q ops) as [o1 q1] eqn:Er. intros [= <- <-].
      destruct (IH _ _ Hd Er) as (Hd' & gone & Hg & Hsub & Hn). rewrite Ei in Hg. eauto.
    + set (q0 := mkQueue xs (q_Limit q) (q_Dropped q)).
      destruct (queue_run q0 ops) as [o1 q1] eqn:Er. intros [= <- <-].
      assert (Depth q0 <= effective_limit q0) as Hd0.
      { unfold Depth in *. rewrite Ei in Hd. cbn [length] in Hd. change (effective_limit q0)
        with (effective_limit q). cbn [q_items q0]. lia. }
      destruct (IH _ _ Hd0 Er) as (Hd' & gone & Hg & Hsub & Hn). split; [done|].
      exists (x :: gone). cbn in *. rewrite <- Hg. split_and!; [done|by constructor|lia].
Qed.

(** The persistence queue is a bounded FIFO that loses oldest first.
    For every sequence of pushes and pops on a fresh queue: its depth stays
    within the limit; everything pushed is, in order, what left the queue
    followed by what it holds; what was popped is in push order; and the values that left without
    being popped are exactly the ones counted in [Dropped]. *)
Theorem queue_bounded_fifo {A} (limit : Z) (ops : list (QueueOp A)) :
  let '(out, q) := queue_run (mkQueue [] limit 0) ops in
  Depth q <= (if limit <=? 0 then 60 else limit) /\
  exists gone, pushes ops = gone ++ q_items q /\ out `sublist_of` gone /\
    Z.of_nat (length gone) = Z.of_nat (length out) + q_Dropped q.
Proof.
  destruct (queue_run _ ops) as [out q] eqn:E.
  destruct (queue_run_spec ops (mkQueue [] limit 0) q out) as (Hd & gone & Hg & Hs & Hn).
  - unfold Depth, effective_limit. cbn. case_match; lia.
  - done.
  - split; [done|]. exists gone. cbn in *. split_and!; [done..|lia].
Qed.
