(* ===== verification/AlertHealth.v ===== *)
(** * Health decoration

    [internal/alerts/health.go]: the resources of a snapshot as the API shows
    them, with the health that checks and alerts give them. *)

From stdpp Require Import base tactics list gmap strings.
From Stdlib Require Import ZArith Lia.
From S2P Require Import Prelude GoString Float64 Db AlertState Schema AlertRepository Metrics.

Record health := mkHealth {
  requiredUnknown : bool; requiredPending : bool; requiredFiring : bool;
  optionalFailure : bool; resourceAlert : bool;
}.
Definition no_health : health := mkHealth false false false false false.

(** A row of the first query: resource, required, status and phase *)
Record CheckHealth := mkCheckHealth {
  hk_resource : string; hk_required : bool; hk_status : string; hk_phase : Phase;
}.

Definition check_health_row (d : DB) (c : CheckRow) : CheckHealth :=
  let key := (if ck_required c then "required_check_failure:" else "optional_check_failure:")
             +:+ ck_resource_id c in
  mkCheckHealth (ck_resource_id c) (ck_required c)
    (match db_check_state d !! ck_id c with Some s => cs_status s | None => "unknown" end)
    (match db_eval d !! key with Some e => es_phase e | None => Healthy end).

Definition check_health_rows (d : DB) : list CheckHealth :=
  map (check_health_row d) (List.filter ck_enabled (db_checks d)).

Definition resource_alert (a : AlertRow) : bool :=
  (al_status a =?s "firing") && (al_target_type a =?s "resource") &&
  negb (str_in (al_family a) [FamilyRequiredCheck; FamilyOptionalCheck]).
(** [SELECT DISTINCT target_id] *)
Definition alerted_resources (d : DB) : list string :=
  remove_dups (map al_target_id (List.filter resource_alert (db_alerts d))).

Definition phase_in (p : Phase) (l : list Phase) : bool := bool_decide (p ∈ l).

Definition observe_check (v : CheckHealth) (h : health) : health :=
  mkHealth (requiredUnknown h || hk_required v && (hk_status v =?s "unknown"))
    (requiredPending h || hk_required v && phase_in (hk_phase v) [Pending; Recovering])
    (requiredFiring h || hk_required v && phase_in (hk_phase v) [Firing])
    (optionalFailure h || negb (hk_required v) &&
       ((hk_status v =?s "failure") || phase_in (hk_phase v) [Firing; Pending]))
    (resourceAlert h).
Definition observe_alert (h : health) : health :=
  mkHealth (requiredUnknown h) (requiredPending h) (requiredFiring h) (optionalFailure h) true.

(** [h := states[resource]; if h == nil { continue }; ...]: the pointer is
    updated in place. *)
Definition collect_checks (rows : list CheckHealth) (states : gmap string health) : gmap string health :=
  fold_left (fun m v => alter (observe_check v) (hk_resource v) m) rows states.
Definition collect_alerts (ids : list string) (states : gmap string health) : gmap string health :=
  fold_left (fun m id => alter observe_alert id m) ids states.

Definition set_status (status : string) (v : ResourceSnapshot) : ResourceSnapshot :=
  mkResource (rs_ID v) (rs_Name v) status (rs_SignalStatus v) (rs_CPUHostPercent v)
    (rs_MemoryBytes v) (rs_RXBPS v) (rs_TXBPS v) (rs_BlockReadBPS v) (rs_BlockWriteBPS v)
    (rs_LastSeenAt v) (rs_Category v) (rs_Context v) (rs_Project v) (rs_Environment v)
    (rs_Infrastructure v) (rs_Components v) (rs_StableKey v) (rs_SourceKind v) (rs_ManualName v)
    (rs_ManualContext v).
(** [v.SignalStatus = v.Status] *)
Definition signal (v : ResourceSnapshot) : ResourceSnapshot :=
  mkResource (rs_ID v) (rs_Name v) (rs_Status v) (rs_Status v) (rs_CPUHostPercent v)
    (rs_MemoryBytes v) (rs_RXBPS v) (rs_TXBPS v) (rs_BlockReadBPS v) (rs_BlockWriteBPS v)
    (rs_LastSeenAt v) (rs_Category v) (rs_Context v) (rs_Project v) (rs_Environment v)
    (rs_Infrastructure v) (rs_Components v) (rs_StableKey v) (rs_SourceKind v) (rs_ManualName v)
    (rs_ManualContext v).

Definition decorate_resource (states : gmap string health) (v : ResourceSnapshot) : ResourceSnapshot :=
  if str_in (rs_SignalStatus v) [StatusPaused; StatusArchived; StatusDown] then v
  else match states !! rs_ID v with
  | None => v
  | Some h =>
      if requiredFiring h then set_status StatusDown v
      else if requiredPending h || optionalFailure h || resourceAlert h
      then set_status StatusDegraded v
      else if requiredUnknown h then set_status StatusUnknown v
      else v
  end.

Definition with_resources (rs : list ResourceSnapshot) (s : Snapshot) : Snapshot :=
  mkSnapshot (sn_Sequence s) (sn_At s) (sn_BootIdentity s) (sn_Host s) rs (sn_Collectors s).

(** [available]: the repository has a database.  A failed query counts as one
    without rows. *)
Definition Decorate (available : bool) (snapshot : Snapshot) : tx DB Snapshot :=
  let out := map signal (sn_Resources snapshot) in
  let states : gmap string health :=
    list_to_map (map (fun v => (rs_ID v, no_health)) out) in
  if negb available then ret (with_resources out snapshot)
  else
    rows <- or_default [] (query check_health_rows) ;;
    ids <- or_default [] (query alerted_resources) ;;
    let states := collect_alerts ids (collect_checks rows states) in
    ret (with_resources (map (decorate_resource states) out) snapshot).

(** ** Properties *)

(** The health of a resource, as a function of the tables. *)
Section spec.
Context (d : DB) (id : string).

Definition some_check (p : CheckHealth -> bool) : bool :=
  existsb (fun v => (hk_resource v =?s id) && p v) (check_health_rows d).
Definition resource_health (status : string) : string :=
  if str_in status [StatusPaused; StatusArchived; StatusDown] then status
  else if some_check (fun v => hk_required v && phase_in (hk_phase v) [Firing]) then StatusDown
  else if some_check (fun v => hk_required v && phase_in (hk_phase v) [Pending; Recovering]) ||
          some_check (fun v => negb (hk_required v) &&
            ((hk_status v =?s "failure") || phase_in (hk_phase v) [Firing; Pending])) ||
          sql_exists (fun a => resource_alert a && (al_target_id a =?s id)) (db_alerts d)
  then StatusDegraded
  else if some_check (fun v => hk_required v && (hk_status v =?s "unknown")) then StatusUnknown
  else status.
End spec.

Definition health_of (id : string) (rows : list CheckHealth) (h : health) : health :=
  let some p := existsb (fun v => (hk_resource v =?s id) && p v) rows in
  mkHealth
    (requiredUnknown h || some (fun v => hk_required v && (hk_status v =?s "unknown")))
    (requiredPending h || some (fun v => hk_required v && phase_in (hk_phase v) [Pending; Recovering]))
    (requiredFiring h || some (fun v => hk_required v && phase_in (hk_phase v) [Firing]))
    (optionalFailure h || some (fun v => negb (hk_required v) &&
       ((hk_status v =?s "failure") || phase_in (hk_phase v) [Firing; Pending])))
    (resourceAlert h).

Lemma collect_checks_lookup rows m id :
  collect_checks rows m !! id = health_of id rows <$> m !! id.
Proof.
  revert m. induction rows as [|v rows IH]; intros m; cbn [collect_checks fold_left].
  - destruct (m !! id) as [[]|]; cbn; [|done]. unfold health_of. cbn. by rewrite !orb_false_r.
  - fold (collect_checks rows (alter (observe_check v) (hk_resource v) m)). rewrite IH.
    destruct (decide (hk_resource v = id)) as [<-|Hne].
    + rewrite lookup_alter_eq. destruct (m !! hk_resource v) as [h|]; [|done]. cbn [fmap option_fmap option_map].
      f_equal. unfold health_of. cbn [existsb]. rewrite String.eqb_refl. cbn [andb].
      unfold observe_check. cbn [requiredUnknown requiredPending requiredFiring optionalFailure resourceAlert].
      by rewrite !orb_assoc.
    + rewrite lookup_alter_ne by done. destruct (m !! id) as [h|]; [|done]. cbn [fmap option_fmap option_map].
      f_equal. unfold health_of. cbn [existsb].
      by rewrite (proj2 (String.eqb_neq _ _) Hne).
Qed.

Lemma collect_alerts_lookup ids m id :
  collect_alerts ids m !! id =
    (fun h => if bool_decide (id ∈ ids) then observe_alert h else h) <$> m !! id.
Proof.
  revert m. induction ids as [|i ids IH]; intros m; cbn [collect_alerts fold_left].
  - rewrite bool_decide_eq_false_2 by (by intros ?%not_elem_of_nil). by destruct (m !! id).
  - fold (collect_alerts ids (alter observe_alert i m)). rewrite IH.
    destruct (decide (i = id)) as [->|Hne].
    + rewrite lookup_alter_eq. rewrite (bool_decide_eq_true_2 (id ∈ id :: ids)) by constructor.
      destruct (m !! id) as [h|]; [|done]. cbn. by case_bool_decide.
    + rewrite lookup_alter_ne by done. destruct (m !! id) as [h|]; [|done]. cbn. f_equal.
      rewrite (bool_decide_ext (id ∈ i :: ids) (id ∈ ids)); [done|].
      rewrite elem_of_cons. split; [intros [->|]; done|by right].
Qed.

Lemma alerted_elem d id :
  bool_decide (id ∈ alerted_resources d) =
    sql_exists (fun a => resource_alert a && (al_target_id a =?s id)) (db_alerts d).
Proof.
  apply eq_true_iff_eq. rewrite bool_decide_eq_true. unfold alerted_resources.
  rewrite elem_of_remove_dups, list_elem_of_In, in_map_iff, sql_exists_true. split.
  - intros (a & <- & [Ha Hr]%filter_In). exists a. by rewrite Hr, String.eqb_refl.
  - intros (a & Ha & Hr). bool_hyps. exists a. split; [by apply String.eqb_eq|]. by apply filter_In.
Qed.

Lemma states_lookup (rs : list ResourceSnapshot) id :
  In id (map rs_ID rs) ->
  (list_to_map (map (fun v => (rs_ID v, no_health)) rs) : gmap string health) !! id = Some no_health.
Proof.
  induction rs as [|v rs IH]; cbn; [done|]. intros Hin.
  destruct (decide (rs_ID v = id)) as [->|Hne]; [by rewrite lookup_insert_eq|].
  rewrite lookup_insert_ne by done. apply IH. by destruct Hin.
Qed.

Lemma decorate_resource_health d v :
  decorate_resource (collect_alerts (alerted_resources d) (collect_checks (check_health_rows d)
    {[rs_ID v := no_health]})) (signal v) =
  set_status (resource_health d (rs_ID v) (rs_Status v)) (signal v).
Proof.
  unfold decorate_resource, resource_health. cbn [rs_SignalStatus signal rs_ID].
  destruct (str_in (rs_Status v) _); [by destruct v|].
  rewrite collect_alerts_lookup, collect_checks_lookup, lookup_singleton_eq.
  cbn [fmap option_fmap option_map]. rewrite alerted_elem.
  destruct (sql_exists _ (db_alerts d)); unfold health_of, observe_alert, no_health;
    cbn [requiredUnknown requiredPending requiredFiring optionalFailure resourceAlert orb];
    fold (some_check d (rs_ID v) (fun v => hk_required v && phase_in (hk_phase v) [Firing]));
    fold (some_check d (rs_ID v) (fun v => hk_required v && phase_in (hk_phase v) [Pending; Recovering]));
    fold (some_check d (rs_ID v) (fun v => negb (hk_required v) &&
            ((hk_status v =?s "failure") || phase_in (hk_phase v) [Firing; Pending])));
    fold (some_check d (rs_ID v) (fun v => hk_required v && (hk_status v =?s "unknown")));
    repeat case_match; by destruct v.
Qed.

Lemma decorate_resource_ext m m' v :
  m !! rs_ID v = m' !! rs_ID v -> decorate_resource m v = decorate_resource m' v.
Proof. unfold decorate_resource. by intros ->. Qed.

Lemma decorate_id m v :
  rs_ID (decorate_resource m (signal v)) = rs_ID v /\
  rs_SignalStatus (decorate_resource m (signal v)) = rs_Status v.
Proof. unfold decorate_resource. by repeat case_match. Qed.

(** The decoration is the health of the tables.  When the queries
    succeed, the decorated snapshot has the same resources with the collected
    status kept as the signal, and each resource's status is: the collected
    one while paused, archived or down; otherwise down when a required check
    fires, degraded when one is pending or recovering, an optional one fails
    or another alert fires on it, unknown when a required check has no
    result, and unchanged else.  When a query fails the others still count,
    and no resource is lost. *)
Theorem decorate_spec (snapshot : Snapshot) (w : world DB) :
  exists out w', Decorate true snapshot w = (inr out, w') /\ w_db w' = w_db w /\
    map rs_ID (sn_Resources out) = map rs_ID (sn_Resources snapshot) /\
    map rs_SignalStatus (sn_Resources out) = map rs_Status (sn_Resources snapshot) /\
    (w_faults w = [] ->
      out = with_resources (map (fun v =>
        set_status (resource_health (w_db w) (rs_ID v) (rs_Status v)) (signal v))
        (sn_Resources snapshot)) snapshot).
Proof.
  unfold Decorate. cbn [negb].
  destruct (or_default_query [] check_health_rows w) as (rows & w1 & E1 & Hd1 & Hf1).
  destruct (or_default_query [] alerted_resources w1) as (ids & w2 & E2 & Hd2 & Hf2).
  unfold bind. rewrite E1, E2. eexists _, w2. split; [reflexivity|].
  split; [congruence|]. cbn [sn_Resources with_resources]. rewrite !map_map. split_and!.
  - apply map_ext. intros v. apply decorate_id.
  - apply map_ext. intros v. apply decorate_id.
  - intros Hw. destruct (Hf1 Hw) as [-> Hw1]. destruct (Hf2 Hw1) as [-> _].
    f_equal. apply map_ext_in. intros v Hv. rewrite <- decorate_resource_health, Hd1.
    apply decorate_resource_ext. rewrite !collect_alerts_lookup, !collect_checks_lookup. cbn [rs_ID signal].
    rewrite lookup_singleton_eq, states_lookup; [done|].
    by apply (in_map rs_ID).
Qed.
