(* ===== verification/AlertEvaluator.v ===== *)
(** * Alert evaluation

    [internal/alerts/evaluator.go]: one evaluation loads the lifecycle state
    of its dedup key, advances it, stores it, and opens, reminds of or
    resolves the alert, all in one transaction together with the incident
    sink; [Evaluate] runs the rules over the engine snapshot, the filesystem
    samples, the event history and the health checks. *)

From stdpp Require Import base tactics list gmap strings.
From Stdlib Require Import ZArith Lia.
From S2P Require Import Prelude Float64 Db Metrics AlertState Schema AlertRepository.

Definition nullableTarget (v : string) : option string :=
  if (v =?s "server") || (v =?s "docker") then None else Some v.

(** [timePtr] *)
Definition timePtr (v : option Z) : option Z := time_unix <$> v.

(** The first enabled rule of the family scoped to the target, or else the
    last enabled global one, or else the zero rule. *)
Fixpoint effectiveRule_from (global : Rule) (rules : list Rule)
    (family targetType target : string) : Rule :=
  match rules with
  | [] => global
  | rule :: rules =>
      if negb (r_Enabled rule) || negb (r_Family rule =?s family) then
        effectiveRule_from global rules family targetType target
      else if (r_ScopeType rule =?s targetType) && (r_ScopeID rule =?s target) then rule
      else effectiveRule_from (if r_ScopeType rule =?s "global" then rule else global)
             rules family targetType target
  end.
Definition effectiveRule := effectiveRule_from zero_rule.

Section evaluator.
Context `{Rand} `{MapOrder} (sink : option IncidentSink).

(** ** One transaction *)

Definition silence_active (now : Z) (rule : Rule) (target : string) (d : DB) (s : SilenceRow)
    : bool :=
  (si_starts_at s <=? now) && (now <? si_ends_at s) &&
  ((si_scope_type s =?s "server") ||
   ((si_scope_type s =?s "resource") && (si_scope_id s =?s target)) ||
   ((si_scope_type s =?s "rule") && (si_scope_id s =?s r_ID rule)) ||
   ((si_scope_type s =?s "project") &&
    sql_exists (fun r => (res_id r =?s target) &&
      match res_project_name r with Some p => p =?s si_scope_id s | None => false end)
      (db_resources d))).

Definition suppressedTx (rule : Rule) (target : string) (now : Z) : tx DB bool :=
  let t := time_unix now in
  n <- query (fun d => sql_count (silence_active t rule target d) (db_silences d)) ;;
  if 0 <? n then ret true
  else if r_SuppressDuringDeployment rule then
    query (fun d => match db_grace d !! target with
                    | Some g => (gr_starts_at g <=? t) && (t <? gr_ends_at g)
                    | None => false
                    end)
  else ret false.

Definition insertEvent (eventID : string) (rule : Rule) (target eventType : string) (now : Z)
    : tx DB unit :=
  exec (fun d => put set_events (insert_pk ev_id
    (mkEventRow ("alert-" +:+ eventID) (time_unix_milli now) (nullableTarget target) eventType
       (r_Severity rule) (message rule target) (dedup (r_Family rule) target) "alerts"
       (time_unix_milli now)) (db_events d)) d).

Definition load_state (now : Z) (row : option EvalRow) : State :=
  match row with
  | None => mkState Healthy now None None
  | Some r => mkState (es_phase r) (of_unix (es_phase_since r))
                (of_unix <$> es_last_notified_at r) (of_unix <$> es_cooldown_until r)
  end.

(** [INSERT INTO alert_evaluation_state ... ON CONFLICT(dedup_key) DO UPDATE]:
    an update keeps the target columns. *)
Definition upsert_eval (key : string) (row : EvalRow) (d : DB) : gerr + (unit * DB) :=
  guard_c (rule_exists (es_rule_id row) d) "FOREIGN KEY"
  (guard_c (bool_decide (es_phase row <> PhaseEmpty)) "phase"
  (let row := match db_eval d !! key with
              | None => row
              | Some old =>
                  mkEvalRow (es_rule_id row) (es_target_type old) (es_target_id old) (es_phase row)
                    (es_phase_since row) (es_last_evaluated_at row) (es_last_notified_at row)
                    (es_cooldown_until row) (es_observed_value row)
              end in
   inr (tt, set_eval (<[key := row]> (db_eval d)) d))).

(** [INSERT INTO alerts]: foreign key, [UNIQUE(dedup_key, started_at)],
    severity check and primary key. *)
Definition insert_alert (a : AlertRow) (d : DB) : gerr + (unit * DB) :=
  guard_c (rule_exists (al_rule_id a) d) "FOREIGN KEY"
  (guard_c (str_in (al_severity a) ["warning"; "critical"]) "severity"
  (guard_c (negb (sql_exists (fun a' => (al_dedup_key a' =?s al_dedup_key a) &&
      (al_started_at a' =? al_started_at a)) (db_alerts d))) "UNIQUE"
  (put set_alerts (insert_pk al_id a (db_alerts d)) d))).

Definition resolve_row (t : Z) (a : AlertRow) : AlertRow :=
  mkAlertRow (al_id a) (al_dedup_key a) (al_rule_id a) (al_family a) (al_severity a)
    (al_target_type a) (al_target_id a) "resolved" (al_started_at a) (Some t) t
    (al_observed_value a) (al_message a).

Definition observe_row (t : Z) (value : F64) (a : AlertRow) : AlertRow :=
  mkAlertRow (al_id a) (al_dedup_key a) (al_rule_id a) (al_family a) (al_severity a)
    (al_target_type a) (al_target_id a) (al_status a) (al_started_at a) (al_resolved_at a) t
    (sql_real value) (al_message a).

Definition firing_for (key : string) (a : AlertRow) : bool :=
  (al_dedup_key a =?s key) && (al_status a =?s "firing").

(** [if e.Repo.sink != nil] *)
Definition with_sink (f : IncidentSink -> tx DB unit) : tx DB unit :=
  match sink with Some s => f s | None => ret tt end.

(** The trigger, reminder, resolution and refresh branches of [evaluate]. *)
Definition on_trigger (rule : Rule) (targetType target : string) (value : F64) (now : Z)
    : tx DB unit :=
  let key := dedup (r_Family rule) target in
  alertID <- rand_id ;;
  exec (insert_alert (mkAlertRow alertID key (r_ID rule) (r_Family rule) (r_Severity rule)
    targetType target "firing" (time_unix now) None (time_unix now) (sql_real value)
    (message rule target))) ;;;
  with_sink (fun s => AlertFiredTx s (mkAlert alertID key (r_ID rule) (r_Family rule)
    (r_Severity rule) targetType target "firing" now None now (Some value)
    (message rule target) "") now) ;;;
  insertEvent alertID rule target "alert_triggered" now.

Definition on_repeat (rule : Rule) (target : string) (now : Z) : tx DB unit :=
  eventID <- rand_id ;;
  insertEvent eventID rule target "alert_repeated" now.

Definition on_resolve (rule : Rule) (target : string) (now : Z) : tx DB unit :=
  let key := dedup (r_Family rule) target in
  found <- catch_norows (query_row (fun d =>
    al_id <$> sql_latest (firing_for key) al_started_at (db_alerts d))) ;;
  match found with
  | None => ret tt
  | Some alertID =>
      update_rows db_alerts set_alerts (fun a => al_id a =?s alertID)
        (resolve_row (time_unix now)) ;;;
      with_sink (fun s => AlertResolvedTx s alertID now) ;;;
      insertEvent alertID rule target "alert_resolved" now
  end.

Definition on_observe (key : string) (value : F64) (now : Z) : tx DB unit :=
  update_rows db_alerts set_alerts (firing_for key) (observe_row (time_unix now) value) ;;;
  ret tt.

Definition evaluate (rule : Rule) (targetType target : string) (value : F64)
    (failing recovered : bool) (now : Z) : tx DB unit :=
  let key := dedup (r_Family rule) target in
  with_tx (
    row <- catch_norows (query_row (fun d => db_eval d !! key)) ;;
    let state := load_state now row in
    suppressed <- suppressedTx rule target now ;;
    let tr := Advance now state failing recovered suppressed rule in
    exec (upsert_eval key (mkEvalRow (r_ID rule) targetType target (s_Phase (t_State tr))
      (time_unix (s_Since (t_State tr))) (time_unix now) (timePtr (s_LastNotifiedAt (t_State tr)))
      (timePtr (s_CooldownUntil (t_State tr))) (sql_real value))) ;;;
    if t_Triggered tr then on_trigger rule targetType target value now
    else if t_Repeated tr then on_repeat rule target now
    else if t_Resolved tr then on_resolve rule target now
    else if active state then on_observe key value now
    else ret tt).

(** ** The passes over the data *)

Definition deref {A} (p : option A) : tx DB A :=
  match p with Some v => ret v | None => throw EPanic end.

(** A threshold rule of the host: both pointers are dereferenced. *)
Definition evaluate_host (r : Rule) (value : option F64) (now : Z) : tx DB unit :=
  match value with
  | None => ret tt
  | Some v =>
      t <- deref (r_Threshold r) ;;
      rt <- deref (r_RecoveryThreshold r) ;;
      evaluate r "host" "server" v (v >? t)%F (v <? rt)%F now
  end.

Definition evaluate_rule (rules : list Rule) (snap : Snapshot) (now : Z) (r : Rule) : tx DB unit :=
  if negb (r_Enabled r) then ret tt
  else if r_Family r =?s FamilyHostCPU then
    if negb (r_ID (effectiveRule rules (r_Family r) "host" "server") =?s r_ID r) then ret tt
    else evaluate_host r (h_CPUPercent (sn_Host snap)) now
  else if r_Family r =?s FamilyHostMemory then
    if negb (r_ID (effectiveRule rules (r_Family r) "host" "server") =?s r_ID r) then ret tt
    else evaluate_host r (h_MemoryPercent (sn_Host snap)) now
  else if r_Family r =?s FamilyDockerDown then
    if negb (r_ID (effectiveRule rules (r_Family r) "server" "docker") =?s r_ID r) then ret tt
    else
      let h := default zero_collector (sn_Collectors snap !! "docker") in
      evaluate r "server" "docker" f64_zero (co_State h =?s CollectorDown)
        (co_State h =?s CollectorHealthy) now
  else ret tt.

(** [... JOIN (SELECT mount_key,MAX(ts) ...)]: the newest sample per mount *)
Definition latest_filesystems (d : DB) : list FsRow :=
  List.filter (fun f => forallb (fun g => negb (fs_mount_key g =?s fs_mount_key f) ||
                                          (fs_ts g <=? fs_ts f)) (db_filesystems d))
    (db_filesystems d).

Definition filesystem_value (family : string) (v : FsRow) : option (option F64) :=
  if (family =?s FamilyFilesystemWarning) || (family =?s FamilyFilesystemCritical)
  then Some (fs_used_pct v)
  else if (family =?s FamilyInodeWarning) || (family =?s FamilyInodeCritical)
  then Some (fs_inodes_used_pct v)
  else None.

Definition evaluate_filesystem (rules : list Rule) (now : Z) (v : FsRow) (rule : Rule)
    : tx DB unit :=
  match r_Enabled rule, r_Threshold rule, r_RecoveryThreshold rule with
  | true, Some t, Some rt =>
      if negb (r_ID (effectiveRule rules (r_Family rule) "filesystem" (fs_mount_key v))
               =?s r_ID rule) then ret tt
      else match filesystem_value (r_Family rule) v with
           | Some (Some value) =>
               evaluate rule "filesystem" (fs_mount_key v) value (value >? t)%F
                 (value <? rt)%F now
           | _ => ret tt
           end
  | _, _, _ => ret tt
  end.

Definition evaluateFilesystems (rules : list Rule) (now : Z) : tx DB unit :=
  observations <- query latest_filesystems ;;
  iter_tx (fun v => iter_tx (evaluate_filesystem rules now v) rules) observations.

(** [SELECT resource_id,COUNT( * ) ... GROUP BY resource_id] *)
Definition count_events (eventType : string) (from : Z) (d : DB) : gmap string Z :=
  fold_left (fun m e =>
    match ev_resource_id e with
    | Some r => if (ev_type e =?s eventType) && (from <=? ev_ts e)
                then <[r := default 0 (m !! r) + 1]> m else m
    | None => m
    end) (db_events d) ∅.

(** [SELECT target_id FROM alert_evaluation_state WHERE rule_id=? AND phase!='healthy'] *)
Definition unhealthy_targets (rule_id : string) (d : DB) : list string :=
  omap (fun kr : string * EvalRow =>
    if (es_rule_id kr.2 =?s rule_id) && bool_decide (es_phase kr.2 <> Healthy)
    then Some (es_target_id kr.2) else None) (map_to_list (db_eval d)).

Definition evaluate_events_rule (now : Z) (rule : Rule) : tx DB unit :=
  match r_Enabled rule, r_Threshold rule with
  | true, Some t =>
      if negb (r_Family rule =?s FamilyRestartStorm) && negb (r_Family rule =?s FamilyOOMLoop)
      then ret tt
      else
        let oom := r_Family rule =?s FamilyOOMLoop in
        let eventType := if oom then "container_oom" else "container_restart" in
        let from := time_unix_milli (time_add now (wrap64 (- r_Window rule))) in
        counts <- query (count_events eventType from) ;;
        iter_tx (fun rc : string * Z =>
          let count := f64_of_Z rc.2 in
          evaluate rule "resource" rc.1 count
            (if oom then count >=? t else count >? t)%F (count <=? f64_zero)%F now)
          (range_map counts) ;;;
        targets <- query (unhealthy_targets (r_ID rule)) ;;
        iter_tx (fun resource => evaluate rule "resource" resource f64_zero false true now)
          (List.filter (fun r => negb (bool_decide (is_Some (counts !! r)))) targets)
  | _, _ => ret tt
  end.

Definition evaluateEvents (rules : list Rule) (now : Z) : tx DB unit :=
  iter_tx (evaluate_events_rule now) rules.

Definition event_le_desc (a b : EventRow) : bool :=
  (ev_ts b <? ev_ts a) || ((ev_ts a =? ev_ts b) && String.leb (ev_id b) (ev_id a)).

Definition evaluatePersistence (rules : list Rule) (now : Z) : tx DB unit :=
  let rule := effectiveRule rules FamilyPersistence "server" "persistence" in
  if r_ID rule =?s "" then ret tt
  else
    found <- catch_norows (query_row (fun d => ev_type <$>
      head (sql_order_by event_le_desc (List.filter (fun e => str_in (ev_type e)
        ["persistence_emergency"; "persistence_degraded"; "persistence_resumed"])
        (db_events d))))) ;;
    match found with
    | None => ret tt
    | Some t =>
        evaluate rule "server" "persistence" f64_zero
          ((t =?s "persistence_emergency") || (t =?s "persistence_degraded"))
          (t =?s "persistence_resumed") now
    end.

(** [INSERT INTO deployment_grace_periods ... ON CONFLICT(resource_id) DO UPDATE] *)
Definition upsert_grace (resource : string) (g : GraceRow) (d : DB) : gerr + (unit * DB) :=
  guard_c (resource_exists resource d) "FOREIGN KEY"
  (guard_c (gr_starts_at g <? gr_ends_at g) "ends_at"
  (guard_c (str_in (gr_confidence g) ["confirmed"; "likely"]) "confidence"
  (inr (tt, set_grace (<[resource := g]> (db_grace d)) d)))).

Definition deployment_types : list string :=
  ["deployment"; "deployment_likely"; "container_replacement"].

(** [SELECT resource_id,MAX(ts),CASE WHEN MAX(...)...] per resource *)
Definition recent_deployments (from : Z) (d : DB) : gmap string (Z * bool) :=
  fold_left (fun m e =>
    match ev_resource_id e with
    | Some r =>
        if str_in (ev_type e) deployment_types && (from <=? ev_ts e) then
          let '(ms, confirmed) := default (ev_ts e, false) (m !! r) in
          <[r := (Z.max ms (ev_ts e), confirmed || (ev_type e =?s "deployment"))]> m
        else m
    | None => m
    end) (db_events d) ∅.

Definition DeploymentGrace (resource confidence : string) (at_ : Z) : tx DB unit :=
  if negb (confidence =?s "confirmed") && negb (confidence =?s "likely")
  then throw (EMsg "invalid deployment confidence")
  else exec (upsert_grace resource
         (mkGraceRow (time_unix at_) (time_unix (time_add at_ (5 * Minute))) confidence)).

Definition correlateDeployments (now : Z) : tx DB unit :=
  deployments <- query (recent_deployments (time_unix_milli (time_add now (- (10 * Minute))))) ;;
  iter_tx (fun rd : string * (Z * bool) =>
    let at_ := of_unix_milli rd.2.1 in
    exec (upsert_grace rd.1 (mkGraceRow (time_unix at_) (time_unix (time_add at_ (5 * Minute)))
      (if rd.2.2 then "confirmed" else "likely")))) (range_map deployments).

Record CheckObservation := mkCheckObservation {
  oc_resource : string; oc_required : bool; oc_status : string; oc_successes : Z;
}.

Definition check_observations (d : DB) : list CheckObservation :=
  map (fun c =>
    match db_check_state d !! ck_id c with
    | Some s => mkCheckObservation (ck_resource_id c) (ck_required c) (cs_status s) (cs_successes s)
    | None => mkCheckObservation (ck_resource_id c) (ck_required c) "unknown" 0
    end) (List.filter ck_enabled (db_checks d)).

Definition evaluate_check (rules : list Rule) (now : Z) (v : CheckObservation) : tx DB unit :=
  let family := if oc_required v then FamilyRequiredCheck else FamilyOptionalCheck in
  let rule := effectiveRule rules family "resource" (oc_resource v) in
  if r_ID rule =?s "" then ret tt
  else
    let rule := if 2 <=? oc_successes v then with_recovery 0 rule else rule in
    evaluate rule "resource" (oc_resource v) f64_zero (oc_status v =?s "failure")
      (oc_status v =?s "success") now.

Definition evaluateChecks (rules : list Rule) (now : Z) : tx DB unit :=
  observations <- query check_observations ;;
  iter_tx (evaluate_check rules now) observations.

Definition Evaluate (snap : Snapshot) (now : Z) : tx DB unit :=
  rules <- Rules ;;
  Cleanup now ;;;
  iter_tx (evaluate_rule rules snap now) rules ;;;
  evaluateFilesystems rules now ;;;
  evaluateEvents rules now ;;;
  evaluatePersistence rules now ;;;
  correlateDeployments now ;;;
  evaluateChecks rules now.
End evaluator.
