(* ===== verification/AlertInvariants.v ===== *)
(** * What alert evaluation guarantees

    The lifecycle state in the database and the alert rows agree, through
    every evaluation pass and every engine failure; an evaluation performs
    exactly one [Advance] on its key; and what the event log's primary key
    does to resolutions. *)

From stdpp Require Import base tactics list gmap strings.
From Stdlib Require Import ZArith Lia.
From S2P Require Import Prelude Float64 Db Metrics AlertState Schema AlertRepository AlertEvaluator.

Section invariants.
Context `{Rand} `{MapOrder} (sink : option IncidentSink).
Context {sink_ok : forall s, sink = Some s -> SinkFrame s}.

(** ** The branches of an evaluation *)

Definition suppressed_in (rule : Rule) (target : string) (now : Z) (d : DB) : bool :=
  (0 <? sql_count (silence_active (time_unix now) rule target d) (db_silences d)) ||
  (r_SuppressDuringDeployment rule &&
   match db_grace d !! target with
   | Some g => (gr_starts_at g <=? time_unix now) && (time_unix now <? gr_ends_at g)
   | None => false
   end).

Lemma suppressedTx_runs d rule target now (Q : bool -> DB -> Prop) :
  Q (suppressed_in rule target now d) d -> runs d (suppressedTx rule target now) Q.
Proof.
  intros HQ. unfold suppressedTx, suppressed_in in *. apply runs_bind, runs_query.
  destruct (0 <? _); cbn in HQ; [by apply runs_ret|].
  destruct (r_SuppressDuringDeployment rule); cbn in HQ; [by apply runs_query|by apply runs_ret].
Qed.

Lemma with_sink_runs d (f : IncidentSink -> tx DB unit) (Q : unit -> DB -> Prop) :
  (forall s, SinkFrame s -> preserves (fun d' => alert_view d' = alert_view d) (f s)) ->
  (forall d', alert_view d' = alert_view d -> Q tt d') ->
  runs d (with_sink sink f) Q.
Proof.
  intros Hf HQ. unfold with_sink. destruct sink as [s|] eqn:E; [|by apply runs_ret, HQ].
  eapply runs_mono; [by apply runs_preserves; [apply Hf, sink_ok|]|].
  intros [] d' Hd'. by apply HQ.
Qed.

(** The event that an evaluation logs *)
Definition alert_event (id : string) (rule : Rule) (target eventType : string) (now : Z) : EventRow :=
  mkEventRow ("alert-" +:+ id) (time_unix_milli now) (nullableTarget target) eventType (r_Severity rule) (message rule target)
    (dedup (r_Family rule) target) "alerts" (time_unix_milli now).

Definition trigger_effect (rule : Rule) (targetType target : string) (value : F64) (now : Z)
    (d d' : DB) : Prop :=
  exists id,
    db_alerts d' = db_alerts d ++ [mkAlertRow id (dedup (r_Family rule) target) (r_ID rule)
      (r_Family rule) (r_Severity rule) targetType target "firing" (time_unix now) None
      (time_unix now) (sql_real value) (message rule target)] /\
    (forall a, In a (db_alerts d) -> al_id a <> id) /\
    db_events d' = db_events d ++ [alert_event id rule target "alert_triggered" now].

Definition resolve_effect (rule : Rule) (target : string) (now : Z) (d d' : DB) : Prop :=
  match sql_latest (firing_for (dedup (r_Family rule) target)) al_started_at (db_alerts d) with
  | None => db_alerts d' = db_alerts d /\ db_events d' = db_events d
  | Some a =>
      db_alerts d' = sql_update (fun b => al_id b =?s al_id a) (resolve_row (time_unix now))
        (db_alerts d) /\
      (forall e, In e (db_events d) -> ev_id e <> "alert-" +:+ al_id a) /\
      db_events d' = db_events d ++ [alert_event (al_id a) rule target "alert_resolved" now]
  end.

(** An inserted event. *)
Lemma insertEvent_runs d id rule target ty now (Q : unit -> DB -> Prop) :
  (forall d', db_events d' = db_events d ++ [alert_event id rule target ty now] ->
    (forall e', In e' (db_events d) -> ev_id e' <> "alert-" +:+ id) ->
    db_alerts d' = db_alerts d -> db_eval d' = db_eval d -> Q tt d') ->
  runs d (insertEvent id rule target ty now) Q.
Proof.
  intros HQ. unfold insertEvent. sym. match goal with E : put _ _ _ = inr _ |- _ => rename E into Hi end.
  sql_inv Hi. apply insert_pk_inv in Hi as [-> Hne]. destruct a. eapply HQ; [|exact Hne|..]; reflexivity.
Qed.

Lemma on_trigger_runs d rule targetType target value now :
  runs d (on_trigger sink rule targetType target value now) (fun _ d' =>
    trigger_effect rule targetType target value now d d' /\ db_eval d' = db_eval d).
Proof.
  unfold on_trigger. apply runs_bind, runs_rand. intros id.
  apply runs_bind, runs_exec. intros [] d1 Hi. sql_inv Hi. apply insert_pk_inv in Hi as [-> Hne].
  apply runs_bind, with_sink_runs; [intros s Hs; apply fired_frame|].
  intros d2 Hv. apply insertEvent_runs. intros d3 Hevs _ Hal Hev.
  unfold alert_view in Hv. simplify_eq/=. split; [|congruence].
  exists id. split_and!; [congruence|done|congruence].
Qed.

Lemma on_repeat_runs d rule target now :
  runs d (on_repeat rule target now) (fun _ d' =>
    db_alerts d' = db_alerts d /\ db_eval d' = db_eval d /\
    exists id, db_events d' = db_events d ++ [alert_event id rule target "alert_repeated" now]).
Proof.
  unfold on_repeat. apply runs_bind, runs_rand. intros id. apply insertEvent_runs.
  intros d' Hevs _ -> ->. eauto.
Qed.

Lemma on_resolve_runs d rule target now :
  runs d (on_resolve sink rule target now) (fun _ d' =>
    resolve_effect rule target now d d' /\ db_eval d' = db_eval d).
Proof.
  unfold on_resolve, resolve_effect. apply runs_bind, runs_find.
  destruct (sql_latest _ _ _) as [a|]; cbn; [|by apply runs_ret].
  apply runs_bind, runs_exec. intros n d1 [= <- <-].
  apply runs_bind, with_sink_runs; [intros s Hs; apply resolved_frame|].
  intros d2 Hv. apply insertEvent_runs. intros d3 Hevs Hne Hal Hev.
  unfold alert_view in Hv. simplify_eq/=. split; [|congruence].
  split_and!; [congruence|intros e' He'; apply Hne; congruence|congruence].
Qed.

(** ** One evaluation *)

Definition transition_of (rule : Rule) (target : string) (failing recovered : bool) (now : Z)
    (d : DB) : Transition :=
  Advance now (load_state now (db_eval d !! dedup (r_Family rule) target)) failing recovered
    (suppressed_in rule target now d) rule.

(** The stored form of a lifecycle state. *)
Definition stores (row : EvalRow) (s : State) : Prop :=
  es_phase row = s_Phase s /\ es_phase_since row = time_unix (s_Since s) /\
  es_last_notified_at row = timePtr (s_LastNotifiedAt s) /\
  es_cooldown_until row = timePtr (s_CooldownUntil s).

Definition evaluated (rule : Rule) (targetType target : string) (value : F64)
    (failing recovered : bool) (now : Z) (d d' : DB) : Prop :=
  let key := dedup (r_Family rule) target in
  let tr := transition_of rule target failing recovered now d in
  (exists row, db_eval d' = <[key := row]> (db_eval d) /\ stores row (t_State tr)) /\
  if t_Triggered tr then trigger_effect rule targetType target value now d d'
  else if t_Repeated tr then
    db_alerts d' = db_alerts d /\ exists id, db_events d' = db_events d ++ [alert_event id rule target "alert_repeated" now]
  else if t_Resolved tr then resolve_effect rule target now d d'
  else if active (load_state now (db_eval d !! key)) then
    db_alerts d' = sql_update (firing_for key) (observe_row (time_unix now) value) (db_alerts d) /\
    db_events d' = db_events d
  else db_alerts d' = db_alerts d /\ db_events d' = db_events d.

Lemma upsert_eval_inr key row d u d' :
  upsert_eval key row d = inr (u, d') ->
  exists row', d' = set_eval (<[key := row']> (db_eval d)) d /\ es_phase row' = es_phase row /\
    es_phase_since row' = es_phase_since row /\
    es_last_notified_at row' = es_last_notified_at row /\
    es_cooldown_until row' = es_cooldown_until row.
Proof.
  unfold upsert_eval. intros Hi. sql_inv Hi. simplify_eq.
  destruct (db_eval d !! key); eexists; split_and!; reflexivity.
Qed.

Lemma evaluate_triple d rule targetType target value failing recovered now :
  triple (fun d' => d' = d) (evaluate sink rule targetType target value failing recovered now)
    (fun _ d' => evaluated rule targetType target value failing recovered now d d')
    (fun _ d' => d' = d).
Proof.
  unfold evaluate. apply runs_with_tx, runs_bind, runs_find, runs_bind, suppressedTx_runs.
  fold (transition_of rule target failing recovered now d).
  set (tr := transition_of rule target failing recovered now d).
  apply runs_bind, runs_exec. intros u d1 (row & -> & Hrow)%upsert_eval_inr.
  set (d1 := set_eval _ d).
  assert (exists row', db_eval d1 = <[dedup (r_Family rule) target := row']> (db_eval d) /\
            stores row' (t_State tr)) as Hst by (exists row; by split).
  unfold evaluated. fold tr. destruct (t_Triggered tr).
  { eapply runs_mono; [apply on_trigger_runs|]. intros _ d' [Ht ->]. by split. }
  destruct (t_Repeated tr).
  { eapply runs_mono; [apply on_repeat_runs|]. intros _ d' (Ha & -> & He). by split. }
  destruct (t_Resolved tr).
  { eapply runs_mono; [apply on_resolve_runs|]. intros _ d' [Ht ->]. by split. }
  case_match; [|by apply runs_ret; split].
  unfold on_observe. apply runs_bind, runs_exec. intros n d2 [= <- <-]. by apply runs_ret; split.
Qed.

(** ** Whole passes *)

(** A property of the database that evaluations, the retention clean-up and
    deployment correlation keep. *)
Record stable (I : DB -> Prop) : Prop := {
  stable_evaluated : forall rule targetType target value failing recovered now d d',
    I d -> evaluated rule targetType target value failing recovered now d d' -> I d';
  stable_expire : forall cutoff d, I d -> I (delete_alerts (expired_alert cutoff) d);
  stable_silences : forall t d, I d -> I (set_silences t d);
  stable_grace : forall t d, I d -> I (set_grace t d);
}.

Lemma evaluate_preserves I rule targetType target value failing recovered now :
  stable I -> preserves I (evaluate sink rule targetType target value failing recovered now).
Proof.
  intros HI w Hw.
  pose proof (evaluate_triple (w_db w) rule targetType target value failing recovered now w eq_refl)
    as Ht.
  destruct (evaluate _ _ _ _ _ _ _ _ w) as [[e|[]] w']; [by rewrite Ht|].
  by eapply stable_evaluated.
Qed.

Lemma Evaluate_preserves_gen (I : DB -> Prop) snap now :
  (forall rule targetType target value failing recovered now,
    preserves I (evaluate sink rule targetType target value failing recovered now)) ->
  (forall cutoff d, I d -> I (delete_alerts (expired_alert cutoff) d)) ->
  (forall t d, I d -> I (set_silences t d)) -> (forall t d, I d -> I (set_grace t d)) ->
  preserves I (Evaluate sink snap now).
Proof.
  intros He Hx Hs Hg.
  unfold Evaluate, Rules, Cleanup, evaluate_rule, evaluate_host, deref, evaluateFilesystems,
    evaluate_filesystem, evaluateEvents, evaluate_events_rule, evaluatePersistence,
    correlateDeployments, evaluateChecks, evaluate_check, delete_rows.
  frame_auto; try (by apply He).
  all: apply preserves_exec; intros d Hd; cbn; try by auto.
  destruct (upsert_grace _ _ d) as [|[u d']] eqn:E; [done|]. unfold upsert_grace in E.
  sql_inv E. simplify_eq. auto.
Qed.

Lemma Evaluate_preserves I snap now : stable I -> preserves I (Evaluate sink snap now).
Proof.
  intros HI. apply Evaluate_preserves_gen; [|apply HI..].
  intros. by apply evaluate_preserves.
Qed.

(** Every pass of the evaluator, each with its snapshot and instant; errors
    are dropped, as the ticker loop does. *)
Definition evaluator_passes (ticks : list (Snapshot * Z)) : tx DB unit :=
  iter_tx (fun t => ignore (Evaluate sink t.1 t.2)) ticks.

Lemma passes_preserve I ticks : stable I -> preserves I (evaluator_passes ticks).
Proof. intros HI. apply preserves_iter. intros t. by apply preserves_ignore, Evaluate_preserves. Qed.

(** ** What runs between the passes *)

(** The retention run's loop on the [events] table: a failed count ends it, a
    failed deletion is the run's error, and between the batches of an
    aggressive run a cancelled context ends it.  Every batch deletes an event
    at least, so the number of events bounds the rounds. *)
Definition old_event (cutoff : Z) (e : EventRow) : bool := ev_ts e <? cutoff.

Fixpoint expire_events (fuel : nat) (aggressive : bool) (cutoff : Z) (limit : nat) : tx DB unit :=
  match fuel with
  | O => ret tt
  | S fuel =>
      n <- or_default 0 (query (fun d => sql_count (old_event cutoff) (db_events d))) ;;
      if n =? 0 then ret tt
      else
        exec (fun d => inr (tt, set_events (delete_first (old_event cutoff) limit (db_events d)) d)) ;;;
        (if aggressive then query (fun _ => tt) else ret tt) ;;;
        expire_events fuel aggressive cutoff limit
  end.

Definition retain_events (raw now : Z) (aggressive : bool) : tx DB unit := fun w =>
  if raw <=? 0 then (inr tt, w)
  else expire_events (S (length (db_events (w_db w)))) aggressive
         (time_unix_milli (time_add now (- raw))) (if aggressive then 2000 else 500) w.

(** What changes the tables of the evaluator: its own passes, the retention of
    the event log, and the requests that edit rules and silences. *)
Inductive AlertOp :=
  | AEvaluate (snap : Snapshot) (now : Z)
  | ARetainEvents (raw now : Z) (aggressive : bool)
  | ACreateRule (v : Rule)
  | AUpdateRule (v : Rule)
  | ACreateSilence (s : Silence)
  | ADeleteSilence (id : string).

Definition alert_step (op : AlertOp) : tx DB unit :=
  match op with
  | AEvaluate snap now => ignore (Evaluate sink snap now)
  | ARetainEvents raw now aggressive => ignore (retain_events raw now aggressive)
  | ACreateRule v => ignore (CreateRule v)
  | AUpdateRule v => ignore (UpdateRule v)
  | ACreateSilence s => ignore (CreateSilence s)
  | ADeleteSilence id => ignore (DeleteSilence id)
  end.

Definition alert_run (ops : list AlertOp) : tx DB unit := iter_tx alert_step ops.

Lemma expire_events_preserves (I : DB -> Prop) fuel aggressive cutoff limit :
  (forall t d, I d -> I (set_events t d)) -> preserves I (expire_events fuel aggressive cutoff limit).
Proof.
  intros He. induction fuel as [|fuel IH]; cbn [expire_events]; [apply preserves_ret|].
  frame_auto; try done. apply preserves_exec. intros d Hd. cbn. by apply He.
Qed.

Lemma alert_step_preserves (I : DB -> Prop) op :
  (forall snap now, preserves I (Evaluate sink snap now)) ->
  (forall t d, I d -> I (set_events t d)) -> (forall t d, I d -> I (set_rules t d)) ->
  (forall t d, I d -> I (set_silences t d)) -> preserves I (alert_step op).
Proof.
  intros Hp He Hr Hs. destruct op; cbn [alert_step]; apply preserves_ignore; [apply Hp|..].
  - intros w Hw. unfold retain_events. destruct (raw <=? 0); [done|]. by apply expire_events_preserves.
  - unfold CreateRule. frame_auto. apply exec_preserves. intros d u d' Hd E. unfold insert_rule in E.
    sql_inv E. by apply Hr.
  - unfold UpdateRule, update_rows. frame_auto. apply exec_preserves. intros d n d' Hd E. simplify_eq. by apply Hr.
  - unfold CreateSilence. frame_auto. apply exec_preserves. intros d u d' Hd E. unfold insert_silence in E.
    sql_inv E. by apply Hs.
  - unfold DeleteSilence, delete_rows. frame_auto. apply exec_preserves. intros d n d' Hd E. simplify_eq. by apply Hs.
Qed.

(** When storage does not fail, retention leaves exactly the events that are
    not older than the cutoff. *)
Lemma expire_events_exact fuel aggressive cutoff limit d rn ck :
  (0 < limit)%nat -> sql_count (old_event cutoff) (db_events d) < Z.of_nat fuel ->
  expire_events fuel aggressive cutoff limit (World d [] rn ck) =
    (inr tt, World (set_events (sql_delete (old_event cutoff) (db_events d)) d) [] rn ck).
Proof.
  intros Hl. revert d. induction fuel as [|fuel IH]; intros d Hf.
  { pose proof (sql_count_nonneg (old_event cutoff) (db_events d)). lia. }
  cbn [expire_events]. unfold bind at 1.
  assert (or_default 0 (query (fun d => sql_count (old_event cutoff) (db_events d))) (World d [] rn ck) =
    (inr (sql_count (old_event cutoff) (db_events d)), World d [] rn ck)) as -> by reflexivity.
  destruct (sql_count (old_event cutoff) (db_events d) =? 0) eqn:E0.
  { rewrite sql_delete_none by lia. by destruct d. }
  set (d1 := set_events (delete_first (old_event cutoff) limit (db_events d)) d).
  transitivity (expire_events fuel aggressive cutoff limit (World d1 [] rn ck)); [by destruct aggressive|].
  rewrite IH; subst d1; cbn [set_events db_events]; [by rewrite delete_first_rest|].
  rewrite delete_first_count. pose proof (sql_count_nonneg (old_event cutoff) (db_events d)). lia.
Qed.

(** ** Agreement of lifecycle state and alert rows *)

Definition open_count (key : string) (d : DB) : Z := sql_count (firing_for key) (db_alerts d).

Definition phase_open (row : option EvalRow) : bool :=
  match row with
  | Some r => match es_phase r with Firing | Recovering => true | _ => false end
  | None => false
  end.

Record alerts_inv (d : DB) : Prop := {
  inv_ids : NoDup (map al_id (db_alerts d));
  inv_open : forall key, open_count key d = if phase_open (db_eval d !! key) then 1 else 0;
}.

Lemma phase_open_load now row : active (load_state now row) = phase_open row.
Proof. by destruct row as [[]|]. Qed.

Lemma phase_open_stores row s : stores row s -> phase_open (Some row) = active s.
Proof. intros [E _]. unfold phase_open, active. by rewrite E. Qed.

(** What a transition does to "an alert is open". *)
Lemma transition_active rule target failing recovered now d :
  let row := db_eval d !! dedup (r_Family rule) target in
  let tr := transition_of rule target failing recovered now d in
  if t_Triggered tr then phase_open row = false /\ active (t_State tr) = true
  else if t_Repeated tr then phase_open row = true /\ active (t_State tr) = true
  else if t_Resolved tr then phase_open row = true /\ active (t_State tr) = false
  else active (t_State tr) = phase_open row.
Proof.
  cbn zeta. rewrite <- (phase_open_load now).
  apply (advance_flags rule (load_state now (db_eval d !! dedup (r_Family rule) target))
           (mkObs now failing recovered (suppressed_in rule target now d))).
Qed.

Lemma firing_for_resolved key t a : firing_for key (resolve_row t a) = false.
Proof. unfold firing_for. cbn. by rewrite andb_false_r. Qed.

Lemma open_key_ne key key' a :
  firing_for key a = true -> key' <> key -> firing_for key' a = false.
Proof.
  unfold firing_for. intros [->%String.eqb_eq _]%andb_true_iff Hne.
  by rewrite (proj2 (String.eqb_neq _ _)) by congruence.
Qed.

(** A resolution closes the one open alert of its key and no other. *)
Lemma resolve_open_count rule target now d d' key' :
  let key := dedup (r_Family rule) target in
  NoDup (map al_id (db_alerts d)) -> open_count key d = 1 -> resolve_effect rule target now d d' ->
  open_count key' d' = if decide (key' = key) then 0 else open_count key' d.
Proof.
  cbv zeta. unfold open_count, resolve_effect. set (key := dedup _ _). intros Hnd Hone.
  destruct (sql_latest _ _ _) as [a|] eqn:El.
  - apply sql_latest_some in El as (Hin & Hp & _). intros (-> & _ & _).
    case_decide as Hk; [subst key'|].
    + rewrite sql_count_update_one by (auto using firing_for_resolved). lia.
    + apply sql_count_update. intros r Hr Hid%String.eqb_eq. rewrite firing_for_resolved.
      assert (r = a) as -> by (by eapply nodup_key_inj).
      symmetry. by eapply open_key_ne.
  - pose proof (proj2 (sql_count_zero _ _) (sql_latest_none _ _ _ El)). lia.
Qed.

Lemma trigger_open_count rule targetType target value now d d' key :
  trigger_effect rule targetType target value now d d' ->
  open_count key d' =
    (if decide (key = dedup (r_Family rule) target) then 1 else 0) + open_count key d.
Proof.
  intros (id & Ha & _). unfold open_count. rewrite Ha, sql_count_app, sql_count_cons.
  unfold firing_for at 2. cbn. rewrite andb_true_r. change (sql_count _ []) with 0.
  case_decide as Hk; [subst; rewrite String.eqb_refl; lia|].
  rewrite (proj2 (String.eqb_neq _ _)) by congruence. lia.
Qed.

Lemma evaluated_ids rule targetType target value failing recovered now d d' :
  evaluated rule targetType target value failing recovered now d d' ->
  NoDup (map al_id (db_alerts d)) -> NoDup (map al_id (db_alerts d')).
Proof.
  intros [_ Heff] Hnd. repeat case_match.
  - destruct Heff as (id & -> & Hne & _). rewrite map_app. apply NoDup_app. split_and!; [done| |].
    + intros x (a & -> & Ha)%list_elem_of_fmap Hx. apply list_elem_of_singleton in Hx.
      apply (Hne a); [by apply list_elem_of_In|done].
    + apply NoDup_singleton.
  - by destruct Heff as [-> _].
  - unfold resolve_effect in Heff. destruct (sql_latest _ _ _); destruct Heff as [-> _]; [|done].
    by rewrite sql_update_map.
  - destruct Heff as [-> _]. by rewrite sql_update_map.
  - by destruct Heff as [-> _].
Qed.

Lemma evaluated_open rule targetType target value failing recovered now d d' key :
  alerts_inv d -> evaluated rule targetType target value failing recovered now d d' ->
  open_count key d' = if phase_open (db_eval d' !! key) then 1 else 0.
Proof.
  intros [Hnd Hopen] [(row & Hrow & Hst) Heff].
  pose proof (transition_active rule target failing recovered now d) as Htr. cbn zeta in Htr.
  pose proof (Hopen (dedup (r_Family rule) target)) as Hkey.
  set (tr := transition_of _ _ _ _ _ _) in *. set (k := dedup _ _) in *.
  assert (phase_open (db_eval d' !! key) =
    if decide (key = k) then active (t_State tr) else phase_open (db_eval d !! key)) as ->.
  { rewrite Hrow. case_decide; [subst; rewrite lookup_insert_eq; by apply phase_open_stores|].
    by rewrite lookup_insert_ne. }
  assert (db_alerts d' = db_alerts d \/ db_alerts d' =
    sql_update (firing_for k) (observe_row (time_unix now) value) (db_alerts d) ->
    open_count key d' = open_count key d) as Hsame.
  { unfold open_count. intros [-> | ->]; [done|]. by apply sql_count_update. }
  destruct (t_Triggered tr); [|destruct (t_Repeated tr); [|destruct (t_Resolved tr)]].
  - destruct Htr as [Hc ->]. rewrite (trigger_open_count _ _ _ _ _ _ _ _ Heff). fold k.
    case_decide; [subst; rewrite Hkey, Hc; done|apply Hopen].
  - destruct Htr as [Hc ->]. rewrite Hsame by (left; apply Heff).
    case_decide; [subst; by rewrite Hkey, Hc|apply Hopen].
  - destruct Htr as [Hc ->]. rewrite Hc in Hkey.
    rewrite (resolve_open_count _ _ _ _ _ _ Hnd Hkey Heff). fold k. case_decide; [done|apply Hopen].
  - rewrite Htr, Hsame by (destruct (active _); destruct Heff; auto).
    case_decide; [subst|]; apply Hopen.
Qed.

Lemma alerts_inv_stable : stable alerts_inv.
Proof.
  split.
  - intros * Hd He. split; [eapply evaluated_ids; [done|apply Hd]|]. intros key.
    by eapply evaluated_open.
  - intros cutoff d [Hnd Hopen]. split; cbn.
    + by apply nodup_map_delete.
    + intros key. rewrite <- Hopen. apply sql_count_delete.
      intros a _. unfold expired_alert, firing_for.
      intros [->%String.eqb_eq _]%andb_true_iff. by rewrite andb_false_r.
  - intros t d [Hnd Hopen]. by split.
  - intros t d [Hnd Hopen]. by split.
Qed.

Lemma alert_run_inv ops : preserves alerts_inv (alert_run ops).
Proof.
  apply preserves_iter. intros op. apply alert_step_preserves.
  - intros snap now. apply Evaluate_preserves, alerts_inv_stable.
  - intros t d [Hnd Hopen]. by split.
  - intros t d [Hnd Hopen]. by split.
  - apply alerts_inv_stable.
Qed.

(** ** The event log and resolutions *)

(** Every firing alert has its [alert_triggered] event, and nothing has been
    resolved. *)
Record unresolved (d : DB) : Prop := {
  un_firing : forall a, In a (db_alerts d) -> al_status a = "firing";
  un_logged : forall a, In a (db_alerts d) ->
    exists e, In e (db_events d) /\ ev_id e = "alert-" +:+ al_id a;
}.

Lemma unresolved_append d d' evs :
  unresolved d -> db_alerts d' = db_alerts d -> db_events d' = db_events d ++ evs -> unresolved d'.
Proof.
  intros [Hf Hl] Ha He. split; rewrite Ha; [done|]. intros a Hin.
  destruct (Hl a Hin) as (e & Hin' & Hid). exists e. rewrite He. split; [|done].
  apply in_app_iff. auto.
Qed.

Lemma unresolved_evaluated rule targetType target value failing recovered now d d' :
  unresolved d -> evaluated rule targetType target value failing recovered now d d' ->
  unresolved d'.
Proof.
  intros Hun [_ Heff]. pose proof Hun as [Hf Hl]. repeat case_match.
  - destruct Heff as (id & Ha & _ & He). split; rewrite Ha; intros a [Hin|[<-|[]]]%in_app_iff.
    + auto.
    + done.
    + destruct (Hl a Hin) as (e' & ? & ?). exists e'. rewrite He, in_app_iff. auto.
    + eexists. rewrite He, in_app_iff. cbn. split; [by right; left|done].
  - destruct Heff as (Ha & e & He). by eapply unresolved_append.
  - unfold resolve_effect in Heff. destruct (sql_latest _ _ _) as [a|] eqn:El.
    + apply sql_latest_some in El as (Hin & _). destruct Heff as (_ & Hfresh & _).
      destruct (Hl a Hin) as (e & He & Hid). by destruct (Hfresh e He).
    + destruct Heff as [Ha He]. eapply (unresolved_append _ _ []); rewrite ?app_nil_r; eauto.
  - destruct Heff as [Ha He]. split; rewrite Ha; intros a (a0 & Hin & ->)%in_sql_update.
    + destruct (firing_for _ a0); cbn; auto.
    + rewrite He. destruct (firing_for _ a0); cbn; auto.
  - destruct Heff as [Ha He]. eapply (unresolved_append _ _ []); rewrite ?app_nil_r; eauto.
Qed.

Lemma unresolved_stable : stable unresolved.
Proof.
  split.
  - intros * Hd He. by eapply unresolved_evaluated.
  - intros cutoff d [Hf Hl]. split; cbn; intros a [Hin _]%in_sql_delete; auto.
  - intros t d [Hf Hl]. by split.
  - intros t d [Hf Hl]. by split.
Qed.

(** ** Properties *)

(** C2 (refinement): an evaluation is one lifecycle step, all or nothing.  Whatever
    statements fail on the way, [evaluate] either returns an error and leaves
    the database as it was, or it stores under the rule's dedup key the
    [Advance] of the state stored there (with the suppression the silences
    and deployment grace periods give), touches no other key's state, and
    makes exactly the alert and event rows change that the transition calls
    for: a new firing alert and its event on a trigger, an event on a
    reminder, the open alert resolved with an event on a resolution, a
    refreshed observation otherwise. *)
Theorem evaluation_refines_lifecycle (rule : Rule) (targetType target : string) (value : F64)
    (failing recovered : bool) (now : Z) (w : world DB) :
  let '(r, w') := evaluate sink rule targetType target value failing recovered now w in
  match r with
  | inl _ => w_db w' = w_db w
  | inr _ => evaluated rule targetType target value failing recovered now (w_db w) (w_db w')
  end.
Proof.
  pose proof (evaluate_triple (w_db w) rule targetType target value failing recovered now w eq_refl).
  by destruct (evaluate _ _ _ _ _ _ _ _ w) as [[e|[]] w'].
Qed.

(** C22 (invariant): one open alert per key, exactly while the lifecycle says so.
    From a database without alerts, after any sequence of evaluation passes
    over any snapshots, at any instants, with retention runs on the event log
    and edits of rules and silences between them, and with any statement
    failing anywhere, a dedup key has one firing alert row when its stored
    phase is firing or recovering and none otherwise: an alert that resolves
    is closed, and can open again. *)
Theorem one_open_alert (ops : list AlertOp) (w : world DB) (key : string) :
  db_alerts (w_db w) = [] -> db_eval (w_db w) = ∅ ->
  let d := w_db (alert_run ops w).2 in
  sql_count (firing_for key) (db_alerts d) = if phase_open (db_eval d !! key) then 1 else 0.
Proof.
  intros Ha He. cbn.
  assert (alerts_inv (w_db w)) as Hw.
  { split; [rewrite Ha; constructor|]. intros k. unfold open_count. by rewrite Ha, He, lookup_empty. }
  pose proof (alert_run_inv ops w Hw) as Hp.
  destruct (alert_run ops w) as [[e|u] w']; apply Hp.
Qed.

(** Alerts do not resolve by evaluation alone.  The trigger and the resolution of an
    alert insert an event under the same primary key, so while the trigger's
    event is in the log the resolving transaction is refused and rolled back:
    from a database without alerts, no sequence of evaluation passes resolves
    one until retention has taken the trigger's event. *)
Theorem alerts_never_resolve (ticks : list (Snapshot * Z)) (w : world DB) :
  db_alerts (w_db w) = [] ->
  forall a, In a (db_alerts (w_db (evaluator_passes ticks w).2)) -> al_status a = "firing".
Proof.
  intros Ha.
  assert (unresolved (w_db w)) as Hw by (split; rewrite Ha; by intros a []).
  pose proof (passes_preserve _ ticks unresolved_stable w Hw) as Hp.
  destruct (evaluator_passes ticks w) as [[e|u] w']; apply Hp.
Qed.
End invariants.

(** ** Example runs *)

Definition no_sink_ok : forall s, None = Some s -> SinkFrame s := fun s (H : None = Some s) =>
  match H with end.

(** A host at the given CPU load, in percent. *)
Definition host_snapshot (cpu : Z) : Snapshot :=
  mkSnapshot 1 0 "" (mkHost 0 (Some (f64_of_Z cpu)) None None None None None None None None None
    None None None None None None None None None None None None None None None None None None
    None None None None) [] ∅.

Definition cpu_world : world DB :=
  World (set_rules [mkRuleRow "cpu" FamilyHostCPU "CPU" true true "warning" "global" ""
    (Some (f64_of_Z 90)) (Some (f64_of_Z 80)) 120 60 0 300 7200 false 0 0] empty_db) [] 0 [].

(** Busy for three minutes, then idle for three. *)
Definition cpu_ticks : list (Snapshot * Z) :=
  map (fun m => (host_snapshot (if m <? 4 then 99 else 10), m * Minute)) [1; 2; 3; 4; 5; 6].

(** The first observation of a busy processor: the rule's debounce starts. *)
Lemma evaluation_refines_lifecycle_witness :
  let rule := (default (scan_rule (mkRuleRow "" "" "" false false "" "" "" None None 0 0 0 0 0 false 0 0))
                 (head (map scan_rule (db_rules (w_db cpu_world))))) in
  let '(r, w') := evaluate None rule "server" "server" (f64_of_Z 99) true false Minute cpu_world in
  r = inr tt /\
  evaluated rule "server" "server" (f64_of_Z 99) true false Minute (w_db cpu_world) (w_db w').
Proof.
  set (rule := default _ _).
  pose proof (evaluation_refines_lifecycle (sink_ok := no_sink_ok) None rule "server" "server"
                (f64_of_Z 99) true false Minute cpu_world) as E.
  assert ((evaluate None rule "server" "server" (f64_of_Z 99) true false Minute cpu_world).1 = inr tt)
    as Hr by (vm_compute; reflexivity).
  cbv zeta in *. destruct (evaluate _ _ _ _ _ _ _ _ cpu_world) as [r w']. cbn in Hr. subst r.
  exact (conj eq_refl E).
Defined.

(** Busy for three minutes, then idle: the alert stays open until the event
    log's retention has taken its trigger event, then resolves. *)
Definition cpu_operations : list AlertOp :=
  map (fun t => AEvaluate t.1 t.2) cpu_ticks ++
  [ARetainEvents (2 * Minute) (7 * Minute) false; AEvaluate (host_snapshot 10) (8 * Minute)].

Lemma one_open_alert_witness :
  let key := dedup FamilyHostCPU "server" in
  let before := w_db (alert_run None (map (fun t => AEvaluate t.1 t.2) cpu_ticks) cpu_world).2 in
  let d := w_db (alert_run None cpu_operations cpu_world).2 in
  sql_count (firing_for key) (db_alerts before) = 1 /\ phase_open (db_eval before !! key) = true /\
  map al_status (db_alerts d) = ["resolved"] /\ phase_open (db_eval d !! key) = false /\
  sql_count (firing_for key) (db_alerts d) = if phase_open (db_eval d !! key) then 1 else 0.
Proof.
  split_and!; [by vm_compute..|].
  exact (one_open_alert (sink_ok := no_sink_ok) None cpu_operations cpu_world
           (dedup FamilyHostCPU "server") eq_refl eq_refl).
Defined.

Lemma alerts_never_resolve_witness :
  map al_status (db_alerts (w_db (evaluator_passes None cpu_ticks cpu_world).2)) = ["firing"] /\
  forall a, In a (db_alerts (w_db (evaluator_passes None cpu_ticks cpu_world).2)) ->
    al_status a = "firing".
Proof.
  split; [by vm_compute|].
  exact (alerts_never_resolve (sink_ok := no_sink_ok) None cpu_ticks cpu_world eq_refl).
Defined.
