(* ===== verification/Incidents.v ===== *)
(** * Incidents and their deliveries

    [internal/notifications/repository.go]: alerts are grouped into
    incidents, and every change of an incident is queued for the channels
    that want it.  [AlertFiredTx] and [AlertResolvedTx] run inside the
    transaction of the alert transition; this file provides the incident
    sink the evaluator is proved against. *)

From stdpp Require Import base tactics list gmap strings pretty.
From Stdlib Require Import ZArith Lia.
From S2P Require Import Prelude Float64 Db AlertState Schema AlertRepository.

(** ** Row updates *)

Definition inc_set_severity (sev : string) (now : Z) (i : IncidentRow) : IncidentRow :=
  mkIncidentRow (in_id i) (in_group_key i) (in_status i) sev (in_target_type i) (in_target_id i)
    (in_title i) (in_opened_at i) now (in_resolved_at i) (in_version i + 1) (in_next_reminder_at i).
Definition inc_resolve (now : Z) (i : IncidentRow) : IncidentRow :=
  mkIncidentRow (in_id i) (in_group_key i) "resolved" (in_severity i) (in_target_type i)
    (in_target_id i) (in_title i) (in_opened_at i) now (Some now) (in_version i + 1) None.
Definition inc_set_opened (t : Z) (i : IncidentRow) : IncidentRow :=
  mkIncidentRow (in_id i) (in_group_key i) (in_status i) (in_severity i) (in_target_type i)
    (in_target_id i) (in_title i) (Z.min (in_opened_at i) t) (in_updated_at i) (in_resolved_at i)
    (in_version i) (in_next_reminder_at i).
Definition inc_set_reminder (t : Z) (i : IncidentRow) : IncidentRow :=
  mkIncidentRow (in_id i) (in_group_key i) (in_status i) (in_severity i) (in_target_type i)
    (in_target_id i) (in_title i) (in_opened_at i) (in_updated_at i) (in_resolved_at i)
    (in_version i) (Some t).
Definition mem_resolve (now : Z) (m : MemberRow) : MemberRow :=
  mkMemberRow (im_incident_id m) (im_alert_id m) (im_joined_at m) (Some now).

Definition del_cancel (now : Z) (d : DeliveryRow) : DeliveryRow :=
  mkDeliveryRow (de_id d) (de_channel_id d) (de_incident_id d) (de_event_type d) (de_payload d)
    (de_idempotency_key d) "cancelled" (de_attempt_count d) None (de_started_at d) (Some now)
    (de_failure_code d) (de_created_at d) now.
Definition del_refresh (payload : Payload) (due now : Z) (d : DeliveryRow) : DeliveryRow :=
  mkDeliveryRow (de_id d) (de_channel_id d) (de_incident_id d) (de_event_type d) payload
    (de_idempotency_key d) (de_status d) (de_attempt_count d) (Some due) (de_started_at d)
    (de_completed_at d) (de_failure_code d) (de_created_at d) now.
Definition del_retry (now : Z) (d : DeliveryRow) : DeliveryRow :=
  mkDeliveryRow (de_id d) (de_channel_id d) (de_incident_id d) (de_event_type d) (de_payload d)
    (de_idempotency_key d) "pending" 0 (Some now) None None None (de_created_at d) now.
Definition del_orphan (d : DeliveryRow) : DeliveryRow :=
  mkDeliveryRow (de_id d) (de_channel_id d) None (de_event_type d) (de_payload d)
    (de_idempotency_key d) (de_status d) (de_attempt_count d) (de_next_attempt_at d)
    (de_started_at d) (de_completed_at d) (de_failure_code d) (de_created_at d) (de_updated_at d).

Definition of_incident (incidentID : string) (d : DeliveryRow) : bool :=
  match de_incident_id d with Some i => i =?s incidentID | None => false end.

(** ** Constrained inserts *)

(** [INSERT INTO incidents]: at most one open incident per group. *)
Definition insert_incident (i : IncidentRow) (d : DB) : gerr + (unit * DB) :=
  guard_c (str_in (in_severity i) ["warning"; "critical"]) "severity"
  (guard_c (negb (sql_exists (fun j => (in_group_key j =?s in_group_key i) &&
      (in_status j =?s "open") && (in_status i =?s "open")) (db_incidents d))) "UNIQUE"
  (put set_incidents (insert_pk in_id i (db_incidents d)) d)).

(** [INSERT INTO incident_alerts]: both ends exist, and an alert belongs to
    one incident. *)
Definition insert_member (m : MemberRow) (d : DB) : gerr + (unit * DB) :=
  guard_c (sql_exists (fun i => in_id i =?s im_incident_id m) (db_incidents d)) "FOREIGN KEY"
  (guard_c (sql_exists (fun a => al_id a =?s im_alert_id m) (db_alerts d)) "FOREIGN KEY"
  (guard_c (negb (sql_exists (fun m' => im_alert_id m' =?s im_alert_id m) (db_members d))) "UNIQUE"
  (inr (tt, set_members (db_members d ++ [m]) d)))).

Definition event_types : list string := ["opened"; "updated"; "reminder"; "resolved"; "test"].

(** [INSERT INTO notification_deliveries] *)
Definition insert_delivery (r : DeliveryRow) (d : DB) : gerr + (unit * DB) :=
  guard_c (sql_exists (fun c => cn_id c =?s de_channel_id r) (db_channels d)) "FOREIGN KEY"
  (guard_c (match de_incident_id r with
            | Some i => sql_exists (fun j => in_id j =?s i) (db_incidents d)
            | None => true
            end) "FOREIGN KEY"
  (guard_c (str_in (de_event_type r) event_types) "event_type"
  (guard_c (negb (sql_exists (fun r' => de_idempotency_key r' =?s de_idempotency_key r)
      (db_deliveries d))) "UNIQUE"
  (put set_deliveries (insert_pk de_id r (db_deliveries d)) d)))).

Section repository.
Context `{Rand}.

Definition newID (prefix : string) : tx DB string :=
  h <- rand_id ;; ret (prefix +:+ h).

Definition groupFor (a : Alert) : string * string * string :=
  if (a_Family a =?s FamilyDockerDown) || (a_Family a =?s FamilyPersistence) then
    ("subsystem:" +:+ a_TargetID a, "subsystem", a_TargetID a)
  else if (a_Family a =?s FamilyHostCPU) || (a_Family a =?s FamilyHostMemory) then
    ("host:server", "host", "server")
  else if (a_TargetType a =?s "resource") || (a_TargetType a =?s "check") then
    ("resource:" +:+ a_TargetID a, "resource", a_TargetID a)
  else if a_TargetType a =?s "filesystem" then
    ("filesystem:" +:+ a_TargetID a, "filesystem", a_TargetID a)
  else if a_TargetType a =?s "host" then ("host:server", "host", "server")
  else ("resource:" +:+ a_TargetID a, a_TargetType a, a_TargetID a).

(** ** Payloads *)

(** [incident_alerts ia JOIN alerts a ON a.id=ia.alert_id WHERE ia.incident_id=?] *)
Definition members_of (incidentID : string) (d : DB) : list AlertRow :=
  omap (fun m => if im_incident_id m =?s incidentID
                 then sql_find (fun a => al_id a =?s im_alert_id m) (db_alerts d) else None)
    (db_members d).

Definition is_firing (a : AlertRow) : bool := al_status a =?s "firing".

Definition scan_member (a : AlertRow) : MemberAlert :=
  mkMemberAlert (al_id a) (al_family a) (al_severity a) (al_status a) (al_message a)
    (of_unix (al_started_at a)) (of_unix <$> al_resolved_at a).

Definition scan_incident (i : IncidentRow) (members : list AlertRow) (alerts : list MemberAlert)
    : Incident :=
  mkIncident (in_id i) (in_group_key i) (in_status i) (in_severity i) (in_target_type i)
    (in_target_id i) (in_title i) (Z.of_nat (length members)) (sql_count is_firing members)
    (of_unix (in_opened_at i)) (of_unix (in_updated_at i)) (of_unix <$> in_resolved_at i)
    (in_version i) alerts.

(** The counts are read with the error dropped: on a failure they stay 0. *)
Definition zero_counts (i : Incident) : Incident :=
  mkIncident (i_ID i) (i_GroupKey i) (i_Status i) (i_Severity i) (i_TargetType i) (i_TargetID i)
    (i_Title i) 0 0 (i_OpenedAt i) (i_UpdatedAt i) (i_ResolvedAt i) (i_Version i) (i_Alerts i).

Definition payloadTx (deliveryID key incidentID eventType : string) : tx DB Payload :=
  i <- query_row (fun d => sql_find (fun i => in_id i =?s incidentID) (db_incidents d)) ;;
  alerts <- query (fun d => map scan_member
    (sql_limit 20 0 (sql_order_by (fun a b => al_started_at b <=? al_started_at a)
      (members_of incidentID d)))) ;;
  members <- or_default None (query (fun d => Some (members_of incidentID d))) ;;
  let inc := match members with
             | Some l => scan_incident i l alerts
             | None => zero_counts (scan_incident i [] alerts)
             end in
  ret (mkPayload eventType deliveryID key (Some inc)).

(** ** Queueing *)

Definition coalesces (eventType : string) : bool :=
  (eventType =?s "opened") || (eventType =?s "updated").

(** The oldest pending opening or update of this incident on this channel. *)
Definition pending_update (incidentID channelID : string) (d : DB) : option DeliveryRow :=
  head (sql_order_by (fun a b => de_created_at a <=? de_created_at b)
    (List.filter (fun r => of_incident incidentID r && (de_channel_id r =?s channelID) &&
       (de_status r =?s "pending") && coalesces (de_event_type r)) (db_deliveries d))).

Definition upsertDeliveryTx (incidentID channelID eventType : string) (due : Z) : tx DB unit :=
  found <- catch_norows (query_row (pending_update incidentID channelID)) ;;
  let coalesce := coalesces eventType in
  ids <- (match found, coalesce with
          | Some r, true => ret (de_id r, de_idempotency_key r, de_event_type r)
          | _, _ => did <- newID "del_" ;; key <- newID "idem_" ;; ret (did, key, eventType)
          end) ;;
  let '(deliveryID, key, payloadEvent) := ids in
  payload <- payloadTx deliveryID key incidentID payloadEvent ;;
  wall <- time_now ;;
  let now := time_unix wall in
  present <- (if coalesce && negb (deliveryID =?s "") then
                or_default 0 (query (fun d => sql_count (fun r => de_id r =?s deliveryID)
                                                (db_deliveries d)))
              else ret 0) ;;
  if 0 <? present then
    update_rows db_deliveries set_deliveries (fun r => de_id r =?s deliveryID)
      (del_refresh payload (time_unix due) now) ;;; ret tt
  else
    exec (insert_delivery (mkDeliveryRow deliveryID channelID (Some incidentID) eventType payload
      key "pending" 0 (Some (time_unix due)) None None None now now)).

Definition channel_active (c : ChannelRow) : bool :=
  cn_enabled c && match cn_deleted_at c with None => true | Some _ => false end.

Definition enqueue_channel (incidentID eventType severity : string) (due : Z) (ch : ChannelRow)
    : tx DB unit :=
  below <- (if (cn_minimum_severity ch =?s "critical") && negb (severity =?s "critical") then
              notified <- (if eventType =?s "resolved" then
                query (fun d => sql_count (fun r => of_incident incidentID r &&
                  (de_channel_id r =?s cn_id ch) && negb (de_status r =?s "cancelled"))
                  (db_deliveries d))
                else ret 0) ;;
              ret (notified =? 0)
            else ret false) ;;
  if below : bool then ret tt
  else if (eventType =?s "resolved") && negb (cn_notify_resolved ch) then ret tt
  else upsertDeliveryTx incidentID (cn_id ch) eventType due.

Definition enqueueIncidentTx (incidentID eventType severity : string) (due : Z) : tx DB unit :=
  targets <- query (fun d => List.filter channel_active (db_channels d)) ;;
  iter_tx (enqueue_channel incidentID eventType severity due) targets.

(** A delivery of this incident that was attempted on the channel. *)
Definition attempted (incidentID channelID : string) (r : DeliveryRow) : bool :=
  of_incident incidentID r && (de_channel_id r =?s channelID) &&
  negb (de_status r =?s "cancelled") &&
  ((0 <? de_attempt_count r) ||
   str_in (de_status r) ["in_progress"; "succeeded"; "permanent_failure"]).

Definition pending_change (incidentID channelID : string) (r : DeliveryRow) : bool :=
  of_incident incidentID r && (de_channel_id r =?s channelID) && coalesces (de_event_type r) &&
  (de_status r =?s "pending").

Definition enqueue_resolution (incidentID : string) (now : Z) (ch : ChannelRow) : tx DB unit :=
  n <- query (fun d => sql_count (attempted incidentID (cn_id ch)) (db_deliveries d)) ;;
  if n =? 0 then
    update_rows db_deliveries set_deliveries (fun r =>
      pending_change incidentID (cn_id ch) r && (de_attempt_count r =? 0))
      (del_cancel (time_unix now)) ;;; ret tt
  else
    update_rows db_deliveries set_deliveries (pending_change incidentID (cn_id ch))
      (del_cancel (time_unix now)) ;;;
    upsertDeliveryTx incidentID (cn_id ch) "resolved" now.

Definition enqueueResolutionTx (incidentID : string) (now : Z) : tx DB unit :=
  targets <- query (fun d => List.filter (fun c => channel_active c && cn_notify_resolved c)
                               (db_channels d)) ;;
  iter_tx (enqueue_resolution incidentID now) targets.

(** ** Alert transitions *)

Context (reminderInterval : Z).

Definition open_incident (group : string) (d : DB) : option IncidentRow :=
  sql_find (fun i => (in_group_key i =?s group) && (in_status i =?s "open")) (db_incidents d).

Definition alertFiredTx (a : Alert) (now : Z) (notify : bool) : tx DB unit :=
  let '(group, targetType, targetID) := groupFor a in
  found <- catch_norows (query_row (open_incident group)) ;;
  ids <- (match found with
          | None =>
              incidentID <- newID "inc_" ;;
              exec (insert_incident (mkIncidentRow incidentID group "open" (a_Severity a)
                targetType targetID (targetType +:+ " incident on " +:+ targetID)
                (time_unix now) (time_unix now) None 1
                (Some (time_unix (time_add now reminderInterval))))) ;;;
              ret (incidentID, a_Severity a)
          | Some i =>
              let severity := if (in_severity i =?s "warning") && (a_Severity a =?s Critical)
                              then "critical" else in_severity i in
              update_rows db_incidents set_incidents (fun j => in_id j =?s in_id i)
                (inc_set_severity severity (time_unix now)) ;;;
              ret (in_id i, severity)
          end) ;;
  let '(incidentID, severity) := ids in
  exec (insert_member (mkMemberRow incidentID (a_ID a) (time_unix now) None)) ;;;
  if notify then
    enqueueIncidentTx incidentID (match found with None => "opened" | Some _ => "updated" end)
      severity (time_add now (15 * Second))
  else ret tt.

Definition Repo_AlertFiredTx (a : Alert) (now : Z) : tx DB unit := alertFiredTx a now true.

Definition Repo_AlertResolvedTx (alertID : string) (now : Z) : tx DB unit :=
  found <- catch_norows (query_row (fun d =>
    im_incident_id <$> sql_find (fun m => im_alert_id m =?s alertID) (db_members d))) ;;
  match found with
  | None => ret tt
  | Some incidentID =>
      update_rows db_members set_members (fun m => (im_alert_id m =?s alertID) &&
        match im_resolved_at m with None => true | Some _ => false end)
        (mem_resolve (time_unix now)) ;;;
      firing <- query (fun d => sql_count is_firing (members_of incidentID d)) ;;
      if 0 <? firing then
        severity <- query (fun d =>
          if sql_exists (fun a => is_firing a && (al_severity a =?s "critical"))
               (members_of incidentID d) then "critical" else "warning") ;;
        update_rows db_incidents set_incidents (fun i => in_id i =?s incidentID)
          (inc_set_severity severity (time_unix now)) ;;; ret tt
      else
        update_rows db_incidents set_incidents (fun i => in_id i =?s incidentID)
          (inc_resolve (time_unix now)) ;;;
        enqueueResolutionTx incidentID now
  end.

Definition incident_sink : IncidentSink :=
  mkIncidentSink Repo_AlertFiredTx Repo_AlertResolvedTx.

(** ** Reconciliation, reminders, retention *)

Definition orphan_alerts (d : DB) : list AlertRow :=
  sql_order_by (fun a b => al_started_at a <=? al_started_at b)
    (List.filter (fun a => is_firing a &&
       negb (sql_exists (fun m => im_alert_id m =?s al_id a) (db_members d))) (db_alerts d)).

Definition alert_of_row (a : AlertRow) : Alert :=
  mkAlert (al_id a) (al_dedup_key a) (al_rule_id a) (al_family a) (al_severity a)
    (al_target_type a) (al_target_id a) (al_status a) (of_unix (al_started_at a)) None
    (of_unix (al_last_observed_at a)) (al_observed_value a) (al_message a) "".

Definition reconcile_alert (now : Z) (a : AlertRow) : tx DB unit :=
  alertFiredTx (alert_of_row a) now false ;;;
  exec (fun d =>
    let incident := im_incident_id <$> sql_find (fun m => im_alert_id m =?s al_id a) (db_members d) in
    inr (tt, set_incidents (sql_update (fun i =>
      match incident with Some id => in_id i =?s id | None => false end)
      (inc_set_opened (al_started_at a)) (db_incidents d)) d)).

Definition Reconcile (now : Z) : tx DB unit :=
  with_tx (list <- query orphan_alerts ;; iter_tx (reconcile_alert now) list).

Definition due_reminder (now : Z) (i : IncidentRow) : bool :=
  (in_status i =?s "open") &&
  match in_next_reminder_at i with Some t => t <=? now | None => false end.

Definition ScheduleReminders (now interval : Z) : tx DB unit :=
  let interval := if interval <=? 0 then 2 * Hour else interval in
  with_tx (
    list <- query (fun d => List.filter (due_reminder (time_unix now)) (db_incidents d)) ;;
    iter_tx (fun i =>
      update_rows db_incidents set_incidents (fun j => in_id j =?s in_id i)
        (inc_set_reminder (time_unix (time_add now interval))) ;;;
      enqueueIncidentTx (in_id i) "reminder" (in_severity i) now) list).

(** [DELETE FROM incidents ...]: members cascade, deliveries are orphaned. *)
Definition delete_incidents (p : IncidentRow -> bool) (d : DB) : DB :=
  let gone id := sql_exists (fun i => p i && (in_id i =?s id)) (db_incidents d) in
  set_deliveries (sql_update (fun r => match de_incident_id r with Some i => gone i | None => false end)
                    del_orphan (db_deliveries d))
  (set_members (sql_delete (fun m => gone (im_incident_id m)) (db_members d))
  (set_incidents (sql_delete p (db_incidents d)) d)).

Definition expired_delivery (cutoff : Z) (r : DeliveryRow) : bool :=
  str_in (de_status r) ["succeeded"; "permanent_failure"; "cancelled"] &&
  match de_completed_at r with Some t => t <? cutoff | None => false end.
Definition expired_incident (cutoff : Z) (i : IncidentRow) : bool :=
  (in_status i =?s "resolved") &&
  match in_resolved_at i with Some t => t <? cutoff | None => false end.

Definition Repo_Cleanup (now : Z) : tx DB unit :=
  delete_rows db_deliveries set_deliveries
    (expired_delivery (time_unix (time_add now (- (90 * 24 * Hour))))) ;;;
  exec (fun d => inr (tt,
    delete_incidents (expired_incident (time_unix (time_add now (- (365 * 24 * Hour))))) d)).

(** ** Queries *)

Definition status_rank (s : string) : Z := if s =?s "open" then 0 else 1.

(** [ORDER BY] open first, then critical first, then newest first *)
Definition incident_le (a b : IncidentRow) : bool :=
  let ka := (status_rank (in_status a), severity_rank (in_severity a)) in
  let kb := (status_rank (in_status b), severity_rank (in_severity b)) in
  (ka.1 <? kb.1) || ((ka.1 =? kb.1) &&
    ((ka.2 <? kb.2) || ((ka.2 =? kb.2) && (in_opened_at b <=? in_opened_at a)))).

Definition Incidents (status severity : string) (limit offset : Z) : tx DB (list Incident) :=
  query (fun d => map (fun i => scan_incident i (members_of (in_id i) d) [])
    (sql_limit (page_limit limit) (page_offset offset)
      (sql_order_by incident_le (List.filter (fun i =>
        ((status =?s "") || (in_status i =?s status)) &&
        ((severity =?s "") || (in_severity i =?s severity))) (db_incidents d))))).

Definition Deliveries (incident : string) (limit offset : Z) : tx DB (list DeliveryRow) :=
  query (fun d => sql_limit (page_limit limit) offset
    (sql_order_by (fun a b => de_created_at b <=? de_created_at a)
      (List.filter (fun r => (incident =?s "") || of_incident incident r) (db_deliveries d)))).

Definition Repo_Incident (id : string) : tx DB (Incident * list DeliveryRow) :=
  i <- query_row (fun d => i ← sql_find (fun i => in_id i =?s id) (db_incidents d);
                           Some (i, members_of id d)) ;;
  alerts <- query (fun d => map scan_member
    (sql_order_by (fun a b => al_started_at a <=? al_started_at b) (members_of id d))) ;;
  deliveries <- or_default [] (Deliveries id 100 0) ;;
  ret (scan_incident i.1 i.2 alerts, deliveries).

Definition ExportIncidents (from to limit : Z) : tx DB (list Incident) :=
  let limit := if (limit <? 1) || (10001 <? limit) then 10001 else limit in
  values <- query (fun d => map (fun i => (i, members_of (in_id i) d))
    (sql_limit limit 0 (sql_order_by (fun a b =>
      (in_opened_at a <? in_opened_at b) ||
      ((in_opened_at a =? in_opened_at b) && String.leb (in_id a) (in_id b)))
      (List.filter (fun i => (time_unix from <=? in_opened_at i) && (in_opened_at i <=? time_unix to))
         (db_incidents d))))) ;;
  (fix go vs := match vs with
     | [] => ret []
     | v :: vs =>
         alerts <- query (fun d => map scan_member
           (sql_order_by (fun a b => al_started_at a <=? al_started_at b)
              (members_of (in_id v.1) d))) ;;
         rest <- go vs ;;
         ret (scan_incident v.1 v.2 alerts :: rest)
     end) values.

Record NotificationHealth := mkNotificationHealth {
  nh_QueueDepth : Z; nh_PermanentFailures : Z; nh_DroppedDeliveries : Z; nh_LastSuccess : option Z;
}.

Definition Repo_Health (dropped : Z) : tx DB NotificationHealth :=
  depth <- query (fun d => sql_count (fun r => de_status r =?s "pending") (db_deliveries d)) ;;
  failures <- query (fun d => sql_count (fun r => de_status r =?s "permanent_failure")
                                (db_deliveries d)) ;;
  last <- query (fun d => fold_left (fun acc r =>
    if de_status r =?s "succeeded" then
      match acc, de_completed_at r with
      | Some a, Some t => Some (Z.max a t)
      | None, t => t
      | a, None => a
      end
    else acc) (db_deliveries d) None) ;;
  ret (mkNotificationHealth depth failures dropped (of_unix <$> last)).

(** ** Deliveries and channels *)

Definition Retry (id : string) : tx DB unit :=
  wall <- time_now ;;
  n <- update_rows db_deliveries set_deliveries
    (fun r => (de_id r =?s id) && (de_status r =?s "permanent_failure"))
    (del_retry (time_unix wall)) ;;
  if n =? 0 then throw ENoRows else ret tt.

Definition find_channel (id : string) (d : DB) : option ChannelRow :=
  sql_find (fun c => (cn_id c =?s id) &&
    match cn_deleted_at c with None => true | Some _ => false end) (db_channels d).

Definition Repo_Test (channelID : string) : tx DB string :=
  c <- query_row (find_channel channelID) ;;
  id <- newID "del_" ;;
  key <- newID "idem_" ;;
  wall <- time_now ;;
  let now := time_unix wall in
  exec (insert_delivery (mkDeliveryRow id (cn_id c) None "test" (mkPayload "test" id key None) key
    "pending" 0 (Some now) None None None now now)) ;;;
  ret id.

Definition channel_delete (now : Z) (c : ChannelRow) : ChannelRow :=
  mkChannelRow (cn_id c) (cn_name c) (cn_kind c) false (cn_minimum_severity c)
    (cn_notify_resolved c) (cn_config c) (cn_secret_ref c) (cn_created_at c) now (Some now).

Definition DeleteChannel (id : string) : tx DB unit :=
  wall <- time_now ;;
  let now := time_unix wall in
  with_tx (
    n <- update_rows db_channels set_channels (fun c => (cn_id c =?s id) &&
      match cn_deleted_at c with None => true | Some _ => false end) (channel_delete now) ;;
    if n =? 0 then throw ENoRows
    else
      update_rows db_deliveries set_deliveries
        (fun r => (de_channel_id r =?s id) && (de_status r =?s "pending")) (del_cancel now) ;;;
      ret tt).
End repository.
