(* ===== verification/IncidentInvariants.v ===== *)
(** * Incidents follow their alerts

    The incident repository is a sound incident sink, and with it an incident
    is open exactly while one of its alerts fires, at the worst severity
    among those. *)

From stdpp Require Import base tactics list gmap strings.
From Stdlib Require Import ZArith Lia.
From S2P Require Import Prelude Float64 Db Metrics AlertState Schema AlertRepository AlertEvaluator.
From S2P Require Import AlertInvariants Incidents.

(** ** The sink's frame *)

Lemma insert_incident_view i d u d' :
  insert_incident i d = inr (u, d') -> alert_view d' = alert_view d.
Proof. intros E. unfold insert_incident in E. by sql_inv E. Qed.
Lemma insert_member_view m d u d' :
  insert_member m d = inr (u, d') -> alert_view d' = alert_view d.
Proof. intros E. unfold insert_member in E. sql_inv E. by simplify_eq. Qed.
Lemma insert_delivery_view r d u d' :
  insert_delivery r d = inr (u, d') -> alert_view d' = alert_view d.
Proof. intros E. unfold insert_delivery in E. by sql_inv E. Qed.

Section frame.
Context `{Rand} (reminderInterval : Z).

Lemma upsert_preserves (I : DB -> Prop) incidentID channelID eventType due :
  (forall t d, I d -> I (set_deliveries t d)) ->
  preserves I (upsertDeliveryTx incidentID channelID eventType due).
Proof.
  intros HI. unfold upsertDeliveryTx, payloadTx, newID, update_rows. frame_auto.
  all: apply exec_preserves; intros d ? d' Hd E; simplify_eq; auto.
  unfold insert_delivery in E. sql_inv E. auto.
Qed.

Lemma enqueue_preserves (I : DB -> Prop) incidentID eventType severity due :
  (forall t d, I d -> I (set_deliveries t d)) ->
  preserves I (enqueueIncidentTx incidentID eventType severity due).
Proof.
  intros HI. unfold enqueueIncidentTx, enqueue_channel. frame_auto; by apply upsert_preserves.
Qed.

Lemma resolution_preserves (I : DB -> Prop) incidentID now :
  (forall t d, I d -> I (set_deliveries t d)) ->
  preserves I (enqueueResolutionTx incidentID now).
Proof.
  intros HI. unfold enqueueResolutionTx, enqueue_resolution, update_rows. frame_auto;
    first [by apply upsert_preserves
          | apply exec_preserves; intros d a' d' Hd E; simplify_eq; auto].
Qed.

Lemma fired_view a now notify v :
  preserves (fun d => alert_view d = v) (alertFiredTx reminderInterval a now notify).
Proof.
  unfold alertFiredTx, newID, update_rows. frame_auto;
    first [ by apply enqueue_preserves
          | apply exec_preserves; intros d ? d' <- E;
            first [by simplify_eq | by eapply insert_incident_view | by eapply insert_member_view] ].
Qed.

#[export] Instance incident_sink_frame : SinkFrame (incident_sink reminderInterval).
Proof.
  split; intros; [apply fired_view|]. cbn -[alert_view].
  unfold Repo_AlertResolvedTx, update_rows. frame_auto;
    first [ by apply resolution_preserves
          | apply exec_preserves; intros d ? d' <- E; by simplify_eq ].
Qed.
End frame.

(** ** The invariant *)

(** The worst severity among the firing alerts of a list. *)
Definition worst (l : list AlertRow) : string :=
  if sql_exists (fun a => is_firing a && (al_severity a =?s "critical")) l
  then "critical" else "warning".

Definition status_of (l : list AlertRow) : string :=
  if sql_exists is_firing l then "open" else "resolved".

(** [ex] names an incident that is open, and whose status and severity are
    being brought up to date. *)
Record inc_inv_ex (ex : option string) (d : DB) : Prop := {
  ii_alert_severity : forall a, In a (db_alerts d) ->
    str_in (al_severity a) ["warning"; "critical"] = true;
  ii_alert_ids : NoDup (map al_id (db_alerts d));
  ii_ids : NoDup (map in_id (db_incidents d));
  ii_members : NoDup (map im_alert_id (db_members d));
  ii_incident_fk : forall m, In m (db_members d) ->
    exists i, In i (db_incidents d) /\ in_id i = im_incident_id m;
  ii_alert_fk : forall m, In m (db_members d) ->
    exists a, In a (db_alerts d) /\ al_id a = im_alert_id m;
  ii_status : forall i, In i (db_incidents d) -> ex <> Some (in_id i) ->
    in_status i = status_of (members_of (in_id i) d);
  ii_severity : forall i, In i (db_incidents d) -> ex <> Some (in_id i) ->
    in_status i = "open" -> in_severity i = worst (members_of (in_id i) d);
  ii_open : forall i, In i (db_incidents d) -> ex = Some (in_id i) -> in_status i = "open";
  ii_group : forall i j, In i (db_incidents d) -> In j (db_incidents d) ->
    in_status i = "open" -> in_status j = "open" -> in_group_key i = in_group_key j -> i = j;
}.
Definition inc_inv (d : DB) : Prop := inc_inv_ex None d.

(** The invariant reads three tables only. *)
Lemma inc_inv_ext ex d d' :
  inc_inv_ex ex d -> db_alerts d' = db_alerts d -> db_incidents d' = db_incidents d ->
  db_members d' = db_members d -> inc_inv_ex ex d'.
Proof.
  intros [? ? ? ? ? ? ? ? ? ?] Ha Hi Hm.
  assert (forall id, members_of id d' = members_of id d) as Hof
    by (intros; unfold members_of; by rewrite Ha, Hm).
  split; rewrite ?Ha, ?Hi, ?Hm; auto; intros; rewrite Hof; auto.
Qed.

Lemma inc_inv_deliveries ex t d : inc_inv_ex ex d -> inc_inv_ex ex (set_deliveries t d).
Proof. intros Hd. by eapply inc_inv_ext. Qed.

(** ** Members *)

Lemma omap_ext_in {A B} (f g : A -> option B) l :
  (forall x, In x l -> f x = g x) -> omap f l = omap g l.
Proof.
  induction l as [|x l IH]; cbn; intros Hx; [done|]. rewrite Hx by auto.
  destruct (g x); rewrite IH by auto; done.
Qed.

Lemma omap_app_list {A B} (f : A -> option B) l1 l2 : omap f (l1 ++ l2) = omap f l1 ++ omap f l2.
Proof. induction l1 as [|x l IH]; cbn; [done|]. destruct (f x); cbn; by rewrite IH. Qed.

Lemma omap_delete {A B} (f : A -> option B) q l :
  (forall x, q x = true -> f x = None) -> omap f (sql_delete q l) = omap f l.
Proof.
  intros Hq. induction l as [|x l IH]; [done|]. cbn. unfold sql_delete in IH.
  destruct (q x) eqn:E; cbn; rewrite IH; [by rewrite Hq|done].
Qed.

Lemma omap_single {A B} (f : A -> option B) x :
  omap f [x] = match f x with Some y => [y] | None => [] end.
Proof. done. Qed.

Lemma omap_update {A B} (f : A -> option B) p g l :
  (forall r, f (g r) = f r) -> omap f (sql_update p g l) = omap f l.
Proof.
  intros Hg. induction l as [|x l IH]; cbn; [done|]. unfold sql_update in IH.
  destruct (p x); rewrite ?Hg; destruct (f x); by rewrite IH.
Qed.

Lemma omap_map {A B C} (f : A -> option B) (h : B -> C) l :
  omap (fun x => h <$> f x) l = map h (omap f l).
Proof. induction l as [|x l IH]; cbn; [done|]. destruct (f x); cbn; by rewrite IH. Qed.

Lemma sql_find_map {R} (p : R -> bool) (h : R -> R) t :
  (forall r, p (h r) = p r) -> sql_find p (map h t) = h <$> sql_find p t.
Proof.
  intros Hp. unfold sql_find. induction t as [|x t IH]; cbn; [done|]. rewrite Hp.
  by destruct (p x).
Qed.

Lemma sql_find_key {R} (key : R -> string) t r :
  NoDup (map key t) -> In r t -> sql_find (fun x => key x =?s key r) t = Some r.
Proof.
  intros Hnd Hr. destruct (sql_find _ t) as [x|] eqn:E.
  - apply sql_find_some in E as [Hx Hk%String.eqb_eq]. f_equal. by eapply nodup_key_inj.
  - apply sql_find_none with (r := r) in E; [|done]. by rewrite String.eqb_refl in E.
Qed.

Lemma sql_find_update {R} (key : R -> string) (f : R -> R) t id id' :
  (forall r, key (f r) = key r) -> id <> id' ->
  sql_find (fun x => key x =?s id') (sql_update (fun x => key x =?s id) f t) =
  sql_find (fun x => key x =?s id') t.
Proof.
  intros Hf Hne. unfold sql_find. induction t as [|x t IH]; cbn; [done|].
  destruct (key x =?s id) eqn:E.
  - apply String.eqb_eq in E. subst. rewrite Hf, (proj2 (String.eqb_neq (key x) id')) by done.
    apply IH.
  - destruct (key x =?s id'); [done|apply IH].
Qed.

Lemma sql_exists_update {R} (q p : R -> bool) (f : R -> R) t :
  (forall r, q (f r) = q r) -> sql_exists q (sql_update p f t) = sql_exists q t.
Proof.
  intros Hq. unfold sql_exists. induction t as [|x t IH]; cbn; [done|].
  destruct (p x); rewrite ?Hq; f_equal; apply IH.
Qed.

(** Adding a member. *)
Lemma members_of_add id m d row :
  sql_find (fun a => al_id a =?s im_alert_id m) (db_alerts d) = Some row ->
  members_of id (set_members (db_members d ++ [m]) d) =
  members_of id d ++ (if im_incident_id m =?s id then [row] else []).
Proof.
  intros Hrow. unfold members_of. cbn [db_members db_alerts set_members].
  rewrite omap_app_list, omap_single. f_equal.
  destruct (im_incident_id m =?s id); [by rewrite Hrow|done].
Qed.

Lemma members_of_none id d :
  (forall m, In m (db_members d) -> im_incident_id m <> id) -> members_of id d = [].
Proof.
  intros Hm. unfold members_of. rewrite (omap_ext_in _ (fun _ => None)).
  - clear. induction (db_members d) as [|m l IH]; [done|apply IH].
  - intros m Hin. by rewrite (proj2 (String.eqb_neq _ _)) by auto.
Qed.

(** An alert that is in no incident does not matter to any. *)
Lemma members_of_alerts id t d :
  (forall m, In m (db_members d) -> im_incident_id m = id ->
    sql_find (fun a => al_id a =?s im_alert_id m) t =
    sql_find (fun a => al_id a =?s im_alert_id m) (db_alerts d)) ->
  members_of id (set_alerts t d) = members_of id d.
Proof.
  intros Ht. unfold members_of. cbn. apply omap_ext_in. intros m Hm.
  destruct (im_incident_id m =?s id) eqn:E; [|done]. by apply Ht, String.eqb_eq.
Qed.

Lemma members_of_resolved_at id p now d :
  members_of id (set_members (sql_update p (mem_resolve now) (db_members d)) d) = members_of id d.
Proof.
  unfold members_of. cbn [db_members db_alerts set_members]. by apply omap_update.
Qed.

Lemma worst_cases l : worst l = "warning" \/ worst l = "critical".
Proof. unfold worst. destruct (sql_exists _ l); auto. Qed.

Lemma worst_app l1 l2 :
  worst (l1 ++ l2) = if (worst l1 =?s "critical") || (worst l2 =?s "critical")
                     then "critical" else "warning".
Proof.
  unfold worst, sql_exists. rewrite existsb_app.
  by destruct (existsb _ l1), (existsb _ l2).
Qed.

Lemma status_app_firing l row : is_firing row = true -> status_of (l ++ [row]) = "open".
Proof.
  intros Hr. unfold status_of, sql_exists. rewrite existsb_app. cbn. by rewrite Hr, orb_true_r.
Qed.

(** ** Steps that keep the invariant *)

Lemma inc_close x d :
  inc_inv_ex (Some x) d ->
  (forall i, In i (db_incidents d) -> in_id i = x ->
    in_status i = status_of (members_of x d) /\ in_severity i = worst (members_of x d)) ->
  inc_inv d.
Proof.
  intros [? ? ? ? ? ? Hst Hsev Hop ?] Hx. split; auto; try done.
  - intros i Hi _. destruct (decide (in_id i = x)) as [<-|Hne]; [by apply Hx|].
    apply Hst; congruence.
  - intros i Hi _ Ho. destruct (decide (in_id i = x)) as [<-|Hne]; [by apply Hx|].
    apply Hsev; congruence.
Qed.

Lemma inc_settle x f d :
  inc_inv_ex (Some x) d ->
  (forall i, in_id (f i) = in_id i /\ in_group_key (f i) = in_group_key i) ->
  (forall i, In i (db_incidents d) -> in_id i = x -> in_status i = "open" ->
    in_status (f i) = status_of (members_of x d) /\
    (in_status (f i) = "open" -> in_severity (f i) = worst (members_of x d))) ->
  inc_inv (set_incidents (sql_update (fun i => in_id i =?s x) f (db_incidents d)) d).
Proof.
  intros [Has Hai Hid Hmem Hifk Hafk Hst Hsev Hop Hgr] Hf Hx.
  assert (forall i, In i (sql_update (fun i => in_id i =?s x) f (db_incidents d)) ->
    exists i0, In i0 (db_incidents d) /\ in_id i = in_id i0 /\ in_group_key i = in_group_key i0 /\
      (if decide (in_id i0 = x) then i = f i0 /\ in_status i0 = "open" else i = i0)) as Hin.
  { intros i (i0 & Hi0 & ->)%in_sql_update. exists i0.
    destruct (in_id i0 =?s x) eqn:E; [apply String.eqb_eq in E|apply String.eqb_neq in E].
    - subst x. destruct (Hf i0). rewrite decide_True by done. split_and!; auto.
    - rewrite decide_False by done. auto. }
  split; cbn [db_alerts db_incidents db_members set_incidents]; auto; try done.
  - rewrite sql_update_map; [done|]. apply Hf.
  - intros m (i & Hi & Hk)%Hifk. exists (if in_id i =?s x then f i else i). split.
    + apply in_sql_update. eauto.
    + destruct (in_id i =?s x); [|done]. by rewrite (proj1 (Hf i)).
  - intros i (i0 & Hi0 & Hk & _ & Hc)%Hin _. change (members_of _ (set_incidents _ d))
      with (members_of (in_id i) d). rewrite Hk. case_decide as Hd.
    + destruct Hc as [-> Ho]. subst x. by apply Hx.
    + subst i0. apply Hst; congruence.
  - intros i (i0 & Hi0 & Hk & _ & Hc)%Hin _ Ho. change (members_of _ (set_incidents _ d))
      with (members_of (in_id i) d). rewrite Hk. case_decide as Hd.
    + destruct Hc as [-> Ho']. subst x. by apply Hx.
    + subst i0. apply Hsev; congruence.
  - intros i j (i0 & Hi0 & Hki & Hgi & Hci)%Hin (j0 & Hj0 & Hkj & Hgj & Hcj)%Hin Hoi Hoj Hg.
    assert (in_status i0 = "open") by (destruct (decide (in_id i0 = x)); [by destruct Hci|congruence]).
    assert (in_status j0 = "open") by (destruct (decide (in_id j0 = x)); [by destruct Hcj|congruence]).
    assert (i0 = j0) as -> by (apply Hgr; congruence).
    destruct (decide (in_id j0 = x)); [destruct Hci, Hcj|]; congruence.
Qed.

Lemma inc_add_member ex x m row d :
  inc_inv_ex ex d -> ex = None \/ ex = Some x -> x = im_incident_id m ->
  (exists i, In i (db_incidents d) /\ in_id i = x /\ in_status i = "open") ->
  sql_find (fun a => al_id a =?s im_alert_id m) (db_alerts d) = Some row ->
  (forall m', In m' (db_members d) -> im_alert_id m' <> im_alert_id m) ->
  inc_inv_ex (Some x) (set_members (db_members d ++ [m]) d).
Proof.
  intros [Has Hai Hid Hmem Hifk Hafk Hst Hsev Hop Hgr] Hex -> (i0 & Hi0 & Hix & Hio) Hrow Hnew.
  assert (forall id, id <> im_incident_id m ->
    members_of id (set_members (db_members d ++ [m]) d) = members_of id d) as Hof.
  { intros id Hne. rewrite (members_of_add _ _ _ _ Hrow), (proj2 (String.eqb_neq _ _)) by congruence.
    by rewrite app_nil_r. }
  assert (forall y, Some (im_incident_id m) <> Some y -> ex <> Some y /\ y <> im_incident_id m) as Hexy
    by (intros y Hy; destruct Hex as [-> | ->]; split; congruence).
  split; cbn [db_alerts db_incidents db_members set_members]; auto.
  - apply (insert_pk_nodup im_alert_id m (db_members d)); [|done]. unfold insert_pk.
    case_match eqn:E; [|done]. apply existsb_exists in E as (m' & Hm' & Hk%String.eqb_eq).
    by destruct (Hnew m').
  - intros m' [Hm'|[<-|[]]]%in_app_iff; eauto.
  - intros m' [Hm'|[<-|[]]]%in_app_iff; [auto|]. exists row.
    apply sql_find_some in Hrow as [? Hk%String.eqb_eq]. auto.
  - intros i Hi [Hy Hne]%Hexy. rewrite Hof by done. auto.
  - intros i Hi [Hy Hne]%Hexy Ho. rewrite Hof by done. auto.
  - intros i Hi [= Hk]. by rewrite <- (nodup_key_inj in_id _ i0 i Hid Hi0 Hi) by congruence.
Qed.

Lemma inc_add_incident new d :
  inc_inv d -> (forall i, In i (db_incidents d) -> in_id i <> in_id new) ->
  (forall i, In i (db_incidents d) -> in_status i = "open" -> in_group_key i <> in_group_key new) ->
  in_status new = "open" ->
  inc_inv_ex (Some (in_id new)) (set_incidents (db_incidents d ++ [new]) d).
Proof.
  intros [Has Hai Hid Hmem Hifk Hafk Hst Hsev Hop Hgr] Hfresh Hgrp Hopen.
  split; cbn [db_alerts db_incidents db_members set_incidents]; auto.
  - apply (insert_pk_nodup in_id new (db_incidents d)); [|done]. unfold insert_pk.
    case_match eqn:E; [|done]. apply existsb_exists in E as (i & Hi & Hk%String.eqb_eq).
    by destruct (Hfresh i).
  - intros m (i & Hi & Hk)%Hifk. exists i. rewrite in_app_iff. auto.
  - intros i [Hi|[<-|[]]]%in_app_iff Hne; [|done]. by apply Hst.
  - intros i [Hi|[<-|[]]]%in_app_iff Hne; [|done]. by apply Hsev.
  - intros i [Hi|[<-|[]]]%in_app_iff Hk; [|done]. destruct (Hfresh i Hi). congruence.
  - intros i j [Hi|[<-|[]]]%in_app_iff [Hj|[<-|[]]]%in_app_iff Hoi Hoj Hg; auto.
    + by destruct (Hgrp i).
    + by destruct (Hgrp j).
Qed.

(** ** The repository's operations *)

Section operations.
Context `{Rand} (reminderInterval : Z).

Lemma enqueue_inv d incidentID eventType severity due :
  inc_inv d -> runs d (enqueueIncidentTx incidentID eventType severity due) (fun _ d' => inc_inv d').
Proof.
  intros Hd. apply runs_preserves; [|done]. apply enqueue_preserves.
  intros t d' Hd'. by apply inc_inv_deliveries.
Qed.

Lemma worst_single row :
  is_firing row = true -> str_in (al_severity row) ["warning"; "critical"] = true ->
  worst [row] = al_severity row.
Proof.
  intros Hf Hs%str_in_spec. unfold worst, sql_exists. cbn. rewrite Hf.
  destruct Hs as [<-|[<-|[]]]; done.
Qed.

(** What the incident repository needs to know about an alert it is told of:
    it is in the table, firing, with the severity announced. *)
Definition announced (a : Alert) (row : AlertRow) (d : DB) : Prop :=
  sql_find (fun b => al_id b =?s a_ID a) (db_alerts d) = Some row /\ is_firing row = true /\
  al_severity row = a_Severity a /\ str_in (al_severity row) ["warning"; "critical"] = true.

Lemma fired_join x a row now d d1 u d2 :
  inc_inv_ex (Some x) d1 \/ (inc_inv d1 /\ exists i, In i (db_incidents d1) /\ in_id i = x /\
    in_status i = "open") ->
  announced a row d1 ->
  d = d1 -> insert_member (mkMemberRow x (a_ID a) now None) d = inr (u, d2) ->
  inc_inv_ex (Some x) d2 /\ db_incidents d2 = db_incidents d1 /\
  members_of x d2 = members_of x d1 ++ [row].
Proof.
  intros Hinv (Hrow & _) -> E. unfold insert_member in E. sql_inv E. simplify_eq. bool_hyps.
  match goal with E : sql_exists _ (db_members d1) = false |- _ => rename E into Hnm end.
  match goal with E : sql_exists _ (db_incidents d1) = true |- _ => rename E into Hix end.
  rewrite sql_exists_false in Hnm. apply sql_exists_true in Hix as (i & Hi & Hk%String.eqb_eq).
  assert (forall m', In m' (db_members d1) -> im_alert_id m' <> a_ID a) as Hnew
    by (intros m' Hm'; apply String.eqb_neq, (Hnm m' Hm')).
  split_and!; [|done|].
  - destruct Hinv as [Hinv|[Hinv Hex]]; eapply inc_add_member; eauto.
    exists i. split_and!; [done..|]. eapply ii_open; [done..|]. cbn in Hk. congruence.
  - rewrite (members_of_add x (mkMemberRow x (a_ID a) now None) d1 row Hrow). cbn [im_incident_id].
    by rewrite String.eqb_refl.
Qed.

Definition escalate (i : IncidentRow) (a : Alert) : string :=
  if (in_severity i =?s "warning") && (a_Severity a =?s Critical) then "critical" else in_severity i.

Lemma fired_existing d a row now i u d2 :
  inc_inv d -> announced a row d -> In i (db_incidents d) -> in_status i = "open" ->
  insert_member (mkMemberRow (in_id i) (a_ID a) now None)
    (set_incidents (sql_update (fun j => in_id j =?s in_id i)
       (inc_set_severity (escalate i a) now) (db_incidents d)) d) = inr (u, d2) ->
  inc_inv d2.
Proof.
  intros Hinv Hrow Hi Ho E. pose proof Hrow as (Hfind & Hfire & Hsev & Hok).
  assert (exists d3, insert_member (mkMemberRow (in_id i) (a_ID a) now None) d = inr (u, d3) /\
    d2 = set_incidents (sql_update (fun j => in_id j =?s in_id i)
           (inc_set_severity (escalate i a) now) (db_incidents d3)) d3) as (d3 & E3 & ->).
  { unfold insert_member, guard_c in *. cbn [db_incidents db_alerts db_members set_incidents] in E.
    rewrite sql_exists_update in E by done. repeat case_match; simplify_eq. eauto. }
  destruct (fired_join (in_id i) a row now d d u d3) as (Hinv3 & Hinc & Hmem);
    [right; eauto|done|done|done|].
  apply inc_settle; [done|done|]. intros j Hj Hk Hoj. rewrite Hinc in Hj. cbn.
  rewrite (nodup_key_inj in_id _ j i (ii_ids _ _ Hinv) Hj Hi Hk), Hmem, Ho, worst_app.
  rewrite status_app_firing, worst_single by done. split; [done|]. intros _. unfold escalate.
  rewrite (ii_severity _ _ Hinv i Hi), <- Hsev by done.
  apply str_in_spec in Hok as [<-|[<-|[]]]; by destruct (worst_cases (members_of (in_id i) d)) as [-> | ->].
Qed.

Lemma fired_new d a row now new d1 u d2 :
  inc_inv d -> announced a row d -> open_incident (in_group_key new) d = None ->
  in_status new = "open" -> in_severity new = a_Severity a ->
  insert_incident new d = inr (u, d1) ->
  insert_member (mkMemberRow (in_id new) (a_ID a) now None) d1 = inr (u, d2) ->
  inc_inv d2.
Proof.
  intros Hinv Hrow Eo Hopen Hnsev E E2. pose proof Hrow as (Hfind & Hfire & Hsev & Hok).
  unfold insert_incident in E. sql_inv E. apply insert_pk_inv in E as [-> Hfresh].
  assert (inc_inv_ex (Some (in_id new)) (set_incidents (db_incidents d ++ [new]) d)) as Hinv1.
  { apply inc_add_incident; auto. intros j Hj Hoj Hgj.
    pose proof (sql_find_none _ _ Eo j Hj) as Hn. cbn beta in Hn.
    rewrite Hgj, Hoj, String.eqb_refl in Hn. done. }
  destruct (fired_join _ a row _ _ _ _ _ (or_introl Hinv1) Hrow eq_refl E2) as (Hinv2 & Hinc & Hmem).
  eapply inc_close; [done|]. intros j Hj Hk. rewrite Hinc in Hj. cbn in Hj.
  apply in_app_iff in Hj as [Hj|[<-|[]]]; [by destruct (Hfresh j)|].
  rewrite Hmem, status_app_firing, members_of_none, app_nil_l, worst_single, Hsev; try done.
  intros m (j & Hj & Hk')%(ii_incident_fk _ _ Hinv) Hm. destruct (Hfresh j Hj). congruence.
Qed.

Lemma fired_inv d a row now notify :
  inc_inv d -> announced a row d ->
  runs d (alertFiredTx reminderInterval a now notify) (fun _ d' => inc_inv d').
Proof.
  intros Hinv Hrow. unfold alertFiredTx. destruct (groupFor a) as [[group targetType] targetID].
  apply runs_bind, runs_find. destruct (open_incident group d) as [i|] eqn:Eo.
  - apply sql_find_some in Eo as [Hi [Hg%String.eqb_eq Ho%String.eqb_eq]%andb_true_iff].
    apply runs_bind, runs_bind, runs_exec. intros n d1 [= <- <-]. apply runs_ret.
    fold (escalate i a). apply runs_bind, runs_exec. intros u d2 E.
    pose proof (fired_existing _ _ _ _ _ _ _ Hinv Hrow Hi Ho E).
    destruct notify; [by apply enqueue_inv|by apply runs_ret].
  - apply runs_bind, runs_bind. unfold newID. apply runs_bind, runs_rand. intros h. apply runs_ret.
    apply runs_bind, runs_exec. intros [] d1 E. apply runs_ret, runs_bind, runs_exec.
    intros [] d2 E2.
    assert (inc_inv d2) by (by eapply (fired_new d a row (time_unix now)); [..|exact E|exact E2]).
    destruct notify; [by apply enqueue_inv|by apply runs_ret].
Qed.

Definition incident_of (alertID : string) (d : DB) : option string :=
  im_incident_id <$> sql_find (fun m => im_alert_id m =?s alertID) (db_members d).

Lemma incident_of_member alertID d m :
  NoDup (map im_alert_id (db_members d)) -> In m (db_members d) -> im_alert_id m = alertID ->
  incident_of alertID d = Some (im_incident_id m).
Proof. intros Hnd Hm <-. unfold incident_of. by rewrite sql_find_key. Qed.

(** Resolving a firing alert leaves every incident but its own up to date. *)
Lemma inc_resolve_alert a t d :
  inc_inv d -> In a (db_alerts d) -> is_firing a = true ->
  inc_inv_ex (incident_of (al_id a) d)
    (set_alerts (sql_update (fun b => al_id b =?s al_id a) (resolve_row t) (db_alerts d)) d).
Proof.
  intros [Has Hai Hid Hmem Hifk Hafk Hst Hsev Hop Hgr] Ha Hfire.
  assert (forall id, incident_of (al_id a) d <> Some id -> members_of id (set_alerts
    (sql_update (fun b => al_id b =?s al_id a) (resolve_row t) (db_alerts d)) d) =
    members_of id d) as Hof.
  { intros id Hne. apply members_of_alerts. intros m Hm Hmi. apply sql_find_update; [done|].
    intros Hk. apply Hne. rewrite <- Hmi. by apply incident_of_member. }
  split; cbn [db_alerts db_incidents db_members set_alerts]; auto.
  - intros b (b0 & Hb0 & ->)%in_sql_update. destruct (_ =?s _); by apply (Has b0).
  - by rewrite sql_update_map.
  - intros m (b & Hb & Hk)%Hafk. exists (if al_id b =?s al_id a then resolve_row t b else b).
    split; [apply in_sql_update; eauto|]. by destruct (al_id b =?s al_id a).
  - intros i Hi Hne. rewrite Hof by done. by apply Hst.
  - intros i Hi Hne Ho. rewrite Hof by done. by apply Hsev.
  - intros i Hi Hk. unfold incident_of in Hk.
    destruct (sql_find _ _) as [m|] eqn:E; [|done]. cbn in Hk. injection Hk as Hk.
    apply sql_find_some in E as [Hm Hma%String.eqb_eq].
    rewrite (Hst i Hi) by done. unfold status_of.
    replace (sql_exists is_firing (members_of (in_id i) d)) with true; [done|]. symmetry.
    apply sql_exists_true. exists a. split; [|done]. apply list_elem_of_In, list_elem_of_omap.
    exists m. split; [by apply list_elem_of_In|]. rewrite Hk, String.eqb_refl, Hma.
    by apply sql_find_key.
Qed.

Lemma resolved_inv d alertID now :
  inc_inv_ex (incident_of alertID d) d ->
  runs d (Repo_AlertResolvedTx alertID now) (fun _ d' => inc_inv d').
Proof.
  intros Hinv. unfold Repo_AlertResolvedTx. apply runs_bind, runs_find.
  fold (incident_of alertID d). destruct (incident_of alertID d) as [x|]; [|by apply runs_ret].
  apply runs_bind, runs_exec. intros n d1 [= <- <-]. set (d1 := set_members _ d).
  assert (inc_inv_ex (Some x) d1) as Hinv1.
  { assert (forall id, members_of id d1 = members_of id d) as Hof
      by (intros; apply members_of_resolved_at).
    destruct Hinv as [? ? ? ? Hifk Hafk ? ? ? ?]. split; cbn [db_alerts db_incidents db_members d1 set_members];
      auto; try (intros; rewrite Hof; by auto).
    - by rewrite sql_update_map.
    - intros m (m0 & Hm0 & ->)%in_sql_update. destruct (_ && _); apply (Hifk m0 Hm0).
    - intros m (m0 & Hm0 & ->)%in_sql_update. destruct (_ && _); apply (Hafk m0 Hm0). }
  clearbody d1. apply runs_bind, runs_query. destruct (0 <? _) eqn:Ef.
  - apply runs_bind, runs_query, runs_bind, runs_exec. intros n' d2 [= <- <-]. apply runs_ret.
    fold (worst (members_of x d1)). apply inc_settle; [done|done|]. intros i Hi Hk Ho.
    split; [|done]. cbn. rewrite Ho. unfold status_of.
    destruct (sql_exists is_firing _) eqn:Ex; [done|].
    rewrite sql_exists_false in Ex. apply sql_count_zero in Ex. lia.
  - apply runs_bind, runs_exec. intros n' d2 [= <- <-].
    apply runs_preserves; [apply resolution_preserves; intros; by apply inc_inv_deliveries|].
    apply inc_settle; [done|done|]. intros i Hi Hk Ho. split; [|done]. cbn. unfold status_of.
    destruct (sql_exists is_firing _) eqn:Ex; [|done].
    assert (sql_count is_firing (members_of x d1) = 0) as Hz
      by (pose proof (sql_count_nonneg is_firing (members_of x d1)); lia).
    apply sql_exists_true in Ex as (b & Hb & Hfb).
    rewrite sql_count_zero in Hz. by rewrite Hz in Hfb.
Qed.

(** ** Evaluation with the incident repository as its sink *)

Context `{MapOrder}.

Lemma inc_insert_alert a d u d' :
  inc_inv d -> insert_alert a d = inr (u, d') ->
  inc_inv d' /\ d' = set_alerts (db_alerts d ++ [a]) d /\
  str_in (al_severity a) ["warning"; "critical"] = true.
Proof.
  intros [Has Hai Hid Hmem Hifk Hafk Hst Hsev Hop Hgr] E. unfold insert_alert in E. sql_inv E.
  pose proof (insert_pk_nodup _ _ _ _ E Hai) as Hnd. apply insert_pk_inv in E as [-> Hne].
  assert (forall id, members_of id (set_alerts (db_alerts d ++ [a]) d) = members_of id d) as Hof.
  { intros id. apply members_of_alerts. intros m (b & Hb & Hk)%Hafk _. rewrite <- Hk.
    by rewrite !sql_find_key by first [done | apply in_app_iff; by auto]. }
  split_and!; [|done|done]. split; cbn [db_alerts db_incidents db_members set_alerts]; auto; try done.
  - intros b [Hb|[<-|[]]]%in_app_iff; auto.
  - intros m (b & Hb & Hk)%Hafk. exists b. rewrite in_app_iff. auto.
  - intros i Hi Hex. rewrite Hof. by apply Hst.
  - intros i Hi Hex. rewrite Hof. by apply Hsev.
Qed.

Lemma inc_insertEvent d id rule target ty now :
  inc_inv d -> runs d (insertEvent id rule target ty now) (fun _ d' => inc_inv d').
Proof.
  intros Hd. unfold insertEvent. apply runs_exec. intros u d' E. sql_inv E. by eapply inc_inv_ext.
Qed.

Lemma inc_observe key t value d :
  inc_inv d -> inc_inv (set_alerts (sql_update (firing_for key) (observe_row t value) (db_alerts d)) d).
Proof.
  intros [Has Hai Hid Hmem Hifk Hafk Hst Hsev Hop Hgr].
  set (h a := if firing_for key a then observe_row t value a else a).
  assert (forall id, members_of id (set_alerts (map h (db_alerts d)) d) = map h (members_of id d)) as Hof.
  { intros id. unfold members_of. cbn [db_alerts db_members set_alerts].
    rewrite <- omap_map. apply omap_ext_in. intros m _.
    destruct (im_incident_id m =?s id); [|done]. apply sql_find_map.
    intros b. unfold h. by destruct (firing_for key b). }
  assert (forall (q : AlertRow -> bool) l, (forall b, q (h b) = q b) ->
    sql_exists q (map h l) = sql_exists q l) as Hex.
  { intros q l Hq. unfold sql_exists. induction l as [|b l IH]; cbn; [done|]. by rewrite Hq, IH. }
  fold (map h (db_alerts d)). unfold sql_update. fold h.
  split; cbn [db_alerts db_incidents db_members set_alerts]; auto; try done.
  - intros b (b0 & <- & Hb0)%in_map_iff. unfold h. destruct (firing_for key b0); by apply (Has b0).
  - rewrite map_map. erewrite map_ext; [exact Hai|]. intros b. unfold h. by destruct (firing_for key b).
  - intros m (b & Hb & Hk)%Hafk. exists (h b). split; [by apply in_map|].
    unfold h. by destruct (firing_for key b).
  - intros i Hi _. rewrite Hof. unfold status_of. rewrite Hex; [by apply Hst|].
    intros b. unfold h. by destruct (firing_for key b).
  - intros i Hi _ Ho. rewrite Hof. unfold worst. rewrite Hex; [by apply Hsev|].
    intros b. unfold h. by destruct (firing_for key b).
Qed.

Lemma evaluate_inv rule targetType target value failing recovered now :
  preserves inc_inv (evaluate (Some (incident_sink reminderInterval)) rule targetType target value
    failing recovered now).
Proof.
  unfold evaluate. apply tx_preserves. intros d Hd.
  apply runs_bind, runs_find, runs_bind, suppressedTx_runs, runs_bind, runs_exec.
  intros u d1 (row & -> & _)%upsert_eval_inr.
  assert (inc_inv (set_eval (<[dedup (r_Family rule) target := row]> (db_eval d)) d)) as Hd1
    by (by eapply inc_inv_ext).
  clear Hd. revert Hd1. generalize (set_eval (<[dedup (r_Family rule) target := row]> (db_eval d)) d).
  intros d1 Hd. case_match; [|case_match; [|case_match; [|case_match]]].
  - unfold on_trigger. apply runs_bind, runs_rand. intros id. apply runs_bind, runs_exec.
    intros v d2 E. apply inc_insert_alert in E as (Hd2 & -> & Hsev); [|done].
    apply runs_bind. cbn [with_sink]. set (new := mkAlertRow _ _ _ _ _ _ _ _ _ _ _ _ _) in *.
    eapply runs_mono.
    + apply (fired_inv _ _ new); [done|]. split_and!; [|done..]. cbn [a_ID db_alerts set_alerts].
      change id with (al_id new). apply sql_find_key; [apply Hd2|]. apply in_app_iff. cbn. auto.
    + intros v' d3 Hd3. by apply inc_insertEvent.
  - unfold on_repeat. apply runs_bind, runs_rand. intros id. by apply inc_insertEvent.
  - unfold on_resolve. apply runs_bind, runs_find.
    destruct (sql_latest _ _ _) as [a|] eqn:El; cbn [fmap option_fmap option_map]; [|by apply runs_ret].
    apply sql_latest_some in El as (Ha & [_ Hf]%andb_true_iff & _).
    apply runs_bind, runs_exec. intros n d2 [= <- <-]. apply runs_bind. cbn [with_sink].
    eapply runs_mono;
      [apply resolved_inv; exact (inc_resolve_alert a (time_unix now) _ Hd Ha Hf)|].
    intros v' d3 Hd3. by apply inc_insertEvent.
  - unfold on_observe. apply runs_bind, runs_exec. intros n d2 [= <- <-].
    by apply runs_ret, inc_observe.
  - by apply runs_ret.
Qed.

Lemma firing_not_expired cutoff a : is_firing a = true -> expired_alert cutoff a = false.
Proof. unfold is_firing, expired_alert. by intros ->%String.eqb_eq. Qed.

Lemma find_delete {R} (key : R -> string) p t id r :
  NoDup (map key t) -> sql_find (fun x => key x =?s id) (sql_delete p t) = Some r ->
  sql_find (fun x => key x =?s id) t = Some r.
Proof.
  intros Hnd [Hr Hk%String.eqb_eq]%sql_find_some. apply in_sql_delete in Hr as [Hr _]. subst id.
  by apply sql_find_key.
Qed.

Lemma in_members_of id d a :
  In a (members_of id d) <-> exists m, In m (db_members d) /\ im_incident_id m = id /\
    sql_find (fun b => al_id b =?s im_alert_id m) (db_alerts d) = Some a.
Proof.
  unfold members_of. rewrite <- list_elem_of_In, list_elem_of_omap. split.
  - intros (m & Hm%list_elem_of_In & E). destruct (im_incident_id m =?s id) eqn:Ei; [|done].
    apply String.eqb_eq in Ei. eauto.
  - intros (m & Hm & <- & E). exists m. rewrite String.eqb_refl. split; [by apply list_elem_of_In|done].
Qed.

(** Deleting alerts that do not fire, and the memberships with them. *)
Lemma inc_expire cutoff d : inc_inv d -> inc_inv (delete_alerts (expired_alert cutoff) d).
Proof.
  intros [Has Hai Hid Hmem Hifk Hafk Hst Hsev Hop Hgr]. set (d' := delete_alerts _ d).
  set (p := expired_alert cutoff).
  assert (forall m, In m (db_members d') <-> In m (db_members d) /\
    forall a, In a (db_alerts d) -> al_id a = im_alert_id m -> p a = false) as Hm.
  { intros m. cbn [d' delete_alerts db_members set_members]. rewrite in_sql_delete, sql_exists_false.
    split; intros [Hin Hx]; (split; [done|]); intros a Ha.
    - intros Hk. specialize (Hx a Ha). fold p in Hx. by rewrite Hk, String.eqb_refl, andb_true_r in Hx.
    - fold p. destruct (al_id a =?s im_alert_id m) eqn:E; [|by rewrite andb_false_r].
      apply String.eqb_eq in E. by rewrite (Hx a Ha E). }
  assert (forall q id, (forall a, q a = true -> is_firing a = true) ->
    sql_exists q (members_of id d') = sql_exists q (members_of id d)) as Hex.
  { intros q id Hq. apply eq_true_iff_eq. rewrite !sql_exists_true.
    setoid_rewrite (in_members_of id). split.
    - intros (a & (m & Hin & Hi & Hf) & Ha). exists a. split; [|done]. exists m.
      apply Hm in Hin as [Hin Hx]. split_and!; auto.
      cbn [d' delete_alerts db_alerts set_members set_alerts] in Hf. by eapply find_delete.
    - intros (a & (m & Hin & Hi & Hf) & Ha). exists a. split; [|done]. exists m.
      apply sql_find_some in Hf as Hf'. destruct Hf' as [Hal Hk%String.eqb_eq].
      assert (p a = false) as Hpa by (by apply firing_not_expired, Hq).
      assert (forall b, In b (db_alerts d) -> al_id b = im_alert_id m -> p b = false) as Hx
        by (intros b Hb Hkb; by rewrite (nodup_key_inj al_id _ b a Hai Hb Hal) by congruence).
      split_and!; [by apply Hm|done|]. cbn [d' delete_alerts db_alerts set_members set_alerts].
      rewrite <- Hk. apply sql_find_key; [by apply nodup_map_delete|]. by apply in_sql_delete. }
  split; cbn [db_alerts db_incidents d' delete_alerts set_members set_alerts]; auto; try done.
  - intros a [Ha _]%in_sql_delete. auto.
  - by apply nodup_map_delete.
  - by apply nodup_map_delete.
  - intros m [Hin _]%Hm. auto.
  - intros m [Hin Hx]%Hm. destruct (Hafk m Hin) as (a & Ha & Hk). exists a. split; [|done].
    apply in_sql_delete. auto.
  - intros i Hi _. unfold status_of. rewrite Hex by done. by apply Hst.
  - intros i Hi _ Ho. unfold worst. rewrite Hex; [by apply Hsev|]. by intros a [? _]%andb_true_iff.
Qed.

(** Changing columns the invariant does not read. *)
Lemma inc_touch p f d :
  (forall i, in_id (f i) = in_id i /\ in_status (f i) = in_status i /\
    in_severity (f i) = in_severity i /\ in_group_key (f i) = in_group_key i) ->
  inc_inv d -> inc_inv (set_incidents (sql_update p f (db_incidents d)) d).
Proof.
  intros Hf [Has Hai Hid Hmem Hifk Hafk Hst Hsev Hop Hgr].
  assert (forall i, In i (sql_update p f (db_incidents d)) -> exists i0, In i0 (db_incidents d) /\
    i = (if p i0 then f i0 else i0) /\ in_id i = in_id i0 /\ in_status i = in_status i0 /\
    in_severity i = in_severity i0 /\ in_group_key i = in_group_key i0) as Hin.
  { intros i (i0 & Hi0 & ->)%in_sql_update. exists i0. destruct (Hf i0) as (? & ? & ? & ?).
    destruct (p i0); split_and!; auto. }
  split; cbn [db_alerts db_incidents db_members set_incidents]; auto; try done.
  - rewrite sql_update_map; [done|]. apply Hf.
  - intros m (i & Hi & Hk)%Hifk. exists (if p i then f i else i).
    split; [apply in_sql_update; eauto|]. destruct (p i); [|done]. by rewrite (proj1 (Hf i)).
  - intros i (i0 & Hi0 & _ & Hk & Hs & _)%Hin _. rewrite Hs, Hk. by apply Hst.
  - intros i (i0 & Hi0 & _ & Hk & Hs & Hv & _)%Hin _ Ho. rewrite Hv, Hk. apply Hsev; congruence.
  - intros i j (i0 & Hi0 & -> & _ & Hs & _ & Hg)%Hin (j0 & Hj0 & -> & _ & Hs' & _ & Hg')%Hin Ho Ho' E.
    rewrite (Hgr i0 j0); [done|done|done|congruence..].
Qed.

Lemma inc_delete_incidents cutoff d : inc_inv d -> inc_inv (delete_incidents (expired_incident cutoff) d).
Proof.
  intros [Has Hai Hid Hmem Hifk Hafk Hst Hsev Hop Hgr]. set (p := expired_incident cutoff).
  apply inc_inv_deliveries. set (gone := fun id => sql_exists (fun i => p i && (in_id i =?s id)) (db_incidents d)).
  assert (forall i, In i (db_incidents d) -> p i = false -> gone (in_id i) = false) as Hg.
  { intros i Hi Hp. apply sql_exists_false. intros j Hj. destruct (in_id j =?s in_id i) eqn:E;
      [|by rewrite andb_false_r]. apply String.eqb_eq in E.
    by rewrite (nodup_key_inj in_id _ j i Hid Hj Hi E), Hp. }
  set (d' := set_members _ _).
  assert (forall id, gone id = false -> members_of id d' = members_of id d) as Hof.
  { intros id Hn. unfold members_of. cbn [d' db_members db_alerts set_members set_incidents].
    apply omap_delete. intros m Hm. destruct (im_incident_id m =?s id) eqn:Ei; [|done].
    apply String.eqb_eq in Ei. subst id. unfold gone in Hn. congruence. }
  split; cbn [db_alerts db_incidents db_members d' set_members set_incidents]; auto; try done.
  - by apply nodup_map_delete.
  - by apply nodup_map_delete.
  - intros m [Hm Hn]%in_sql_delete. destruct (Hifk m Hm) as (i & Hi & Hk). exists i. split; [|done].
    apply in_sql_delete. split; [done|]. rewrite sql_exists_false in Hn. specialize (Hn i Hi).
    by rewrite Hk, String.eqb_refl, andb_true_r in Hn.
  - by intros m [Hm _]%in_sql_delete; apply Hafk.
  - intros i [Hi Hp]%in_sql_delete _. rewrite Hof by auto. by apply Hst.
  - intros i [Hi Hp]%in_sql_delete _ Ho. rewrite Hof by auto. by apply Hsev.
  - intros i j [Hi _]%in_sql_delete [Hj _]%in_sql_delete. by apply Hgr.
Qed.

Lemma reconcile_inv now : preserves inc_inv (Reconcile reminderInterval now).
Proof.
  unfold Reconcile. apply tx_preserves. intros d Hd. apply runs_bind, runs_query.
  eapply runs_mono; [apply (runs_iter (fun d' => inc_inv d' /\ db_alerts d' = db_alerts d))|by intros _ d' [? _]].
  - intros a d1 Ha [Hd1 Hal]. unfold reconcile_alert. apply runs_bind.
    assert (In a (db_alerts d) /\ is_firing a = true) as [Hin Hf].
    { apply list_elem_of_In in Ha. unfold orphan_alerts in Ha. rewrite sql_order_by_perm in Ha.
      apply list_elem_of_In, filter_In in Ha as [? [? _]%andb_true_iff]. auto. }
    eapply runs_mono; [apply runs_and;
      [|apply (runs_preserves _ _ _ (fired_view reminderInterval (alert_of_row a) now false (alert_view d1)) eq_refl)]|].
    + apply (fired_inv _ _ a); [done|]. split_and!; [|done|done|].
      * rewrite Hal. cbn [a_ID alert_of_row]. apply sql_find_key; [apply Hd|done].
      * by apply (ii_alert_severity _ _ Hd).
    + intros _ d2 [Hd2 Hv]. apply runs_exec. intros u d3 [= <- <-]. split.
      * by apply inc_touch.
      * unfold alert_view in Hv. cbn. congruence.
  - done.
Qed.

Lemma reminders_inv now interval : preserves inc_inv (ScheduleReminders now interval).
Proof.
  unfold ScheduleReminders, update_rows. frame_auto.
  - apply exec_preserves. intros d n d' Hd E. simplify_eq. by apply inc_touch.
  - apply enqueue_preserves. intros. by apply inc_inv_deliveries.
Qed.

Lemma notification_cleanup_inv now : preserves inc_inv (Repo_Cleanup now).
Proof.
  unfold Repo_Cleanup, delete_rows. frame_auto; apply exec_preserves; intros d n d' Hd E; simplify_eq.
  - by apply inc_inv_deliveries.
  - by apply inc_delete_incidents.
Qed.

Lemma Evaluate_inv snap now :
  preserves inc_inv (Evaluate (Some (incident_sink reminderInterval)) snap now).
Proof.
  apply Evaluate_preserves_gen.
  - intros. apply evaluate_inv.
  - intros. by apply inc_expire.
  - intros t d Hd. by eapply inc_inv_ext.
  - intros t d Hd. by eapply inc_inv_ext.
Qed.

(** ** Properties *)

(** What the server does to incidents over time: evaluation passes, the
    retention of the event log and the edits of rules and silences between
    them, the reconciliation at start-up, the notification maintenance, and
    requests on deliveries and channels. *)
Inductive MonitorOp :=
  | MAlert (op : AlertOp)
  | MReconcile (now : Z)
  | MReminders (now interval : Z)
  | MCleanup (now : Z)
  | MRetry (id : string)
  | MTest (channelID : string)
  | MDeleteChannel (id : string).

Definition monitor_step (op : MonitorOp) : tx DB unit :=
  match op with
  | MAlert op => alert_step (Some (incident_sink reminderInterval)) op
  | MReconcile now => ignore (Reconcile reminderInterval now)
  | MReminders now interval => ignore (ScheduleReminders now interval)
  | MCleanup now => ignore (Repo_Cleanup now)
  | MRetry id => ignore (Retry id)
  | MTest id => ignore (Repo_Test id)
  | MDeleteChannel id => ignore (DeleteChannel id)
  end.

Definition monitor_run (ops : list MonitorOp) : tx DB unit := iter_tx monitor_step ops.

Lemma monitor_inv ops : preserves inc_inv (monitor_run ops).
Proof.
  apply preserves_iter. intros [ | | | | | | ]; cbn [monitor_step]; [|apply preserves_ignore..].
  - apply alert_step_preserves; [apply Evaluate_inv|..]; intros t d Hd; by eapply inc_inv_ext.
  - apply reconcile_inv.
  - apply reminders_inv.
  - apply notification_cleanup_inv.
  - unfold Retry, update_rows. frame_auto. apply exec_preserves. intros d n d' Hd E. simplify_eq.
    by apply inc_inv_deliveries.
  - unfold Repo_Test, newID. frame_auto. apply exec_preserves. intros d n d' Hd E.
    unfold insert_delivery in E. sql_inv E. by apply inc_inv_deliveries.
  - unfold DeleteChannel, update_rows. frame_auto; apply exec_preserves; intros d n d' Hd E;
      simplify_eq; by eapply inc_inv_ext.
Qed.

(** C1 (invariant): incidents follow their alerts.  From a database without alerts
    and incidents, after any interleaving of evaluation passes,
    retention runs on the event log, edits of rules and silences,
    reconciliations, reminders, retention clean-ups and delivery or channel
    requests, with any statement failing anywhere: an incident is open exactly
    while one of its member alerts fires, an open incident has the worst
    severity of its firing members, a group has at most one open incident,
    and an alert belongs to at most one incident. *)
Theorem incidents_follow_alerts (ops : list MonitorOp) (w : world DB) :
  db_alerts (w_db w) = [] -> db_incidents (w_db w) = [] -> db_members (w_db w) = [] ->
  let d := w_db (monitor_run ops w).2 in
  (forall i, In i (db_incidents d) ->
    (in_status i = "open" <-> exists a, In a (members_of (in_id i) d) /\ al_status a = "firing") /\
    (in_status i = "open" -> in_severity i = worst (members_of (in_id i) d))) /\
  (forall i j, In i (db_incidents d) -> In j (db_incidents d) ->
    in_status i = "open" -> in_status j = "open" -> in_group_key i = in_group_key j -> i = j) /\
  NoDup (map im_alert_id (db_members d)).
Proof.
  intros Ha Hi Hm.
  assert (inc_inv (w_db w)) as Hw by (split; rewrite ?Ha, ?Hi, ?Hm; try done; constructor).
  pose proof (monitor_inv ops w Hw) as Hp.
  assert (inc_inv (w_db (monitor_run ops w).2)) as Hd by (by destruct (monitor_run ops w) as [[e|u] w']).
  cbn zeta. split_and!; [|by eapply ii_group|by eapply ii_members].
  intros i Hin. split; [|by eapply ii_severity].
  rewrite (ii_status _ _ Hd i Hin) by done. unfold status_of.
  destruct (sql_exists is_firing _) eqn:E.
  - apply sql_exists_true in E as (a & Hin' & Hf%String.eqb_eq). split; eauto.
  - split; [done|]. intros (a & Hin' & Hf). rewrite sql_exists_false in E.
    specialize (E a Hin'). unfold is_firing in E. by rewrite Hf in E.
Qed.
End operations.

(** A busy processor opens one incident.  It stays open over the idle passes
    that cannot resolve the alert yet, and is resolved with the alert by the
    pass after retention. *)
Lemma incidents_follow_alerts_witness :
  let ops := MReconcile 0 :: map MAlert cpu_operations in
  let before := w_db (monitor_run 0 (firstn 7 ops) cpu_world).2 in
  let d := w_db (monitor_run 0 ops cpu_world).2 in
  map in_status (db_incidents before) = ["open"] /\ map al_status (db_alerts before) = ["firing"] /\
  map in_status (db_incidents d) = ["resolved"] /\ map al_status (db_alerts d) = ["resolved"] /\
  (forall i, In i (db_incidents d) ->
    (in_status i = "open" <-> exists a, In a (members_of (in_id i) d) /\ al_status a = "firing") /\
    (in_status i = "open" -> in_severity i = worst (members_of (in_id i) d))).
Proof.
  split_and!; [by vm_compute..|].
  exact (proj1 (incidents_follow_alerts 0 (MReconcile 0 :: map MAlert cpu_operations)
                  cpu_world eq_refl eq_refl eq_refl)).
Defined.
