(* ===== verification/Channels.v ===== *)
(** * Notification channels

    The channel half of [internal/notifications/repository.go]: validation,
    creation and patching of channels whose credentials live in the encrypted
    secret store. *)

From stdpp Require Import base tactics list gmap strings.
From Stdlib Require Import ZArith Lia Ascii.
From S2P Require Import Prelude GoString Float64 Db AlertState Schema AlertRepository Secrets Incidents.

(** ** Data *)

Record Channel := mkChannel {
  ch_ID : string; ch_Name : string; ch_Kind : string; ch_Enabled : bool;
  ch_MinimumSeverity : string; ch_NotifyResolved : bool; ch_Config : option (gmap string string);
  ch_SecretConfigured : bool; ch_CreatedAt : Z; ch_UpdatedAt : Z;
}.

Record ChannelSecrets := mkChannelSecrets {
  sec_URL : string; sec_BearerToken : string; sec_SigningSecret : string; sec_Host : string;
  sec_Username : string; sec_Password : string; sec_Sender : string; sec_Recipients : list string;
}.

Record SecretPatch := mkSecretPatch {
  pt_URL : option string; pt_BearerToken : option string; pt_SigningSecret : option string;
  pt_Host : option string; pt_Username : option string; pt_Password : option string;
  pt_Sender : option string; pt_Recipients : option (list string);
}.

(** [if patch.X != nil { current.X = *patch.X }], field by field *)
Definition apply_patch (p : SecretPatch) (s : ChannelSecrets) : ChannelSecrets :=
  mkChannelSecrets (default (sec_URL s) (pt_URL p))
    (default (sec_BearerToken s) (pt_BearerToken p))
    (default (sec_SigningSecret s) (pt_SigningSecret p))
    (default (sec_Host s) (pt_Host p)) (default (sec_Username s) (pt_Username p))
    (default (sec_Password s) (pt_Password p)) (default (sec_Sender s) (pt_Sender p))
    (default (sec_Recipients s) (pt_Recipients p)).

(** [encoding/json] on [ChannelSecrets]: what was marshalled unmarshals to
    itself. *)
Class SecretsCodec := {
  marshal_secrets : ChannelSecrets -> string;
  unmarshal_secrets : string -> option ChannelSecrets;
  unmarshal_marshal : forall s, unmarshal_secrets (marshal_secrets s) = Some s;
}.

Section channels.
Context `{Rand} `{SecretsCodec}.
(** [mail.ParseAddress] accepts the text. *)
Context (parse_address : string -> bool).
(** [r.secrets]: nil, or a store with or without a master key *)
Context (secrets : option (option AEAD)).

Definition str_empty (s : string) : bool := s =?s "".

(** The error text, or [None]. *)
Definition validateChannel (c : Channel) (s : ChannelSecrets) : option string :=
  let min := if str_empty (ch_MinimumSeverity c) then "warning" else ch_MinimumSeverity c in
  if str_empty (TrimSpace (ch_Name c)) || (120 <? str_len (ch_Name c))
  then Some "channel name is required"
  else if negb (ch_Kind c =?s "webhook") && negb (ch_Kind c =?s "smtp")
  then Some "channel kind must be webhook or smtp"
  else if negb (min =?s "warning") && negb (min =?s "critical")
  then Some "invalid minimum severity"
  else if (ch_Kind c =?s "webhook") && str_empty (sec_URL s) then Some "webhook URL is required"
  else if ch_Kind c =?s "smtp" then
    let tlsMode := default "" (default ∅ (ch_Config c) !! "tlsMode") in
    if str_empty (sec_Host s) || str_empty (sec_Sender s) ||
       (Z.of_nat (length (sec_Recipients s)) =? 0) || (20 <? Z.of_nat (length (sec_Recipients s)))
    then Some "SMTP host, sender, and 1-20 recipients are required"
    else if negb (tlsMode =?s "starttls") && negb (tlsMode =?s "implicit")
    then Some "SMTP TLS mode must be starttls or implicit"
    else if negb (parse_address (sec_Sender s)) then Some "invalid SMTP sender"
    else if negb (forallb parse_address (sec_Recipients s)) then Some "invalid SMTP recipient"
    else None
  else None.

Definition live_channel (c : ChannelRow) : bool :=
  match cn_deleted_at c with None => true | Some _ => false end.

(** [INSERT INTO notification_channels], behind the limit trigger *)
Definition insert_channel (c : ChannelRow) (d : DB) : gerr + (unit * DB) :=
  guard_c (sql_count live_channel (db_channels d) <? 32) "notification channel limit reached"
  (guard_c ((1 <=? char_length (cn_name c)) && (char_length (cn_name c) <=? 120)) "name"
  (guard_c (str_in (cn_kind c) ["webhook"; "smtp"]) "kind"
  (guard_c (str_in (cn_minimum_severity c) ["warning"; "critical"]) "minimum_severity"
  (put set_channels (insert_pk cn_id c (db_channels d)) d)))).

Definition secret_ref (id : string) : string := "notification.channel." +:+ id.

(** Runs the clean-up when the statement fails, and still fails. *)
Definition on_error {A} (m : tx DB A) (cleanup : tx DB unit) : tx DB A := fun w =>
  match m w with
  | (inl e, w') => (inl e, (cleanup w').2)
  | r => r
  end.

Definition CreateChannel (c : Channel) (s : ChannelSecrets) : tx DB Channel :=
  n <- query (fun d => sql_count live_channel (db_channels d)) ;;
  if 32 <=? n then throw (EMsg "notification channel limit reached")
  else
    id <- (if str_empty (ch_ID c) then newID "chn_" else ret (ch_ID c)) ;;
    let min := if str_empty (ch_MinimumSeverity c) then "warning" else ch_MinimumSeverity c in
    let config := default ∅ (ch_Config c) in
    let c := mkChannel id (ch_Name c) (ch_Kind c) (ch_Enabled c) min (ch_NotifyResolved c)
               (Some config) (ch_SecretConfigured c) (ch_CreatedAt c) (ch_UpdatedAt c) in
    match validateChannel c s with
    | Some e => throw (EMsg e)
    | None =>
        match secrets with
        | None => throw ErrMasterKeyMissing
        | Some store =>
            Put store (secret_ref id) (marshal_secrets s) ;;;
            now <- time_now ;;
            on_error (exec (insert_channel (mkChannelRow id (ch_Name c) (ch_Kind c) (ch_Enabled c)
              min (ch_NotifyResolved c) config (secret_ref id) (time_unix now) (time_unix now) None)))
              (Delete (secret_ref id)) ;;;
            ret (mkChannel id (ch_Name c) (ch_Kind c) (ch_Enabled c) min (ch_NotifyResolved c)
                   (Some config) true now now)
        end
    end.

(** One row of [Channels], with the secret's presence from the join *)
Definition scan_channel (d : DB) (c : ChannelRow) : Channel :=
  mkChannel (cn_id c) (cn_name c) (cn_kind c) (cn_enabled c) (cn_minimum_severity c)
    (cn_notify_resolved c) (Some (cn_config c))
    (bool_decide (is_Some (db_secrets d !! cn_secret_ref c)))
    (of_unix (cn_created_at c)) (of_unix (cn_updated_at c)).

Definition Channels : tx DB (list Channel) :=
  query (fun d => map (scan_channel d)
    (sql_order_by (fun a b => String.leb (cn_name a) (cn_name b))
       (List.filter live_channel (db_channels d)))).

Definition Repo_Channel (id : string) : tx DB Channel :=
  list <- Channels ;;
  match List.find (fun c => ch_ID c =?s id) list with
  | Some c => ret c
  | None => throw ENoRows
  end.

Definition store_get (key : string) : tx DB string :=
  match secrets with None => throw ErrMasterKeyMissing | Some store => Get store key end.
Definition store_put (key v : string) : tx DB unit :=
  match secrets with None => throw ErrMasterKeyMissing | Some store => Put store key v end.

Definition PatchedSecrets (id : string) (patch : SecretPatch) : tx DB ChannelSecrets :=
  b <- store_get (secret_ref id) ;;
  match unmarshal_secrets b with
  | None => throw (EMsg "invalid stored channel secret")
  | Some current => ret (apply_patch patch current)
  end.

Definition channel_patch (c : Channel) (now : Z) (r : ChannelRow) : ChannelRow :=
  mkChannelRow (cn_id r) (ch_Name c) (cn_kind r) (ch_Enabled c) (ch_MinimumSeverity c)
    (ch_NotifyResolved c) (default ∅ (ch_Config c)) (cn_secret_ref r) (cn_created_at r) now
    (cn_deleted_at r).

Definition PatchChannel (id : string) (c : Channel) (patch : SecretPatch) : tx DB Channel :=
  old <- Repo_Channel id ;;
  let c := mkChannel id (if str_empty (ch_Name c) then ch_Name old else ch_Name c) (ch_Kind old)
             (ch_Enabled c)
             (if str_empty (ch_MinimumSeverity c) then ch_MinimumSeverity old
              else ch_MinimumSeverity c)
             (ch_NotifyResolved c)
             (match ch_Config c with None => ch_Config old | Some m => Some m end)
             (ch_SecretConfigured c) (ch_CreatedAt c) (ch_UpdatedAt c) in
  current <- PatchedSecrets id patch ;;
  match validateChannel c current with
  | Some e => throw (EMsg e)
  | None =>
      store_put (secret_ref id) (marshal_secrets current) ;;;
      now <- time_now ;;
      with_tx (
        exec (fun d =>
          guard_c ((1 <=? char_length (ch_Name c)) && (char_length (ch_Name c) <=? 120)) "name"
          (guard_c (str_in (ch_MinimumSeverity c) ["warning"; "critical"]) "minimum_severity"
          (inr (tt, set_channels (sql_update (fun r => (cn_id r =?s id) && live_channel r)
             (channel_patch c (time_unix now)) (db_channels d)) d)))) ;;;
        if negb (ch_Enabled c) then
          update_rows db_deliveries set_deliveries
            (fun r => (de_channel_id r =?s id) && (de_status r =?s "pending"))
            (del_cancel (time_unix now)) ;;; ret tt
        else ret tt) ;;;
      Repo_Channel id
  end.
End channels.

(** ** A concrete codec, for evaluating examples: length-framed fields *)

Fixpoint count_x (l : list ascii) : nat * list ascii :=
  match l with
  | c :: l' => if Ascii.eqb c "x"%char then let '(n, r) := count_x l' in (S n, r) else (O, l)
  | [] => (O, [])
  end.

Fixpoint unframe (fuel : nat) (l : list ascii) : option (list string) :=
  match fuel, l with
  | _, [] => Some []
  | S fuel, _ =>
      let '(n, r) := count_x l in
      match r with
      | _ :: r => cons (of_bytes (take n r)) <$> unframe fuel (drop n r)
      | [] => None
      end
  | O, _ => None
  end.

Lemma count_x_frame n t : count_x (replicate n "x"%char ++ "y"%char :: t) = (n, "y"%char :: t).
Proof. induction n as [|n IH]; cbn; [done|]. by rewrite IH. Qed.

Lemma unframe_frames ss fuel :
  (length ss <= fuel)%nat -> unframe fuel (concat (map frame_of ss)) = Some ss.
Proof.
  revert fuel. induction ss as [|s ss IH]; intros fuel Hf; [by destruct fuel|].
  destruct fuel as [|fuel]; cbn in Hf; [lia|]. cbn [map concat].
  assert (exists c r, frame_of s ++ concat (map frame_of ss) = c :: r) as (c & r & E).
  { unfold frame_of at 1. destruct (length (bytes s)); cbn; eauto. }
  cbn [unframe]. rewrite E, <- E. unfold frame_of at 1. rewrite <- app_assoc. cbn.
  rewrite count_x_frame, take_app_length, drop_app_length, IH by lia. cbn.
  unfold of_bytes, bytes. by rewrite String.string_of_list_ascii_of_string.
Qed.

Definition secret_fields (s : ChannelSecrets) : list string :=
  [sec_URL s; sec_BearerToken s; sec_SigningSecret s; sec_Host s; sec_Username s; sec_Password s;
   sec_Sender s] ++ sec_Recipients s.

Definition framed_marshal (s : ChannelSecrets) : string :=
  of_bytes (concat (map frame_of (secret_fields s))).
Definition framed_unmarshal (b : string) : option ChannelSecrets :=
  match unframe (String.length b) (bytes b) with
  | Some (u :: t :: k :: h :: n :: p :: f :: r) => Some (mkChannelSecrets u t k h n p f r)
  | _ => None
  end.

Lemma length_list_ascii s : length (String.list_ascii_of_string s) = String.length s.
Proof. induction s; cbn; auto. Qed.

Lemma frames_length ss : (length ss <= length (concat (map frame_of ss)))%nat.
Proof.
  induction ss as [|s ss IH]; cbn; [lia|]. rewrite length_app. unfold frame_of at 1.
  rewrite length_app. cbn. lia.
Qed.

Lemma framed_roundtrip s : framed_unmarshal (framed_marshal s) = Some s.
Proof.
  unfold framed_unmarshal, framed_marshal, bytes, of_bytes.
  rewrite String.list_ascii_of_string_of_list_ascii, unframe_frames; [by destruct s|].
  rewrite <- (length_list_ascii (String.string_of_list_ascii _)).
  rewrite String.list_ascii_of_string_of_list_ascii. apply frames_length.
Qed.

#[export] Instance framed_codec : SecretsCodec := {|
  marshal_secrets := framed_marshal;
  unmarshal_secrets := framed_unmarshal;
  unmarshal_marshal := framed_roundtrip;
|}.
