(* ===== verification/NotifyWorker.v ===== *)
(** * The delivery worker

    [internal/notifications/worker.go]: due deliveries are queued, claimed
    one at a time per channel and incident, sent, and retried with growing
    delays.  The network is a parameter: what an HTTP or SMTP exchange
    answers. *)

From stdpp Require Import base tactics list gmap strings pretty.
From Stdlib Require Import ZArith Lia.
From S2P Require Import Prelude GoString Outbound Db AlertState Schema AlertRepository Secrets Incidents.
From S2P Require Import Channels.

(** ** Retry policy *)

Definition retryDelays : list Z :=
  [Minute; 5 * Minute; 15 * Minute; Hour; 4 * Hour; 12 * Hour].

(** [None] for no retry *)
Definition retryDelay (attempt : Z) (retryable : bool) (retryAfter : Z) : option Z :=
  if negb retryable || (attempt <? 1) || (Z.of_nat (length retryDelays) <? attempt) then None
  else
    let delay := nth (Z.to_nat (attempt - 1)) retryDelays 0 in
    Some (if delay <? retryAfter then Z.min retryAfter Hour else delay).

(** [http.ParseTime], relative to now, is a parameter of the header parser. *)
Definition parseRetryAfter (http_time_until : string -> option Z) (v : string) : Z :=
  match Atoi (TrimSpace v) with
  | Some seconds =>
      if 0 <? seconds then Z.min (dur_seconds seconds) Hour
      else match http_time_until v with
           | Some d => Z.min (Z.max d 0) Hour
           | None => 0
           end
  | None => match http_time_until v with
            | Some d => Z.min (Z.max d 0) Hour
            | None => 0
            end
  end.

(** What an error chain holds, as far as [errors.Is], [errors.As] and its
    text are asked. *)
Record NetError := mkNetError {
  ne_deadline : bool; ne_dns : bool; ne_cert : bool; ne_blocked : bool; ne_text : string;
  ne_smtp : option Z;
}.

Definition classifyNetwork (err : NetError) : string :=
  if ne_deadline err then "timeout"
  else if ne_dns err then "dns_failure"
  else if ne_cert err || Contains (ToLower (ne_text err)) "tls" then "tls_failure"
  else if ne_blocked err then "target_blocked"
  else "network_failure".

Definition smtpRetry (err : NetError) : bool :=
  match ne_smtp err with Some code => (400 <=? code) && (code <? 500) | None => true end.
Definition smtpCode (err : NetError) : string :=
  match ne_smtp err with Some code => "smtp_" +:+ Itoa code | None => classifyNetwork err end.

(** ** Configuration and queue *)

Record Config := mkConfig {
  c_MaxConcurrency : Z; c_QueueCapacity : Z; c_DeliveryTimeout : Z; c_ReminderInterval : Z;
  c_AllowPrivate : bool;
}.

Definition NewWorker (c : Config) : Config :=
  mkConfig (if c_MaxConcurrency c <=? 0 then 4 else c_MaxConcurrency c)
    (if c_QueueCapacity c <=? 0 then 1000 else c_QueueCapacity c)
    (if c_DeliveryTimeout c <=? 0 then 15 * Second else c_DeliveryTimeout c)
    (if c_ReminderInterval c <=? 0 then 2 * Hour else c_ReminderInterval c)
    (c_AllowPrivate c).

(** The in-memory queue: the channel's buffer, and the set of ids that are
    queued or being delivered. *)
Record WorkQueue := mkWorkQueue { wq_buf : list string; wq_queued : gset string; wq_dropped : Z }.

(** [enqueueDue], for one id; the flag asks for [recordOverflow]. *)
Definition enqueue_one (capacity : Z) (id : string) (q : WorkQueue) : bool * WorkQueue :=
  if decide (id ∈ wq_queued q) then (false, q)
  else if Z.of_nat (length (wq_buf q)) <? capacity then
    (false, mkWorkQueue (wq_buf q ++ [id]) ({[id]} ∪ wq_queued q) (wq_dropped q))
  else (true, mkWorkQueue (wq_buf q) (wq_queued q) (wq_dropped q + 1)).

Definition recordOverflow : tx DB unit :=
  wall <- time_now ;;
  ignore (exec (fun d =>
    let row := mkEventRow ("notification-overflow-" +:+ Itoa (time_unix wall / 60))
      (time_unix_milli wall) None "notification_queue_overflow" "warning"
      "Notification queue capacity exceeded" "notifications:overflow" "notifications"
      (time_unix_milli wall) in
    if sql_exists (fun e => ev_id e =?s ev_id row) (db_events d) then inr (tt, d)
    else put set_events (insert_pk ev_id row (db_events d)) d)).

Fixpoint enqueueDue (capacity : Z) (ids : list string) (q : WorkQueue) : tx DB WorkQueue :=
  match ids with
  | [] => ret q
  | id :: ids =>
      let '(overflow, q) := enqueue_one capacity id q in
      (if overflow : bool then recordOverflow else ret tt) ;;;
      enqueueDue capacity ids q
  end.

(** ** Claiming and finishing a delivery *)

Definition same_slot (a b : DeliveryRow) : bool :=
  (de_channel_id a =?s de_channel_id b) &&
  match de_incident_id a, de_incident_id b with Some i, Some j => i =?s j | _, _ => false end.

Definition in_progress (r : DeliveryRow) : bool := de_status r =?s "in_progress".

Definition is_due (now : Z) (r : DeliveryRow) : bool :=
  (de_status r =?s "pending") &&
  match de_next_attempt_at r with Some t => t <=? now | None => false end.

(** The dispatcher's query *)
Definition due_deliveries (now limit : Z) (d : DB) : list string :=
  map de_id (sql_limit limit 0 (sql_order_by (fun a b =>
    default 0 (de_next_attempt_at a) <=? default 0 (de_next_attempt_at b))
    (List.filter (fun r => is_due now r &&
       negb (sql_exists (fun a => same_slot a r && in_progress a) (db_deliveries d)))
       (db_deliveries d)))).

Definition del_claim (now : Z) (r : DeliveryRow) : DeliveryRow :=
  mkDeliveryRow (de_id r) (de_channel_id r) (de_incident_id r) (de_event_type r) (de_payload r)
    (de_idempotency_key r) "in_progress" (de_attempt_count r) (de_next_attempt_at r) (Some now)
    (de_completed_at r) (de_failure_code r) (de_created_at r) now.

(** [UPDATE ... SET status='in_progress' ... AND NOT EXISTS (...)]: the
    conditions are evaluated on the table as it was. *)
Definition claimable (id : string) (now : Z) (t : list DeliveryRow) (r : DeliveryRow) : bool :=
  (de_id r =?s id) && is_due now r &&
  negb (sql_exists (fun a => same_slot a r && negb (de_id a =?s de_id r) && in_progress a) t).

Definition claim (id : string) (now : Z) : tx DB Z :=
  exec (fun d => inr (sql_count (claimable id now (db_deliveries d)) (db_deliveries d),
    set_deliveries (sql_update (claimable id now (db_deliveries d)) (del_claim now)
                      (db_deliveries d)) d)).

Definition del_succeed (attempts now : Z) (r : DeliveryRow) : DeliveryRow :=
  mkDeliveryRow (de_id r) (de_channel_id r) (de_incident_id r) (de_event_type r) (de_payload r)
    (de_idempotency_key r) "succeeded" attempts None (de_started_at r) (Some now) None
    (de_created_at r) now.
Definition del_requeue (attempts next : Z) (code : string) (now : Z) (r : DeliveryRow) : DeliveryRow :=
  mkDeliveryRow (de_id r) (de_channel_id r) (de_incident_id r) (de_event_type r) (de_payload r)
    (de_idempotency_key r) "pending" attempts (Some next) None (de_completed_at r) (Some code)
    (de_created_at r) now.
Definition del_fail (attempts : Z) (code : string) (now : Z) (r : DeliveryRow) : DeliveryRow :=
  mkDeliveryRow (de_id r) (de_channel_id r) (de_incident_id r) (de_event_type r) (de_payload r)
    (de_idempotency_key r) "permanent_failure" attempts None (de_started_at r) (Some now)
    (Some code) (de_created_at r) now.

Definition finish (id : string) (success retryable : bool) (code : string) (retryAfter : Z)
    : tx DB unit :=
  wall <- time_now ;;
  let now := time_unix wall in
  ignore (
    attempts <- query_row (fun d => (fun r => de_attempt_count r + 1) <$>
      sql_find (fun r => de_id r =?s id) (db_deliveries d)) ;;
    if success then
      update_rows db_deliveries set_deliveries (fun r => de_id r =?s id) (del_succeed attempts now)
    else match retryDelay attempts retryable retryAfter with
         | Some delay =>
             update_rows db_deliveries set_deliveries (fun r => de_id r =?s id)
               (del_requeue attempts (time_unix (time_add wall delay)) code now)
         | None =>
             update_rows db_deliveries set_deliveries (fun r => de_id r =?s id)
               (del_fail attempts code now)
         end).

(** ** Sending *)

(** What the worker's HTTP client returns. *)
Inductive HttpResult := HttpError (e : NetError) | HttpStatus (code : Z) (retryAfter : string).

Record DeliveryJob := mkDeliveryJob {
  j_id : string; j_channelID : string; j_event : string; j_payload : Payload; j_key : string;
  j_attempt : Z; j_kind : string; j_config : gmap string string; j_secretRef : string;
}.

Section worker.
Context `{Rand} `{SecretsCodec}.
Context (parse_address : string -> bool).
Context (secrets : option (option AEAD)).
Context (http_time_until : string -> option Z).
(** [Policy.ValidateURL(s.URL, "https")] and [Policy.Resolve] accept. *)
Context (url_allowed : string -> bool).
Context (host_allowed : string -> bool).
(** [net.SplitHostPort] *)
Context (split_host_port : string -> option (string * string)).
(** [http.NewRequest] and [client.Do] *)
Context (request_valid : string -> bool).
Context (http_do : DeliveryJob -> ChannelSecrets -> HttpResult).
(** The SMTP dialogue after the checks: dialling, the TLS handshake and the
    commands up to [Quit]; [None] when all succeed. *)
Inductive SmtpFailure := SmtpDial (e : NetError) | SmtpHandshake | SmtpCommand (e : NetError).
Context (smtp_dialogue : bool -> DeliveryJob -> ChannelSecrets -> option SmtpFailure).

Definition ValidateChannel (c : Channel) (s : ChannelSecrets) : option string :=
  match validateChannel parse_address c s with
  | Some e => Some e
  | None =>
      if ch_Kind c =?s "webhook" then
        if url_allowed (sec_URL s) then None else Some "webhook target is blocked"
      else match split_host_port (sec_Host s) with
           | None => Some "SMTP host must include a port"
           | Some (host, _) => if host_allowed host then None else Some "SMTP target is blocked"
           end
  end.

(** The result of an attempt: retryable, failure code ("" is success) and
    the server's retry hint. *)
Definition webhook (d : DeliveryJob) (s : ChannelSecrets) : bool * string * Z :=
  if negb (url_allowed (sec_URL s)) then (false, "target_blocked", 0)
  else if negb (request_valid (sec_URL s)) then (false, "invalid_configuration", 0)
  else match http_do d s with
       | HttpError e => (true, classifyNetwork e, 0)
       | HttpStatus code header =>
           if (200 <=? code) && (code <? 300) then (false, "", 0)
           else
             let retry := (code =? 408) || (code =? 425) || (code =? 429) || (500 <=? code) in
             (retry, "http_" +:+ Itoa code, if retry then parseRetryAfter http_time_until header else 0)
       end.

Definition email (d : DeliveryJob) (s : ChannelSecrets) : bool * string :=
  match split_host_port (sec_Host s) with
  | None => (false, "invalid_configuration")
  | Some (host, port) =>
      if str_empty host || str_empty port || (Z.of_nat (length (sec_Recipients s)) <? 1) ||
         (20 <? Z.of_nat (length (sec_Recipients s))) then (false, "invalid_configuration")
      else if negb (host_allowed host) then (false, "target_blocked")
      else if negb (parse_address (sec_Sender s)) then (false, "invalid_configuration")
      else if negb (forallb parse_address (sec_Recipients s)) then (false, "invalid_configuration")
      else
        let mode := default "" (j_config d !! "tlsMode") in
        let implicit := mode =?s "implicit" in
        match smtp_dialogue implicit d s with
        | Some (SmtpDial e) => (true, classifyNetwork e)
        | r =>
            if implicit || (mode =?s "starttls") then
              match r with
              | Some SmtpHandshake => (true, "tls_failure")
              | Some (SmtpCommand e) => (smtpRetry e, smtpCode e)
              | _ => (false, "")
              end
            else (false, "invalid_configuration")
        end
  end.

Definition send (d : DeliveryJob) (s : ChannelSecrets) : bool * string * Z :=
  if j_kind d =?s "webhook" then webhook d s
  else if j_kind d =?s "smtp" then let '(retryable, code) := email d s in (retryable, code, 0)
  else (false, "invalid_configuration", 0).

(** The joined row of a claimed delivery whose channel is still active. *)
Definition load_job (id : string) (d : DB) : option DeliveryJob :=
  r ← sql_find (fun r => de_id r =?s id) (db_deliveries d);
  c ← sql_find (fun c => (cn_id c =?s de_channel_id r) && channel_active c) (db_channels d);
  Some (mkDeliveryJob (de_id r) (de_channel_id r) (de_event_type r) (de_payload r)
          (de_idempotency_key r) (de_attempt_count r) (cn_kind c) (cn_config c) (cn_secret_ref c)).

(** What follows a successful claim. *)
Definition deliver_claimed (id : string) : tx DB unit := fun w =>
  match query_row (load_job id) w with
  | (inl ENoRows, w1) => finish id false false "channel_unavailable" 0 w1
  | (inl _, w1) => (inr tt, w1)
  | (inr job, w1) =>
      match store_get secrets (j_secretRef job) w1 with
      | (inl e, w2) =>
          finish id false false
            (if decide (e = ErrMasterKeyMissing) then "master_key_missing" else "secret_unavailable")
            0 w2
      | (inr b, w2) =>
          match unmarshal_secrets b with
          | None => finish id false false "invalid_configuration" 0 w2
          | Some s =>
              let '(retryable, code, retryAfter) := send job s in
              finish id (code =?s "") retryable code retryAfter w2
          end
      end
  end.

Definition deliver (id : string) : tx DB unit :=
  wall <- time_now ;;
  fun w =>
    match claim id (time_unix wall) w with
    | (inl _, w1) => finish id false true "storage_error" 0 w1
    | (inr n, w1) => if n =? 0 then (inr tt, w1) else deliver_claimed id w1
    end.

(** [Start]: interrupted deliveries go back to the queue. *)
Definition Worker_Start (reminderInterval : Z) : tx DB unit :=
  wall <- time_now ;;
  update_rows db_deliveries set_deliveries in_progress (fun r =>
    mkDeliveryRow (de_id r) (de_channel_id r) (de_incident_id r) (de_event_type r) (de_payload r)
      (de_idempotency_key r) "pending" (de_attempt_count r) (Some (time_unix wall)) None
      (de_completed_at r) (de_failure_code r) (de_created_at r) (time_unix wall)) ;;;
  Reconcile reminderInterval wall.

(** One tick of the dispatcher, and its maintenance tick. *)
Definition dispatch_tick (capacity : Z) (q : WorkQueue) : tx DB WorkQueue :=
  wall <- time_now ;;
  ids <- or_default [] (query (due_deliveries (time_unix wall) (capacity + 1))) ;;
  enqueueDue capacity ids q.
Definition maintenance_tick (interval : Z) : tx DB unit :=
  wall <- time_now ;;
  ignore (ScheduleReminders wall interval) ;;; ignore (Repo_Cleanup wall).

(** A worker goroutine takes the next id. *)
Definition run_next (q : WorkQueue) : tx DB WorkQueue :=
  match wq_buf q with
  | [] => ret q
  | id :: ids =>
      deliver id ;;;
      ret (mkWorkQueue ids (wq_queued q ∖ {[id]}) (wq_dropped q))
  end.
End worker.
