(* ===== verification/NotifyInvariants.v ===== *)
(** * What the notification queue guarantees

    One delivery at a time per channel and incident, a bounded retry
    schedule, coalesced updates, resolutions only where something was sent,
    and the channel limit. *)

From stdpp Require Import base tactics list gmap strings.
From Stdlib Require Import ZArith Lia.
From S2P Require Import Prelude GoString Float64 Db AlertState Schema AlertRepository Secrets Incidents.
From S2P Require Import IncidentInvariants Channels NotifyWorker.

(** ** Exclusive slots *)

Record slots_inv (d : DB) : Prop := {
  sl_ids : NoDup (map de_id (db_deliveries d));
  sl_excl : forall a b, In a (db_deliveries d) -> In b (db_deliveries d) ->
    in_progress a = true -> in_progress b = true -> same_slot a b = true -> de_id a = de_id b;
}.

(** Updates that start no delivery. *)
Definition tame (f : DeliveryRow -> DeliveryRow) : Prop := forall r,
  de_id (f r) = de_id r /\ de_channel_id (f r) = de_channel_id r /\
  (in_progress (f r) = true -> in_progress r = true) /\
  (de_incident_id (f r) = de_incident_id r \/ de_incident_id (f r) = None).

Lemma same_slot_tame f g a b : tame f -> tame g -> same_slot (f a) (g b) = true -> same_slot a b = true.
Proof.
  intros Hf Hg. destruct (Hf a) as (_ & Hc & _ & Hi), (Hg b) as (_ & Hc' & _ & Hi').
  unfold same_slot. rewrite Hc, Hc'. intros [-> H]%andb_true_iff. cbn.
  destruct Hi as [Hi|Hi], Hi' as [Hi'|Hi']; rewrite ?Hi, ?Hi' in H; try done;
    by destruct (de_incident_id a).
Qed.

Lemma tame_id : tame id.
Proof. intros r. auto. Qed.

Lemma slots_update p f d :
  tame f -> slots_inv d -> slots_inv (set_deliveries (sql_update p f (db_deliveries d)) d).
Proof.
  intros Hf [Hnd Hex]. split; cbn.
  - rewrite sql_update_map; [done|]. intros r. apply Hf.
  - intros a b (a0 & Ha & ->)%in_sql_update (b0 & Hb & ->)%in_sql_update.
    set (ga := if p a0 then f else id). set (gb := if p b0 then f else id).
    assert (tame ga) as Hga by (unfold ga; destruct (p a0); auto using tame_id).
    assert (tame gb) as Hgb by (unfold gb; destruct (p b0); auto using tame_id).
    replace (if p a0 then f a0 else a0) with (ga a0) by (unfold ga; by destruct (p a0)).
    replace (if p b0 then f b0 else b0) with (gb b0) by (unfold gb; by destruct (p b0)).
    intros Hpa Hpb Hs%same_slot_tame; [|done..].
    destruct (Hga a0) as (-> & _ & H1 & _), (Hgb b0) as (-> & _ & H2 & _). auto.
Qed.

Lemma slots_delete p d : slots_inv d -> slots_inv (set_deliveries (sql_delete p (db_deliveries d)) d).
Proof.
  intros [Hnd Hex]. split; cbn; [by apply nodup_map_delete|].
  intros a b [Ha _]%in_sql_delete [Hb _]%in_sql_delete. auto.
Qed.

Lemma slots_insert r d u d' :
  de_status r = "pending" -> insert_delivery r d = inr (u, d') -> slots_inv d -> slots_inv d'.
Proof.
  intros Hr E [Hnd Hex]. unfold insert_delivery in E. sql_inv E. split; cbn.
  - by eapply insert_pk_nodup.
  - apply insert_pk_inv in E as [-> _].
    assert (in_progress r = false) as Hp by (unfold in_progress; by rewrite Hr).
    intros a b [Ha|[<-|[]]]%in_app_iff [Hb|[<-|[]]]%in_app_iff; try congruence. auto.
Qed.

(** The claim statement keeps slots exclusive. *)
Lemma slots_claim id now d :
  slots_inv d ->
  slots_inv (set_deliveries (sql_update (claimable id now (db_deliveries d)) (del_claim now)
               (db_deliveries d)) d).
Proof.
  intros [Hnd Hex]. set (t := db_deliveries d) in *.
  assert (forall r x, In r t -> In x t -> claimable id now t r = true -> in_progress x = true ->
    same_slot x r = true -> de_id x = de_id r) as Hfree.
  { intros r x Hr Hx [[_ _]%andb_true_iff Hn%negb_true_iff]%andb_true_iff Hp Hs.
    rewrite sql_exists_false in Hn. specialize (Hn x Hx). rewrite Hs, Hp in Hn. cbn in Hn.
    rewrite andb_true_r in Hn. apply negb_false_iff in Hn. by apply String.eqb_eq in Hn. }
  assert (forall r, claimable id now t r = true -> de_id r = id) as Hid
    by (intros r [[?%String.eqb_eq _]%andb_true_iff _]%andb_true_iff; done).
  assert (forall a b, same_slot a b = same_slot b a) as Hsym.
  { intros a b. unfold same_slot. rewrite (String.eqb_sym (de_channel_id a)). f_equal.
    destruct (de_incident_id a), (de_incident_id b); auto using String.eqb_sym. }
  split; cbn; [by rewrite sql_update_map|].
  intros a b (a0 & Ha & ->)%in_sql_update (b0 & Hb & ->)%in_sql_update.
  destruct (claimable id now t a0) eqn:Ea, (claimable id now t b0) eqn:Eb; cbn; intros Hpa Hpb Hs.
  - by rewrite (Hid a0), (Hid b0).
  - symmetry. apply (Hfree a0 b0); auto. by rewrite Hsym.
  - by apply (Hfree b0 a0).
  - by apply Hex.
Qed.

Lemma slots_ext d d' : slots_inv d -> db_deliveries d' = db_deliveries d -> slots_inv d'.
Proof. intros [? ?] E. split; by rewrite E. Qed.

Section worker.
Context `{Rand} `{SecretsCodec}.
Context (reminderInterval : Z).

Lemma slots_exec_update p f : tame f -> preserves slots_inv (update_rows db_deliveries set_deliveries p f).
Proof.
  intros Hf. apply exec_preserves. intros d n d' Hd E. simplify_eq. by apply slots_update.
Qed.

(** Closes the statements on other tables and the simple delivery updates. *)
Ltac slots_auto :=
  first
    [ apply slots_exec_update; intros r; split_and!; first [done | by left | by intros ?]
    | apply exec_preserves; intros d ? d' Hd E; simplify_eq; by eapply slots_ext ].

Lemma slots_upsert incidentID channelID eventType due :
  preserves slots_inv (upsertDeliveryTx incidentID channelID eventType due).
Proof.
  unfold upsertDeliveryTx, payloadTx, newID. frame_auto; try slots_auto.
  all: apply exec_preserves; intros d ? d' Hd E; by eapply slots_insert; [|exact E|exact Hd].
Qed.

Lemma slots_enqueue incidentID eventType severity due :
  preserves slots_inv (enqueueIncidentTx incidentID eventType severity due).
Proof. unfold enqueueIncidentTx, enqueue_channel. frame_auto; apply slots_upsert. Qed.

Lemma slots_resolution incidentID now : preserves slots_inv (enqueueResolutionTx incidentID now).
Proof.
  unfold enqueueResolutionTx, enqueue_resolution. frame_auto; try apply slots_upsert; slots_auto.
Qed.

Lemma slots_fired a now notify : preserves slots_inv (alertFiredTx reminderInterval a now notify).
Proof.
  unfold alertFiredTx, newID. frame_auto; try apply slots_enqueue; try slots_auto.
  all: apply exec_preserves; intros d ? d' Hd E.
  - unfold insert_incident in E. sql_inv E. by eapply slots_ext.
  - unfold insert_member in E. sql_inv E. simplify_eq. by eapply slots_ext.
Qed.

Lemma slots_resolved id now : preserves slots_inv (Repo_AlertResolvedTx id now).
Proof. unfold Repo_AlertResolvedTx. frame_auto; try apply slots_resolution; slots_auto. Qed.

Lemma slots_finish id success retryable code retryAfter :
  preserves slots_inv (finish id success retryable code retryAfter).
Proof. unfold finish. frame_auto; slots_auto. Qed.

(** The operations that touch deliveries, each a unit of interleaving; a
    delivery attempt is a claim and, some time later, a finish. *)
Inductive QueueOp :=
  | QFired (a : Alert) (now : Z) (notify : bool)
  | QResolved (alertID : string) (now : Z)
  | QReminders (now interval : Z)
  | QCleanup (now : Z)
  | QRetry (id : string)
  | QTest (channelID : string)
  | QDeleteChannel (id : string)
  | QClaim (id : string) (now : Z)
  | QFinish (id : string) (success retryable : bool) (code : string) (retryAfter : Z)
  | QStart.

Definition queue_step (op : QueueOp) : tx DB unit :=
  match op with
  | QFired a now notify => ignore (with_tx (alertFiredTx reminderInterval a now notify))
  | QResolved id now => ignore (with_tx (Repo_AlertResolvedTx id now))
  | QReminders now interval => ignore (ScheduleReminders now interval)
  | QCleanup now => ignore (Repo_Cleanup now)
  | QRetry id => ignore (Retry id)
  | QTest id => ignore (Repo_Test id)
  | QDeleteChannel id => ignore (DeleteChannel id)
  | QClaim id now => ignore (claim id now)
  | QFinish id success retryable code retryAfter => finish id success retryable code retryAfter
  | QStart => ignore (Worker_Start reminderInterval)
  end.

Definition queue_ops (ops : list QueueOp) : tx DB unit := iter_tx queue_step ops.

Lemma slots_step op : preserves slots_inv (queue_step op).
Proof.
  destruct op; cbn [queue_step]; [apply preserves_ignore..|apply slots_finish|apply preserves_ignore].
  - apply preserves_with_tx, preserves_weaken, slots_fired.
  - apply preserves_with_tx, preserves_weaken, slots_resolved.
  - unfold ScheduleReminders. frame_auto; try apply slots_enqueue; slots_auto.
  - unfold Repo_Cleanup, delete_rows. frame_auto; apply exec_preserves; intros d ? d' Hd E;
      simplify_eq; [by apply slots_delete|]. unfold delete_incidents.
    apply (slots_update _ _ (set_members _ (set_incidents _ d))); [|by eapply slots_ext].
    intros r. cbn. auto.
  - unfold Retry. frame_auto; slots_auto.
  - unfold Repo_Test, newID. frame_auto. apply exec_preserves. intros d ? d' Hd E.
    by eapply slots_insert; [|exact E|exact Hd].
  - unfold DeleteChannel. frame_auto; slots_auto.
  - unfold claim. apply exec_preserves. intros d ? d' Hd E. simplify_eq. by apply slots_claim.
  - unfold Worker_Start, Reconcile, reconcile_alert. frame_auto; try apply slots_fired; slots_auto.
Qed.

(** C4 (safety): deliveries of one incident on one channel never overlap.  In every
    interleaving of claims and completions by any number of workers with
    alert transitions, reminders, retries, cancellations, clean-ups and
    restarts, and whatever statements fail, two deliveries in progress are
    for different channels or different incidents. *)
Theorem slot_exclusive (ops : list QueueOp) (w : world DB) :
  db_deliveries (w_db w) = [] ->
  let t := db_deliveries (w_db (queue_ops ops w).2) in
  forall a b, In a t -> In b t -> in_progress a = true -> in_progress b = true ->
    same_slot a b = true -> a = b.
Proof.
  intros Hw. assert (slots_inv (w_db w)) as Hi by (split; rewrite Hw; [constructor|done]).
  assert (preserves slots_inv (queue_ops ops)) as Hp by (apply preserves_iter; apply slots_step).
  specialize (Hp w Hi).
  assert (slots_inv (w_db (queue_ops ops w).2)) as [Hnd Hex] by (by destruct (queue_ops ops w) as [[]]).
  intros t a b Ha Hb Hpa Hpb Hs. eapply nodup_key_inj; [exact Hnd|done..|]. by apply Hex.
Qed.
End worker.

(** ** Retries *)

Lemma parseRetryAfter_bound f v : parseRetryAfter f v <= Hour.
Proof.
  unfold parseRetryAfter. repeat case_match; unfold Hour, Minute, Second; lia.
Qed.

(** The retry schedule.  A failed attempt is retried exactly when the
    failure is retryable and at most six attempts were made before giving up;
    whatever Retry-After header the server sent, the wait is at least the
    scheduled delay for that attempt and at most twelve hours. *)
Theorem retry_schedule (f : string -> option Z) (attempt : Z) (retryable : bool) (header : string) :
  match retryDelay attempt retryable (parseRetryAfter f header) with
  | Some delay => retryable = true /\ 1 <= attempt <= 6 /\
      nth (Z.to_nat (attempt - 1)) retryDelays 0 <= delay <= 12 * Hour /\ Minute <= delay
  | None => retryable = false \/ attempt < 1 \/ 6 < attempt
  end.
Proof.
  pose proof (parseRetryAfter_bound f header) as Hb. set (after := parseRetryAfter f header) in *.
  unfold retryDelay. destruct retryable; cbn [negb orb]; [|auto].
  change (Z.of_nat (length retryDelays)) with 6.
  destruct ((attempt <? 1) || (6 <? attempt)) eqn:E; [right; lia|].
  assert (1 <= attempt <= 6) as Ha by lia. split; [done|]. split; [done|].
  assert (attempt = 1 \/ attempt = 2 \/ attempt = 3 \/ attempt = 4 \/ attempt = 5 \/ attempt = 6)
    as Hc by lia.
  unfold Hour, Minute, Second in *.
  destruct_or! Hc; subst attempt;
    match goal with |- context [nth ?n retryDelays 0] =>
      let v := eval vm_compute in (nth n retryDelays 0) in change (nth n retryDelays 0) with v
    end; destruct (_ <? after) eqn:?; lia.
Qed.

(** What a completed attempt does to its row, if its statements go through. *)
Definition finished_row (success retryable : bool) (code : string) (retryAfter wall : Z)
    (r : DeliveryRow) : DeliveryRow :=
  let attempts := de_attempt_count r + 1 in
  if success then del_succeed attempts (time_unix wall) r
  else match retryDelay attempts retryable retryAfter with
       | Some delay => del_requeue attempts (time_unix (time_add wall delay)) code (time_unix wall) r
       | None => del_fail attempts code (time_unix wall) r
       end.

(** The deliveries table after [finish]: untouched, or with the row of the
    delivery rewritten. *)
Definition accounted (id : string) (success retryable : bool) (code : string) (retryAfter : Z)
    (d d' : DB) : Prop :=
  db_deliveries d' = db_deliveries d \/
  exists r wall, In r (db_deliveries d) /\ de_id r = id /\
    db_deliveries d' = sql_update (fun r' => de_id r' =?s id)
      (fun _ => finished_row success retryable code retryAfter wall r) (db_deliveries d).

Lemma finish_update id success retryable code retryAfter wall n f d :
  NoDup (map de_id (db_deliveries d)) ->
  (forall r, n = de_attempt_count r + 1 ->
    f r = finished_row success retryable code retryAfter wall r) ->
  triple (fun d' => d' = d /\ exists r, In r (db_deliveries d) /\ de_id r = id /\
            n = de_attempt_count r + 1)
    (update_rows db_deliveries set_deliveries (fun r => de_id r =?s id) f)
    (fun _ d' => accounted id success retryable code retryAfter d d')
    (fun _ d' => accounted id success retryable code retryAfter d d').
Proof.
  intros Hnd Hf. apply triple_exec; [intros ? [-> _]; by left|].
  intros ? (-> & r & Hr & Hid & Hn). right. exists r, wall. split_and!; [done..|].
  cbn. apply map_ext_in. intros r' Hr'. destruct (de_id r' =?s id) eqn:E; [|done].
  apply String.eqb_eq in E. rewrite (nodup_key_inj de_id _ r' r Hnd Hr' Hr) by congruence. auto.
Qed.

Lemma finish_triple id success retryable code retryAfter d :
  NoDup (map de_id (db_deliveries d)) ->
  triple (fun d' => d' = d) (finish id success retryable code retryAfter)
    (fun _ d' => accounted id success retryable code retryAfter d d') (fun _ _ => False).
Proof.
  intros Hnd. unfold finish. eapply triple_bind; [by apply (triple_now _ (fun _ d' => d' = d))|].
  intros wall. apply triple_ignore. eapply triple_bind.
  - apply (triple_query_row _ _ (fun n d' => d' = d /\ exists r, In r (db_deliveries d) /\
      de_id r = id /\ n = de_attempt_count r + 1)); [by intros ? ->; left|].
    intros ? ->. destruct (sql_find _ _) as [r|] eqn:E; cbn; [|by left].
    apply sql_find_some in E as [Hr Hid%String.eqb_eq]. eauto 10.
  - intros n. destruct success; [|destruct (retryDelay n retryable retryAfter) eqn:Er];
      apply finish_update with (wall := wall); auto; intros r ->; unfold finished_row; by rewrite ?Er.
Qed.

(** An attempt is accounted once.  [finish] either changes nothing
    (its row is gone, or a statement failed) or rewrites the row of its delivery only:
    succeeded after a success, pending again at the scheduled time after a
    retryable failure within the schedule, permanently failed otherwise; in
    each case with one more attempt counted and its idempotency key kept. *)
Theorem finish_accounts (id : string) (success retryable : bool) (code : string) (retryAfter : Z)
    (w : world DB) :
  NoDup (map de_id (db_deliveries (w_db w))) ->
  accounted id success retryable code retryAfter (w_db w)
    (w_db (finish id success retryable code retryAfter w).2).
Proof.
  intros Hnd. pose proof (finish_triple id success retryable code retryAfter _ Hnd w eq_refl) as Ht.
  by destruct (finish _ _ _ _ _ w) as [[] w'].
Qed.

(** A delivery in a given state, to run the worker on. *)
Definition sample_delivery (status : string) : DeliveryRow :=
  mkDeliveryRow "del_1" "chn_1" (Some "inc_1") "opened" (mkPayload "opened" "del_1" "idem_1" None)
    "idem_1" status 0 (Some 10) None None None 0 0.
Definition delivery_world (status : string) (faults : list bool) : world DB :=
  World (set_deliveries [sample_delivery status] empty_db) faults 0 [60 * Second; 60 * Second].

Lemma finish_accounts_witness :
  accounted "del_1" false true "timeout" 0 (w_db (delivery_world "in_progress" []))
    (w_db (finish "del_1" false true "timeout" 0 (delivery_world "in_progress" [])).2) /\
  map de_next_attempt_at (db_deliveries (w_db
    (finish "del_1" false true "timeout" 0 (delivery_world "in_progress" [])).2)) = [Some 120].
Proof.
  split; [|by vm_compute]. apply finish_accounts. repeat constructor. by intros ?%not_elem_of_nil.
Defined.

(** A storage error revives a cancelled delivery.  When the statement that
    claims a queued delivery fails, [deliver] records a retryable failure
    without looking at the delivery's status, so a delivery that was cancelled
    in the meantime (its incident resolved, its channel was deleted) becomes
    pending and will be sent. *)
Theorem storage_error_revives `{Rand} `{SecretsCodec} parse_address secrets http_time_until
    url_allowed host_allowed split_host_port request_valid http_do smtp_dialogue :
  map de_status (db_deliveries (w_db (deliver parse_address secrets http_time_until url_allowed
    host_allowed split_host_port request_valid http_do smtp_dialogue "del_1"
    (delivery_world "cancelled" [true])).2)) = ["pending"].
Proof. by vm_compute. Qed.

(** ** Queueing *)

Section queueing.
Context `{Rand}.

Lemma payload_runs d did key inc ev (Q : Payload -> DB -> Prop) :
  (forall p, p_eventType p = ev -> p_deliveryId p = did -> p_idempotencyKey p = key -> Q p d) ->
  runs d (payloadTx did key inc ev) Q.
Proof.
  intros HQ. unfold payloadTx. apply runs_bind, runs_query_row. intros i Hi.
  apply runs_bind, runs_query, runs_bind, runs_default; by apply runs_ret, HQ.
Qed.

(** A new delivery row, as queued. *)
Definition queued_row (incidentID channelID eventType : string) (due : Z) (r : DeliveryRow) : Prop :=
  de_incident_id r = Some incidentID /\ de_channel_id r = channelID /\
  de_event_type r = eventType /\ de_status r = "pending" /\ de_attempt_count r = 0 /\
  de_next_attempt_at r = Some (time_unix due) /\ p_idempotencyKey (de_payload r) = de_idempotency_key r.

(** Events other than openings and updates are always queued anew. *)
Lemma upsert_insert d inc ch ev due :
  coalesces ev = false ->
  runs d (upsertDeliveryTx inc ch ev due) (fun _ d' =>
    exists r, queued_row inc ch ev due r /\ db_deliveries d' = db_deliveries d ++ [r]).
Proof.
  intros Hc. unfold upsertDeliveryTx. apply runs_bind, runs_find. rewrite Hc. apply runs_bind.
  replace (match pending_update inc ch d with Some _ | _ => _ end) with
    (did <- newID "del_" ;; key <- newID "idem_" ;; ret (did, key, ev))
    by (by destruct (pending_update inc ch d)).
  unfold newID. apply runs_bind, runs_bind, runs_rand. intros h. apply runs_ret.
  apply runs_bind, runs_bind, runs_rand. intros k. apply runs_ret, runs_ret.
  apply runs_bind, payload_runs. intros p Hev Hid Hkey. apply runs_bind, runs_now. intros wall.
  cbn [andb]. apply runs_bind, runs_ret. cbn [Z.ltb Z.compare]. apply runs_exec. intros u d' E.
  unfold insert_delivery in E. sql_inv E. apply insert_pk_inv in E as [-> _].
  eexists. split; [|reflexivity]. by split_and!.
Qed.

(** C36 (functional): a resolution supersedes what is still queued.  Queueing the
    resolution of an incident on a channel leaves no opening or update of it
    pending there; and it announces the resolution, with one new delivery,
    exactly when an earlier delivery of the incident on the channel was attempted. *)
Theorem resolution_supersedes (incidentID : string) (now : Z) (ch : ChannelRow) (d : DB) :
  (forall r, In r (db_deliveries d) -> 0 <= de_attempt_count r) ->
  runs d (enqueue_resolution incidentID now ch) (fun _ d' =>
    (forall r, In r (db_deliveries d') -> pending_change incidentID (cn_id ch) r = false) /\
    if sql_exists (attempted incidentID (cn_id ch)) (db_deliveries d) then
      exists r, queued_row incidentID (cn_id ch) "resolved" now r /\
        db_deliveries d' = sql_update (pending_change incidentID (cn_id ch))
          (del_cancel (time_unix now)) (db_deliveries d) ++ [r]
    else length (db_deliveries d') = length (db_deliveries d)).
Proof.
  intros Hpos. unfold enqueue_resolution. apply runs_bind, runs_query.
  assert (forall r t, pending_change incidentID (cn_id ch) (del_cancel t r) = false) as Hcan
    by (intros; unfold pending_change; cbn; by rewrite andb_false_r).
  destruct (sql_exists (attempted incidentID (cn_id ch)) (db_deliveries d)) eqn:Ex.
  - destruct (_ =? 0) eqn:E0.
    { apply Z.eqb_eq in E0. rewrite sql_count_zero in E0.
      apply sql_exists_true in Ex as (r & Hr & Ha). by rewrite E0 in Ha. }
    apply runs_bind, runs_exec. intros n d1 [= <- <-].
    eapply runs_mono; [by apply upsert_insert|]. cbn. intros _ d' (r & Hr & Hd'). rewrite Hd'.
    split; [|eauto]. intros r' [(r0 & _ & ->)%in_sql_update|[<-|[]]]%in_app_iff.
    + destruct (pending_change _ _ r0) eqn:E; [apply Hcan|done].
    + destruct Hr as (_ & _ & Hev & _). unfold pending_change. rewrite Hev. by rewrite andb_false_r.
  - rewrite sql_exists_false in Ex. rewrite (proj2 (sql_count_zero _ _) Ex). cbn [Z.eqb].
    apply runs_bind, runs_exec. intros n d1 [= <- <-]. apply runs_ret. cbn.
    split; [|unfold sql_update; by rewrite length_map].
    intros r' (r0 & Hr0 & ->)%in_sql_update. destruct (pending_change _ _ r0) eqn:E; cbn [andb].
    + destruct (de_attempt_count r0 =? 0) eqn:E2; [apply Hcan|]. exfalso.
      specialize (Ex r0 Hr0). specialize (Hpos r0 Hr0). apply Z.eqb_neq in E2.
      unfold pending_change, attempted in *. bool_hyps.
      destruct (of_incident incidentID r0), (de_channel_id r0 =?s cn_id ch); try done. cbn in Ex.
      match goal with H : (de_status r0 =?s "pending") = true |- _ => apply String.eqb_eq in H; rewrite H in Ex end.
      cbn in Ex. lia.
    + done.
Qed.

Lemma pending_update_some inc ch d r :
  pending_update inc ch d = Some r ->
  In r (db_deliveries d) /\ of_incident inc r = true /\ de_channel_id r = ch /\
  de_status r = "pending".
Proof.
  unfold pending_update. destruct (sql_order_by _ _) as [|x l] eqn:E; [done|]. intros [= ->].
  assert (In r (List.filter (fun r => of_incident inc r && (de_channel_id r =?s ch) &&
    (de_status r =?s "pending") && coalesces (de_event_type r)) (db_deliveries d))) as Hin.
  { apply list_elem_of_In. rewrite <- sql_order_by_perm, E. apply list_elem_of_In. by left. }
  apply filter_In in Hin as [Hin Hp]. bool_hyps. split_and!; auto; by apply String.eqb_eq.
Qed.

(** Openings and updates coalesce.  While an opening or update of an
    incident waits on a channel, queueing another one adds no delivery: the
    waiting one keeps its identity, its event and its idempotency key, gets
    the incident's current contents and is due at the new time. *)
Theorem updates_coalesce (incidentID channelID eventType : string) (due : Z) (d : DB)
    (r : DeliveryRow) :
  coalesces eventType = true ->
  pending_update incidentID channelID d = Some r ->
  runs d (upsertDeliveryTx incidentID channelID eventType due) (fun _ d' =>
    exists payload now,
      db_deliveries d' = sql_update (fun r' => de_id r' =?s de_id r)
        (del_refresh payload (time_unix due) now) (db_deliveries d) /\
      p_eventType payload = de_event_type r /\
      p_idempotencyKey payload = de_idempotency_key r).
Proof.
  intros Hc Hr. destruct (pending_update_some _ _ _ _ Hr) as (Hin & _).
  unfold upsertDeliveryTx. apply runs_bind, runs_find. rewrite Hr, Hc. apply runs_bind, runs_ret.
  apply runs_bind, payload_runs. intros p Hev Hid Hkey. apply runs_bind, runs_now. intros wall.
  assert (forall n, runs d (if 0 <? n then
      update_rows db_deliveries set_deliveries (fun r' => de_id r' =?s de_id r)
        (del_refresh p (time_unix due) (time_unix wall)) ;;; ret tt
    else exec (insert_delivery (mkDeliveryRow (de_id r) channelID (Some incidentID) eventType p
      (de_idempotency_key r) "pending" 0 (Some (time_unix due)) None None None (time_unix wall)
      (time_unix wall)))) (fun _ d' => exists payload now,
      db_deliveries d' = sql_update (fun r' => de_id r' =?s de_id r)
        (del_refresh payload (time_unix due) now) (db_deliveries d) /\
      p_eventType payload = de_event_type r /\
      p_idempotencyKey payload = de_idempotency_key r)) as Hdone.
  { intros n. destruct (0 <? n).
    - apply runs_bind, runs_exec. intros k d' [= <- <-]. apply runs_ret. eauto.
    - apply runs_exec. intros u d' E. unfold insert_delivery in E. sql_inv E.
      apply insert_pk_inv in E as [_ Hne]. by destruct (Hne r). }
  apply runs_bind. destruct (true && _).
  - apply runs_default; apply Hdone.
  - apply runs_ret, Hdone.
Qed.
End queueing.

(** A database with one channel and one incident, and the given deliveries. *)
Definition queue_db (deliveries : list DeliveryRow) : DB :=
  set_deliveries deliveries
  (set_channels [mkChannelRow "chn_1" "ops" "webhook" true "warning" true ∅ "ref" 0 0 None]
  (set_incidents [mkIncidentRow "inc_1" "host:server" "open" "warning" "host" "server" "t" 0 0 None 1
    None] empty_db)).

Lemma resolution_supersedes_witness :
  let ch := mkChannelRow "chn_1" "ops" "webhook" true "warning" true ∅ "ref" 0 0 None in
  let d := queue_db [sample_delivery "succeeded"] in
  runs d (enqueue_resolution "inc_1" 100 ch) (fun _ d' =>
    (forall r, In r (db_deliveries d') -> pending_change "inc_1" "chn_1" r = false) /\
    exists r, queued_row "inc_1" "chn_1" "resolved" 100 r /\
        db_deliveries d' = sql_update (pending_change "inc_1" "chn_1")
          (del_cancel (time_unix 100)) (db_deliveries d) ++ [r]).
Proof.
  intros ch d. apply (resolution_supersedes "inc_1" 100 ch d). intros r [<-|[]]. by vm_compute.
Defined.

Lemma updates_coalesce_witness :
  let d := queue_db [sample_delivery "pending"] in
  runs d (upsertDeliveryTx "inc_1" "chn_1" "updated" 100) (fun _ d' =>
    exists payload now,
      db_deliveries d' = sql_update (fun r' => de_id r' =?s "del_1")
        (del_refresh payload (time_unix 100) now) (db_deliveries d) /\
      p_eventType payload = "opened" /\ p_idempotencyKey payload = "idem_1").
Proof.
  intros d. apply (updates_coalesce "inc_1" "chn_1" "updated" 100 d (sample_delivery "pending"));
    by vm_compute.
Defined.

(** Two alerts of one incident, the second while the notification of the first
    is being sent: the second has to wait. *)
Definition race_alert (id : string) : AlertRow :=
  mkAlertRow id id "cpu" FamilyHostCPU "warning" "server" "server" "firing" 10 None 10 None "CPU on server".
Definition race_db : DB := set_alerts [race_alert "a1"; race_alert "a2"] (queue_db []).
Definition race_ops : list QueueOp :=
  [QFired (alert_of_row (race_alert "a1")) (Second * 60) true; QClaim "del_0" (Second * 80);
   QFired (alert_of_row (race_alert "a2")) (Second * 90) true; QClaim "del_2" (Second * 120)].
Local Notation race_deliveries ops := (db_deliveries (w_db (queue_ops 0 ops (World race_db [] 0 [])).2)).

Lemma slot_exclusive_witness :
  map (fun r => (de_id r, de_status r, de_incident_id r)) (race_deliveries race_ops) =
    [("del_0", "in_progress", Some "inc_1"); ("del_2", "pending", Some "inc_1")] /\
  map de_status (race_deliveries (race_ops ++ [QFinish "del_0" true false "" 0; QClaim "del_2" (Second * 120)])) = ["succeeded"; "in_progress"] /\
  forall a b, In a (race_deliveries race_ops) -> In b (race_deliveries race_ops) -> in_progress a = true -> in_progress b = true ->
    same_slot a b = true -> a = b.
Proof.
  split; [vm_compute; reflexivity|split; [vm_compute; reflexivity|]].
  exact (slot_exclusive 0 race_ops (World race_db [] 0 []) eq_refl).
Defined.

(** ** The channel limit *)

Section limit.
Context `{Rand} `{SecretsCodec}.
Context (parse_address : string -> bool) (secrets : option (option AEAD)).

Inductive ChannelOp :=
  | COCreate (c : Channel) (s : ChannelSecrets)
  | COPatch (id : string) (c : Channel) (p : SecretPatch)
  | CODelete (id : string).

Definition channel_step (op : ChannelOp) : tx DB unit :=
  match op with
  | COCreate c s => ignore (CreateChannel parse_address secrets c s)
  | COPatch id c p => ignore (PatchChannel parse_address secrets id c p)
  | CODelete id => ignore (DeleteChannel id)
  end.

Definition limit_inv (d : DB) : Prop := sql_count live_channel (db_channels d) <= 32.

Lemma limit_ext d d' : limit_inv d -> db_channels d' = db_channels d -> limit_inv d'.
Proof. unfold limit_inv. by intros ? ->. Qed.

Lemma limit_put store key v : preserves limit_inv (Put store key v).
Proof.
  unfold Put. frame_auto. apply exec_preserves. intros d u d' Hd [= <- <-]. by eapply limit_ext.
Qed.

Lemma limit_get store key : preserves limit_inv (Get (D := DB) store key).
Proof. unfold Get, open_row. frame_auto. Qed.

Lemma sql_count_update_le {R} (q p : R -> bool) (f : R -> R) t :
  (forall r, q (f r) = true -> q r = true) -> sql_count q (sql_update p f t) <= sql_count q t.
Proof.
  intros Hf. induction t as [|r t IH]; [done|]. cbn [sql_update map]. fold (sql_update p f t).
  rewrite !sql_count_cons. specialize (Hf r).
  destruct (p r), (q r); try lia; destruct (q (f r)); try lia; by discriminate Hf.
Qed.

Lemma limit_insert c d u d' : insert_channel c d = inr (u, d') -> limit_inv d'.
Proof.
  intros E. unfold insert_channel in E. sql_inv E. apply insert_pk_inv in E as [-> _].
  unfold limit_inv. cbn. rewrite sql_count_app, sql_count_cons. change (sql_count _ []) with 0.
  destruct (live_channel c); lia.
Qed.

Lemma preserves_on_error {A} (I : DB -> Prop) (m : tx DB A) cleanup :
  preserves I m -> preserves I cleanup -> preserves I (on_error m cleanup).
Proof.
  intros Hm Hc w Hw. specialize (Hm w Hw). unfold on_error. destruct (m w) as [[e|a] w1]; [|done].
  specialize (Hc w1 Hm). by destruct (cleanup w1) as [[]].
Qed.

Lemma limit_create c s : preserves limit_inv (CreateChannel parse_address secrets c s).
Proof.
  unfold CreateChannel, newID. frame_auto; try apply limit_put.
  apply preserves_on_error; apply exec_preserves; intros d u d' Hd E.
  - by eapply limit_insert.
  - simplify_eq. by eapply limit_ext.
Qed.

Lemma limit_patch id c p : preserves limit_inv (PatchChannel parse_address secrets id c p).
Proof.
  unfold PatchChannel, Repo_Channel, Channels, PatchedSecrets, store_get, store_put, update_rows.
  frame_auto; try apply limit_put; try apply limit_get; apply exec_preserves; intros d u d' Hd E.
  - sql_inv E. simplify_eq. unfold limit_inv in *. cbn [db_channels set_channels].
    etransitivity; [by apply sql_count_update_le|done].
  - simplify_eq. by eapply limit_ext.
Qed.

Lemma limit_delete id : preserves limit_inv (DeleteChannel id).
Proof.
  unfold DeleteChannel, update_rows. frame_auto; apply exec_preserves; intros d u d' Hd E; simplify_eq.
  - unfold limit_inv in *. cbn [db_channels set_channels].
    etransitivity; [by apply sql_count_update_le|done].
  - by eapply limit_ext.
Qed.

(** At most 32 channels.  However channels are created, patched and
    deleted, and whatever statements fail, the table never holds more than 32
    channels that are not deleted. *)
Theorem channel_limit (ops : list ChannelOp) (w : world DB) :
  db_channels (w_db w) = [] ->
  sql_count live_channel (db_channels (w_db (iter_tx channel_step ops w).2)) <= 32.
Proof.
  intros Hw. assert (limit_inv (w_db w)) as Hi by (unfold limit_inv; rewrite Hw; by vm_compute).
  assert (preserves limit_inv (iter_tx channel_step ops)) as Hp.
  { apply preserves_iter. intros []; apply preserves_ignore;
      auto using limit_create, limit_patch, limit_delete. }
  specialize (Hp w Hi). by destruct (iter_tx channel_step ops w) as [[] w'].
Qed.
End limit.

Definition sample_channel : Channel :=
  mkChannel "" "ops" "webhook" true "" true None false 0 0.
Definition sample_secrets : ChannelSecrets :=
  mkChannelSecrets "https://example.org/hook" "" "" "" "" "" "" [].

Lemma channel_limit_witness :
  let ops := replicate 40 (COCreate sample_channel sample_secrets) in
  let d := w_db (iter_tx (channel_step (fun _ => true) (Some (Some plain_aead))) ops
                   (World empty_db [] 0 [])).2 in
  sql_count live_channel (db_channels d) = 32 /\ sql_count live_channel (db_channels d) <= 32.
Proof.
  split; [by vm_compute|].
  exact (channel_limit (fun _ => true) (Some (Some plain_aead))
           (replicate 40 (COCreate sample_channel sample_secrets)) (World empty_db [] 0 []) eq_refl).
Defined.
