(* ===== verification/AuthSchema.v ===== *)
(** * The access tables

    The tables of [migrations/004], [007], [008], [019] and [020] that
    authentication uses, with their constraints, and the parameters that
    stand for hash functions. *)

From stdpp Require Import base tactics list gmap strings.
From Stdlib Require Import ZArith Lia.
From S2P Require Import Prelude GoString Db AlertState Schema Secrets.

(** ** Rows *)

(** [users] *)
Record UserRow := mkUserRow {
  us_id : string; us_username : string; us_password_hash : string; us_created_at : Z;
  us_updated_at : Z; us_totp_enabled : bool; us_totp_secret_key : option string;
  us_mfa_changed_at : option Z;
}.

(** [sessions] *)
Record SessionRow := mkSessionRow {
  se_id_hash : string; se_user_id : string; se_created_at : Z; se_last_seen_at : Z;
  se_expires_at : Z; se_absolute_expires_at : Z; se_revoked_at : option Z;
  se_csrf_hash : option string; se_user_agent_hash : option string;
  se_ip_prefix_hash : option string; se_auth_method : string; se_auth_subject : option string;
}.

(** [api_tokens]; [scopes_json] as the list it encodes *)
Record TokenRow := mkTokenRow {
  tk_id : string; tk_user_id : string; tk_name : string; tk_prefix : string;
  tk_token_hash : string; tk_scopes : list string; tk_created_at : Z; tk_expires_at : option Z;
  tk_last_used_at : option Z; tk_revoked_at : option Z;
}.

(** [recovery_codes] *)
Record RecoveryRow := mkRecoveryRow {
  rv_user_id : string; rv_code_hash : string; rv_created_at : Z; rv_used_at : option Z;
}.

(** [setup_state], a table of at most one row *)
Record SetupRow := mkSetupRow {
  su_token_hash : option string; su_expires_at : option Z; su_claimed_at : option Z;
  su_created_at : Z;
}.

Record AuthDB := mkAuthDB {
  adb_users : list UserRow;
  adb_sessions : list SessionRow;
  adb_tokens : list TokenRow;
  adb_recovery : list RecoveryRow;
  adb_setup : option SetupRow;
  adb_secrets : gmap string SecretRow;
}.
Definition empty_auth : AuthDB := mkAuthDB [] [] [] [] None ∅.

Definition set_users (t : list UserRow) (d : AuthDB) : AuthDB :=
  mkAuthDB t (adb_sessions d) (adb_tokens d) (adb_recovery d) (adb_setup d) (adb_secrets d).
Definition set_sessions (t : list SessionRow) (d : AuthDB) : AuthDB :=
  mkAuthDB (adb_users d) t (adb_tokens d) (adb_recovery d) (adb_setup d) (adb_secrets d).
Definition set_tokens (t : list TokenRow) (d : AuthDB) : AuthDB :=
  mkAuthDB (adb_users d) (adb_sessions d) t (adb_recovery d) (adb_setup d) (adb_secrets d).
Definition set_recovery (t : list RecoveryRow) (d : AuthDB) : AuthDB :=
  mkAuthDB (adb_users d) (adb_sessions d) (adb_tokens d) t (adb_setup d) (adb_secrets d).
Definition set_setup (t : option SetupRow) (d : AuthDB) : AuthDB :=
  mkAuthDB (adb_users d) (adb_sessions d) (adb_tokens d) (adb_recovery d) t (adb_secrets d).
Definition set_auth_secrets (t : gmap string SecretRow) (d : AuthDB) : AuthDB :=
  mkAuthDB (adb_users d) (adb_sessions d) (adb_tokens d) (adb_recovery d) (adb_setup d) t.

#[export] Instance auth_secret_table : SecretTable AuthDB := {|
  get_secrets := adb_secrets;
  put_secrets := set_auth_secrets;
  get_put_secrets := fun t d => eq_refl;
|}.

Definition user_exists (id : string) (d : AuthDB) : bool :=
  sql_exists (fun u => us_id u =?s id) (adb_users d).

(** ** Hash functions

    SHA-256 sums as text, in base 64 and in hexadecimal.  Tables are keyed by
    them, so two inputs with one sum are taken not to occur. *)
Class SHA256 := {
  sha256_base64 : string -> string;
  sha256_hex : string -> string;
  sha256_base64_inj : Inj (=) (=) sha256_base64;
  sha256_hex_inj : Inj (=) (=) sha256_hex;
}.
#[export] Existing Instance sha256_base64_inj.
#[export] Existing Instance sha256_hex_inj.

(** A function without collisions, for evaluating examples. *)
#[export] Instance plain_sha256 : SHA256 := {|
  sha256_base64 := fun s => "h" +:+ s;
  sha256_hex := fun s => "h" +:+ s;
|}.

(** [COALESCE(column, v)] *)
Definition coalesce {A} (c : option A) (v : A) : option A :=
  match c with Some x => Some x | None => Some v end.
Definition is_null {A} (c : option A) : bool := match c with None => true | Some _ => false end.
