(* ===== verification/Sessions.v ===== *)
(** * Sessions

    [internal/auth/sessions.go]: issuing, authenticating, revoking and
    cleaning up browser sessions.  Cookies and headers of a request are its
    already extracted values. *)

From stdpp Require Import base tactics list gmap strings.
From Stdlib Require Import ZArith Lia.
From S2P Require Import Prelude GoString Db AlertState Schema Secrets AuthSchema.

Definition ErrSessionInvalid : gerr := EMsg "session is invalid".

Record SessionConfig := mkSessionConfig { IdleTimeout : Z; AbsoluteLifetime : Z }.
Definition SessionConfig_valid (c : SessionConfig) : bool :=
  (0 <? IdleTimeout c) && (IdleTimeout c <=? AbsoluteLifetime c).

(** [SetConfig]: an invalid configuration is ignored. *)
Definition SetConfig (cfg old : SessionConfig) : SessionConfig :=
  if SessionConfig_valid cfg then cfg else old.

Record Session := mkSession {
  ss_UserID : string; ss_CreatedAt : Z; ss_LastSeenAt : Z; ss_ExpiresAt : Z;
  ss_AbsoluteExpires : Z; ss_AuthMethod : string; ss_AuthSubject : string;
}.

Definition minTime (a b : Z) : Z := if a <? b then a else b.
Definition nullFingerprint (v : string) : option string := if v =?s "" then None else Some v.

(** What the service reads of a request. *)
Record Request := mkRequest {
  rq_Method : string;
  rq_Authorization : string;
  rq_SessionCookie : option string;
  rq_CSRFCookie : option string;
  rq_CSRFHeader : string;
}.

(** Bearer credentials and browser sessions are exclusive. *)
Definition TokenFromRequest (r : Request) : string :=
  if negb (rq_Authorization r =?s "") then "" else default "" (rq_SessionCookie r).

Section sessions.
Context `{Rand} `{SHA256}.

Definition tokenHash (token : string) : string := sha256_base64 token.
Definition CSRFHash (token : string) : string := sha256_base64 token.
Definition fingerprint (v : string) : string := if v =?s "" then "" else sha256_base64 v.

Definition by_hash (token : string) (r : SessionRow) : bool := se_id_hash r =?s tokenHash token.

(** [INSERT INTO sessions] *)
Definition insert_session (r : SessionRow) (d : AuthDB) : gerr + (unit * AuthDB) :=
  guard_c (str_in (se_auth_method r) ["local"; "proxy"]) "auth_method"
    (put set_sessions (insert_pk se_id_hash r (adb_sessions d)) d).

Definition issue (cfg : SessionConfig) (userID userAgentHash ipPrefixHash authMethod authSubject : string) :
    tx AuthDB (string * string * Session) :=
  if userID =?s "" then throw ErrSessionInvalid
  else if negb (SessionConfig_valid cfg) then throw ErrSessionInvalid
  else
    token <- rand_id ;;
    csrf <- rand_id ;;
    now <- time_now ;;
    let absolute := time_add now (AbsoluteLifetime cfg) in
    if negb (str_in authMethod ["local"; "proxy"]) then throw ErrSessionInvalid
    else
      let session := mkSession userID now now (minTime (time_add now (IdleTimeout cfg)) absolute)
                       absolute authMethod authSubject in
      exec (insert_session (mkSessionRow (tokenHash token) userID (time_unix_milli now)
        (time_unix_milli now) (time_unix_milli (ss_ExpiresAt session)) (time_unix_milli absolute) None
        (Some (CSRFHash csrf)) (nullFingerprint userAgentHash) (nullFingerprint ipPrefixHash)
        authMethod (nullFingerprint authSubject))) ;;;
      ret (token, csrf, session).

Definition Issue cfg userID := issue cfg userID "" "" "local" "".
Definition IssueForRequest cfg userID userAgent clientPrefix :=
  issue cfg userID (fingerprint userAgent) (fingerprint clientPrefix) "local" "".
Definition IssueForProxyRequest cfg userID subject userAgent clientPrefix :=
  issue cfg userID (fingerprint userAgent) (fingerprint clientPrefix) "proxy" subject.

(** [revoked_at=COALESCE(revoked_at,?)] *)
Definition session_revoke (at_ : Z) (r : SessionRow) : SessionRow :=
  mkSessionRow (se_id_hash r) (se_user_id r) (se_created_at r) (se_last_seen_at r)
    (se_expires_at r) (se_absolute_expires_at r) (coalesce (se_revoked_at r) at_)
    (se_csrf_hash r) (se_user_agent_hash r) (se_ip_prefix_hash r) (se_auth_method r)
    (se_auth_subject r).
(** [last_seen_at=?,expires_at=?] *)
Definition session_touch (seen expires : Z) (r : SessionRow) : SessionRow :=
  mkSessionRow (se_id_hash r) (se_user_id r) (se_created_at r) seen expires
    (se_absolute_expires_at r) (se_revoked_at r) (se_csrf_hash r) (se_user_agent_hash r)
    (se_ip_prefix_hash r) (se_auth_method r) (se_auth_subject r).

Definition Authenticate (cfg : SessionConfig) (token : string) : tx AuthDB Session :=
  if token =?s "" then throw ErrSessionInvalid
  else if negb (SessionConfig_valid cfg) then throw ErrSessionInvalid
  else
    row <- map_err (fun _ => ErrSessionInvalid) (query_row (fun d => sql_find (by_hash token) (adb_sessions d))) ;;
    match se_revoked_at row with
    | Some _ => throw ErrSessionInvalid
    | None =>
        now <- time_now ;;
        if negb (now <? of_unix_milli (se_expires_at row)) ||
           negb (now <? of_unix_milli (se_absolute_expires_at row))
        then
          ignore (update_rows adb_sessions set_sessions (by_hash token)
                    (session_revoke (time_unix_milli now))) ;;;
          throw ErrSessionInvalid
        else
          let expires := minTime (time_add now (IdleTimeout cfg))
                           (of_unix_milli (se_absolute_expires_at row)) in
          update_rows adb_sessions set_sessions
            (fun r => by_hash token r && is_null (se_revoked_at r))
            (session_touch (time_unix_milli now) (time_unix_milli expires)) ;;;
          ret (mkSession (se_user_id row) (of_unix_milli (se_created_at row)) now expires
                 (of_unix_milli (se_absolute_expires_at row)) (se_auth_method row)
                 (default "" (se_auth_subject row)))
    end.

(** The API's hook: the error is only tested. *)
Definition Authorize (cfg : SessionConfig) (r : Request) : tx AuthDB bool := fun w =>
  match Authenticate cfg (TokenFromRequest r) w with
  | (inr _, w') => (inr true, w')
  | (inl _, w') => (inr false, w')
  end.

Definition live_session (token : string) (r : SessionRow) : bool :=
  by_hash token r && is_null (se_revoked_at r).

Definition Actor (r : Request) : tx AuthDB (option string) :=
  or_default None (row <- query_row (fun d => sql_find (live_session (TokenFromRequest r)) (adb_sessions d)) ;;
    ret (Some (match se_auth_subject row with
               | Some s => if se_auth_method row =?s "proxy" then "proxy:" +:+ s else se_user_id row
               | None => se_user_id row
               end))).

(** [auth.ValidCSRF]: the double-submitted token, against the stored hash *)
Definition ValidCSRF (r : Request) (expectedHash : string) : bool :=
  if str_in (rq_Method r) ["GET"; "HEAD"; "OPTIONS"] then true
  else match rq_CSRFCookie r with
  | None => false
  | Some cookie =>
      if (rq_CSRFHeader r =?s "") || negb (cookie =?s rq_CSRFHeader r) then false
      else CSRFHash (rq_CSRFHeader r) =?s expectedHash
  end.

(** [s.ValidCSRF], [same_origin] being [SameOrigin] of the request *)
Definition Sessions_ValidCSRF (same_origin : bool) (r : Request) : tx AuthDB bool :=
  if negb same_origin then ret false
  else
    let token := TokenFromRequest r in
    if token =?s "" then ret false
    else or_default false (
      expected <- query_row (fun d => (fun row => default "" (se_csrf_hash row)) <$>
                    sql_find (live_session token) (adb_sessions d)) ;;
      ret (negb (expected =?s "") && ValidCSRF r expected)).

Definition Revoke (token : string) : tx AuthDB unit :=
  if token =?s "" then throw ErrSessionInvalid
  else
    now <- time_now ;;
    update_rows adb_sessions set_sessions (by_hash token) (session_revoke (time_unix_milli now)) ;;;
    ret tt.

Definition RevokeAll (userID : string) : tx AuthDB unit :=
  if userID =?s "" then throw ErrSessionInvalid
  else
    now <- time_now ;;
    update_rows adb_sessions set_sessions (fun r => se_user_id r =?s userID)
      (session_revoke (time_unix_milli now)) ;;;
    ret tt.

(** The rows a clean-up removes: the first [limit] stale ones *)
Definition stale (cutoff : Z) (r : SessionRow) : bool :=
  (se_expires_at r <? cutoff) || (se_absolute_expires_at r <? cutoff) ||
  match se_revoked_at r with Some t => t <? cutoff | None => false end.

Definition Sessions_Cleanup (limit : Z) : tx AuthDB Z :=
  let limit := if (limit <? 1) || (1000 <? limit) then 500 else limit in
  now <- time_now ;;
  let cutoff := time_unix_milli now in
  exec (fun d =>
    let t := delete_first (stale cutoff) (Z.to_nat limit) (adb_sessions d) in
    inr (Z.of_nat (length (adb_sessions d)) - Z.of_nat (length t), set_sessions t d)).

(** The hourly loop: clean up until a batch is short.  [fuel] bounds the
    batches; more of them than rows over 500 are never needed. *)
Fixpoint cleanup_loop (fuel : nat) : tx AuthDB unit := fun w =>
  match fuel with
  | O => (inr tt, w)
  | S fuel =>
      match Sessions_Cleanup 500 w with
      | (inl _, w') => (inr tt, w')
      | (inr n, w') => if n <? 500 then (inr tt, w') else cleanup_loop fuel w'
      end
  end.
End sessions.

(** ** Properties *)

Inductive SessionOp :=
  | OIssue (cfg : SessionConfig) (userID userAgentHash ipPrefixHash authMethod authSubject : string)
  | OAuthenticate (cfg : SessionConfig) (token : string)
  | ORevoke (token : string)
  | ORevokeAll (userID : string)
  | OCleanup (limit : Z).

Section session_properties.
Context `{Rand} `{SHA256}.

Definition session_step (op : SessionOp) : tx AuthDB unit :=
  match op with
  | OIssue cfg u ua ip m s => ignore (issue cfg u ua ip m s)
  | OAuthenticate cfg token => ignore (Authenticate cfg token)
  | ORevoke token => ignore (Revoke token)
  | ORevokeAll u => ignore (RevokeAll u)
  | OCleanup limit => ignore (Sessions_Cleanup limit)
  end.
Definition session_run (ops : list SessionOp) : tx AuthDB unit := iter_tx session_step ops.

(** Statements about the rows of one drawn token survive every operation when
    updates keep them: later sessions have other tokens. *)
Section one_token.
Context (k : nat) (Q : SessionRow -> Prop).
Context (skip_auth : bool).
Context (Q_revoke : forall t r, Q r -> Q (session_revoke t r)).
Context (Q_touch : skip_auth = false -> forall seen exp r, Q r -> Q (session_touch seen exp r)).

Definition token_rows (n : nat) (d : AuthDB) : Prop :=
  (k < n)%nat /\ forall r, In r (adb_sessions d) -> by_hash (rand_hex k) r = true -> Q r.

Lemma token_rows_mono n n' d : token_rows n d -> (n <= n')%nat -> token_rows n' d.
Proof using Type. intros [Hk Hr] Hn. split; [lia|done]. Qed.

Lemma token_rows_update n d p f :
  (forall r, se_id_hash (f r) = se_id_hash r) ->
  (forall r, p r = true -> by_hash (rand_hex k) r = true -> Q r -> Q (f r)) ->
  token_rows n d -> token_rows n (set_sessions (sql_update p f (adb_sessions d)) d).
Proof using Type.
  intros Hid Hf [Hk Hr]. split; [done|]. intros r (r0 & Hr0 & ->)%in_sql_update. unfold by_hash in *.
  destruct (p r0) eqn:E; [|by apply Hr]. rewrite Hid. intros Hh. apply Hf; auto.
Qed.

Lemma keeps_update n0 p f :
  (forall r, se_id_hash (f r) = se_id_hash r) ->
  (forall r, p r = true -> by_hash (rand_hex k) r = true -> Q r -> Q (f r)) ->
  keeps n0 token_rows (update_rows adb_sessions set_sessions p f).
Proof using Type.
  intros Hid Hf. apply keeps_exec. intros n d a d' _ Hd [= _ <-]. by apply token_rows_update.
Qed.

Lemma fresh_hash n r : (S k <= n)%nat -> se_id_hash r = tokenHash (rand_hex n) -> by_hash (rand_hex k) r = false.
Proof using Type.
  intros Hn E. unfold by_hash, tokenHash in *. rewrite E. apply String.eqb_neq.
  intros ->%(inj sha256_base64)%(inj rand_hex). lia.
Qed.

Lemma keeps_issue cfg u ua ip m s : keeps (S k) token_rows (issue cfg u ua ip m s).
Proof using Type.
  unfold issue. keep_auto token_rows_mono. apply keeps_exec.
  intros n' d x d' Hn' [Hk Hr] E. unfold insert_session in E. sql_inv E.
  apply insert_pk_inv in E as [-> _]. split; [done|]. cbn.
  intros r [Hin|[<-|[]]]%in_app_iff; [by apply Hr|].
  rewrite (fresh_hash n); [done|lia|done].
Qed.

Lemma keeps_authenticate cfg token :
  (skip_auth = true -> token <> rand_hex k) -> keeps (S k) token_rows (Authenticate cfg token).
Proof using Q_revoke Q_touch.
  intros Hs. unfold Authenticate. keep_auto token_rows_mono.
  - apply keeps_update; [done|]. auto.
  - apply keeps_update; [done|]. intros r Hp Hh Hq. destruct skip_auth eqn:E; [|by apply Q_touch].
    exfalso. apply Hs; [done|]. bool_hyps. unfold by_hash, tokenHash in *.
    apply (inj sha256_base64). rewrite String.eqb_eq in *. congruence.
Qed.

Lemma keeps_session_run ops :
  (skip_auth = true -> forall cfg, ~ In (OAuthenticate cfg (rand_hex k)) ops) ->
  keeps (S k) token_rows (session_run ops).
Proof using Q_revoke Q_touch.
  intros Hs. unfold session_run. induction ops as [|op ops IH]; cbn; [apply keeps_ret|].
  apply keeps_bind; [|intros _; apply IH; intros E cfg Hin; by apply (Hs E cfg); right].
  destruct op as [cfg u ua ip m s|cfg token|token|u|limit]; cbn; apply keeps_ignore.
  - apply keeps_issue.
  - apply keeps_authenticate. intros E ->. apply (Hs E cfg). by left.
  - unfold Revoke. keep_auto token_rows_mono. apply keeps_update; auto.
  - unfold RevokeAll. keep_auto token_rows_mono. apply keeps_update; auto.
  - unfold Sessions_Cleanup. keep_auto token_rows_mono; apply keeps_exec;
      intros n d x d' _ [Hk Hr] [= _ <-]; (split; [done|]); cbn; intros r Hin%delete_first_incl; by apply Hr.
Qed.
End one_token.

(** Authentication fails when no row of the token is alive at the instant. *)
Lemma authenticate_refused cfg token (w : world AuthDB) :
  (forall r, In r (adb_sessions (w_db w)) -> by_hash token r = true ->
    se_revoked_at r <> None \/
    of_unix_milli (se_expires_at r) <= hd 0 (w_clock w) \/
    of_unix_milli (se_absolute_expires_at r) <= hd 0 (w_clock w)) ->
  exists e, (Authenticate cfg token w).1 = inl e.
Proof.
  intros Hr. unfold Authenticate. destruct (token =?s ""); [by eexists|].
  destruct (negb (SessionConfig_valid cfg)); [by eexists|].
  unfold bind, map_err, query_row, exec.
  assert (w_clock (next_fault w).2 = w_clock w) as Hc by (unfold next_fault; by destruct (w_faults w)).
  pose proof (next_fault_db w) as Hd. destruct (next_fault w) as [[] w1]; cbn in *; [by eexists|].
  rewrite Hd. destruct (sql_find (by_hash token) _) as [row|] eqn:E; cbn; [|by eexists].
  apply sql_find_some in E as [Hin Hh]. specialize (Hr row Hin Hh). rewrite <- Hc in Hr.
  destruct (se_revoked_at row); [by eexists|]. destruct Hr as [?|Hr]; [done|].
  unfold time_now. cbn. destruct (w_clock w1) as [|t ts]; cbn in *;
    (destruct (_ || _) eqn:Eb; [unfold ignore; by eexists|]); bool_hyps; lia.
Qed.

Lemma revoke_rows_gen (p : SessionRow -> bool) (w w1 : world AuthDB) :
  (now <- time_now ;;
   update_rows adb_sessions set_sessions p (session_revoke (time_unix_milli now)) ;;; ret tt) w =
    (inr tt, w1) ->
  exists t, w_rand w1 = w_rand w /\
    adb_sessions (w_db w1) = sql_update p (session_revoke t) (adb_sessions (w_db w)).
Proof.
  unfold bind, time_now, update_rows, exec, ret, next_fault.
  destruct (w_clock w), (w_faults w) as [|[]]; cbn; intros; simplify_eq; cbn; eauto.
Qed.

(** C8 (safety): revocation is permanent.  Once a token has been drawn and its
    session revoked, by itself or with all sessions of its user, no sequence
    of issues, authentications, revocations and clean-ups, with any statement
    failing, makes it authenticate again. *)
Theorem session_revocation_permanent (k : nat) (u : string) (w w1 : world AuthDB)
    (after : list SessionOp) (cfg : SessionConfig) :
  (k < w_rand w)%nat ->
  Revoke (rand_hex k) w = (inr tt, w1) \/
  RevokeAll u w = (inr tt, w1) /\
    (forall r, In r (adb_sessions (w_db w)) -> by_hash (rand_hex k) r = true -> se_user_id r = u) ->
  exists e, (Authenticate cfg (rand_hex k) (session_run after w1).2).1 = inl e.
Proof.
  intros Hk Hrev. set (Q := fun r => se_revoked_at r <> None).
  assert (token_rows k Q (w_rand w1) (w_db w1)) as H1.
  { destruct Hrev as [E|[E Hu]]; unfold Revoke, RevokeAll in E; (case_match; [done|]);
      apply revoke_rows_gen in E as (t & Hw & Hs); unfold token_rows; rewrite Hw, Hs;
      (split; [done|]); intros r (r0 & Hr0 & ->)%in_sql_update; unfold Q, by_hash in *.
    - destruct (se_id_hash r0 =?s _) eqn:Eh; [|congruence]. intros _. cbn. by destruct (se_revoked_at r0).
    - destruct (se_user_id r0 =?s u) eqn:Eu; cbn; [by destruct (se_revoked_at r0)|].
      intros Hh. apply String.eqb_neq in Eu. by rewrite (Hu r0 Hr0 Hh) in Eu. }
  destruct (keeps_session_run k Q false) with (ops := after) (w := w1) as [_ [_ H2]]; try done.
  { intros t r Hq. unfold Q in *. cbn. by destruct (se_revoked_at r). }
  { apply H1. }
  apply authenticate_refused. intros r Hin Hh. left. by apply H2.
Qed.

Lemma issue_inv cfg u ua ip m subj w token csrf s w1 :
  issue cfg u ua ip m subj w = (inr (token, csrf, s), w1) ->
  let now := hd 0 (w_clock w) in
  let absolute := now + AbsoluteLifetime cfg in
  let expires := minTime (now + IdleTimeout cfg) absolute in
  token = rand_hex (w_rand w) /\ w_rand w1 = S (S (w_rand w)) /\
  s = mkSession u now now expires absolute m subj /\
  SessionConfig_valid cfg = true /\
  adb_sessions (w_db w1) = adb_sessions (w_db w) ++
    [mkSessionRow (tokenHash token) u (time_unix_milli now) (time_unix_milli now)
       (time_unix_milli expires) (time_unix_milli absolute) None (Some (CSRFHash csrf))
       (nullFingerprint ua) (nullFingerprint ip) m (nullFingerprint subj)] /\
  (forall r, In r (adb_sessions (w_db w)) -> by_hash token r = false).
Proof.
  unfold issue. destruct (u =?s ""); [done|]. destruct (SessionConfig_valid cfg); [|done]. cbn [negb].
  unfold bind at 1 2 3, rand_id, time_now. cbn [w_rand w_clock w_db w_faults].
  destruct (str_in m _) eqn:Em; cbn [negb];
    [|by destruct (w_clock w)]. intros E.
  assert (exists now w0, now = hd 0 (w_clock w) /\ w_db w0 = w_db w /\ w_rand w0 = S (S (w_rand w)) /\
    exec (insert_session (mkSessionRow (tokenHash (rand_hex (w_rand w))) u (time_unix_milli now)
        (time_unix_milli now) (time_unix_milli (minTime (now + IdleTimeout cfg) (now + AbsoluteLifetime cfg)))
        (time_unix_milli (now + AbsoluteLifetime cfg)) None
        (Some (CSRFHash (rand_hex (S (w_rand w))))) (nullFingerprint ua) (nullFingerprint ip)
        m (nullFingerprint subj))) w0 = (inr tt, w1) /\
    (token, csrf, s) = (rand_hex (w_rand w), rand_hex (S (w_rand w)),
      mkSession u now now (minTime (now + IdleTimeout cfg) (now + AbsoluteLifetime cfg))
        (now + AbsoluteLifetime cfg) m subj)) as (now & w0 & -> & Hd & Hr & Ex & Ev).
  { destruct (w_clock w) as [|t ts] eqn:Ec; unfold bind in E; cbn [ss_ExpiresAt] in E;
      (match type of E with context [exec ?f ?x] => destruct (exec f x) as [[e|[]] w2] eqn:Ex end;
       [done|]); unfold ret in E; simplify_eq; eexists _, _; (split; [reflexivity|]);
      (split; [|split; [|split; [exact Ex|]]]); reflexivity. }
  simplify_eq. unfold exec in Ex. pose proof (next_fault_db w0) as Hd0. pose proof (next_fault_rand w0) as Hr0.
  destruct (next_fault w0) as [[] w2]; cbn in Hd0, Hr0; [done|].
  destruct (insert_session _ _) as [|[[] d']] eqn:Ei; [done|]. simplify_eq.
  unfold insert_session in Ei. sql_inv Ei. apply insert_pk_inv in Ei as [-> Hne]. cbn.
  rewrite Hd0, Hd in *. split_and!; try done; [congruence|].
  intros r Hin. apply String.eqb_neq. by apply Hne.
Qed.

(** A session never outlives its limits.  Whatever happens after a
    session is issued, at an instant its absolute lifetime or more later its
    token does not authenticate; and unless it authenticates in between, not
    at an instant the idle timeout or more later either. *)
Theorem session_expiry (cfg cfg' : SessionConfig) (u ua ip m subj token csrf : string) (s : Session)
    (w w1 : world AuthDB) (after : list SessionOp) :
  issue cfg u ua ip m subj w = (inr (token, csrf, s), w1) ->
  let w2 := (session_run after w1).2 in
  let t := hd 0 (w_clock w2) in
  ss_CreatedAt s + AbsoluteLifetime cfg <= t \/
  (forall c, ~ In (OAuthenticate c token) after) /\ ss_CreatedAt s + IdleTimeout cfg <= t ->
  exists e, (Authenticate cfg' token w2).1 = inl e.
Proof.
  intros E. apply issue_inv in E as (-> & Hr & -> & Hv & Hs & Hne). cbn [ss_CreatedAt].
  set (now := hd 0 (w_clock w)) in *. cbn zeta. set (w2 := (session_run after w1).2). intros Ht.
  apply authenticate_refused. fold w2. intros r Hin Hh. right.
  pose proof (unix_milli_roundtrip_bounds (now + AbsoluteLifetime cfg)) as Hb.
  pose proof (unix_milli_roundtrip_bounds (minTime (now + IdleTimeout cfg) (now + AbsoluteLifetime cfg))) as Hb'.
  unfold SessionConfig_valid in Hv. bool_hyps.
  assert (forall Q : SessionRow -> Prop,
    Q (mkSessionRow (tokenHash (rand_hex (w_rand w))) u (time_unix_milli now) (time_unix_milli now)
       (time_unix_milli (minTime (now + IdleTimeout cfg) (now + AbsoluteLifetime cfg)))
       (time_unix_milli (now + AbsoluteLifetime cfg)) None (Some (CSRFHash csrf))
       (nullFingerprint ua) (nullFingerprint ip) m (nullFingerprint subj)) ->
    token_rows (w_rand w) Q (w_rand w1) (w_db w1)) as Hstart.
  { intros Q HQ. split; [lia|]. rewrite Hs. intros r' [Hr'|[<-|[]]]%in_app_iff Hh'; [|done].
    by rewrite Hne in Hh'. }
  destruct Ht as [Ht|[Hno Ht]].
  - right. set (Q := fun r => se_absolute_expires_at r = time_unix_milli (now + AbsoluteLifetime cfg)).
    destruct (keeps_session_run (w_rand w) Q false) with (ops := after) (w := w1) as [_ [_ HQ]]; try done.
    { by rewrite Hr; lia. }
    { by apply Hstart. }
    rewrite (HQ r Hin Hh). lia.
  - left. set (Q := fun r => se_expires_at r =
      time_unix_milli (minTime (now + IdleTimeout cfg) (now + AbsoluteLifetime cfg))).
    destruct (keeps_session_run (w_rand w) Q true) with (ops := after) (w := w1) as [_ [_ HQ]]; try done.
    { by rewrite Hr; lia. }
    { by apply Hstart. }
    rewrite (HQ r Hin Hh). unfold minTime in *. case_match; lia.
Qed.

(** An issued session authenticates within its limits.  When
    storage does not fail, the token just issued authenticates at every
    instant a millisecond or more before the idle and absolute limits, as the
    user it was issued to, and the idle limit is renewed from that instant
    without passing the absolute one. *)
Theorem session_roundtrip (cfg : SessionConfig) (u ua ip m subj token csrf : string) (s : Session)
    (w w1 : world AuthDB) (t : Z) (clock : list Z) :
  issue cfg u ua ip m subj w = (inr (token, csrf, s), w1) -> token <> "" ->
  w_faults w1 = [] -> w_clock w1 = t :: clock ->
  t + Millisecond <= ss_ExpiresAt s ->
  exists s' w2, Authenticate cfg token w1 = (inr s', w2) /\
    ss_UserID s' = u /\ ss_AuthMethod s' = m /\ ss_AuthSubject s' = subj /\
    ss_LastSeenAt s' = t /\
    ss_ExpiresAt s' = Z.min (t + IdleTimeout cfg) (ss_AbsoluteExpires s') /\
    ss_AbsoluteExpires s' <= ss_AbsoluteExpires s.
Proof.
  intros E Htok Hf Hc Ht. apply issue_inv in E as (Et & Hr & -> & Hv & Hs & Hne). cbn [ss_ExpiresAt] in Ht.
  set (now := hd 0 (w_clock w)) in *.
  pose proof (unix_milli_roundtrip_bounds (now + AbsoluteLifetime cfg)) as Hb.
  pose proof (unix_milli_roundtrip_bounds (minTime (now + IdleTimeout cfg) (now + AbsoluteLifetime cfg))) as Hb'.
  unfold Authenticate. apply String.eqb_neq in Htok. rewrite Htok, Hv. cbn [negb].
  set (row := mkSessionRow _ _ _ _ _ _ _ _ _ _ _ _) in Hs.
  assert (sql_find (by_hash token) (adb_sessions (w_db w1)) = Some row) as Hfind.
  { rewrite Hs, sql_find_app. destruct (sql_find (by_hash token) (adb_sessions (w_db w))) eqn:E.
    - apply sql_find_some in E as [Hin Hh]. by rewrite Hne in Hh.
    - cbn. by rewrite String.eqb_refl. }
  unfold bind, map_err, query_row, update_rows, exec, next_fault. rewrite Hf, Hfind. unfold row at 1.
  cbn [se_revoked_at]. unfold time_now. rewrite Hc. cbn [w_clock w_db w_faults w_rand].
  subst row. cbn [se_expires_at se_absolute_expires_at].
  destruct (negb _ || negb _) eqn:Ex.
  { exfalso. apply orb_true_iff in Ex as [Ex|Ex]; bool_hyps; unfold minTime in *; case_match; lia. }
  rewrite Hf. eexists _, _. split; [reflexivity|].
  cbn [ss_UserID ss_AuthMethod ss_AuthSubject ss_LastSeenAt ss_ExpiresAt ss_AbsoluteExpires
       se_user_id se_auth_method se_auth_subject]. split_and!; try done.
  - unfold nullFingerprint. destruct (subj =?s "") eqn:Es; [|done]. by apply String.eqb_eq in Es as ->.
  - unfold minTime, time_add. case_match; lia.
  - lia.
Qed.
End session_properties.

(** ** Witnesses *)

Definition sample_config : SessionConfig := mkSessionConfig Hour (8 * Hour).
Definition session_world (clock : list Z) : world AuthDB := World empty_auth [] 0 clock.
Definition issued (clock : list Z) :=
  issue sample_config "usr_1" "" "" "local" "" (session_world clock).

Lemma session_revocation_permanent_witness :
  let w := (issued [0]).2 in
  exists w1, Revoke (rand_hex 0) w = (inr tt, w1) /\
    exists e, (Authenticate sample_config (rand_hex 0)
      (session_run [OIssue sample_config "usr_1" "" "" "local" ""; OCleanup 10] w1).2).1 = inl e.
Proof.
  eexists. split; [reflexivity|].
  apply (session_revocation_permanent 0 "usr_1" (issued [0]).2); [vm_compute; lia|]. left. reflexivity.
Defined.

Lemma session_expiry_witness :
  let '(r, w1) := issued [0; 9 * Hour; 9 * Hour] in
  r = inr ("0", "1", mkSession "usr_1" 0 0 Hour (8 * Hour) "local" "") /\
  exists e, (Authenticate sample_config "0" (session_run [ORevoke "7"] w1).2).1 = inl e.
Proof.
  destruct (issued [0; 9 * Hour; 9 * Hour]) as [r w1] eqn:E.
  vm_compute in E. simplify_eq. split; [reflexivity|].
  eapply (session_expiry sample_config sample_config "usr_1" "" "" "local" "" "0" "1"
            (mkSession "usr_1" 0 0 Hour (8 * Hour) "local" "") (session_world [0; 9 * Hour; 9 * Hour])).
  - reflexivity.
  - left. vm_compute. discriminate.
Defined.

Lemma session_roundtrip_witness :
  exists s' w2, Authenticate sample_config "0" (issued [0; Minute]).2 = (inr s', w2) /\
    ss_UserID s' = "usr_1" /\ ss_ExpiresAt s' = Hour + Minute.
Proof.
  destruct (session_roundtrip sample_config "usr_1" "" "" "local" "" "0" "1"
    (mkSession "usr_1" 0 0 Hour (8 * Hour) "local" "") (session_world [0; Minute]) (issued [0; Minute]).2
    Minute []) as (s' & w2 & E & Hu & _ & _ & _ & He & Ha);
    [reflexivity|discriminate|reflexivity|reflexivity|vm_compute; discriminate|].
  exists s', w2. split; [exact E|]. split; [exact Hu|]. vm_compute in E. by simplify_eq.
Defined.
