(* ===== verification/ApiTokens.v ===== *)
(** * API tokens

    [internal/auth/api_tokens.go]: scoped bearer tokens, stored as hashes. *)

From stdpp Require Import base tactics list gmap strings.
From Stdlib Require Import ZArith Lia.
From S2P Require Import Prelude GoString Db AlertState Schema AlertRepository Secrets AuthSchema.

Definition ScopeServerRead : string := "server:read".
Definition ScopeResourcesRead : string := "resources:read".
Definition ScopeMetricsRead : string := "metrics:read".
Definition ScopeEventsRead : string := "events:read".
Definition ScopeIncidentsRead : string := "incidents:read".

Definition validScopes : list string :=
  [ScopeServerRead; ScopeResourcesRead; ScopeMetricsRead; ScopeEventsRead; ScopeIncidentsRead].

Definition ErrAPITokenInvalid : gerr := EMsg "API token is invalid".
Definition ErrAPIScopeInsufficient : gerr := EMsg "API token scope is insufficient".

Record APIToken := mkAPIToken {
  at_ID : string; at_Name : string; at_Prefix : string; at_Scopes : list string; at_CreatedAt : Z;
  at_ExpiresAt : option Z; at_LastUsedAt : option Z; at_RevokedAt : option Z;
}.

(** Every scope known and none repeated *)
Fixpoint scopes_ok (seen : list string) (scopes : list string) : bool :=
  match scopes with
  | [] => true
  | s :: rest => if negb (str_in s validScopes) || str_in s seen then false
                 else scopes_ok (s :: seen) rest
  end.

Definition normalizeScopes (scopes : list string) : gerr + list string :=
  let n := Z.of_nat (length scopes) in
  if (n <? 1) || (Z.of_nat (length validScopes) <? n)
  then inl (EMsg "one to five scopes are required")
  else if scopes_ok [] scopes then inr (sql_order_by String.leb scopes)
  else inl (EMsg "invalid API token scope").

Section tokens.
Context `{Rand} `{SHA256}.

Definition apiTokenHash (v : string) : string := sha256_hex v.

Definition active_token (userID : string) (now : Z) (r : TokenRow) : bool :=
  (tk_user_id r =?s userID) && is_null (tk_revoked_at r) &&
  match tk_expires_at r with None => true | Some t => now <? t end.

(** [INSERT INTO api_tokens], with its unique columns *)
Definition insert_token (r : TokenRow) (d : AuthDB) : gerr + (unit * AuthDB) :=
  guard_c (user_exists (tk_user_id r) d) "FOREIGN KEY"
  (guard_c ((1 <=? char_length (tk_name r)) && (char_length (tk_name r) <=? 64)) "name"
  (guard_c (negb (sql_exists (fun x => tk_prefix x =?s tk_prefix r) (adb_tokens d))) "prefix"
  (guard_c (negb (sql_exists (fun x => tk_token_hash x =?s tk_token_hash r) (adb_tokens d))) "token_hash"
  (put set_tokens (insert_pk tk_id r (adb_tokens d)) d)))).

Definition token_plaintext (id secret : string) : string := "bnk_" +:+ id +:+ "_" +:+ secret.

Definition Tokens_Create (userID name : string) (scopes : list string) (expiresAt : option Z) :
    tx AuthDB (APIToken * string) :=
  let name := TrimSpace name in
  if (str_len name <? 1) || (64 <? str_len name)
  then throw (EMsg "token name must be 1 to 64 characters")
  else match normalizeScopes scopes with
  | inl e => throw e
  | inr scopes =>
      now <- time_now ;;
      let bad := match expiresAt with
                 | None => false
                 | Some v => (v <? time_add now Hour) || (time_add now (365 * 24 * Hour) <? v)
                 end in
      if bad then throw (EMsg "token expiry must be between one hour and one year")
      else with_tx (
        active <- query (fun d => sql_count (active_token userID (time_unix_milli now)) (adb_tokens d)) ;;
        if 32 <=? active then throw (EMsg "active API token limit reached")
        else
          idBytes <- rand_id ;;
          secret <- rand_id ;;
          let id := "tok_" +:+ idBytes in
          let plaintext := token_plaintext idBytes secret in
          let prefix := String.substring 0 12 plaintext in
          exec (insert_token (mkTokenRow id userID name prefix (apiTokenHash plaintext) scopes
            (time_unix_milli now) (time_unix_milli <$> expiresAt) None None)) ;;;
          ret (mkAPIToken id name prefix scopes now expiresAt None None, plaintext))
  end.

Definition Tokens_List (userID : string) : tx AuthDB (list APIToken) :=
  query (fun d => map (fun r => mkAPIToken (tk_id r) (tk_name r) (tk_prefix r) (tk_scopes r)
      (of_unix_milli (tk_created_at r)) (of_unix_milli <$> tk_expires_at r)
      (of_unix_milli <$> tk_last_used_at r) (of_unix_milli <$> tk_revoked_at r))
    (sql_order_by (fun a b => tk_created_at b <=? tk_created_at a)
       (List.filter (fun r => tk_user_id r =?s userID) (adb_tokens d)))).

Definition token_revoke (at_ : Z) (r : TokenRow) : TokenRow :=
  mkTokenRow (tk_id r) (tk_user_id r) (tk_name r) (tk_prefix r) (tk_token_hash r) (tk_scopes r)
    (tk_created_at r) (tk_expires_at r) (tk_last_used_at r) (coalesce (tk_revoked_at r) at_).
Definition token_use (at_ : Z) (r : TokenRow) : TokenRow :=
  mkTokenRow (tk_id r) (tk_user_id r) (tk_name r) (tk_prefix r) (tk_token_hash r) (tk_scopes r)
    (tk_created_at r) (tk_expires_at r) (Some at_) (tk_revoked_at r).

Definition Tokens_Revoke (userID id : string) : tx AuthDB unit :=
  now <- time_now ;;
  n <- update_rows adb_tokens set_tokens (fun r => (tk_id r =?s id) && (tk_user_id r =?s userID))
         (token_revoke (time_unix_milli now)) ;;
  if negb (n =? 1) then throw ENoRows else ret tt.

Definition token_by_hash (plaintext : string) (r : TokenRow) : bool :=
  tk_token_hash r =?s apiTokenHash plaintext.

(** [err != nil] of the lookup is [ErrAPITokenInvalid]; recording the use is
    best effort.  The clock is read once for the expiry, when there is one,
    and once after. *)
Definition token_lookup (plaintext : string) : tx AuthDB TokenRow :=
  map_err (fun _ => ErrAPITokenInvalid)
    (query_row (fun d => sql_find (token_by_hash plaintext) (adb_tokens d))).

Definition token_expired (r : TokenRow) : tx AuthDB bool :=
  match tk_expires_at r with
  | None => ret false
  | Some t => now <- time_now ;; ret (t <=? time_unix_milli now)
  end.

Definition used_before (cutoff : Z) (r : TokenRow) : bool :=
  match tk_last_used_at r with None => true | Some t => t <? cutoff end.

Definition record_use (plaintext : string) (row : TokenRow) : tx AuthDB unit :=
  now <- time_now ;;
  let cutoff := time_unix_milli (time_add now (- Hour)) in
  if used_before cutoff row then
    ignore (update_rows adb_tokens set_tokens
      (fun r => token_by_hash plaintext r && used_before cutoff r)
      (token_use (time_unix_milli now)))
  else ret tt.

Definition Tokens_Authenticate (plaintext required : string) : tx AuthDB unit :=
  if negb (HasPrefix plaintext "bnk_") || (128 <? str_len plaintext) then throw ErrAPITokenInvalid
  else
    row <- token_lookup plaintext ;;
    if negb (is_null (tk_revoked_at row)) then throw ErrAPITokenInvalid
    else
      expired <- token_expired row ;;
      if expired : bool then throw ErrAPITokenInvalid
      else if negb (existsb (fun s => s =?s required) (tk_scopes row))
      then throw ErrAPIScopeInsufficient
      else record_use plaintext row.

(** ** Properties *)

Inductive TokenOp :=
  | TCreate (userID name : string) (scopes : list string) (expiresAt : option Z)
  | TRevoke (userID id : string)
  | TAuthenticate (plaintext required : string).

Definition token_step (op : TokenOp) : tx AuthDB unit :=
  match op with
  | TCreate u n s e => ignore (Tokens_Create u n s e)
  | TRevoke u id => ignore (Tokens_Revoke u id)
  | TAuthenticate p r => ignore (Tokens_Authenticate p r)
  end.
Definition token_run (ops : list TokenOp) : tx AuthDB unit := iter_tx token_step ops.

(** The hash is taken, and only by revoked tokens. *)
Definition dead_hash (h : string) (d : AuthDB) : Prop :=
  (exists r, In r (adb_tokens d) /\ tk_token_hash r = h) /\
  forall r, In r (adb_tokens d) -> tk_token_hash r = h -> tk_revoked_at r <> None.

Lemma dead_update h p f d :
  (forall r, tk_token_hash (f r) = tk_token_hash r) ->
  (forall r, tk_revoked_at r <> None -> tk_revoked_at (f r) <> None) ->
  dead_hash h d -> dead_hash h (set_tokens (sql_update p f (adb_tokens d)) d).
Proof.
  intros Hh Hr [(r & Hin & E) Hd]. split.
  - exists (if p r then f r else r). split; [apply in_sql_update; eauto|]. destruct (p r); [by rewrite Hh|done].
  - intros r' (r0 & Hr0 & ->)%in_sql_update. destruct (p r0); [rewrite Hh|]; auto.
Qed.

Lemma dead_update_preserves h p f :
  (forall r, tk_token_hash (f r) = tk_token_hash r) ->
  (forall r, tk_revoked_at r <> None -> tk_revoked_at (f r) <> None) ->
  preserves (dead_hash h) (update_rows adb_tokens set_tokens p f).
Proof.
  intros Hh Hr. apply exec_preserves. intros d a d' Hd E. simplify_eq. by apply dead_update.
Qed.

Lemma dead_insert h r d u d' : dead_hash h d -> insert_token r d = inr (u, d') -> dead_hash h d'.
Proof.
  intros [(r0 & Hin & E) Hd] Ei. unfold insert_token in Ei. sql_inv Ei.
  apply insert_pk_inv in Ei as [-> _]. cbn. split; [exists r0; cbn; rewrite in_app_iff; auto|].
  cbn. intros r1 [Hr1|[<-|[]]]%in_app_iff; [by apply Hd|]. intros Hh. exfalso.
  assert (sql_exists (fun x => tk_token_hash x =?s tk_token_hash r) (adb_tokens d) = true) as Hx.
  { apply sql_exists_true. exists r0. by rewrite E, Hh, String.eqb_refl. }
  rewrite Hx in *. done.
Qed.

Lemma token_run_dead h ops : preserves (dead_hash h) (token_run ops).
Proof.
  apply preserves_iter. intros [u n s e|u id|p r]; apply preserves_ignore.
  - unfold Tokens_Create. frame_auto. apply exec_preserves. intros d x d' Hd E. by eapply dead_insert.
  - unfold Tokens_Revoke. frame_auto. apply dead_update_preserves; [done|].
    intros r Hr. cbn. by destruct (tk_revoked_at r).
  - unfold Tokens_Authenticate, token_lookup, token_expired, record_use. frame_auto.
    by apply dead_update_preserves.
Qed.

(** C29 (safety): a revoked API token stays revoked.  Once the tokens with the hash of
    a plaintext are revoked, the plaintext never authenticates again, whatever
    tokens are created, revoked or used afterwards and whatever fails. *)
Theorem token_revocation_permanent (userID id plaintext required : string) (w w1 : world AuthDB)
    (after : list TokenOp) :
  Tokens_Revoke userID id w = (inr tt, w1) ->
  (exists r, In r (adb_tokens (w_db w)) /\ token_by_hash plaintext r = true) ->
  (forall r, In r (adb_tokens (w_db w)) -> token_by_hash plaintext r = true ->
    tk_id r = id /\ tk_user_id r = userID) ->
  (Tokens_Authenticate plaintext required (token_run after w1).2).1 = inl ErrAPITokenInvalid.
Proof.
  intros E (r & Hin & Hh) Hids.
  assert (dead_hash (apiTokenHash plaintext) (w_db w1)) as H1.
  { assert (runs (w_db w) (Tokens_Revoke userID id)
      (fun _ d => dead_hash (apiTokenHash plaintext) d)) as Hruns.
    { unfold Tokens_Revoke, update_rows. sym. simplify_eq. split.
      - eexists. split; [cbn; apply in_sql_update; eauto|]. apply String.eqb_eq in Hh.
        by destruct (_ && _).
      - cbn. intros r' (r0 & Hr0 & ->)%in_sql_update. destruct (_ && _) eqn:Ex; cbn.
        + by destruct (tk_revoked_at r0).
        + intros Hh'. destruct (Hids r0 Hr0) as [Ei Eu]; [by apply String.eqb_eq|].
          by rewrite Ei, Eu, !String.eqb_refl in Ex. }
    specialize (Hruns w eq_refl). by rewrite E in Hruns. }
  assert (dead_hash (apiTokenHash plaintext) (w_db (token_run after w1).2)) as H2.
  { pose proof (token_run_dead _ after w1 H1) as Hp. by destruct (token_run after w1) as [[] ?]. }
  set (w2 := (token_run after w1).2) in *. unfold Tokens_Authenticate. case_match; [done|].
  unfold bind, token_lookup, map_err, query_row, exec. pose proof (next_fault_db w2) as Hd.
  destruct (next_fault w2) as [[] w3]; cbn in *; [done|]. rewrite Hd.
  destruct (sql_find _ _) as [row|] eqn:Ef; cbn; [|done]. apply sql_find_some in Ef as [Hin' Hh'].
  destruct (tk_revoked_at row) eqn:Er; cbn; [done|].
  destruct H2 as [_ H2]. apply String.eqb_eq in Hh'. by destruct (H2 row Hin' Hh').
Qed.

Lemma normalize_inv scopes scopes' :
  normalizeScopes scopes = inr scopes' ->
  scopes' ≡ₚ scopes /\ NoDup scopes /\ (forall s, In s scopes -> In s validScopes).
Proof.
  unfold normalizeScopes. case_match; [done|]. case_match eqn:E; [|done]. intros [= <-].
  split; [apply sql_order_by_perm|]. clear -E.
  assert (forall seen, scopes_ok seen scopes = true ->
    NoDup scopes /\ (forall s, In s scopes -> In s validScopes /\ ~ In s seen)) as Hs.
  { clear E. induction scopes as [|s scopes IH]; intros seen; cbn [scopes_ok].
    { intros _. split; [constructor|done]. }
    destruct (str_in s validScopes) eqn:Ev; cbn [negb orb]; [|done]. destruct (str_in s seen) eqn:Es; [done|].
    intros [Hn Hr]%IH. apply not_true_iff_false in Es. rewrite str_in_spec in Es, Ev. split.
    - constructor; [|done]. intros Hin%list_elem_of_In. apply (Hr s Hin). by left.
    - intros x [<-|Hx]; [done|]. destruct (Hr x Hx) as [Hv Hni]. split; [done|]. intros Hin. apply Hni. by right. }
  destruct (Hs [] E) as [Hn Hr]. split; [done|]. intros x Hx. by apply Hr.
Qed.

Definition created_token (u name plaintext : string) (scopes : list string) (exp : option Z)
    (d d' : AuthDB) : Prop :=
  exists row, adb_tokens d' = adb_tokens d ++ [row] /\ tk_user_id row = u /\
    tk_token_hash row = apiTokenHash plaintext /\ normalizeScopes scopes = inr (tk_scopes row) /\
    tk_expires_at row = time_unix_milli <$> exp /\ tk_revoked_at row = None /\
    (exists s, plaintext = "bnk_" +:+ s) /\
    forall r, In r (adb_tokens d) -> token_by_hash plaintext r = false.

Lemma create_token_inv u name scopes exp tok plaintext w w1 :
  Tokens_Create u name scopes exp w = (inr (tok, plaintext), w1) ->
  created_token u name plaintext scopes exp (w_db w) (w_db w1).
Proof.
  intros E. assert (runs (w_db w) (Tokens_Create u name scopes exp)
    (fun r d' => created_token u name r.2 scopes exp (w_db w) d')) as Hr.
  { unfold Tokens_Create. destruct (_ || _); [apply runs_throw|].
    destruct (normalizeScopes scopes) as [e|scopes'] eqn:En; [apply runs_throw|].
    apply runs_bind, runs_now. intros now. cbv zeta. destruct (match exp with None => _ | _ => _ end);
      [apply runs_throw|].
    apply runs_tx.
    sym. cbn [snd]. match goal with H : insert_token _ _ = _ |- _ => rename H into Hi end.
    unfold insert_token in Hi. sql_inv Hi. apply insert_pk_inv in Hi as [-> _].
    eexists. cbn. split_and!; try done; [eexists; reflexivity|].
    intros r Hr. bool_hyps. match goal with H : sql_exists (fun x => tk_token_hash x =?s _) _ = false |- _ =>
      by apply (proj1 (sql_exists_false _ _) H r Hr) end. }
  specialize (Hr w eq_refl). by rewrite E in Hr.
Qed.

(** Recording the use never fails the request. *)
Lemma record_use_ok plaintext row w : (record_use plaintext row w).1 = inr tt.
Proof. unfold record_use, bind, time_now. destruct (w_clock w); cbn; by case_match. Qed.

(** A token grants exactly its scopes until it expires.  When
    storage does not fail, a token just created authenticates for a scope
    precisely when the scope was asked for at creation, and for none from its
    expiry on; only known scopes can be asked for, each once. *)
Theorem token_grants_scopes (u name plaintext required : string) (scopes : list string)
    (exp : option Z) (tok : APIToken) (w w1 : world AuthDB) (t : Z) (clock : list Z) :
  Tokens_Create u name scopes exp w = (inr (tok, plaintext), w1) ->
  w_faults w1 = [] -> str_len plaintext <= 128 -> w_clock w1 = t :: clock ->
  (NoDup scopes /\ forall s, In s scopes -> In s validScopes) /\
  (Tokens_Authenticate plaintext required w1).1 =
    if match exp with Some e => time_unix_milli e <=? time_unix_milli t | None => false end
    then inl ErrAPITokenInvalid
    else if str_in required scopes then inr tt
    else inl ErrAPIScopeInsufficient.
Proof.
  intros E Hf Hlen Hc.
  destruct (create_token_inv _ _ _ _ _ _ _ _ E) as (row & Ht & _ & Hh & Hs & He & Hr & (sfx & Hp) & Hne).
  apply normalize_inv in Hs as (Hperm & Hn & Hv). split; [done|].
  assert (existsb (fun s => s =?s required) (tk_scopes row) = str_in required scopes) as Hex.
  { apply eq_true_iff_eq. rewrite str_in_spec, existsb_exists. split.
    - intros (x & Hx & ->%String.eqb_eq). by apply list_elem_of_In in Hx; rewrite Hperm in Hx; apply list_elem_of_In.
    - intros Hin. exists required. rewrite String.eqb_refl. split; [|done].
      apply list_elem_of_In. rewrite Hperm. by apply list_elem_of_In. }
  assert (sql_find (token_by_hash plaintext) (adb_tokens (w_db w1)) = Some row) as Hfind.
  { rewrite Ht, sql_find_app. destruct (sql_find (token_by_hash plaintext) (adb_tokens (w_db w))) eqn:Ef.
    - apply sql_find_some in Ef as [Hin Hx]. by rewrite Hne in Hx.
    - cbn. unfold token_by_hash. by rewrite Hh, String.eqb_refl. }
  unfold Tokens_Authenticate.
  assert (HasPrefix plaintext "bnk_" = true) as ->.
  { rewrite Hp. unfold HasPrefix. cbn. by destruct sfx. }
  rewrite (proj2 (Z.ltb_ge _ _) Hlen). cbn [negb orb].
  unfold bind at 1. unfold token_lookup, map_err, query_row, exec, next_fault. rewrite Hf, Hfind, Hr. cbn [is_null negb].
  unfold token_expired. rewrite He. destruct exp as [e|]; cbn [fmap option_fmap option_map].
  - unfold bind at 1 2, time_now, ret. rewrite Hc. cbn [w_clock w_db w_rand w_faults].
    destruct (_ <=? _); [done|]. rewrite Hex. destruct (str_in required scopes); [|done]. apply record_use_ok.
  - unfold bind at 1, ret at 1. rewrite Hex. destruct (str_in required scopes); [|done]. apply record_use_ok.
Qed.
End tokens.

(** ** Witnesses *)

Definition token_db : AuthDB :=
  mkAuthDB [mkUserRow "usr_1" "admin" "" 0 0 false None None] [] [] [] None ∅.
Definition token_world (clock : list Z) : world AuthDB := World token_db [] 0 clock.
Definition sample_token (clock : list Z) :=
  Tokens_Create "usr_1" "ci" ["metrics:read"; "events:read"] None (token_world clock).

Lemma token_grants_scopes_witness :
  let w1 := (sample_token [0; 1; 1]).2 in
  (Tokens_Authenticate (token_plaintext "0" "1") "metrics:read" w1).1 = inr tt /\
  (Tokens_Authenticate (token_plaintext "0" "1") "server:read" w1).1 = inl ErrAPIScopeInsufficient.
Proof.
  assert (forall r, _) as Hg by (intros r; exact (token_grants_scopes "usr_1" "ci" (token_plaintext "0" "1") r
    ["metrics:read"; "events:read"] None _ (token_world [0; 1; 1]) (sample_token [0; 1; 1]).2 1 [1]
    eq_refl eq_refl ltac:(vm_compute; discriminate) eq_refl)).
  split; [exact (proj2 (Hg "metrics:read"))|exact (proj2 (Hg "server:read"))].
Defined.

Lemma token_revocation_permanent_witness :
  let w := (sample_token [0; 1]).2 in
  exists w1, Tokens_Revoke "usr_1" "tok_0" w = (inr tt, w1) /\
  (Tokens_Authenticate (token_plaintext "0" "1") "metrics:read"
     (token_run [TCreate "usr_1" "ci" ["metrics:read"] None] w1).2).1 = inl ErrAPITokenInvalid.
Proof.
  eexists. split; [reflexivity|].
  apply (token_revocation_permanent "usr_1" "tok_0" _ _ (sample_token [0; 1]).2).
  - reflexivity.
  - eexists. split; [left; reflexivity|reflexivity].
  - intros r [<-|[]] _. split; reflexivity.
Defined.
