(* ===== verification/Encoding.v ===== *)
(** * Text encodings

    [encoding/base64] without padding, as password hashes use it, and the
    UTF-8 validity and rune count of [unicode/utf8]. *)

From stdpp Require Import base tactics list strings.
From Stdlib Require Import ZArith Lia Ascii.
From S2P Require Import Prelude GoString.

(** ** Base 64 *)

Definition byte_of (n : Z) : ascii := ascii_of_nat (Z.to_nat n).

Lemma byte_of_code c : byte_of (byte_code c) = c.
Proof. unfold byte_of, byte_code. by rewrite Nat2Z.id, ascii_nat_embedding. Qed.
Lemma byte_code_range c : 0 <= byte_code c < 256.
Proof. unfold byte_code. pose proof (nat_ascii_bounded c). lia. Qed.

(** The alphabet: [A-Za-z0-9+/] *)
Definition b64_char (n : Z) : ascii :=
  byte_of (if n <? 26 then n + 65 else if n <? 52 then n + 71 else if n <? 62 then n - 4
           else if n =? 62 then 43 else 47).
Definition b64_value (c : ascii) : option Z :=
  let n := byte_code c in
  if is_upper c then Some (n - 65) else if is_lower c then Some (n - 71)
  else if is_digit c then Some (n + 4)
  else if n =? 43 then Some 62 else if n =? 47 then Some 63 else None.

(** [base64.RawStdEncoding.EncodeToString] *)
Fixpoint b64_encode (l : list ascii) : list ascii :=
  match l with
  | a :: b :: c :: l =>
      let v := byte_code a * 65536 + byte_code b * 256 + byte_code c in
      b64_char (v / 262144) :: b64_char (v / 4096 mod 64) :: b64_char (v / 64 mod 64) ::
      b64_char (v mod 64) :: b64_encode l
  | [a; b] =>
      let v := byte_code a * 256 + byte_code b in
      [b64_char (v / 1024); b64_char (v / 16 mod 64); b64_char (v mod 16 * 4)]
  | [a] => [b64_char (byte_code a / 4); b64_char (byte_code a mod 4 * 16)]
  | [] => []
  end.

(** [DecodeString]; the unused low bits of the last digit are ignored, as
    the encoding is not strict. *)
Fixpoint b64_decode (l : list ascii) : option (list ascii) :=
  match l with
  | a :: b :: c :: d :: l =>
      x ← b64_value a; y ← b64_value b; z ← b64_value c; t ← b64_value d;
      rest ← b64_decode l;
      let v := x * 262144 + y * 4096 + z * 64 + t in
      Some (byte_of (v / 65536) :: byte_of (v / 256 mod 256) :: byte_of (v mod 256) :: rest)
  | [a; b; c] =>
      x ← b64_value a; y ← b64_value b; z ← b64_value c;
      let v := x * 1024 + y * 16 + z / 4 in
      Some [byte_of (v / 256); byte_of (v mod 256)]
  | [a; b] =>
      x ← b64_value a; y ← b64_value b; Some [byte_of (x * 4 + y / 16)]
  | [_] => None
  | [] => Some []
  end.

Lemma b64_value_char n : 0 <= n < 64 -> b64_value (b64_char n) = Some n.
Proof.
  intros Hn. assert (forallb (fun k => bool_decide (b64_value (b64_char (Z.of_nat k)) = Some (Z.of_nat k)))
    (seq 0 64) = true) as H by (by vm_compute).
  rewrite forallb_forall in H. specialize (H (Z.to_nat n)). rewrite Z2Nat.id in H by lia.
  eapply bool_decide_eq_true_1, H, in_seq. lia.
Qed.

Lemma byte_of_eq c n : n = byte_code c -> byte_of n = c.
Proof. intros ->. apply byte_of_code. Qed.

(** [lia] with division by constants *)
Ltac dlia := Z.to_euclidean_division_equations; lia.

Lemma b64_decode_encode l : b64_decode (b64_encode l) = Some l.
Proof.
  induction l as [l IH] using (well_founded_induction (well_founded_ltof _ length)).
  destruct l as [|a [|b [|c l]]]; [done| | |].
  - pose proof (byte_code_range a). cbn [b64_encode b64_decode]. rewrite !b64_value_char by dlia.
    cbn. do 2 f_equal. apply byte_of_eq. dlia.
  - pose proof (byte_code_range a). pose proof (byte_code_range b). cbn [b64_encode b64_decode].
    rewrite !b64_value_char by dlia. cbn. do 2 f_equal; [|f_equal]; apply byte_of_eq; dlia.
  - pose proof (byte_code_range a). pose proof (byte_code_range b). pose proof (byte_code_range c).
    cbn [b64_encode b64_decode]. rewrite !b64_value_char by dlia. cbn.
    rewrite (IH l) by (unfold ltof; cbn; lia). cbn.
    do 2 f_equal; [|f_equal; [|f_equal]]; apply byte_of_eq; dlia.
Qed.

Definition base64_encode (s : string) : string := of_bytes (b64_encode (bytes s)).
(** Line breaks in the input are skipped. *)
Definition is_newline (c : ascii) : bool := (byte_code c =? 10) || (byte_code c =? 13).
Definition base64_decode (s : string) : option string :=
  of_bytes <$> b64_decode (List.filter (fun c => negb (is_newline c)) (bytes s)).

(** What the alphabet does not contain *)
Definition b64_byte (c : ascii) : bool :=
  is_upper c || is_lower c || is_digit c || (byte_code c =? 43) || (byte_code c =? 47).

Lemma b64_char_byte n : 0 <= n < 64 -> b64_byte (b64_char n) = true.
Proof.
  intros Hn. assert (forallb (fun k => b64_byte (b64_char (Z.of_nat k))) (seq 0 64) = true) as H by (by vm_compute).
  rewrite forallb_forall in H. specialize (H (Z.to_nat n)). rewrite Z2Nat.id in H by lia.
  apply H, in_seq. lia.
Qed.

Lemma b64_encode_bytes l : forallb b64_byte (b64_encode l) = true.
Proof.
  induction l as [l IH] using (well_founded_induction (well_founded_ltof _ length)).
  destruct l as [|a [|b [|c l]]]; [done| | |]; pose proof (byte_code_range a);
    try pose proof (byte_code_range b); try pose proof (byte_code_range c); cbn [b64_encode forallb];
    rewrite !b64_char_byte by dlia; cbn [andb]; [done|done|].
  apply IH. unfold ltof. cbn. lia.
Qed.


Lemma base64_roundtrip s : base64_decode (base64_encode s) = Some s.
Proof.
  unfold base64_decode, base64_encode. rewrite bytes_of_bytes.
  assert (List.filter (fun c => negb (is_newline c)) (b64_encode (bytes s)) = b64_encode (bytes s)) as ->.
  { pose proof (b64_encode_bytes (bytes s)) as H. induction (b64_encode (bytes s)) as [|c l IH]; [done|].
    cbn [forallb] in H. bool_hyps. cbn [List.filter]. rewrite IH by done.
    destruct (is_newline c) eqn:E; [|done]. exfalso.
    unfold b64_byte, is_newline, is_upper, is_lower, is_digit in *. lia. }
  rewrite b64_decode_encode. cbn. by rewrite of_bytes_bytes.
Qed.

(** ** UTF-8 *)

Definition byte_in (lo hi : Z) (c : ascii) : bool := (lo <=? byte_code c) && (byte_code c <=? hi).
Definition is_cont (c : ascii) : bool := byte_in 128 191 c.

(** The number of bytes of the rune a valid encoding starts with *)
Definition rune_size (l : list ascii) : option nat :=
  match l with
  | [] => None
  | a :: l =>
      if byte_in 0 127 a then Some 1%nat
      else if byte_in 194 223 a then
        match l with b :: _ => if is_cont b then Some 2%nat else None | _ => None end
      else if byte_in 224 239 a then
        match l with
        | b :: c :: _ =>
            let lo := if byte_code a =? 224 then 160 else 128 in
            let hi := if byte_code a =? 237 then 159 else 191 in
            if byte_in lo hi b && is_cont c then Some 3%nat else None
        | _ => None
        end
      else if byte_in 240 244 a then
        match l with
        | b :: c :: d :: _ =>
            let lo := if byte_code a =? 240 then 144 else 128 in
            let hi := if byte_code a =? 244 then 143 else 191 in
            if byte_in lo hi b && is_cont c && is_cont d then Some 4%nat else None
        | _ => None
        end
      else None
  end.

(** [utf8.RuneCountInString] of a string that [utf8.ValidString] accepts;
    [None] when it does not.  There are at most as many runes as bytes. *)
Fixpoint rune_count_from (fuel : nat) (l : list ascii) : option Z :=
  match l, fuel with
  | [], _ => Some 0
  | _, O => None
  | _, S fuel =>
      match rune_size l with
      | None => None
      | Some n => match rune_count_from fuel (skipn n l) with Some k => Some (k + 1) | None => None end
      end
  end.
Definition rune_count (s : string) : option Z := rune_count_from (String.length s) (bytes s).

(** ** Percent escapes *)

Definition upper_hex (n : Z) : ascii := byte_of (if n <? 10 then 48 + n else 55 + n).
(** Letters, digits and the marks that no component escapes *)
Definition unreserved (c : ascii) : bool :=
  is_upper c || is_lower c || is_digit c || existsb (Ascii.eqb c) (bytes "-_.~").
Definition escape_with (keep : ascii -> bool) (s : string) : string :=
  of_bytes (concat (map (fun c =>
    if keep c then [c]
    else ["%"%char; upper_hex (byte_code c / 16); upper_hex (byte_code c mod 16)]) (bytes s))).
(** [url.PathEscape]: a path segment keeps the delimiters that mean nothing
    within it. *)
Definition PathEscape : string -> string :=
  escape_with (fun c => unreserved c || existsb (Ascii.eqb c) (bytes "$&+:=@")).
