(* ===== verification/Accounts.v ===== *)
(** * Accounts

    [internal/auth/password.go], [users.go], [setup.go] and [bootstrap.go]:
    password hashing and verification, the local administrator, the first-run
    setup token and the environment bootstrap.  Argon2id, the environment,
    the file system and address parsing are parameters. *)

From stdpp Require Import base tactics list gmap strings pretty.
From Stdlib Require Import ZArith Lia Ascii.
From S2P Require Import Prelude GoString Encoding Db AlertState Schema AlertRepository Secrets AuthSchema.

(** ** [password.go] *)

Definition passwordMemory : Z := 64 * 1024.
Definition passwordTime : Z := 3.
Definition passwordKeySize : Z := 32.

Definition username_byte (c : ascii) : bool :=
  is_lower c || is_digit c || existsb (Ascii.eqb c) (bytes "._-").

Definition ValidateUsername (username : string) : gerr + string :=
  let username := ToLower (TrimSpace username) in
  if (str_len username <? 3) || (32 <? str_len username)
  then inl (EMsg "username must be 3 to 32 characters")
  else match bytes username with
  | c :: _ =>
      if username_byte c && negb (is_lower c) then inl (EMsg "username must start with a letter")
      else if forallb username_byte (bytes username) then inr username
      else inl (EMsg "username contains unsupported characters")
  | [] => inr username
  end.

Definition ValidatePassword (password : string) : option gerr :=
  match rune_count password with
  | None => Some (EMsg "password is invalid")
  | Some n =>
      if 1024 <? str_len password then Some (EMsg "password is invalid")
      else if (n <? 12) || (128 <? n) then Some (EMsg "password must be 12 to 128 characters")
      else None
  end.

(** [runtime.GOMAXPROCS(0)] brought between 1 and 4 *)
Definition parallelism (gomaxprocs : Z) : Z := Z.min 4 (Z.max 1 gomaxprocs).

(** [argon2.IDKey(password, salt, time, memory, threads, keyLen)] *)
Class Argon2 := {
  argon2_id_key : string -> string -> Z -> Z -> Z -> Z -> string;
  argon2_length : forall p s t m n len, 0 <= len -> str_len (argon2_id_key p s t m n len) = len;
}.

Section password.
Context `{Argon2}.

(** [fmt.Sprintf("$argon2id$v=19$m=%d,t=%d,p=%d$%s$%s", ...)] *)
Definition phc_string (m t p : Z) (salt key : string) : string :=
  "$argon2id$v=19$m=" +:+ Itoa m +:+ ",t=" +:+ Itoa t +:+ ",p=" +:+ Itoa p +:+ "$" +:+
  base64_encode salt +:+ "$" +:+ base64_encode key.

(** The hash of a password under a drawn salt *)
Definition encode_password (gomaxprocs : Z) (password salt : string) : string :=
  let p := parallelism gomaxprocs in
  phc_string passwordMemory passwordTime p salt
    (argon2_id_key password salt passwordTime passwordMemory p passwordKeySize).

Definition HashPassword {D} `{Rand} (gomaxprocs : Z) (password : string) : tx D string :=
  match ValidatePassword password with
  | Some e => throw e
  | None => salt <- rand_id ;; ret (encode_password gomaxprocs password salt)
  end.

(** [strconv.ParseUint(s, 10, 32)] *)
Definition ParseUint32 (s : string) : option Z :=
  match ParseUint s with Some n => if n <=? 2 ^ 32 - 1 then Some n else None | None => None end.

Fixpoint parse_params (items : list string) (params : gmap string Z) : option (gmap string Z) :=
  match items with
  | [] => Some params
  | item :: rest =>
      match split_pair item "="%char with
      | None => None
      | Some (k, v) =>
          match ParseUint32 v with None => None | Some n => parse_params rest (<[k := n]> params) end
      end
  end.

Definition VerifyPassword (encoded password : string) : bool :=
  match Split encoded "$"%char with
  | [_; p1; p2; p3; p4; p5] =>
      if negb (p1 =?s "argon2id") || negb (p2 =?s "v=19") then false
      else match parse_params (Split p3 ","%char) ∅ with
      | None => false
      | Some params =>
          let m := default 0 (params !! "m") in
          let t := default 0 (params !! "t") in
          let p := default 0 (params !! "p") in
          if (m =? 0) || (256 * 1024 <? m) || (t =? 0) || (10 <? t) || (p =? 0) || (16 <? p) then false
          else match base64_decode p4, base64_decode p5 with
          | Some salt, Some expected =>
              if (str_len expected =? 0) || (64 <? str_len expected) || (str_len salt <? 8) ||
                 (64 <? str_len salt) then false
              else argon2_id_key password salt t m p (str_len expected) =?s expected
          | _, _ => false
          end
      end
  | _ => false
  end.
End password.

(** ** [users.go] *)

Definition ErrAdminExists : gerr := EMsg "local admin already exists".
Definition ErrInvalidCredentials : gerr := EMsg "invalid credentials".

Record User := mkUser { u_ID : string; u_Username : string; u_CreatedAt : Z }.

(** [INSERT INTO users] *)
Definition insert_user (r : UserRow) (d : AuthDB) : gerr + (unit * AuthDB) :=
  guard_c (negb (sql_exists (fun u => us_username u =?s us_username r) (adb_users d))) "UNIQUE"
    (put set_users (insert_pk us_id r (adb_users d)) d).

(** [isUnique]: a violated key becomes [ErrAdminExists]. *)
Definition unique_is_admin (e : gerr) : gerr :=
  match e with EConstraint _ => ErrAdminExists | _ => e end.

Definition new_user (id username hash : string) (now : Z) : UserRow :=
  mkUserRow id username hash (time_unix_milli now) (time_unix_milli now) false None None.

Definition count_users : tx AuthDB Z := query (fun d => Z.of_nat (length (adb_users d))).

Section accounts.
Context `{Rand} `{SHA256} `{Argon2} (gomaxprocs : Z).

Definition CreateAdmin (username password : string) : tx AuthDB User :=
  match ValidateUsername username with
  | inl e => throw e
  | inr username =>
      hash <- HashPassword gomaxprocs password ;;
      with_tx (
        count <- count_users ;;
        if negb (count =? 0) then throw ErrAdminExists
        else
          id <- rand_id ;;
          let id := "usr_" +:+ id in
          now <- time_now ;;
          map_err unique_is_admin (exec (insert_user (new_user id username hash now))) ;;;
          ret (mkUser id username now))
  end.

(** The dummy verification of the failing paths only takes time. *)
Definition Credentials_Authenticate (username password : string) : tx AuthDB User := fun w =>
  match ValidateUsername username with
  | inl _ => (inl ErrInvalidCredentials, w)
  | inr username =>
      match query_row (fun d => sql_find (fun u => us_username u =?s username) (adb_users d)) w with
      | (inl _, w') => (inl ErrInvalidCredentials, w')
      | (inr u, w') =>
          if negb (VerifyPassword (us_password_hash u) password) then (inl ErrInvalidCredentials, w')
          else (inr (mkUser (us_id u) (us_username u) (of_unix_milli (us_created_at u))), w')
      end
  end.

Definition user_of (u : UserRow) : User :=
  mkUser (us_id u) (us_username u) (of_unix_milli (us_created_at u)).

Definition UserByID (id : string) : tx AuthDB User :=
  if id =?s "" then throw ErrInvalidCredentials
  else map_err (fun _ => ErrInvalidCredentials) (query_row (fun d => user_of <$> sql_find (fun u => us_id u =?s id) (adb_users d))).

(** [ORDER BY created_at LIMIT 1] *)
Definition Administrator : tx AuthDB User :=
  map_err (fun _ => ErrInvalidCredentials) (query_row (fun d => user_of <$>
    head (sql_order_by (fun a b => us_created_at a <=? us_created_at b) (adb_users d)))).
End accounts.

(** ** [setup.go] *)

Definition ErrSetupUnavailable : gerr := EMsg "setup is unavailable".
Definition ErrSetupToken : gerr := EMsg "setup token is invalid".
Definition setupTTL : Z := 24 * Hour.

(** Bytes of both ends that are in the cutset *)
Definition trim_set (cut : list ascii) (s : string) : string :=
  let p c := existsb (Ascii.eqb c) cut in
  of_bytes (rev (drop_while p (rev (drop_while p (bytes s))))).
(** [strings.TrimRight] *)
Definition trim_right (cut : list ascii) (s : string) : string :=
  of_bytes (rev (drop_while (fun c => existsb (Ascii.eqb c) cut) (rev (bytes s)))).

Section setup.
Context `{Rand} `{SHA256} `{Argon2} (gomaxprocs : Z).
(** [net.SplitHostPort] and whether [net.ParseIP] gives a loopback address *)
Context (split_host_port : string -> option (string * string)).
Context (parse_ip_loopback : string -> option bool).

Definition setupHash (token : string) : string := sha256_base64 token.

Definition publicListener (address : string) : bool :=
  match split_host_port address with
  | None => true
  | Some (host, _) =>
      let host := trim_set (bytes "[]") host in
      if host =?s "localhost" then false
      else match parse_ip_loopback host with None => true | Some loopback => negb loopback end
  end.

(** [INSERT ... ON CONFLICT(id) DO UPDATE SET token_hash=NULL,
    claimed_at=COALESCE(setup_state.claimed_at,excluded.claimed_at)] *)
Definition Disable : tx AuthDB unit :=
  now <- time_now ;;
  let now := time_unix_milli now in
  exec (fun d => inr (tt, set_setup (Some
    match adb_setup d with
    | None => mkSetupRow None None (Some now) now
    | Some r => mkSetupRow None (su_expires_at r) (coalesce (su_claimed_at r) now) (su_created_at r)
    end) d)).

(** The generated token, empty when none was *)
Definition Initialize (listenAddress configuredToken : string) : tx AuthDB string :=
  users <- count_users ;;
  if 0 <? users then ret ""
  else
    state <- catch_norows (query_row adb_setup) ;;
    match state with
    | Some _ => ret ""
    | None =>
        let public := publicListener listenAddress in
        let token := TrimSpace configuredToken in
        if (token =?s "") && public then throw (EMsg "public setup requires BINNACLE_SETUP_TOKEN")
        else
          token' <- (if token =?s "" then rand_id else ret token) ;;
          let generated := if token =?s "" then token' else "" in
          if str_len token' <? 32 then throw (EMsg "setup token must be at least 32 characters")
          else
            now <- time_now ;;
            exec (fun d => match adb_setup d with
              | Some _ => inl (EConstraint "PRIMARY KEY")
              | None => inr (tt, set_setup (Some (mkSetupRow (Some (setupHash token'))
                  (Some (time_unix_milli (time_add now setupTTL))) None (time_unix_milli now))) d)
              end) ;;;
            ret generated
    end.

(** The row as the queries read it *)
Definition setup_open (r : SetupRow) (now : Z) : bool :=
  negb (default "" (su_token_hash r) =?s "") && is_null (su_claimed_at r) &&
  (time_unix_milli now <? default 0 (su_expires_at r)).
Definition setup_matches (r : SetupRow) (token : string) : bool :=
  default "" (su_token_hash r) =?s setupHash token.

Definition Setup_Available : tx AuthDB bool :=
  or_default false (r <- query_row adb_setup ;; now <- time_now ;; ret (setup_open r now)).

Definition Setup_Verify (token : string) : tx AuthDB unit :=
  r <- map_err (fun _ => ErrSetupUnavailable) (query_row adb_setup) ;;
  now <- time_now ;;
  if negb (setup_open r now) || negb (setup_matches r token) then throw ErrSetupToken else ret tt.

Definition Claim (token username password : string) : tx AuthDB User :=
  match ValidateUsername username with
  | inl e => throw e
  | inr username =>
      match ValidatePassword password with
      | Some e => throw e
      | None =>
          hash <- HashPassword gomaxprocs password ;;
          with_tx (
            r <- map_err (fun _ => ErrSetupUnavailable) (query_row adb_setup) ;;
            now <- time_now ;;
            if negb (setup_open r now) || negb (setup_matches r token) then throw ErrSetupToken
            else
              count <- count_users ;;
              if negb (count =? 0) then throw ErrAdminExists
              else
                id <- rand_id ;;
                let id := "usr_" +:+ id in
                exec (insert_user (new_user id username hash now)) ;;;
                n <- exec (fun d => match adb_setup d with
                  | Some s =>
                      if is_null (su_claimed_at s) then
                        inr (1, set_setup (Some (mkSetupRow None (su_expires_at s)
                          (Some (time_unix_milli now)) (su_created_at s))) d)
                      else inr (0, d)
                  | None => inr (0, d)
                  end) ;;
                if negb (n =? 1) then throw ErrSetupUnavailable
                else ret (mkUser id username now))
      end
  end.

(** ** [bootstrap.go] *)

Context (getenv : string -> string) (read_file : string -> option string).

Definition EnvironmentSecret (name : string) : gerr + string :=
  let value := getenv name in
  let path := getenv (name +:+ "_FILE") in
  if negb (value =?s "") && negb (path =?s "") then inl (EMsg "configure only one of NAME or NAME_FILE")
  else if path =?s "" then inr value
  else match read_file path with
  | None => inl (EMsg "read NAME_FILE")
  | Some contents => inr (trim_right [ascii_of_nat 13; ascii_of_nat 10] contents)
  end.

Definition BootstrapAdmin : tx AuthDB bool :=
  count <- count_users ;;
  if 0 <? count then ret false
  else match EnvironmentSecret "BINNACLE_ADMIN_USERNAME", EnvironmentSecret "BINNACLE_ADMIN_PASSWORD" with
  | inl e, _ => throw e
  | _, inl e => throw e
  | inr username, inr password =>
      if (username =?s "") && (password =?s "") then ret false
      else if (username =?s "") || (password =?s "")
      then throw (EMsg "BINNACLE_ADMIN_USERNAME and BINNACLE_ADMIN_PASSWORD must be configured together")
      else
        CreateAdmin gomaxprocs username password ;;;
        Disable ;;;
        ret true
  end.
End setup.

(** ** Properties of passwords *)


Lemma base64_no_dollar s : free_of "$"%char (bytes (base64_encode s)) = true.
Proof.
  unfold base64_encode. rewrite bytes_of_bytes. pose proof (b64_encode_bytes (bytes s)) as Hb.
  unfold free_of. rewrite forallb_forall in *. intros c Hc. specialize (Hb c Hc).
  destruct (Ascii.eqb c "$"%char) eqn:E; [|done]. apply Ascii.eqb_eq in E as ->. done.
Qed.

Lemma split_phc (head : string) salt key :
  Split (head +:+ base64_encode salt +:+ "$" +:+ base64_encode key) "$"%char =
  match rev (split_bytes "$"%char [] (bytes head)) with
  | last :: before =>
      map of_bytes (rev before) ++ [of_bytes (last ++ bytes (base64_encode salt)); base64_encode key]
  | [] => []
  end.
Proof.
  unfold Split. rewrite !bytes_append. cbn [bytes String.list_ascii_of_string app].
  change (String.list_ascii_of_string ?s) with (bytes s).
  pose proof (base64_no_dollar salt) as Hs. pose proof (base64_no_dollar key) as Hk.
  set (rest := "$"%char :: bytes (base64_encode key)).
  assert (forall cur l, split_bytes "$"%char cur (l ++ bytes (base64_encode salt) ++ rest) =
    match rev (split_bytes "$"%char cur l) with
    | last :: before => rev before ++ [last ++ bytes (base64_encode salt); bytes (base64_encode key)]
    | [] => []
    end) as H.
  { intros cur l. revert cur. induction l as [|c l IH]; intros cur; cbn [app split_bytes].
    - unfold rest. rewrite split_bytes_cons, split_bytes_end by done. done.
    - destruct (Ascii.eqb c "$"%char); [|apply IH]. rewrite IH. cbn [rev].
      destruct (rev (split_bytes "$"%char [] l)) as [|x y] eqn:E; cbn.
      + apply (f_equal (@rev _)) in E. rewrite rev_involutive in E. by apply split_bytes_nonempty in E.
      + by rewrite rev_app_distr. }
  rewrite H. destruct (rev _) as [|x y]; [done|]. rewrite map_app. cbn. by rewrite of_bytes_bytes.
Qed.

Lemma parallelism_cases n : In (parallelism n) [1; 2; 3; 4].
Proof.
  unfold parallelism. assert (1 <= Z.min 4 (Z.max 1 n) <= 4) as Hp by lia. cbn.
  generalize dependent (Z.min 4 (Z.max 1 n)). intros p Hp. lia.
Qed.

(** Verification of a hash whose head parses to the parameters *)
Lemma verify_head `{Argon2} (head params salt key attempt : string) (pm : gmap string Z) (m t p : Z) :
  split_bytes "$"%char [] (bytes head) =
    [[]; bytes "argon2id"; bytes "v=19"; bytes params; []] ->
  parse_params (Split params ","%char) ∅ = Some pm ->
  pm !! "m" = Some m -> pm !! "t" = Some t -> pm !! "p" = Some p ->
  1 <= m <= 256 * 1024 -> 1 <= t <= 10 -> 1 <= p <= 16 ->
  8 <= str_len salt <= 64 -> 1 <= str_len key <= 64 ->
  VerifyPassword (head +:+ base64_encode salt +:+ "$" +:+ base64_encode key) attempt =
    (argon2_id_key attempt salt t m p (str_len key) =?s key).
Proof.
  intros Hh Hp Hm Ht Hpp Bm Bt Bp Bs Bk. unfold VerifyPassword. rewrite split_phc, Hh.
  cbn [rev app map]. rewrite !of_bytes_bytes, Hp, Hm, Ht, Hpp, !base64_roundtrip. cbn [from_option id].
  rewrite !String.eqb_refl. cbn [negb orb].
  destruct ((m =? 0) || _ || _ || _ || _ || _) eqn:E1; [rewrite !orb_true_iff in E1; lia|].
  destruct ((str_len key =? 0) || _ || _ || _) eqn:E2; [rewrite !orb_true_iff in E2; lia|]. done.
Qed.

Ltac phc_case params :=
  match goal with |- VerifyPassword (phc_string ?m ?t ?p ?salt ?key) _ = _ =>
    change (phc_string m t p salt key) with
      (("$argon2id$v=19$" +:+ params +:+ "$") +:+ base64_encode salt +:+ "$" +:+ base64_encode key);
    eapply (verify_head _ params); done || lia
  end.

Lemma length_bytes s : length (bytes s) = String.length s.
Proof. unfold bytes. induction s; cbn; auto. Qed.

Lemma password_hash_verifies `{Argon2} gomaxprocs password attempt salt :
  str_len salt = 16 ->
  VerifyPassword (encode_password gomaxprocs password salt) attempt =
    (argon2_id_key attempt salt passwordTime passwordMemory (parallelism gomaxprocs) passwordKeySize =?s
     argon2_id_key password salt passwordTime passwordMemory (parallelism gomaxprocs) passwordKeySize).
Proof.
  intros Hs. unfold encode_password. set (key := argon2_id_key password _ _ _ _ _).
  assert (str_len key = 32) as Hk by (by apply argon2_length).
  change passwordKeySize with 32. rewrite <- Hk.
  destruct (parallelism_cases gomaxprocs) as [Hp | [Hp | [Hp | [Hp | []]]]]; rewrite <- Hp.
  - phc_case "m=65536,t=3,p=1".
  - phc_case "m=65536,t=3,p=2".
  - phc_case "m=65536,t=3,p=3".
  - phc_case "m=65536,t=3,p=4".
Qed.

(** A password verifies against its own hash, and only with the
    same key.  [HashPassword] refuses exactly the passwords that are not valid;
    for the others and a salt of sixteen bytes, [VerifyPassword] reads back
    every parameter of the hash and accepts an attempt exactly when Argon2id
    derives the stored key from it, in particular the password itself. *)
Theorem password_roundtrip `{Argon2} `{Rand} {D : Type} (gomaxprocs : Z) (password attempt : string)
    (w : world D) :
  let salt := rand_hex (w_rand w) in
  let key p := argon2_id_key p salt passwordTime passwordMemory (parallelism gomaxprocs) passwordKeySize in
  match (HashPassword gomaxprocs password w).1 with
  | inl e => ValidatePassword password = Some e
  | inr encoded => ValidatePassword password = None /\
      (str_len salt = 16 -> VerifyPassword encoded attempt = (key attempt =?s key password))
  end.
Proof.
  unfold HashPassword. destruct (ValidatePassword password); cbn; [done|]. split; [done|].
  by apply password_hash_verifies.
Qed.

(** A key derivation for evaluating examples: the password, cut or padded *)
Fixpoint pad (n : nat) (l : list ascii) : list ascii :=
  match n, l with
  | O, _ => []
  | S n, [] => "x"%char :: pad n []
  | S n, c :: l => c :: pad n l
  end.
Lemma pad_length n l : length (pad n l) = n.
Proof. revert l. induction n as [|n IH]; intros [|c l]; cbn; auto. Qed.
#[export, refine] Instance plain_argon2 : Argon2 := {|
  argon2_id_key p s t m n len := of_bytes (pad (Z.to_nat len) (bytes p));
|}.
Proof.
  intros p s t m n len Hl. unfold str_len. rewrite <- length_bytes, bytes_of_bytes, pad_length. lia.
Defined.

(** ** Properties of the first administrator *)

Inductive AccountOp :=
  | AInitialize (listenAddress configuredToken : string)
  | AClaim (token username password : string)
  | ACreateAdmin (username password : string)
  | ABootstrap (getenv : string -> string) (read_file : string -> option string)
  | ADisable.

Section account_properties.
Context `{Rand} `{SHA256} `{Argon2} (gomaxprocs : Z).
Context (split_host_port : string -> option (string * string)).
Context (parse_ip_loopback : string -> option bool).

Definition account_step (op : AccountOp) : tx AuthDB unit :=
  match op with
  | AInitialize l t => ignore (Initialize split_host_port parse_ip_loopback l t)
  | AClaim t u p => ignore (Claim gomaxprocs t u p)
  | ACreateAdmin u p => ignore (CreateAdmin gomaxprocs u p)
  | ABootstrap env files => ignore (BootstrapAdmin gomaxprocs env files)
  | ADisable => ignore Disable
  end.
Definition account_run (ops : list AccountOp) : tx AuthDB unit := iter_tx account_step ops.

(** At most one user, who stays; a claimed setup has no token and stays so. *)
Record account_inv (d0 d : AuthDB) : Prop := {
  ai_users : (length (adb_users d) <= 1)%nat;
  ai_kept : adb_users d0 <> [] -> adb_users d = adb_users d0;
  ai_setup : forall r, adb_setup d = Some r -> su_claimed_at r <> None -> su_token_hash r = None;
  ai_claimed : forall r, adb_setup d0 = Some r -> su_claimed_at r <> None ->
    exists r', adb_setup d = Some r' /\ su_claimed_at r' = su_claimed_at r;
}.

Lemma insert_first_user d0 r d u d' :
  account_inv d0 d -> length (adb_users d) = 0%nat -> insert_user r d = inr (u, d') ->
  account_inv d0 d' /\ adb_setup d' = adb_setup d /\ adb_users d' = [r].
Proof.
  intros [I1 I2 I3 I4] Hl E. unfold insert_user in E. sql_inv E. apply insert_pk_inv in E as [-> _].
  destruct (adb_users d) as [|x l] eqn:Eu; [|done]. split; [|by split].
  split; cbn; [done| |done|done]. intros Hne. by rewrite <- I2 in Hne.
Qed.

Lemma set_setup_inv d0 d r :
  account_inv d0 d -> (su_claimed_at r <> None -> su_token_hash r = None) ->
  (forall r0, adb_setup d = Some r0 -> su_claimed_at r0 <> None -> su_claimed_at r = su_claimed_at r0) ->
  account_inv d0 (set_setup (Some r) d).
Proof.
  intros [I1 I2 I3 I4] Ht Hc. split; cbn; [done|done| |].
  - intros r0 [= <-]. done.
  - intros r0 E Hn. destruct (I4 r0 E Hn) as (r1 & E1 & Hr1). exists r. split; [done|].
    rewrite <- Hr1. apply Hc; congruence.
Qed.

Lemma disable_inv d0 : preserves (account_inv d0) Disable.
Proof.
  unfold Disable. frame_auto. apply exec_preserves. intros d x d' Hd E. simplify_eq.
  apply set_setup_inv; [done| |]; destruct (adb_setup d) as [r|] eqn:Es; cbn; try done.
  intros r0 [= <-] Hn. by destruct (su_claimed_at r).
Qed.

Lemma create_admin_inv d0 u p : preserves (account_inv d0) (CreateAdmin gomaxprocs u p).
Proof.
  unfold CreateAdmin. destruct (ValidateUsername u) as [e|name]; [apply preserves_throw|].
  apply preserves_bind; [unfold HashPassword; frame_auto|]. intros hash.
  apply tx_preserves. intros d Hd. unfold count_users. sym.
  bool_hyps. match goal with E : insert_user _ _ = _ |- _ =>
    eapply insert_first_user in E; [|done|lia]; by destruct E end.
Qed.

Lemma claim_inv d0 t u p : preserves (account_inv d0) (Claim gomaxprocs t u p).
Proof.
  unfold Claim. destruct (ValidateUsername u) as [e|name]; [apply preserves_throw|].
  destruct (ValidatePassword p); [apply preserves_throw|].
  apply preserves_bind; [unfold HashPassword; frame_auto|]. intros hash.
  apply tx_preserves. intros d Hd. unfold count_users. sym.
  bool_hyps. match goal with E : insert_user _ _ = _ |- _ =>
    eapply insert_first_user in E; [|done|lia]; destruct E as (Hd' & Hs & _) end.
  rewrite Hs in *. repeat case_match; simplify_eq; try done. apply set_setup_inv; [done|done|].
  intros r0 E Hn. rewrite Hs in E. simplify_eq. by destruct (su_claimed_at r0).
Qed.

Lemma initialize_inv d0 l t :
  preserves (account_inv d0) (Initialize split_host_port parse_ip_loopback l t).
Proof.
  unfold Initialize, count_users. frame_auto. apply exec_preserves. intros d x d' Hd E.
  destruct (adb_setup d) eqn:Es; simplify_eq. apply set_setup_inv; [done|done|]. intros r0 E. congruence.
Qed.

Lemma account_run_inv d0 ops : preserves (account_inv d0) (account_run ops).
Proof.
  apply preserves_iter. intros [l t|t u p|u p|env files|]; apply preserves_ignore.
  - apply initialize_inv.
  - apply claim_inv.
  - apply create_admin_inv.
  - unfold BootstrapAdmin, count_users. apply preserves_bind; [apply preserves_query|]. intros n.
    repeat case_match; try (apply preserves_ret || apply preserves_throw).
    apply preserves_bind; [apply create_admin_inv|]. intros _.
    apply preserves_bind; [apply disable_inv|]. intros _. apply preserves_ret.
  - apply disable_inv.
Qed.

Lemma closed_setup r t : su_claimed_at r <> None -> setup_open r t = false.
Proof. unfold setup_open. destruct (su_claimed_at r); [|done]. intros _. cbn. by rewrite andb_false_r. Qed.

Lemma closed_verify d r token :
  adb_setup d = Some r -> su_claimed_at r <> None -> runs d (Setup_Verify token) (fun _ _ => False).
Proof.
  intros Hr Hc. unfold Setup_Verify. sym. simplify_eq. by rewrite closed_setup in *.
Qed.

Lemma closed_claim d r token u p :
  adb_setup d = Some r -> su_claimed_at r <> None -> runs d (Claim gomaxprocs token u p) (fun _ _ => False).
Proof.
  intros Hr Hc. unfold Claim, HashPassword. repeat first [progress sym | apply runs_tx].
  all: simplify_eq; by rewrite closed_setup in *.
Qed.

(** C16 (safety): the first administrator is the only one.  From an empty
    installation, over any sequence of setup initialisations, claims,
    environment bootstraps and direct creations, with any statement failing:
    there is at most one user; once there is one, nothing replaces or changes
    it; and once setup was claimed or disabled, no token verifies or claims
    again. *)
Theorem first_admin_final (before after : list AccountOp) (w : world AuthDB) :
  adb_users (w_db w) = [] -> adb_setup (w_db w) = None ->
  let w1 := (account_run before w).2 in
  let w2 := (account_run after w1).2 in
  (length (adb_users (w_db w1)) <= 1)%nat /\
  (adb_users (w_db w1) <> [] -> adb_users (w_db w2) = adb_users (w_db w1)) /\
  (forall r, adb_setup (w_db w1) = Some r -> su_claimed_at r <> None ->
    (forall token, exists e, (Setup_Verify token w2).1 = inl e) /\
    (forall token u p, exists e, (Claim gomaxprocs token u p w2).1 = inl e)).
Proof.
  intros Hu Hs w1 w2.
  assert (account_inv (w_db w) (w_db w1)) as I1.
  { pose proof (account_run_inv (w_db w) before w) as Hp. fold w1 in Hp. unfold w1.
    destruct (account_run before w) as [[] ?]; apply Hp; split; rewrite ?Hu, ?Hs; done || (cbn; lia). }
  assert (account_inv (w_db w1) (w_db w2)) as I2.
  { pose proof (account_run_inv (w_db w1) after w1) as Hp. unfold w2.
    destruct (account_run after w1) as [[] ?]; apply Hp; destruct I1; split; eauto. }
  split; [apply I1|]. split; [apply I2|]. intros r Er Hr.
  destruct (ai_claimed _ _ I2 r Er Hr) as (r' & Er' & Hr').
  assert (su_claimed_at r' <> None) as Hn by congruence.
  split; intros; (eapply runs_never; [|reflexivity]); [by eapply closed_verify|by eapply closed_claim].
Qed.

(** The rows a successful claim leaves *)
Lemma claim_rows token u p user w w1 :
  Claim gomaxprocs token u p w = (inr user, w1) ->
  exists name row, ValidateUsername u = inr name /\ adb_users (w_db w1) = [row] /\
    us_id row = u_ID user /\ us_username row = name /\ u_Username user = name /\
    us_password_hash row = encode_password gomaxprocs p (rand_hex (w_rand w)).
Proof.
  unfold Claim. destruct (ValidateUsername u) as [e|name]; [done|].
  destruct (ValidatePassword p) eqn:Ep; [done|].
  set (hash := encode_password gomaxprocs p (rand_hex (w_rand w))).
  assert (exists w0, HashPassword gomaxprocs p w = (inr hash, w0)) as (w0 & Eh).
  { unfold HashPassword. rewrite Ep. by eexists. }
  unfold bind at 1. rewrite Eh. intros E. match type of E with with_tx ?m _ = _ =>
    assert (runs (w_db w0) (with_tx m) (fun user d => exists row, adb_users d = [row] /\
      us_id row = u_ID user /\ us_username row = name /\ u_Username user = name /\
      us_password_hash row = hash)) as Hr end.
  { apply runs_tx. unfold count_users. sym.
    match goal with E : insert_user _ _ = _ |- _ => rename E into Ei end. bool_hyps.
    unfold insert_user in Ei. sql_inv Ei. apply insert_pk_inv in Ei as [-> _].
    assert (adb_users (w_db w0) = []) as Hu by (apply length_zero_iff_nil; lia).
    rewrite Hu in *. repeat case_match; simplify_eq. eexists. split; [reflexivity|]. by split_and!. }
  specialize (Hr w0 eq_refl). rewrite E in Hr. destruct Hr as (row & Hr). exists name, row. by split.
Qed.

(** A claim succeeds only with the setup token, while setup is open and there
    is no user. *)
Lemma claim_open token u p user w w1 :
  Claim gomaxprocs token u p w = (inr user, w1) ->
  adb_users (w_db w) = [] /\
  exists row, adb_setup (w_db w) = Some row /\ su_token_hash row = Some (setupHash token) /\ su_claimed_at row = None /\
    time_unix_milli (hd 0 (w_clock w)) < default 0 (su_expires_at row).
Proof.
  unfold Claim. destruct (ValidateUsername u) as [e|name]; [done|]. destruct (ValidatePassword p) eqn:Ep; [done|].
  intros (hash & w0 & Eh & E)%bind_inr.
  assert (w_db w0 = w_db w /\ w_clock w0 = w_clock w) as [Hd Hc].
  { unfold HashPassword in Eh. rewrite Ep in Eh. apply bind_inr in Eh as (salt & w2 & Es & [= _ <-]). by injection Es as _ <-. }
  rewrite <- Hd, <- Hc. clear Eh Hd Hc. unfold with_tx in E.
  pose proof (next_fault_db w0) as Hd. pose proof (next_fault_clock w0) as Hc.
  destruct (next_fault w0) as [[] w2]; cbn [fst snd] in *; [done|]. rewrite <- Hd, <- Hc.
  match type of E with match ?m with _ => _ end = _ => destruct m as [[|user'] w3] eqn:Em end; [done|]. clear E Hd Hc.
  apply bind_inr in Em as (row & w4 & Eq & Em). unfold map_err in Eq. destruct (query_row adb_setup w2) as [[|row'] w5] eqn:Eq'; [done|].
  injection Eq as -> ->. apply query_row_inv in Eq' as (Hrow & Hc & Hd). apply bind_inr in Em as (now & w6 & En & E6).
  assert (now = hd 0 (w_clock w2) /\ w_db w6 = w_db w2) as [-> Hd6].
  { rewrite <- Hc, <- Hd. unfold time_now in En. destruct (w_clock w4); by injection En as <- <-. }
  destruct (setup_open row _) eqn:Eo; [|done]. destruct (setup_matches row token) eqn:Et; [|done]. cbn [negb orb] in E6.
  apply bind_inr in E6 as (count & w7 & (-> & _)%query_inr & E6). destruct (_ =? 0) eqn:E0; [|done].
  split; [apply length_zero_iff_nil; rewrite <- Hd6; lia|]. exists row. unfold setup_open, setup_matches in *.
  apply andb_true_iff in Eo as [[Hh Hcl]%andb_true_iff Hx]. apply String.eqb_eq in Et. rewrite Et in Hh.
  split_and!; [done| |by destruct (su_claimed_at row)|lia]. destruct (su_token_hash row); cbn in Et; [by rewrite Et|].
  by rewrite <- Et in Hh.
Qed.

(** The claimed administrator can log in, with that password.
    After a successful claim there is one user, and when storage does not
    fail the claimed name and password authenticate as that user, while
    another password does so only if Argon2id derives the same key from it. *)
Theorem setup_claim_login (token u p : string) (user : User) (w w1 : world AuthDB) :
  Claim gomaxprocs token u p w = (inr user, w1) ->
  str_len (rand_hex (w_rand w)) = 16 -> w_faults w1 = [] ->
  length (adb_users (w_db w1)) = 1%nat /\
  (exists user', (Credentials_Authenticate u p w1).1 = inr user' /\
    u_ID user' = u_ID user /\ u_Username user' = u_Username user) /\
  (forall attempt user', (Credentials_Authenticate u attempt w1).1 = inr user' ->
    argon2_id_key attempt (rand_hex (w_rand w)) passwordTime passwordMemory (parallelism gomaxprocs) passwordKeySize =
    argon2_id_key p (rand_hex (w_rand w)) passwordTime passwordMemory (parallelism gomaxprocs) passwordKeySize).
Proof.
  intros E Hsalt Hf. destruct (claim_rows _ _ _ _ _ _ E) as (name & row & Hn & Hu & Hid & Hname & Hun & Hh).
  split; [by rewrite Hu|].
  assert (forall attempt, (Credentials_Authenticate u attempt w1).1 =
    if argon2_id_key attempt (rand_hex (w_rand w)) passwordTime passwordMemory (parallelism gomaxprocs) passwordKeySize =?s
       argon2_id_key p (rand_hex (w_rand w)) passwordTime passwordMemory (parallelism gomaxprocs) passwordKeySize
    then inr (user_of row) else inl ErrInvalidCredentials) as Ha.
  { intros attempt. unfold Credentials_Authenticate, query_row, exec, next_fault. rewrite Hn, Hf, Hu.
    cbn [sql_find List.find]. unfold sql_find. cbn [List.find]. rewrite Hname, String.eqb_refl, Hh.
    rewrite password_hash_verifies by done. by destruct (_ =?s _). }
  split.
  - exists (user_of row). rewrite Ha, String.eqb_refl. cbn. split_and!; congruence.
  - intros attempt user'. rewrite Ha. destruct (_ =?s _) eqn:Ek; [|done]. intros _. by apply String.eqb_eq.
Qed.
End account_properties.

(** ** Witnesses *)

(** A source whose first draws have sixteen bytes *)
Definition long_hex (n : nat) : string := "0123456789abcde" +:+ pretty n.
#[export] Instance long_hex_inj : Inj (=) (=) long_hex.
Proof. intros a b E. apply (inj pretty). unfold long_hex in E. cbn in E. by simplify_eq. Qed.
Definition long_rand : Rand := {| rand_hex := long_hex |}.

Definition setup_token : string := "0123456789abcdef0123456789abcdef".
Definition setup_world : world AuthDB :=
  (account_run (H := long_rand) 4 (fun _ => None) (fun _ => None) [AInitialize "" setup_token]
     (World empty_auth [] 0 [0; 0; 0; 0])).2.

Lemma setup_claim_login_witness :
  let '(r, w1) := Claim (H := long_rand) 4 setup_token "Admin" "correct horse battery" setup_world in
  exists user, r = inr user /\ length (adb_users (w_db w1)) = 1%nat /\
    exists user', (Credentials_Authenticate "admin" "correct horse battery" w1).1 = inr user' /\
      u_Username user' = "admin".
Proof.
  destruct (Claim _ _ _ _ _) as [r w1] eqn:E.
  assert (exists user, r = inr user /\ u_Username user = "admin") as (user & -> & Hn).
  { vm_compute in E. simplify_eq. eexists. split; reflexivity. }
  exists user. split; [reflexivity|].
  assert (w_faults w1 = []) as Hf by (vm_compute in E; by simplify_eq).
  destruct (setup_claim_login (H := long_rand) 4 setup_token "Admin" "correct horse battery" user setup_world w1
    E eq_refl Hf) as (Hl & (user' & Hu & _ & Hname) & _).
  split; [exact Hl|]. exists user'. split; [exact Hu|]. congruence.
Defined.

Lemma first_admin_final_witness :
  let w1 := (account_run 4 (fun _ => None) (fun _ => None)
    [AInitialize "" setup_token; ACreateAdmin "admin" "correct horse battery"; ADisable]
    (World empty_auth [] 0 [])).2 in
  length (adb_users (w_db w1)) = 1%nat /\
  exists e, (Claim 4 setup_token "mallory" "correct horse battery"
    (account_run 4 (fun _ => None) (fun _ => None) [AInitialize "" setup_token] w1).2).1 = inl e.
Proof.
  split; [by vm_compute|].
  refine (proj2 (proj2 (proj2 (first_admin_final 4 (fun _ => None) (fun _ => None)
    [AInitialize "" setup_token; ACreateAdmin "admin" "correct horse battery"; ADisable]
    [AInitialize "" setup_token] (World empty_auth [] 0 []) eq_refl eq_refl)) _ eq_refl _) _ _ _).
  vm_compute. discriminate.
Defined.
