(* ===== verification/Mfa.v ===== *)
(** * Two-factor authentication

    [internal/auth/totp.go]: RFC 6238 codes, recovery codes and the
    enrolment of the administrator.  HMAC-SHA-1 is a parameter. *)

From stdpp Require Import base tactics list gmap strings pretty.
From Stdlib Require Import ZArith Lia Ascii.
From S2P Require Import Prelude GoString Encoding Db AlertState Schema AlertRepository Secrets AuthSchema.
From S2P Require Import Sessions Accounts.

Definition ErrMFAInvalid : gerr := EMsg "authentication code is invalid".
Definition TOTPPeriod : Z := 30 * Second.
Definition pendingEnrollmentTTL : Z := 10 * Minute.
Definition maxPendingEnrollments : Z := 64.

(** [hmac.New(sha1.New, key)] applied to a message: twenty bytes *)
Class HmacSha1 := {
  hmac_sha1 : string -> list Z -> list Z;
  hmac_sha1_length : forall k m, length (hmac_sha1 k m) = 20%nat;
  hmac_sha1_bytes : forall k m b, In b (hmac_sha1 k m) -> 0 <= b < 256;
}.

(** ** Codes *)

(** [binary.BigEndian.PutUint64] *)
Definition be64 (n : Z) : list Z :=
  map (fun i => Z.land (Z.shiftr n (8 * (7 - Z.of_nat i))) 255) (seq 0 8).

Definition digit (n : Z) : ascii := byte_of (48 + n).
(** [fmt.Sprintf("%06d", n)] for a value of at most six digits *)
Definition six_digits (n : Z) : string :=
  of_bytes (map (fun k => digit (n / 10 ^ k mod 10)) [5; 4; 3; 2; 1; 0]).

Section codes.
Context `{HmacSha1} `{SHA256}.

Definition nth_byte (l : list Z) (i : Z) : Z := nth (Z.to_nat i) l 0.

Definition totp_counter (at_ : Z) : Z := wrapu64 (Z.quot (time_unix at_) 30).

Definition TOTP (seed : string) (at_ : Z) : string :=
  let sum := hmac_sha1 seed (be64 (totp_counter at_)) in
  let offset := Z.land (nth_byte sum (Z.of_nat (length sum) - 1)) 15 in
  let value := Z.lor (Z.lor (Z.lor (Z.shiftl (Z.land (nth_byte sum offset) 127) 24)
                  (Z.shiftl (nth_byte sum (offset + 1)) 16))
                  (Z.shiftl (nth_byte sum (offset + 2)) 8)) (nth_byte sum (offset + 3)) in
  six_digits (value mod 1000000).

Definition VerifyTOTP (seed code : string) (at_ : Z) : bool :=
  if negb (str_len code =? 6) then false
  else match Atoi code with
  | None => false
  | Some _ =>
      existsb (fun step => TOTP seed (time_add at_ (step * TOTPPeriod)) =?s code) [-1; 0; 1]
  end.

(** ** Recovery codes *)

(** [base32.StdEncoding] without padding: five bits at a time *)
Definition byte_bits (c : ascii) : list bool :=
  map (fun i => Z.testbit (byte_code c) (7 - Z.of_nat i)) (seq 0 8).
Definition b32_char (bits : list bool) : ascii :=
  let n := fold_left (fun acc (b : bool) => 2 * acc + (if b then 1 else 0)) bits 0 in
  byte_of (if n <? 26 then n + 65 else n + 24).
Fixpoint b32_chunks (fuel : nat) (bits : list bool) : list ascii :=
  match fuel, bits with
  | S fuel, _ :: _ =>
      b32_char (firstn 5 bits ++ repeat false (5 - length (firstn 5 bits))) ::
      b32_chunks fuel (skipn 5 bits)
  | _, _ => []
  end.
Definition base32_encode (s : string) : string :=
  let bits := concat (map byte_bits (bytes s)) in of_bytes (b32_chunks (length bits) bits).

Definition is_b32 (c : ascii) : bool := is_upper c || byte_in 50 55 c.
(** [DecodeString] succeeds: line breaks are skipped, the rest is in the
    alphabet; without padding any length decodes. *)
Definition base32_valid (s : string) : bool := forallb (fun c => is_newline c || is_b32 c) (bytes s).

Definition upper_byte (c : ascii) : ascii :=
  if is_lower c then byte_of (byte_code c - 32) else c.
(** [strings.ToUpper] as far as the result is ASCII: the dotless i and the long
    s are the only other runes with an upper case in ASCII; a byte of any other
    rune stays one that base32 does not have. *)
Fixpoint upper_bytes (l : list ascii) : list ascii :=
  match l with
  | "196"%char :: "177"%char :: l => "I"%char :: upper_bytes l
  | "197"%char :: "191"%char :: l => "S"%char :: upper_bytes l
  | c :: l => upper_byte c :: upper_bytes l
  | [] => []
  end.
(** [strings.TrimSpace] with the white space outside ASCII, in UTF-8 *)
Definition wide_spaces : list (list ascii) :=
  map (map byte_of) ([[194; 133]; [194; 160]; [225; 154; 128]] ++ map (fun n => [226; 128; 128 + n]) (seqZ 0 11) ++
    [[226; 128; 168]; [226; 128; 169]; [226; 128; 175]; [226; 129; 159]; [227; 128; 128]]).
Fixpoint trim_runes (fuel : nat) (wide : list (list ascii)) (l : list ascii) : list ascii :=
  match fuel, l with
  | S fuel, c :: l' =>
      if is_space c then trim_runes fuel wide l'
      else match List.find (fun sp => bool_decide (firstn (length sp) l = sp)) wide with
           | Some sp => trim_runes fuel wide (skipn (length sp) l)
           | None => l
           end
  | _, _ => l
  end.
Definition trim_unicode (l : list ascii) : list ascii :=
  let l := trim_runes (length l) wide_spaces l in
  rev (trim_runes (length l) (map (@rev ascii) wide_spaces) (rev l)).
(** Trimmed, without dashes and spaces, in upper case *)
Definition normalize_code (code : string) : string :=
  of_bytes (upper_bytes (List.filter (fun c => negb (Ascii.eqb c "-"%char || Ascii.eqb c " "%char)) (trim_unicode (bytes code)))).

Definition recoveryHash (code : string) : string :=
  let normalized := normalize_code code in
  if negb (str_len normalized =? 16) then ""
  else if negb (base32_valid normalized) then ""
  else sha256_hex normalized.

(** [encoded[:4] + "-" + encoded[4:8] + "-" + encoded[8:12] + "-" + encoded[12:]] *)
Definition format_code (encoded : string) : string :=
  let l := bytes encoded in
  of_bytes (firstn 4 l) +:+ "-" +:+ of_bytes (firstn 4 (skipn 4 l)) +:+ "-" +:+
  of_bytes (firstn 4 (skipn 8 l)) +:+ "-" +:+ of_bytes (skipn 12 l).

Fixpoint newRecoveryCodes `{Rand} (n : nat) : tx AuthDB (list string) :=
  match n with
  | O => ret []
  | S n => raw <- rand_id ;; rest <- newRecoveryCodes n ;; ret (format_code (base32_encode raw) :: rest)
  end.

(** ** Enrolment *)

Record Enrollment := mkEnrollment { en_Seed : string; en_URI : string; en_ExpiresAt : Z }.
Record Pending := mkPending { pe_seed : string; pe_expires : Z }.

(** The result of an operation and the pending enrolments after it, which
    live in memory: errors do not undo them. *)
Definition mfa (A : Type) : Type := tx AuthDB ((gerr + A) * gmap string Pending).

Context `{Rand} `{Argon2}.
Context (aead : option AEAD).

Definition find_user (id : string) (d : AuthDB) : option UserRow :=
  sql_find (fun u => us_id u =?s id) (adb_users d).

Definition Enabled (userID : string) : tx AuthDB bool :=
  query_row (fun d => us_totp_enabled <$> find_user userID d).

(** [None] when startup may go on *)
Definition ValidateAdvancedAuthState (enabled : bool) : tx AuthDB unit :=
  if enabled then ret tt
  else
    enrolled <- query (fun d => sql_exists us_totp_enabled (adb_users d)) ;;
    if enrolled : bool
    then throw (EMsg "features.advanced_auth must be enabled while TOTP enrollment exists")
    else ret tt.

Definition expire_pending (now : Z) (p : gmap string Pending) : gmap string Pending :=
  filter (fun kv => now < pe_expires kv.2) p.

(** [url.Values.Encode] sorts the keys; no value needs an escape. *)
Definition enrollment_uri (username encoded : string) : string :=
  "otpauth://totp/" +:+ PathEscape ("Binnacle:" +:+ username) +:+
  "?algorithm=SHA1&digits=6&issuer=Binnacle&period=30&secret=" +:+ encoded.

Definition Begin (user : User) (password : string) (pending : gmap string Pending) : mfa Enrollment :=
  if negb (Available aead) then ret (inl ErrMasterKeyMissing, pending)
  else
    login <- attempt (Credentials_Authenticate (u_Username user) password) ;;
    match login with
    | inl _ => ret (inl ErrInvalidCredentials, pending)
    | inr _ =>
        seed <- rand_id ;;
        now <- time_now ;;
        let pending := expire_pending now pending in
        if is_null (pending !! u_ID user) && (maxPendingEnrollments <=? Z.of_nat (size pending))
        then ret (inl (EMsg "too many pending MFA enrollments"), pending)
        else
          let expires := time_add now pendingEnrollmentTTL in
          let encoded := base32_encode seed in
          ret (inr (mkEnrollment encoded (enrollment_uri (u_Username user) encoded) expires),
               <[u_ID user := mkPending seed expires]> pending)
    end.

(** A transaction whose failure is followed by a clean-up outside it.  The
    pool has one connection: after a failed statement the transaction still
    holds it, so the clean-up waits until the request's context ends and
    fails; it runs when beginning or committing failed. *)
Definition with_tx_cleanup {A} (m : tx AuthDB A) (cleanup : tx AuthDB unit) : tx AuthDB A := fun w =>
  let '(bad, w1) := next_fault w in
  if bad : bool then (inl EFault, (cleanup w1).2)
  else match m w1 with
       | (inl e, w2) => (inl e, World (w_db w1) (w_faults w2) (w_rand w2) (w_clock w2))
       | (inr a, w2) =>
           let '(bad, w3) := next_fault w2 in
           if bad : bool
           then (inl EFault, (cleanup (World (w_db w1) (w_faults w3) (w_rand w3) (w_clock w3))).2)
           else (inr a, w3)
       end.

Definition insert_recovery (r : RecoveryRow) (d : AuthDB) : gerr + (unit * AuthDB) :=
  guard_c (user_exists (rv_user_id r) d) "FOREIGN KEY"
  (guard_c (negb (sql_exists (fun x => (rv_user_id x =?s rv_user_id r) &&
      (rv_code_hash x =?s rv_code_hash r)) (adb_recovery d))) "PRIMARY KEY"
    (inr (tt, set_recovery (adb_recovery d ++ [r]) d))).

Definition set_mfa (enabled : bool) (key : option string) (now : Z) (u : UserRow) : UserRow :=
  mkUserRow (us_id u) (us_username u) (us_password_hash u) (us_created_at u) now enabled key (Some now).

Definition enroll_tx (userID key : string) (hashes : list string) : tx AuthDB unit :=
  now <- time_now ;;
  let now := time_unix_milli now in
  delete_rows adb_recovery set_recovery (fun r => rv_user_id r =?s userID) ;;;
  iter_tx (fun h => exec (insert_recovery (mkRecoveryRow userID h now None))) hashes ;;;
  update_rows adb_users set_users (fun u => us_id u =?s userID) (set_mfa true (Some key) now) ;;;
  ret tt.

Definition totp_key (userID : string) : string := "totp." +:+ userID.

Definition Confirm (userID code : string) (pending : gmap string Pending) : mfa (list string) :=
  let refused p : mfa (list string) := ret (inl ErrMFAInvalid, p) in
  match pending !! userID with
  | None => refused (delete userID pending)
  | Some p =>
      now1 <- time_now ;;
      if negb (now1 <? pe_expires p) then refused (delete userID pending)
      else
        now2 <- time_now ;;
        if negb (VerifyTOTP (pe_seed p) code now2) then refused pending
        else
          now3 <- time_now ;;
          if negb (now3 <? pe_expires p) then refused pending
          else
            let pending := delete userID pending in
            codes <- newRecoveryCodes 10 ;;
            let key := totp_key userID in
            stored <- attempt (Put aead key (pe_seed p)) ;;
            match stored with
            | inl e => ret (inl e, pending)
            | inr _ =>
                r <- attempt (with_tx_cleanup (enroll_tx userID key (map recoveryHash codes)) (Delete key)) ;;
                match r with
                | inl e => ret (inl e, pending)
                | inr _ => ignore (RevokeAll userID) ;;; ret (inr codes, pending)
                end
            end
  end.

(** Marks an unused code; the number of rows tells whether there was one. *)
Definition use_recovery (userID hash : string) : tx AuthDB unit :=
  now <- time_now ;;
  n <- update_rows adb_recovery set_recovery
         (fun r => (rv_user_id r =?s userID) && (rv_code_hash r =?s hash) && is_null (rv_used_at r))
         (fun r => mkRecoveryRow (rv_user_id r) (rv_code_hash r) (rv_created_at r)
                     (Some (time_unix_milli now))) ;;
  if negb (n =? 1) then throw ErrMFAInvalid else ret tt.

(** A failed [Get] leaves the recovery code as the only way in. *)
Definition Mfa_Verify (userID code : string) : tx AuthDB unit :=
  enabled <- map_err (fun _ => ErrMFAInvalid) (Enabled userID) ;;
  if negb enabled then ret tt
  else
    key <- map_err (fun _ => ErrMFAInvalid)
      (query_row (fun d => (fun u => default "" (us_totp_secret_key u)) <$> find_user userID d)) ;;
    if key =?s "" then throw ErrMFAInvalid
    else
      seed <- or_default None (s <- Get aead key ;; ret (Some s)) ;;
      matches <- match seed with
                 | None => ret false
                 | Some s => now <- time_now ;; ret (VerifyTOTP s code now)
                 end ;;
      if matches : bool then ret tt
      else if recoveryHash code =?s "" then throw ErrMFAInvalid
      else map_err (fun _ => ErrMFAInvalid) (with_tx (use_recovery userID (recoveryHash code))).

Definition Mfa_Disable (user : User) (password code : string) : tx AuthDB unit :=
  map_err (fun _ => ErrInvalidCredentials) (Credentials_Authenticate (u_Username user) password) ;;;
  map_err (fun _ => ErrMFAInvalid) (Mfa_Verify (u_ID user) code) ;;;
  key <- with_tx (
    key <- query_row (fun d => us_totp_secret_key <$> find_user (u_ID user) d) ;;
    now <- time_now ;;
    delete_rows adb_recovery set_recovery (fun r => rv_user_id r =?s u_ID user) ;;;
    update_rows adb_users set_users (fun u => us_id u =?s u_ID user)
      (set_mfa false None (time_unix_milli now)) ;;;
    ret key) ;;
  (match key with Some k => ignore (Delete k) | None => ret tt end) ;;;
  ignore (RevokeAll (u_ID user)).

(** ** Properties *)

Lemma upper_bytes_length l : (length (upper_bytes l) <= length l)%nat.
Proof.
  induction l as [l IH] using (induction_ltof1 _ (@length ascii)). unfold ltof in IH. destruct l as [|c l]; [cbn; lia|].
  assert (length (upper_bytes l) <= length l)%nat as L1 by (apply IH; cbn; lia).
  destruct l as [|c' l]; [destruct c as [[] [] [] [] [] [] [] []]; cbn; lia|].
  assert (length (upper_bytes l) <= length l)%nat as L2 by (apply IH; cbn; lia).
  cbn [upper_bytes] in *. repeat case_match; cbn [length] in *; lia.
Qed.
Lemma trim_runes_length fuel wide l : (length (trim_runes fuel wide l) <= length l)%nat.
Proof.
  revert l. induction fuel as [|fuel IH]; intros l; [done|]. destruct l as [|c l]; [done|]. cbn [trim_runes].
  destruct (is_space c); [etransitivity; [apply IH|cbn; lia]|]. destruct (List.find _ wide); [|done].
  etransitivity; [apply IH|]. rewrite length_skipn. lia.
Qed.
Lemma recovery_code_length code : recoveryHash code <> "" -> 16 <= str_len code.
Proof.
  unfold recoveryHash. destruct (negb _) eqn:E; [done|]. intros _. bool_hyps. apply Z.eqb_eq in E.
  rewrite <- E. unfold str_len, normalize_code, trim_unicode. rewrite <- !length_bytes, !bytes_of_bytes.
  set (l := trim_runes _ _ (bytes code)). set (m := rev _). pose proof (upper_bytes_length (List.filter (fun c => negb (Ascii.eqb c "-"%char || Ascii.eqb c " "%char)) m)).
  pose proof (filter_length_le (fun c => negb (Ascii.eqb c "-"%char || Ascii.eqb c " "%char)) m) as L1.
  assert (length m <= length l)%nat as L2 by (subst m; rewrite length_rev; etransitivity; [apply trim_runes_length|by rewrite length_rev]).
  assert (length l <= length (bytes code))%nat as L3 by (subst l; apply trim_runes_length). lia.
Qed.
(** A code may be typed with the letters that only fold to the alphabet. *)
Example recovery_code_typed : recoveryHash (of_bytes (map byte_of [194; 160; 197; 191]) +:+ "bcd-efgh ijkl-mnop") = recoveryHash "SBCDEFGHIJKLMNOP".
Proof. unfold recoveryHash. change (normalize_code _) with "SBCDEFGHIJKLMNOP" at 1. reflexivity. Qed.

Lemma recovery_not_totp seed code t : recoveryHash code <> "" -> VerifyTOTP seed code t = false.
Proof.
  intros Hc%recovery_code_length. unfold VerifyTOTP. destruct (str_len code =? 6) eqn:E; [|done]. lia.
Qed.

(** The code is spent and the user still needs one. *)
Definition spent (u h : string) (d : AuthDB) : Prop :=
  (exists row, find_user u d = Some row /\ us_totp_enabled row = true) /\
  forall r, In r (adb_recovery d) -> rv_user_id r = u -> rv_code_hash r = h -> rv_used_at r <> None.

Lemma get_secret_db {D} `{SecretTable D} key (I : D -> Prop) : preserves I (Get aead key).
Proof. unfold Get, open_row. frame_auto. Qed.

Lemma verify_spent u h u' code : preserves (spent u h) (Mfa_Verify u' code).
Proof.
  unfold Mfa_Verify, Enabled, use_recovery. frame_auto; [apply get_secret_db|].
  apply exec_preserves. intros d n d' [Hu Hr] E. simplify_eq. split; [done|]. cbn.
  intros r (r0 & Hr0 & ->)%in_sql_update. destruct (_ && _) eqn:Ex; cbn; [done|by apply Hr].
Qed.

(** Verifying with a recovery code, once the code is known not to be a TOTP *)
Lemma verify_recovery u code d :
  recoveryHash code <> "" -> (exists row, find_user u d = Some row /\ us_totp_enabled row = true) ->
  runs d (Mfa_Verify u code) (fun _ d' => spent u (recoveryHash code) d' /\
    exists r, In r (adb_recovery d) /\ rv_user_id r = u /\ rv_code_hash r = recoveryHash code /\
      rv_used_at r = None).
Proof.
  intros Hc (row & Hrow & Hen). unfold Mfa_Verify, Enabled.
  apply runs_bind, runs_map_err, runs_query_row. rewrite Hrow. intros b [= <-]. rewrite Hen. cbn [negb].
  apply runs_bind, runs_map_err, runs_query_row. intros key _. destruct (key =?s ""); [apply runs_throw|].
  apply runs_bind. eapply runs_mono; [apply (runs_preserves _ _ (fun d' => d' = d)); [|done]|].
  { frame_auto. apply get_secret_db. }
  intros seed d1 ->. apply runs_bind.
  eapply (runs_mono d _ _ (fun m d' => m = false /\ d' = d)).
  { destruct seed as [sd|]; [|by apply runs_ret]. apply runs_bind, runs_now. intros t. apply runs_ret.
    by rewrite recovery_not_totp. }
  intros m d2 [-> ->]. destruct (recoveryHash code =?s "") eqn:E; [apply runs_throw|].
  apply runs_map_err, runs_tx. unfold use_recovery, update_rows. sym. simplify_eq. bool_hyps.
  split; [split|].
  - by exists row.
  - cbn. intros r (r0 & Hr0 & ->)%in_sql_update. destruct (_ && _ && _) eqn:Ex; cbn; [done|].
    intros Hu Hh. rewrite Hu, Hh, !String.eqb_refl in Ex. cbn in Ex. by destruct (rv_used_at r0).
  - match goal with H : (sql_count ?p ?l =? 1) = true |- _ =>
      destruct (sql_exists p l) eqn:Ex;
        [|rewrite (proj2 (sql_count_zero p l)) in H; [done|by apply sql_exists_false]] end.
    apply sql_exists_true in Ex as (r & Hr & Hp). bool_hyps. exists r.
    rewrite !String.eqb_eq in *. split_and!; try done. by destruct (rv_used_at r).
Qed.

Definition verify_all (attempts : list (string * string)) : tx AuthDB unit :=
  iter_tx (fun uc => ignore (Mfa_Verify uc.1 uc.2)) attempts.

(** C28 (safety): a recovery code works once.  When an enrolled user passed with
    a recovery code, no later verification with the same code, however it is
    typed, succeeds, whatever verifications happen in between and whatever
    statements fail. *)
Theorem recovery_code_single_use (u code code' : string) (between : list (string * string))
    (w w1 : world AuthDB) :
  (exists row, find_user u (w_db w) = Some row /\ us_totp_enabled row = true) ->
  recoveryHash code <> "" -> Mfa_Verify u code w = (inr tt, w1) ->
  recoveryHash code' = recoveryHash code ->
  exists e, (Mfa_Verify u code' (verify_all between w1).2).1 = inl e.
Proof.
  intros Hen Hc E Hc'.
  assert (spent u (recoveryHash code) (w_db w1)) as H1'.
  { pose proof (verify_recovery u code (w_db w) Hc Hen w eq_refl) as Hv. rewrite E in Hv. apply Hv. }
  assert (spent u (recoveryHash code) (w_db (verify_all between w1).2)) as H2'.
  { assert (preserves (spent u (recoveryHash code)) (verify_all between)) as Hp
      by (apply preserves_iter; intros []; apply preserves_ignore, verify_spent).
    specialize (Hp w1 H1'). by destruct (verify_all between w1) as [[] ?]. }
  eapply runs_never; [|reflexivity]. destruct H2' as [Hen' Hsp].
  eapply runs_mono; [apply verify_recovery; [congruence|done]|].
  cbn. intros _ d' (_ & r & Hr & Hu & Hh & Hn). by apply (Hsp r Hr Hu); [congruence|].
Qed.

(** ** The codes *)

Lemma digit_code n : 0 <= n < 10 -> byte_code (digit n) = 48 + n.
Proof.
  intros Hn. unfold digit, byte_of, byte_code. rewrite nat_ascii_embedding; lia.
Qed.
Lemma digit_is_digit n : 0 <= n < 10 -> is_digit (digit n) = true.
Proof. intros Hn. unfold is_digit. rewrite digit_code by done. lia. Qed.

Lemma six_digits_length n : str_len (six_digits n) = 6.
Proof. done. Qed.

Lemma six_digits_atoi n : exists v, Atoi (six_digits n) = Some v.
Proof.
  assert (forall k, 0 <= n / 10 ^ k mod 10 < 10) as Hd by (intros k; apply Z.mod_pos_bound; lia).
  unfold Atoi, ParseInt, six_digits. rewrite bytes_of_bytes. cbn [map].
  assert (forall k l, match digit (n / 10 ^ k mod 10) :: l with
    | c :: l => if Ascii.eqb c "-"%char then (true, l) else if Ascii.eqb c "+"%char then (false, l) else (false, c :: l)
    | [] => (false, []) end = (false, digit (n / 10 ^ k mod 10) :: l)) as Hsign.
  { intros k l. destruct (Ascii.eqb _ "-"%char) eqn:E1.
    { apply Ascii.eqb_eq in E1. pose proof (digit_code _ (Hd k)) as Hc. rewrite E1 in Hc.
      specialize (Hd k). change (byte_code "-"%char) with 45 in Hc. lia. }
    destruct (Ascii.eqb _ "+"%char) eqn:E2; [|done].
    apply Ascii.eqb_eq in E2. pose proof (digit_code _ (Hd k)) as Hc. rewrite E2 in Hc.
    specialize (Hd k). change (byte_code "+"%char) with 43 in Hc. lia. }
  rewrite Hsign. unfold parse_digits. cbn [digits_value].
  rewrite !digit_is_digit by apply Hd. rewrite !digit_code by apply Hd.
  match goal with |- context [Some ?v] => assert (0 <= v <= 999999) as Hv end.
  { pose proof (Hd 5). pose proof (Hd 4). pose proof (Hd 3). pose proof (Hd 2). pose proof (Hd 1).
    pose proof (Hd 0). lia. }
  destruct (_ && _) eqn:E; [eauto|]. unfold min_int64, max_int64 in E. lia.
Qed.

Lemma TOTP_form seed t : str_len (TOTP seed t) = 6 /\ exists v, Atoi (TOTP seed t) = Some v.
Proof. unfold TOTP. cbv zeta. split; [apply six_digits_length|apply six_digits_atoi]. Qed.

Lemma TOTP_counter seed t t' : totp_counter t = totp_counter t' -> TOTP seed t = TOTP seed t'.
Proof. unfold TOTP. by intros ->. Qed.

Lemma verify_own_code seed t : 0 <= t -> VerifyTOTP seed (TOTP seed t) t = true.
Proof.
  intros Ht. unfold VerifyTOTP. destruct (TOTP_form seed t) as (-> & v & ->).
  change (negb (6 =? 6)) with false. apply existsb_exists. exists 0. split; [cbn; tauto|].
  apply String.eqb_eq. unfold time_add. by rewrite Z.mul_0_l, Z.add_0_r.
Qed.

(** Codes are accepted with one period of drift, and nothing else.
    A code generated at an instant is accepted at every instant at most
    thirty seconds earlier or later, and every accepted code is the code of
    the present, previous or next period. *)
Theorem totp_drift (seed : string) (t at_ : Z) (code : string) :
  0 <= t -> 0 <= at_ ->
  (Z.abs (t - at_) <= TOTPPeriod -> VerifyTOTP seed (TOTP seed t) at_ = true) /\
  (VerifyTOTP seed code at_ = true ->
    In code [TOTP seed (at_ - TOTPPeriod); TOTP seed at_; TOTP seed (at_ + TOTPPeriod)]).
Proof.
  intros Ht Hat. split.
  - intros Hd. unfold VerifyTOTP. destruct (TOTP_form seed t) as (-> & v & ->).
    change (negb (6 =? 6)) with false. apply existsb_exists.
    assert (exists step, In step [-1; 0; 1] /\ totp_counter (time_add at_ (step * TOTPPeriod)) = totp_counter t)
      as (step & Hin & Hs).
    { unfold totp_counter, time_add, time_unix, TOTPPeriod in *.
      assert (t / Second / 30 - at_ / Second / 30 = -1 \/ t / Second / 30 - at_ / Second / 30 = 0 \/
        t / Second / 30 - at_ / Second / 30 = 1) as Hc by (unfold Second in *; dlia).
      assert (Z.quot (t / Second) 30 = t / Second / 30) as -> by (apply Z.quot_div_nonneg; unfold Second in *; dlia).
      destruct Hc as [Hc|[Hc|Hc]]; [exists (-1)|exists 0|exists 1]; (split; [cbn; tauto|]); f_equal.
      - assert (30 <= at_ / Second) by (unfold Second in *; dlia).
        replace ((at_ + -1 * (30 * Second)) / Second) with (at_ / Second - 30) by (unfold Second in *; dlia).
        rewrite Z.quot_div_nonneg by lia. dlia.
      - replace (at_ + 0 * (30 * Second)) with at_ by lia.
        rewrite Z.quot_div_nonneg by (unfold Second in *; dlia). dlia.
      - replace ((at_ + 1 * (30 * Second)) / Second) with (at_ / Second + 30) by (unfold Second in *; dlia).
        assert (0 <= at_ / Second) by (unfold Second in *; dlia). rewrite Z.quot_div_nonneg by lia. dlia. }
    exists step. split; [done|]. apply String.eqb_eq. by apply TOTP_counter.
  - unfold VerifyTOTP. destruct (negb _); [done|]. destruct (Atoi code); [|done].
    intros (step & Hin & <-%String.eqb_eq)%existsb_exists. unfold time_add.
    destruct Hin as [<- | [<- | [<- | []]]]; cbn; rewrite ?Z.add_0_r; auto.
Qed.

(** ** Enrolment *)

Definition codes_of (u : string) (d : AuthDB) : list RecoveryRow :=
  List.filter (fun r => rv_user_id r =?s u) (adb_recovery d).

(** What enrolling leaves, but for sessions *)
Definition enrolled (u key : string) (hashes : list string) (d : AuthDB) : Prop :=
  (exists row, find_user u d = Some row /\ us_totp_enabled row = true /\
     us_totp_secret_key row = Some key) /\
  map rv_code_hash (codes_of u d) = hashes /\
  Forall (fun r => rv_used_at r = None) (codes_of u d).

Lemma insert_codes_runs u now hashes d :
  Forall (fun r => rv_used_at r = None) (codes_of u d) ->
  runs d (iter_tx (fun h => exec (insert_recovery (mkRecoveryRow u h now None))) hashes)
    (fun _ d' => adb_users d' = adb_users d /\ adb_secrets d' = adb_secrets d /\
       (hashes <> [] -> user_exists u d = true) /\
       map rv_code_hash (codes_of u d') = map rv_code_hash (codes_of u d) ++ hashes /\
       Forall (fun r => rv_used_at r = None) (codes_of u d')).
Proof.
  revert d. induction hashes as [|h hashes IH]; intros d Hd; cbn [iter_tx].
  { apply runs_ret. by rewrite app_nil_r. }
  apply runs_bind, runs_exec. intros [] d1 E. unfold insert_recovery in E. sql_inv E. cbn in E. simplify_eq.
  assert (codes_of u (set_recovery (adb_recovery d ++ [mkRecoveryRow u h now None]) d) =
    codes_of u d ++ [mkRecoveryRow u h now None]) as Hc.
  { unfold codes_of. cbn. rewrite List.filter_app. cbn. by rewrite String.eqb_refl. }
  eapply runs_mono; [apply IH; rewrite Hc; apply Forall_app; by repeat constructor|].
  intros _ d' (Hu & Hs & _ & Hm & Hf). rewrite Hc, map_app, <- app_assoc in Hm. by split_and!.
Qed.

Lemma find_user_update u f d :
  (forall r, us_id (f r) = us_id r) ->
  find_user u (set_users (sql_update (fun r => us_id r =?s u) f (adb_users d)) d) = f <$> find_user u d.
Proof.
  intros Hf. unfold find_user, sql_find, sql_update. cbn. induction (adb_users d) as [|r t IH]; [done|].
  cbn [map List.find]. destruct (us_id r =?s u) eqn:E; [by rewrite Hf, E|]. by rewrite E.
Qed.

Lemma enroll_tx_runs u key hashes d :
  hashes <> [] ->
  runs d (enroll_tx u key hashes) (fun _ d' => enrolled u key hashes d' /\ adb_secrets d' = adb_secrets d).
Proof.
  intros Hne. unfold enroll_tx. apply runs_bind, runs_now. intros now. cbv zeta.
  apply runs_bind. unfold delete_rows. apply runs_exec. intros n d1 E. simplify_eq.
  set (d1 := set_recovery _ d).
  assert (codes_of u d1 = []) as Hc.
  { unfold codes_of, d1, sql_delete. cbn. induction (adb_recovery d) as [|r t IH]; [done|]. cbn [List.filter].
    destruct (rv_user_id r =?s u) eqn:E; cbn [negb]; [done|]. cbn [List.filter]. by rewrite E. }
  apply runs_bind. eapply runs_mono; [apply insert_codes_runs; by rewrite Hc|].
  intros _ d2 (Hu & Hs & Hx & Hm & Hf). fold d1 in Hu, Hs, Hx, Hm. rewrite Hc in Hm. cbn in Hm.
  apply runs_bind. unfold update_rows. apply runs_exec. intros n' d3 E. simplify_eq. apply runs_ret.
  split; [|done]. split; [|done]. rewrite find_user_update by done.
  specialize (Hx Hne). unfold user_exists in Hx. apply sql_exists_true in Hx as (r & Hr & Hid).
  unfold find_user, sql_find. rewrite Hu. destruct (List.find _ (adb_users d1)) as [row|] eqn:E; [by eexists|].
  by rewrite (find_none _ _ E r Hr) in Hid.
Qed.

Lemma recovery_codes_runs n d : runs d (newRecoveryCodes n) (fun codes d' => length codes = n /\ d' = d).
Proof.
  induction n as [|n IH]; cbn; [by apply runs_ret|]. apply runs_bind, runs_rand. intros raw.
  apply runs_bind. eapply runs_mono; [exact IH|]. intros codes d' [<- ->]. by apply runs_ret.
Qed.

Lemma tx_cleanup_runs {A} d (m : tx AuthDB A) c Q : runs d m Q -> runs d (with_tx_cleanup m c) Q.
Proof.
  intros Hm w Hw. unfold with_tx_cleanup. pose proof (next_fault_db w) as Hd.
  destruct (next_fault w) as [[] w1]; cbn in *; [done|]. specialize (Hm w1 ltac:(congruence)).
  destruct (m w1) as [[e|a] w2]; [done|]. pose proof (next_fault_db w2) as Hd2.
  destruct (next_fault w2) as [[] w3]; cbn in *; [done|]. by rewrite Hd2.
Qed.

(** [RevokeAll] leaves everything but the sessions. *)
Lemma revoke_all_enrolled u v key hashes c seed :
  preserves (fun d => enrolled u key hashes d /\ holds_secret c key seed d) (RevokeAll v).
Proof.
  unfold RevokeAll, update_rows. frame_auto. apply exec_preserves. intros d n d' Hd E. by simplify_eq.
Qed.

Lemma confirm_runs c u code pending d :
  aead = Some c ->
  runs d (Confirm u code pending) (fun r d' =>
    match r with
    | (inr codes, pending') => exists p, pending !! u = Some p /\ pending' = delete u pending /\
        length codes = 10%nat /\ enrolled u (totp_key u) (map recoveryHash codes) d' /\
        holds_secret c (totp_key u) (pe_seed p) d'
    | _ => True
    end).
Proof.
  intros Hc. unfold Confirm. destruct (pending !! u) as [p|] eqn:Ep; [|by apply runs_ret].
  do 3 (apply runs_bind, runs_now; intros ?; destruct (negb _); [by apply runs_ret|]).
  apply runs_bind. eapply runs_mono; [apply recovery_codes_runs|]. intros codes d1 [Hl ->].
  apply runs_bind. eapply runs_mono; [apply runs_attempt, (put_holds aead c); done|].
  intros [e|[]] d2; [by intros; apply runs_ret|]. intros [Hh _].
  apply runs_bind. eapply runs_mono; [apply runs_attempt, tx_cleanup_runs, enroll_tx_runs|].
  { destruct codes; [done|]. done. }
  intros [e|[]] d3; [by intros; apply runs_ret|]. intros [He Hs].
  apply runs_bind. eapply runs_mono.
  { apply (runs_preserves _ _ (fun d => enrolled u (totp_key u) (map recoveryHash codes) d /\
      holds_secret c (totp_key u) (pe_seed p) d)).
    - apply preserves_ignore, revoke_all_enrolled.
    - split; [done|]. destruct Hh as (r & Hr). exists r. cbn in *. by rewrite Hs. }
  intros _ d4 [He' Hh']. apply runs_ret. exists p. by split_and!.
Qed.

Lemma totp_key_nonempty u : (totp_key u =?s "") = false.
Proof. done. Qed.

(** Verification of an enrolled user by a code of the stored seed *)
Lemma verify_totp c u seed t hashes w :
  aead = Some c -> enrolled u (totp_key u) hashes (w_db w) ->
  holds_secret c (totp_key u) seed (w_db w) -> w_faults w = [] -> hd 0 (w_clock w) = t -> 0 <= t ->
  (Mfa_Verify u (TOTP seed t) w).1 = inr tt.
Proof.
  intros Hc ((row & Hrow & Hen & Hkey) & _) (r & Hr & Ha & Hv & Hs) Hf Ht Hpos.
  destruct w as [d fs n clock]. cbn [w_db w_faults w_clock] in *. subst fs. cbn in Hr.
  pose proof (verify_own_code seed t Hpos) as Hcode. set (code := TOTP seed t) in *. clearbody code.
  assert (Get aead (totp_key u) (World d [] n clock) = (inr seed, World d [] n clock)) as Hg.
  { unfold Get. rewrite Hc. unfold bind, catch_norows. rewrite query_row_healthy. cbn. rewrite Hr.
    unfold open_row. by rewrite Ha, Hv, String.eqb_refl, Z.eqb_refl, Hs, aead_open_seal. }
  unfold Mfa_Verify, Enabled. unfold bind at 1, map_err at 1. rewrite query_row_healthy, Hrow.
  cbn [fmap option_fmap option_map]. rewrite Hen. cbn [negb].
  unfold bind at 1, map_err at 1. rewrite query_row_healthy, Hrow. cbn [fmap option_fmap option_map].
  rewrite Hkey. cbn [from_option id]. rewrite totp_key_nonempty.
  unfold bind at 1, or_default, bind at 1. rewrite Hg. unfold ret at 1. cbn beta iota.
  unfold bind at 1 2, time_now, ret at 1. cbn [w_clock]. destruct clock as [|t' ts]; cbn in Ht; subst t;
    cbn -[VerifyTOTP recoveryHash]; rewrite Hcode; reflexivity.
Qed.

(** A confirmed enrolment takes effect.  When confirming succeeds,
    the pending enrolment is consumed, ten unused recovery codes replace the
    old ones, and from then on, when storage does not fail, the codes of the
    enrolled seed are what the user's second factor accepts. *)
Theorem mfa_enrollment (c : AEAD) (u code : string) (pending pending' : gmap string Pending)
    (codes : list string) (w w1 : world AuthDB) :
  aead = Some c -> Confirm u code pending w = (inr (inr codes, pending'), w1) ->
  exists p, pending !! u = Some p /\ pending' !! u = None /\ length codes = 10%nat /\
    map rv_code_hash (codes_of u (w_db w1)) = map recoveryHash codes /\
    Forall (fun r => rv_used_at r = None) (codes_of u (w_db w1)) /\
    (Enabled u (World (w_db w1) [] 0 [])).1 = inr true /\
    forall w2, w_db w2 = w_db w1 -> w_faults w2 = [] -> 0 <= hd 0 (w_clock w2) ->
      (Mfa_Verify u (TOTP (pe_seed p) (hd 0 (w_clock w2))) w2).1 = inr tt.
Proof.
  intros Hc E. pose proof (confirm_runs c u code pending (w_db w) Hc w eq_refl) as Hr. rewrite E in Hr.
  destruct Hr as (p & Hp & -> & Hl & He & Hs). exists p. rewrite lookup_delete_eq.
  split_and!; try done; [by apply He|by apply He| |].
  - destruct He as [(row & Hrow & Hen & _) _]. unfold Enabled, query_row, exec. cbn. by rewrite Hrow, <- Hen.
  - intros w2 Hw2 Hf Ht. rewrite <- Hw2 in He, Hs. by eapply (verify_totp c).
Qed.

(** Without the stored secret no short code verifies. *)
Lemma verify_without_secret u code d row :
  find_user u d = Some row -> us_totp_enabled row = true ->
  (forall k, us_totp_secret_key row = Some k -> adb_secrets d !! k = None) -> str_len code < 16 ->
  runs d (Mfa_Verify u code) (fun _ _ => False).
Proof.
  intros Hrow Hen Hsec Hl. unfold Mfa_Verify, Enabled.
  apply runs_bind, runs_map_err, runs_query_row. rewrite Hrow. intros b [= <-]. rewrite Hen. cbn [negb].
  apply runs_bind, runs_map_err, runs_query_row. rewrite Hrow. intros key [= <-].
  destruct (us_totp_secret_key row) as [k|]; [|apply runs_throw]. cbn [from_option id].
  destruct (k =?s ""); [apply runs_throw|].
  assert (recoveryHash code = "") as Hh.
  { destruct (decide (recoveryHash code = "")) as [|Hn]; [done|]. apply recovery_code_length in Hn. lia. }
  apply runs_bind. eapply (runs_mono d _ _ (fun seed d' => seed = None /\ d' = d)).
  { intros w Hw. unfold or_default, Get, bind. destruct aead as [c|]; [|by cbn].
    unfold catch_norows, query_row, exec. pose proof (next_fault_db w) as Hd.
    destruct (next_fault w) as [[] w1]; cbn in *; [by rewrite Hd|]. rewrite Hd, Hw, (Hsec k eq_refl).
    cbn. by rewrite Hd. }
  intros seed d1 [-> ->]. apply runs_bind, runs_ret. rewrite Hh. apply runs_throw.
Qed.
End codes.

(** ** Witnesses *)

(** Twenty bytes that depend on the message, for evaluating examples *)
Definition sample_sum (k : string) (m : list Z) : list Z :=
  map (fun i => (nth i m 0 + str_len k) mod 256) (seq 0 20).
Lemma sample_sum_bytes k m b : In b (sample_sum k m) -> 0 <= b < 256.
Proof. unfold sample_sum. rewrite in_map_iff. intros (i & <- & _). apply Z.mod_pos_bound. lia. Qed.
#[export] Instance sample_hmac : HmacSha1 := {|
  hmac_sha1 := sample_sum;
  hmac_sha1_length := fun k m => eq_refl;
  hmac_sha1_bytes := sample_sum_bytes;
|}.

Lemma totp_drift_witness :
  VerifyTOTP "seed" (TOTP "seed" (90 * Second)) (61 * Second) = true.
Proof.
  apply (proj1 (totp_drift "seed" (90 * Second) (61 * Second) "" ltac:(vm_compute; discriminate)
    ltac:(vm_compute; discriminate))). vm_compute. discriminate.
Defined.

(** Ten bytes for the first ten numbers *)
Definition ten_bytes (n : nat) : string := "talosdemo" +:+ pretty n.
Instance ten_bytes_inj : Inj (=) (=) ten_bytes.
Proof. intros a b E. apply (inj pretty). unfold ten_bytes in E. cbn in E. by simplify_eq. Qed.
Definition ten_rand : Rand := {| rand_hex := ten_bytes |}.

(** An administrator enrolled with one seed, who starts over with another *)
Definition mfa_user (enabled : bool) : UserRow :=
  mkUserRow "usr_1" "admin" "" 0 0 enabled (if enabled then Some "totp.usr_1" else None) None.
Definition mfa_db : AuthDB :=
  mkAuthDB [mfa_user true] [] [] [mkRecoveryRow "usr_1" (recoveryHash "AAAA-BBBB-CCCC-DDDD") 0 None] None
    {["totp.usr_1" := mkSecretRow (aead_seal "n" "old" "totp.usr_1") "n" SecretAlgorithm SecretKeyVersion 0]}.
Definition mfa_pending : gmap string Pending := {["usr_1" := mkPending "newer seed" (10 * Minute)]}.
Definition mfa_confirm (faults : list bool) :=
  Confirm (H1 := ten_rand) (Some plain_aead) "usr_1" (TOTP "newer seed" Minute) mfa_pending
    (World mfa_db faults 0 [Minute; Minute; Minute; Minute]).

Lemma mfa_enrollment_witness :
  exists codes pending' w1, mfa_confirm [] = (inr (inr codes, pending'), w1) /\
    (Mfa_Verify (Some plain_aead) "usr_1" (TOTP "newer seed" (2 * Minute))
       (World (w_db w1) [] 0 [2 * Minute])).1 = inr tt.
Proof.
  destruct (mfa_confirm []) as [[e|[[e|codes] pending']] w1] eqn:E;
    [vm_compute in E; discriminate|vm_compute in E; discriminate|].
  exists codes, pending', w1. split; [reflexivity|]. unfold mfa_confirm in E.
  pose proof (mfa_enrollment (H1 := ten_rand) (Some plain_aead) plain_aead "usr_1" (TOTP "newer seed" Minute)
    mfa_pending pending' codes (World mfa_db [] 0 [Minute; Minute; Minute; Minute]) w1 eq_refl E) as Hm.
  destruct Hm as (p & Hp & _ & _ & _ & _ & _ & Hv).
  clear E. assert (p = mkPending "newer seed" (10 * Minute)) as ->.
  { vm_compute in Hp |- *. injection Hp as <-. reflexivity. }
  specialize (Hv (World (w_db w1) [] 0 [2 * Minute]) eq_refl eq_refl). cbn [hd w_clock pe_seed] in Hv.
  apply Hv. vm_compute. discriminate.
Defined.

Lemma recovery_code_single_use_witness :
  exists w1, Mfa_Verify (Some plain_aead) "usr_1" "AAAA-BBBB-CCCC-DDDD" (World mfa_db [] 0 []) = (inr tt, w1) /\
    exists e, (Mfa_Verify (Some plain_aead) "usr_1" " aaaabbbb ccccdddd" (verify_all (Some plain_aead) [] w1).2).1 = inl e.
Proof.
  destruct (Mfa_Verify _ _ _ _) as [r w1] eqn:E. exists w1.
  assert (r = inr tt) as -> by (vm_compute in E; by simplify_eq). split; [reflexivity|].
  eapply (recovery_code_single_use (Some plain_aead) "usr_1" "AAAA-BBBB-CCCC-DDDD" " aaaabbbb ccccdddd" []
    (World mfa_db [] 0 [])); [eexists; split; reflexivity|discriminate|exact E|reflexivity].
Defined.

(** A failed re-enrolment destroys the second factor.  An enrolled
    administrator confirms a new seed and the final commit fails: the
    clean-up deletes the secret that the old enrolment used too, while the
    account stays enrolled, so that afterwards no authenticator code is
    accepted, neither of the old seed nor of the new one. *)
Theorem failed_reenrollment_locks_out :
  (Mfa_Verify (Some plain_aead) "usr_1" (TOTP "old" 0) (World mfa_db [] 0 [0])).1 = inr tt /\
  exists e pending' w1,
    mfa_confirm (replicate 14 false ++ [true]) = (inr (inl e, pending'), w1) /\
    (Enabled "usr_1" (World (w_db w1) [] 0 [])).1 = inr true /\
    forall code w2, w_db w2 = w_db w1 -> str_len code = 6 ->
      exists e, (Mfa_Verify (Some plain_aead) "usr_1" code w2).1 = inl e.
Proof.
  split; [by vm_compute|].
  destruct (mfa_confirm _) as [r w1] eqn:E.
  assert (exists e p, r = inr (inl e, p)) as (e & p & ->) by (vm_compute in E; simplify_eq; eauto).
  exists e, p, w1. split; [done|].
  assert (find_user "usr_1" (w_db w1) = Some (mfa_user true) /\ adb_secrets (w_db w1) = ∅) as [Hu Hs]
    by (vm_compute in E; by simplify_eq).
  split; [unfold Enabled; by rewrite query_row_healthy, Hu|].
  intros code w2 Hw2 Hl. eapply runs_never; [|exact Hw2].
  eapply verify_without_secret; [exact Hu|done| |lia]. intros k _. by rewrite Hs.
Qed.
