(* ===== verification/StoreSchema.v ===== *)
(** * The history tables

    The tables of [migrations/002] to [014] and [016] that the storage package
    writes, rolls up, expires and deletes.  The package builds statements
    from table and column names, so tables here are looked up by name and
    rows by column, with SQLite's dynamically typed values; a column a
    statement does not set is [NULL].  The statements respect the primary
    keys and the foreign keys (the connection turns them on). *)

From stdpp Require Import base tactics list gmap strings pretty.
From Stdlib Require Import ZArith Lia SpecFloat.
From S2P Require Import Prelude Float64 Db.

(** ** Values and rows *)

Inductive Value := VNull | VInt (z : Z) | VReal (f : F64) | VText (s : string).

#[export] Instance Value_eq_dec : EqDecision Value.
Proof. solve_decision. Defined.

Definition value_eqb (a b : Value) : bool := bool_decide (a = b).

(** SQLite stores NaN as [NULL]. *)
Definition real (f : F64) : Value := match f with S754_nan => VNull | _ => VReal f end.
Definition opt_real (f : option F64) : Value := match f with Some f => real f | None => VNull end.
Definition opt_int (z : option Z) : Value := match z with Some z => VInt z | None => VNull end.
Definition opt_text (s : string) : Value := if s =?s "" then VNull else VText s.

Abbreviation Row := (gmap string Value).
Definition row (l : list (string * Value)) : gmap string Value := list_to_map l.
Definition col (c : string) (r : Row) : Value := default VNull (r !! c).
(** A column read into a Go integer *)
Definition int_col (c : string) (r : Row) : Z := match col c r with VInt z => z | _ => 0 end.
(** A column read into a Go string after [COALESCE(column, '')] *)
Definition text_col (c : string) (r : Row) : string := match col c r with VText s => s | _ => "" end.
Definition not_null (v : Value) : bool := negb (value_eqb v VNull).

Definition row_ts (r : Row) : Z := int_col "ts" r.

(** ** The database *)

(** [history_deletion_jobs] *)
Record JobRow := mkJobRow {
  jb_id : string; jb_kind : string; jb_resource_id : option string; jb_before_ts : option Z;
  jb_fence_ts : Z; jb_confirmation : string; jb_state : string; jb_requested_by : option string;
  jb_requested_at : Z; jb_started_at : option Z; jb_finished_at : option Z; jb_total_rows : Z;
  jb_deleted_rows : Z; jb_current_table : option string; jb_error_message : option string;
}.

(** [history_deletion_previews]; [summary_json] is read nowhere. *)
Record PreviewRow := mkPreviewRow {
  pv_id_hash : string; pv_kind : string; pv_resource_id : option string; pv_before_ts : option Z;
  pv_fence_ts : Z; pv_confirmation : string; pv_expires_at : Z; pv_used_at : option Z;
}.

Record StoreDB := mkStore {
  st_tables : gmap string (list Row);
  st_jobs : list JobRow;
  st_previews : list PreviewRow;
}.
Definition empty_store : StoreDB := mkStore ∅ [] [].

Definition set_tables (t : gmap string (list Row)) (d : StoreDB) : StoreDB :=
  mkStore t (st_jobs d) (st_previews d).
Definition set_jobs (t : list JobRow) (d : StoreDB) : StoreDB := mkStore (st_tables d) t (st_previews d).
Definition set_previews (t : list PreviewRow) (d : StoreDB) : StoreDB := mkStore (st_tables d) (st_jobs d) t.

Definition table (n : string) (d : StoreDB) : list Row := default [] (st_tables d !! n).
Definition set_table (n : string) (t : list Row) (d : StoreDB) : StoreDB :=
  set_tables (<[n := t]> (st_tables d)) d.

Lemma table_set n t d : table n (set_table n t d) = t.
Proof. unfold table, set_table. cbn. by rewrite lookup_insert_eq. Qed.
Lemma table_set_ne n n' t d : n <> n' -> table n (set_table n' t d) = table n d.
Proof. intros. unfold table, set_table. cbn. by rewrite lookup_insert_ne. Qed.

(** ** Keys *)

(** The primary keys; [resource_id] precedes [ts] where both are in. *)
Definition primary_key (n : string) : list string :=
  if str_in n ["host_samples_10s"] then ["host_id"; "ts"]
  else if str_in n ["resource_samples_10s"; "resource_rollups_1m"; "resource_rollups_15m"; "resource_rollups_1h"]
  then ["resource_id"; "ts"]
  else if str_in n ["container_instance_samples_10s"] then ["container_instance_id"; "ts"]
  else if str_in n ["host_rollups_1m"; "host_rollups_15m"; "host_rollups_1h"] then ["ts"]
  else if str_in n ["filesystem_samples_1m"] then ["host_id"; "mount_key"; "ts"]
  else if str_in n ["network_interface_samples_1m"] then ["host_id"; "interface_name"; "ts"]
  else if str_in n ["boot_sessions"] then ["host_id"; "boot_identity"]
  else ["id"].

Definition same_key (ks : list string) (a b : Row) : bool :=
  forallb (fun k => value_eqb (col k a) (col k b)) ks.

Record ForeignKey := mkFK {
  fk_child : string; fk_col : string; fk_parent : string; fk_cascade : bool;
}.
(** All of them reference the parent's [id]. *)
Definition foreign_keys : list ForeignKey :=
  [ mkFK "boot_sessions" "host_id" "hosts" false;
    mkFK "resources" "host_id" "hosts" false;
    mkFK "container_instances" "resource_id" "resources" false;
    mkFK "health_checks" "resource_id" "resources" false;
    mkFK "deployment_grace_periods" "resource_id" "resources" true ].

Definition has_parent (fk : ForeignKey) (d : StoreDB) (r : Row) : bool :=
  value_eqb (col (fk_col fk) r) VNull ||
  existsb (fun p => value_eqb (col "id" p) (col (fk_col fk) r)) (table (fk_parent fk) d).

Definition refs_ok (d : StoreDB) : bool :=
  forallb (fun fk => forallb (has_parent fk d) (table (fk_child fk) d)) foreign_keys.

(** [ON DELETE CASCADE] *)
Definition cascade (d : StoreDB) : StoreDB :=
  fold_left (fun d' fk =>
    if fk_cascade fk then set_table (fk_child fk) (List.filter (has_parent fk d) (table (fk_child fk) d')) d' else d')
    foreign_keys d.

#[global] Arguments cascade : simpl never.
#[global] Arguments refs_ok : simpl never.
#[global] Arguments table : simpl never.
#[global] Arguments set_table : simpl never.

(** ** Statements *)

Definition checked {A} (r : A * StoreDB) : gerr + (A * StoreDB) :=
  if refs_ok r.2 then inr r else inl (EConstraint "FOREIGN KEY").

Definition replace_row (n : string) (r : Row) (t : list Row) : list Row :=
  List.filter (fun x => negb (same_key (primary_key n) x r)) t ++ [r].
Definition add_row (n : string) (r : Row) (t : list Row) : list Row :=
  if existsb (fun x => same_key (primary_key n) x r) t then t else t ++ [r].

(** [INSERT OR REPLACE], [INSERT OR IGNORE], and both for the rows a query
    selects *)
Definition insert_or_replace (n : string) (r : Row) : tx StoreDB unit :=
  exec (fun d => checked (tt, set_table n (replace_row n r (table n d)) d)).
Definition insert_or_ignore (n : string) (r : Row) : tx StoreDB unit :=
  exec (fun d => checked (tt, set_table n (add_row n r (table n d)) d)).
Definition insert_select (n : string) (q : StoreDB -> list Row) : tx StoreDB unit :=
  exec (fun d => checked (tt, set_table n (fold_left (fun t r => replace_row n r t) (q d) (table n d)) d)).

(** [UPDATE ... WHERE p] *)
Definition update_table (n : string) (p : Row -> bool) (f : Row -> Row) : tx StoreDB Z :=
  exec (fun d => checked (sql_count p (table n d), set_table n (sql_update p f (table n d)) d)).

(** [DELETE FROM n WHERE rowid IN (SELECT rowid FROM n WHERE p LIMIT k)] *)
Definition delete_batch (n : string) (p : StoreDB -> Row -> bool) (k : nat) : tx StoreDB Z :=
  exec (fun d =>
    checked (Z.min (Z.of_nat k) (sql_count (p d) (table n d)),
             cascade (set_table n (delete_first (p d) k (table n d)) d))).

Definition count_rows (n : string) (p : StoreDB -> Row -> bool) : tx StoreDB Z :=
  query (fun d => sql_count (p d) (table n d)).

(** ** What statements change *)

Lemma table_cascade n d :
  n <> "deployment_grace_periods" -> table n (cascade d) = table n d.
Proof. intros. unfold cascade, foreign_keys. cbn [fold_left fk_cascade fk_child]. by rewrite table_set_ne. Qed.
Lemma jobs_cascade d : st_jobs (cascade d) = st_jobs d.
Proof. done. Qed.
Lemma previews_cascade d : st_previews (cascade d) = st_previews d.
Proof. done. Qed.

Lemma checked_inr {A} (r r' : A * StoreDB) : checked r = inr r' -> r' = r /\ refs_ok r.2 = true.
Proof. unfold checked. destruct (refs_ok r.2); [|done]. intros [= <-]. done. Qed.

(** Tables without foreign keys either way *)
Definition plain_table (n : string) : bool :=
  forallb (fun fk => negb (n =?s fk_child fk) && negb (n =?s fk_parent fk)) foreign_keys.

Lemma plain_not n fk : plain_table n = true -> In fk foreign_keys -> n <> fk_child fk /\ n <> fk_parent fk.
Proof.
  unfold plain_table. rewrite forallb_forall. intros H Hin. specialize (H fk Hin). bool_hyps.
  by rewrite !String.eqb_neq in *.
Qed.

Lemma forallb_ext_in {A} (f g : A -> bool) l : (forall x, In x l -> f x = g x) -> forallb f l = forallb g l.
Proof. induction l as [|x l IH]; cbn; intros H; [done|]. rewrite (H x), IH; auto. Qed.

Lemma refs_ok_ext d d' :
  (forall fk, In fk foreign_keys ->
    table (fk_child fk) d' = table (fk_child fk) d /\ table (fk_parent fk) d' = table (fk_parent fk) d) ->
  refs_ok d' = refs_ok d.
Proof.
  intros H. unfold refs_ok. apply forallb_ext_in. intros fk Hin.
  destruct (H fk Hin) as [-> Hp]. apply forallb_ext_in. intros r _. unfold has_parent. by rewrite Hp.
Qed.

Lemma refs_ok_plain n t d : plain_table n = true -> refs_ok (set_table n t d) = refs_ok d.
Proof.
  intros Hn. apply refs_ok_ext. intros fk Hin. destruct (plain_not n fk Hn Hin).
  by rewrite !table_set_ne.
Qed.

(** With every reference in place a cascade removes nothing. *)
Lemma cascade_refs n d : refs_ok d = true -> table n (cascade d) = table n d.
Proof.
  intros Hd. destruct (decide (n = "deployment_grace_periods")) as [->|]; [|by apply table_cascade].
  unfold refs_ok in Hd. rewrite forallb_forall in Hd.
  specialize (Hd (mkFK "deployment_grace_periods" "resource_id" "resources" true)).
  unfold cascade. cbn -[has_parent table set_table]. rewrite table_set. apply forallb_filter_id.
  apply Hd. cbn. tauto.
Qed.

Lemma refs_ok_cascade d : refs_ok d = true -> refs_ok (cascade d) = true.
Proof. intros Hd. rewrite <- Hd at 1. apply refs_ok_ext. intros fk _. split; by apply cascade_refs. Qed.

Lemma set_table_length n t d x :
  (length t <= length (table n d))%nat -> (length (table x (set_table n t d)) <= length (table x d))%nat.
Proof.
  intros. destruct (decide (x = n)) as [->|]; [by rewrite table_set|by rewrite table_set_ne].
Qed.
Lemma cascade_length n d : (length (table n (cascade d)) <= length (table n d))%nat.
Proof.
  unfold cascade. cbn -[table set_table]. apply set_table_length, List.filter_length_le.
Qed.

(** A batch removes as many rows as it reports, and no statement of this kind
    adds one. *)
Lemma delete_batch_length n p k w :
  match delete_batch n p k w with
  | (inl _, w') => w_db w' = w_db w
  | (inr m, w') => 0 <= m /\ (forall x, length (table x (w_db w')) <= length (table x (w_db w)))%nat /\
      Z.of_nat (length (table n (w_db w'))) + m <= Z.of_nat (length (table n (w_db w)))
  end.
Proof.
  unfold delete_batch, exec. pose proof (next_fault_db w) as Hd. destruct (next_fault w) as [[] w1]; cbn in *; [done|].
  destruct (checked _) as [e|[m d']] eqn:E; cbn; [done|]. apply checked_inr in E as [E _].
  rewrite Hd in E. set (d := w_db w) in *. pose proof (f_equal fst E) as Em. pose proof (f_equal snd E) as Ed. cbn [fst snd] in Em, Ed. clear E.
  pose proof (delete_first_length (p d) k (table n d)) as Hlen. pose proof (sql_count_nonneg (p d) (table n d)).
  pose proof (cascade_length n (set_table n (delete_first (p d) k (table n d)) d)) as Hc.
  rewrite table_set in Hc. split_and!; [lia| |subst d'; lia].
  intros x. subst d'. etransitivity; [apply cascade_length|]. apply set_table_length. lia.
Qed.

Lemma delete_first_keeps {R} (p : R -> bool) n t r : In r t -> p r = false -> In r (delete_first p n t).
Proof.
  intros Hin Hp. apply (in_sql_delete p (delete_first p n t) r). rewrite delete_first_rest. by apply in_sql_delete.
Qed.

Lemma in_cascade n d r : In r (table n (cascade d)) -> In r (table n d).
Proof.
  unfold cascade. cbn [fold_left fk_cascade foreign_keys fk_child].
  destruct (decide (n = "deployment_grace_periods")) as [->|]; [|by rewrite table_set_ne].
  rewrite table_set. by intros [? _]%filter_In.
Qed.
Lemma in_cascade_child fk d r :
  In fk foreign_keys -> fk_cascade fk = true -> In r (table (fk_child fk) (cascade d)) -> has_parent fk d r = true.
Proof.
  intros Hfk Hc. cbn in Hfk. unfold cascade. cbn [fold_left fk_cascade foreign_keys fk_child].
  destruct Hfk as [<-|[<-|[<-|[<-|[<-|[]]]]]]; try done. cbn [fk_child]. rewrite table_set.
  by intros [_ ?]%filter_In.
Qed.
Lemma table_cascade_parent fk d : In fk foreign_keys -> table (fk_parent fk) (cascade d) = table (fk_parent fk) d.
Proof. intros Hfk. apply table_cascade. cbn in Hfk. by destruct Hfk as [<-|[<-|[<-|[<-|[<-|[]]]]]]. Qed.

(** Rows that no row without [ON DELETE CASCADE] references can be deleted. *)
Definition unreferenced (n : string) (p : Row -> bool) (d : StoreDB) : Prop :=
  forall fk c r, In fk foreign_keys -> fk_parent fk = n -> fk_cascade fk = false ->
    In c (table (fk_child fk) d) -> In r (table n d) -> p r = true ->
    col "id" r <> col (fk_col fk) c \/ col (fk_col fk) c = VNull.

Lemma delete_refs_ok n p k d :
  refs_ok d = true -> unreferenced n p d ->
  refs_ok (cascade (set_table n (delete_first p k (table n d)) d)) = true.
Proof.
  intros Hd Hp. unfold refs_ok in *. rewrite forallb_forall in *. intros fk Hfk.
  specialize (Hd fk Hfk). rewrite forallb_forall in *. intros c Hc.
  set (d1 := set_table n (delete_first p k (table n d)) d) in *.
  assert (has_parent fk (cascade d1) c = has_parent fk d1 c) as ->
    by (unfold has_parent; by rewrite table_cascade_parent).
  destruct (fk_cascade fk) eqn:Ecas; [by apply in_cascade_child|].
  apply in_cascade in Hc.
  assert (In c (table (fk_child fk) d)) as Hc'.
  { unfold d1 in Hc. destruct (decide (fk_child fk = n)) as [E|]; [|by rewrite table_set_ne in Hc].
    rewrite E, table_set in Hc. rewrite E. by apply delete_first_incl in Hc. }
  specialize (Hd c Hc'). unfold has_parent in *. apply orb_true_iff in Hd. apply orb_true_iff.
  destruct Hd as [?|Hd]; [by left|]. apply existsb_exists in Hd as (r & Hr & Hid).
  apply bool_decide_eq_true in Hid.
  destruct (decide (fk_parent fk = n)) as [E|]; [|right; unfold d1; rewrite table_set_ne by done;
    apply existsb_exists; exists r; split; [done|by apply bool_decide_eq_true]].
  destruct (p r) eqn:Ep.
  - rewrite E in Hr. destruct (Hp fk c r Hfk E Ecas Hc' Hr Ep) as [?| ->]; [done|]. by left.
  - right. unfold d1. rewrite E, table_set. apply existsb_exists. exists r. rewrite E in Hr.
    split; [by apply delete_first_keeps|by apply bool_decide_eq_true].
Qed.

Lemma unreferenced_not_parent n p d :
  (forall fk, In fk foreign_keys -> fk_parent fk <> n) -> unreferenced n p d.
Proof. intros Hn fk c r Hfk E. by destruct (Hn fk Hfk). Qed.

(** A batch of a healthy engine *)
Lemma delete_batch_healthy n p k d fs c :
  refs_ok d = true -> unreferenced n (p d) d ->
  delete_batch n p k (World d [] fs c) =
    (inr (Z.min (Z.of_nat k) (sql_count (p d) (table n d))),
     World (cascade (set_table n (delete_first (p d) k (table n d)) d)) [] fs c).
Proof.
  intros Hd Hp. unfold delete_batch, exec. cbn [next_fault w_faults w_db].
  unfold checked. cbn [snd]. by rewrite delete_refs_ok.
Qed.
