(* ===== verification/Deletion.v ===== *)
(** * History deletion

    [internal/storage/deletion.go]: previews with a confirmation phrase,
    deletion jobs and the worker that runs them in batches.  The worker is
    modelled statement by statement, since requests interleave with it. *)

From stdpp Require Import base tactics list gmap strings pretty.
From Stdlib Require Import ZArith Lia.
From S2P Require Import Prelude GoString Encoding Db AlertRepository AuthSchema StoreSchema.

(** ** Dates *)

(** [Format("2006-01-02")]: the proleptic Gregorian date of a day number
    since the Unix epoch. *)
Definition civil (days : Z) : Z * Z * Z :=
  let z := days + 719468 in
  let era := z / 146097 in
  let doe := z mod 146097 in
  let yoe := (doe - doe / 1460 + doe / 36524 - doe / 146096) / 365 in
  let doy := doe - (365 * yoe + yoe / 4 - yoe / 100) in
  let mp := (5 * doy + 2) / 153 in
  let d := doy - (153 * mp + 2) / 5 + 1 in
  let m := if mp <? 10 then mp + 3 else mp - 9 in
  (yoe + era * 400 + (if m <=? 2 then 1 else 0), m, d).

Definition zero_pad (width : nat) (n : Z) : string :=
  let s := pretty n in String.concat "" (repeat "0" (width - String.length s)) +:+ s.
Definition format_date (t : Z) : string :=
  let '(y, m, d) := civil (t / (24 * Hour)) in
  (if y <? 0 then "-" else "") +:+ zero_pad 4 (Z.abs y) +:+ "-" +:+ zero_pad 2 m +:+ "-" +:+ zero_pad 2 d.

(** ** Requests *)

Definition DeleteResource : string := "resource".
Definition DeleteBefore : string := "before".
Definition DeleteAll : string := "all".
Definition DeleteArchived : string := "archived_resource".

Record DeletionRequest := mkDeletionRequest { dr_Kind : string; dr_ResourceID : string; dr_Before : Z }.
Record DeletionPreview := mkDeletionPreview {
  dp_Token : string; dp_Confirmation : string; dp_TotalRows : Z; dp_ExpiresAt : Z;
  dp_Scope : DeletionRequest; dp_FenceAt : Z;
}.
Record DeletionJob := mkDeletionJob {
  dj_ID : string; dj_Kind : string; dj_ResourceID : string; dj_State : string;
  dj_TotalRows : Z; dj_DeletedRows : Z; dj_Error : string;
}.

(** [None] when valid *)
Definition validDeletion (r : DeletionRequest) : option gerr :=
  if (dr_Kind r =?s DeleteResource) || (dr_Kind r =?s DeleteArchived) then
    if (str_len (dr_ResourceID r) <? 5) || (128 <? str_len (dr_ResourceID r)) ||
       negb (HasPrefix (dr_ResourceID r) "res_")
    then Some (EMsg "resource id is required") else None
  else if dr_Kind r =?s DeleteBefore then
    if is_zero_time (dr_Before r) then Some (EMsg "before timestamp is required") else None
  else if dr_Kind r =?s DeleteAll then None
  else Some (EMsg "invalid deletion kind").

Definition confirmationFor (r : DeletionRequest) : string :=
  if dr_Kind r =?s DeleteResource then "DELETE HISTORY " +:+ dr_ResourceID r
  else if dr_Kind r =?s DeleteArchived then "PURGE ARCHIVED " +:+ dr_ResourceID r
  else if dr_Kind r =?s DeleteBefore then "DELETE HISTORY BEFORE " +:+ format_date (dr_Before r)
  else "RESET ALL HISTORY".

(** ** Scope *)

Definition deletionTables (kind : string) : list string :=
  let tables := ["container_instance_samples_10s"; "resource_samples_10s"; "resource_rollups_1m";
                 "resource_rollups_15m"; "resource_rollups_1h"; "events"] in
  if (kind =?s DeleteBefore) || (kind =?s DeleteAll)
  then ["host_samples_10s"; "host_rollups_1m"; "host_rollups_15m"; "host_rollups_1h";
        "collector_state_events"] ++ tables
  else tables.
Definition metadataDeletionTables (kind : string) : list string :=
  if kind =?s DeleteArchived then ["container_instances"; "resources"]
  else if kind =?s DeleteAll then ["container_instances"; "resources"; "boot_sessions"; "hosts"]
  else [].
Definition resourceScopedTable (t : string) : bool :=
  str_in t ["resource_samples_10s"; "resource_rollups_1m"; "resource_rollups_15m"; "resource_rollups_1h"; "events"].

Definition by_resource (kind : string) : bool := (kind =?s DeleteResource) || (kind =?s DeleteArchived).

(** What a job or preview says to delete *)
Record Scope := mkScope { sc_kind : string; sc_resource : string; sc_before : Z; sc_fence : Z }.

(** The rows of a history table that [deleteBatch] selects *)
Definition history_where (s : Scope) (t : string) (d : StoreDB) (r : Row) : bool :=
  if by_resource (sc_kind s) && (t =?s "container_instance_samples_10s") then
    (row_ts r <=? sc_fence s) &&
    existsb (fun i => value_eqb (col "id" i) (col "container_instance_id" r) &&
                      value_eqb (col "resource_id" i) (VText (sc_resource s)))
      (table "container_instances" d)
  else
    (if sc_kind s =?s DeleteBefore then row_ts r <? sc_before s else row_ts r <=? sc_fence s) &&
    (negb (by_resource (sc_kind s) && resourceScopedTable t) ||
     value_eqb (col "resource_id" r) (VText (sc_resource s))).

(** The rows of a metadata table in scope *)
Definition metadata_where (s : Scope) (t : string) (d : StoreDB) (r : Row) : bool :=
  if (sc_kind s =?s DeleteArchived) && (t =?s "container_instances")
  then value_eqb (col "resource_id" r) (VText (sc_resource s))
  else if (sc_kind s =?s DeleteArchived) && (t =?s "resources")
  then value_eqb (col "id" r) (VText (sc_resource s)) && value_eqb (col "status" r) (VText "archived")
  else true.

Inductive Stage := History (t : string) | Metadata (t : string).
Definition stage_table (st : Stage) : string := match st with History t | Metadata t => t end.
Definition stage_where (s : Scope) (st : Stage) : StoreDB -> Row -> bool :=
  match st with History t => history_where s t | Metadata t => metadata_where s t end.
Definition stages (kind : string) : list Stage :=
  map History (deletionTables kind) ++ map Metadata (metadataDeletionTables kind).

Definition batch_limit : nat := 500.
Definition deleteBatch (s : Scope) (t : string) : tx StoreDB Z :=
  delete_batch t (history_where s t) batch_limit.
Definition deleteMetadataBatch (s : Scope) (t : string) : tx StoreDB Z :=
  delete_batch t (metadata_where s t) batch_limit.
Definition delete_stage (s : Scope) (st : Stage) : tx StoreDB Z :=
  match st with History t => deleteBatch s t | Metadata t => deleteMetadataBatch s t end.

Fixpoint sum_tx {A} (f : A -> tx StoreDB Z) (l : list A) : tx StoreDB Z :=
  match l with
  | [] => ret 0
  | x :: l => n <- f x ;; m <- sum_tx f l ;; ret (n + m)
  end.

(** The rows of a history table that [deletionCountTx] counts: the sample
    joined with its instance, which is one at most, or the table's own columns *)
Definition count_where (k resource : string) (before fence : Z) (t : string) (d : StoreDB) (r : Row) : bool :=
  if ((k =?s DeleteResource) || (k =?s DeleteArchived)) && (t =?s "container_instance_samples_10s") then
    existsb (fun i => value_eqb (col "id" i) (col "container_instance_id" r) &&
                      ((row_ts r <=? fence) && value_eqb (col "resource_id" i) (VText resource)))
      (table "container_instances" d)
  else
    let where_ts := if k =?s DeleteBefore then row_ts r <? before else row_ts r <=? fence in
    if ((k =?s DeleteResource) || (k =?s DeleteArchived)) && resourceScopedTable t
    then where_ts && value_eqb (col "resource_id" r) (VText resource) else where_ts.

Definition deletionCountTx (s : Scope) : tx StoreDB Z :=
  total <- sum_tx (fun t => count_rows t (count_where (sc_kind s) (sc_resource s) (sc_before s) (sc_fence s) t))
             (deletionTables (sc_kind s)) ;;
  archived <- (if sc_kind s =?s DeleteArchived
    then n <- count_rows "container_instances" (fun _ r => value_eqb (col "resource_id" r) (VText (sc_resource s))) ;;
         m <- count_rows "resources" (fun _ r =>
                value_eqb (col "id" r) (VText (sc_resource s)) && value_eqb (col "status" r) (VText "archived")) ;;
         ret (n + m)
    else ret 0) ;;
  all <- (if sc_kind s =?s DeleteAll
    then sum_tx (fun t => count_rows t (fun _ _ => true)) ["container_instances"; "resources"; "boot_sessions"; "hosts"]
    else ret 0) ;;
  ret (total + archived + all).

(** ** Requests and jobs *)

Definition find_job (id : string) (d : StoreDB) : option JobRow :=
  sql_find (fun j => jb_id j =?s id) (st_jobs d).

Definition active_states : list string := ["queued"; "running"; "cancelling"].
Definition active (j : JobRow) : bool := str_in (jb_state j) active_states.

(** The unique index [one_active_history_deletion] *)
Definition one_active (l : list JobRow) : bool := sql_count active l <=? 1.

Definition insert_job (j : JobRow) (d : StoreDB) : gerr + (unit * StoreDB) :=
  match insert_pk jb_id j (st_jobs d) with
  | inl e => inl e
  | inr t => guard_c (one_active t) "UNIQUE one_active_history_deletion" (inr (tt, set_jobs t d))
  end.

(** An update of job rows; the index can refuse it. *)
Definition update_jobs (p : JobRow -> bool) (f : JobRow -> JobRow) : tx StoreDB Z :=
  exec (fun d =>
    let t := sql_update p f (st_jobs d) in
    if one_active t then inr (sql_count p (st_jobs d), set_jobs t d)
    else inl (EConstraint "UNIQUE one_active_history_deletion")).

Definition set_state (state : string) (finished : option Z) (j : JobRow) : JobRow :=
  mkJobRow (jb_id j) (jb_kind j) (jb_resource_id j) (jb_before_ts j) (jb_fence_ts j) (jb_confirmation j)
    state (jb_requested_by j) (jb_requested_at j) (jb_started_at j) finished (jb_total_rows j)
    (jb_deleted_rows j) (jb_current_table j) (jb_error_message j).
Definition set_started (started : option Z) (j : JobRow) : JobRow :=
  mkJobRow (jb_id j) (jb_kind j) (jb_resource_id j) (jb_before_ts j) (jb_fence_ts j) (jb_confirmation j)
    (jb_state j) (jb_requested_by j) (jb_requested_at j) started (jb_finished_at j) (jb_total_rows j)
    (jb_deleted_rows j) (jb_current_table j) (jb_error_message j).
Definition set_error (e : option string) (j : JobRow) : JobRow :=
  mkJobRow (jb_id j) (jb_kind j) (jb_resource_id j) (jb_before_ts j) (jb_fence_ts j) (jb_confirmation j)
    (jb_state j) (jb_requested_by j) (jb_requested_at j) (jb_started_at j) (jb_finished_at j) (jb_total_rows j)
    (jb_deleted_rows j) (jb_current_table j) e.
Definition set_progress (deleted : Z) (current : option string) (j : JobRow) : JobRow :=
  mkJobRow (jb_id j) (jb_kind j) (jb_resource_id j) (jb_before_ts j) (jb_fence_ts j) (jb_confirmation j)
    (jb_state j) (jb_requested_by j) (jb_requested_at j) (jb_started_at j) (jb_finished_at j) (jb_total_rows j)
    deleted current (jb_error_message j).

Section service.
Context `{Rand} `{SHA256}.
(** The text of an error *)
Context (error_text : gerr -> string).

Definition hashDeletionToken (s : string) : string := sha256_base64 s.

Definition null_string (s : string) : option string := if s =?s "" then None else Some s.

Definition stale_preview (now : Z) (p : PreviewRow) : bool :=
  (pv_expires_at p <? time_unix_milli now) ||
  match pv_used_at p with Some u => u <? time_unix_milli (time_add now (- (24 * Hour))) | None => false end.

Definition insert_preview (p : PreviewRow) (d : StoreDB) : gerr + (unit * StoreDB) :=
  put set_previews (insert_pk pv_id_hash p (st_previews d)) d.

Definition PreviewDeletion (request : DeletionRequest) : tx StoreDB DeletionPreview :=
  match validDeletion request with
  | Some e => throw e
  | None =>
      (if by_resource (dr_Kind request) then
         status <- map_err (fun _ => EMsg "resource not found")
           (query_row (fun d => text_col "status" <$>
              sql_find (fun r => value_eqb (col "id" r) (VText (dr_ResourceID request))) (table "resources" d))) ;;
         if (dr_Kind request =?s DeleteArchived) && negb (status =?s "archived")
         then throw (EMsg "resource is not archived") else ret tt
       else ret tt) ;;;
      now <- time_now ;;
      ignore (exec (fun d => inr (tt, set_previews (delete_first (stale_preview now) 500 (st_previews d)) d))) ;;;
      let fence := time_unix_milli now in
      let before := time_unix_milli (dr_Before request) in
      let before := if (dr_Kind request =?s DeleteBefore) && (fence <? before) then fence else before in
      total <- deletionCountTx (mkScope (dr_Kind request) (dr_ResourceID request) before fence) ;;
      token <- rand_id ;;
      let confirmation := confirmationFor request in
      let expires := time_add now (10 * Minute) in
      exec (insert_preview (mkPreviewRow (hashDeletionToken token) (dr_Kind request)
        (null_string (dr_ResourceID request))
        (if dr_Kind request =?s DeleteBefore then Some before else None) fence confirmation
        (time_unix_milli expires) None)) ;;;
      ret (mkDeletionPreview token confirmation total expires request (of_unix_milli fence))
  end.

Definition preview_scope (p : PreviewRow) : Scope :=
  mkScope (pv_kind p) (default "" (pv_resource_id p)) (default 0 (pv_before_ts p)) (pv_fence_ts p).

Definition use_preview (hash : string) (now : Z) : tx StoreDB Z :=
  update_rows st_previews set_previews (fun p => pv_id_hash p =?s hash)
    (fun p => mkPreviewRow (pv_id_hash p) (pv_kind p) (pv_resource_id p) (pv_before_ts p) (pv_fence_ts p)
                (pv_confirmation p) (pv_expires_at p) (Some now)).

Definition CreateDeletion (token confirmation actor : string) : tx StoreDB DeletionJob :=
  with_tx (
    p <- map_err (fun _ => EMsg "deletion preview is invalid")
      (query_row (fun d => sql_find (fun p => (pv_id_hash p =?s hashDeletionToken token) && is_null (pv_used_at p))
                             (st_previews d))) ;;
    now1 <- time_now ;;
    if (pv_expires_at p <=? time_unix_milli now1) || negb (confirmation =?s pv_confirmation p)
    then throw (EMsg "deletion confirmation is invalid")
    else
      total <- deletionCountTx (preview_scope p) ;;
      raw <- rand_id ;;
      let id := "del_" +:+ raw in
      now2 <- time_now ;;
      let now := time_unix_milli now2 in
      exec (insert_job (mkJobRow id (pv_kind p) (pv_resource_id p) (pv_before_ts p) (pv_fence_ts p)
        (pv_confirmation p) "queued" (null_string actor) now None None total 0 None None)) ;;;
      use_preview (hashDeletionToken token) now ;;;
      ret (mkDeletionJob id (pv_kind p) (default "" (pv_resource_id p)) "queued" total 0 "")).

Definition job_of (j : JobRow) : DeletionJob :=
  mkDeletionJob (jb_id j) (jb_kind j) (default "" (jb_resource_id j)) (jb_state j) (jb_total_rows j)
    (jb_deleted_rows j) (default "" (jb_error_message j)).
Definition DeletionJob_Get (id : string) : tx StoreDB DeletionJob :=
  query_row (fun d => job_of <$> find_job id d).

Definition CancelDeletion (id : string) : tx StoreDB unit :=
  now <- time_now ;;
  n <- update_jobs (fun j => (jb_id j =?s id) && str_in (jb_state j) ["queued"; "running"])
         (fun j => if jb_state j =?s "queued" then set_state "cancelled" (Some (time_unix_milli now)) j
                   else set_state "cancelling" (jb_finished_at j) j) ;;
  if negb (n =? 1) then throw (EMsg "deletion job is not cancellable") else ret tt.

Definition RetryDeletion (id : string) : tx StoreDB unit :=
  n <- update_jobs (fun j => (jb_id j =?s id) && str_in (jb_state j) ["cancelled"; "failed"])
         (fun j => set_error None (set_state "queued" None j)) ;;
  if negb (n =? 1) then throw (EMsg "deletion job is not retryable") else ret tt.

(** ** The worker *)

Definition job_scope (j : JobRow) : Scope :=
  mkScope (jb_kind j) (default "" (jb_resource_id j)) (default 0 (jb_before_ts j)) (jb_fence_ts j).

Definition safeDeletionError (e : gerr) : string := of_bytes (firstn 160 (bytes (error_text e))).

(** Where [RunDeletion] stands: about to run the named statement. *)
Inductive DelPc :=
  | PLoad (id : string)
  | PStart (id : string) (s : Scope)
  | PTest (id : string) (s : Scope) (todo : list Stage) (deleted : Z)
  | PCancel (id : string)
  | PBatch (id : string) (s : Scope) (st : Stage) (todo : list Stage) (deleted : Z)
  | PFail (id : string) (e : gerr)
  | PProgress (id : string) (s : Scope) (st : Stage) (todo : list Stage) (deleted n : Z)
  | PDone (r : gerr + unit).

Definition on_job (id : string) (f : JobRow -> JobRow) : tx StoreDB Z :=
  update_jobs (fun j => jb_id j =?s id) f.

(** The result of the last statement is the result of the run. *)
Definition finish_run (m : tx StoreDB Z) : tx StoreDB DelPc :=
  r <- attempt m ;; ret (PDone (match r with inl e => inl e | inr _ => inr tt end)).

Definition run_step (pc : DelPc) : tx StoreDB DelPc :=
  match pc with
  | PLoad id =>
      r <- attempt (query_row (fun d => sql_find (fun j => (jb_id j =?s id) && (jb_state j =?s "queued")) (st_jobs d))) ;;
      ret (match r with inl e => PDone (inl e) | inr j => PStart id (job_scope j) end)
  | PStart id s =>
      now <- time_now ;;
      r <- attempt (on_job id (fun j => set_started (Some (time_unix_milli now)) (set_state "running" (jb_finished_at j) j))) ;;
      ret (match r with inl e => PDone (inl e) | inr _ => PTest id s (stages (sc_kind s)) 0 end)
  | PTest id s [] deleted =>
      now <- time_now ;;
      finish_run (on_job id (fun j =>
        set_progress deleted None (set_state "completed" (Some (time_unix_milli now)) j)))
  | PTest id s (st :: todo) deleted =>
      r <- attempt (query_row (fun d => jb_state <$> find_job id d)) ;;
      ret (match r with
           | inl e => PDone (inl e)
           | inr state => if state =?s "cancelling" then PCancel id else PBatch id s st todo deleted
           end)
  | PCancel id =>
      now <- time_now ;;
      finish_run (on_job id (set_state "cancelled" (Some (time_unix_milli now))))
  | PBatch id s st todo deleted =>
      r <- attempt (delete_stage s st) ;;
      ret (match r with inl e => PFail id e | inr n => PProgress id s st todo (deleted + n) n end)
  | PFail id e =>
      now <- time_now ;;
      ignore (on_job id (fun j =>
        set_error (Some (safeDeletionError e)) (set_state "failed" (Some (time_unix_milli now)) j))) ;;;
      ret (PDone (inl e))
  | PProgress id s st todo deleted n =>
      ignore (on_job id (set_progress deleted (Some (stage_table st)))) ;;;
      ret (if n =? 0 then PTest id s todo deleted else PTest id s (st :: todo) deleted)
  | PDone r => ret (PDone r)
  end.

Fixpoint run_steps (fuel : nat) (pc : DelPc) : tx StoreDB DelPc :=
  match fuel with
  | O => ret pc
  | S fuel => pc' <- run_step pc ;; run_steps fuel pc'
  end.

(** The rows a run could delete: every batch but the last of a table deletes
    one at least. *)
Definition rows_of (l : list Stage) (d : StoreDB) : nat :=
  sum_list_with (fun st => length (table (stage_table st) d)) l.
Definition run_fuel (d : StoreDB) : nat := 3 * (rows_of (stages DeleteAll) d + 15) + 8.

Definition RunDeletion (id : string) : tx StoreDB DelPc := fun w =>
  run_steps (run_fuel (w_db w)) (PLoad id) w.

(** One round of [runDeletionWorker]: the oldest queued job, if any *)
Definition next_job (d : StoreDB) : option string :=
  jb_id <$> head (sql_order_by (fun a b => jb_requested_at a <=? jb_requested_at b)
                    (List.filter (fun j => jb_state j =?s "queued") (st_jobs d))).
Definition runDeletionWorker_round : tx StoreDB unit :=
  id <- or_default "" (query_row next_job) ;;
  if id =?s "" then ret tt else RunDeletion id ;;; ret tt.

Definition recoverDeletionJobs : tx StoreDB unit :=
  now <- time_now ;;
  update_jobs (fun j => jb_state j =?s "running")
    (fun j => set_error None (set_started None (set_state "queued" (jb_finished_at j) j))) ;;;
  update_jobs (fun j => jb_state j =?s "cancelling") (set_state "cancelled" (Some (time_unix_milli now))) ;;;
  ret tt.
End service.

(** ** A run ends *)

Lemma rows_of_cons st l d : rows_of (st :: l) d = (length (table (stage_table st) d) + rows_of l d)%nat.
Proof. done. Qed.
Lemma rows_of_le l d d' :
  (forall n, length (table n d') <= length (table n d))%nat -> (rows_of l d' <= rows_of l d)%nat.
Proof. intros Hn. induction l as [|st l IH]; [done|]. rewrite !rows_of_cons. specialize (Hn (stage_table st)). lia. Qed.
Lemma rows_of_app l l' d : rows_of (l ++ l') d = (rows_of l d + rows_of l' d)%nat.
Proof. induction l as [|st l IH]; [done|]. cbn [app]. rewrite !rows_of_cons, IH. lia. Qed.

Lemma stages_bounded kind d :
  (rows_of (stages kind) d + length (stages kind) <= rows_of (stages DeleteAll) d + 15)%nat.
Proof.
  unfold stages, deletionTables, metadataDeletionTables, DeleteAll, DeleteBefore, DeleteArchived.
  destruct (kind =?s "before"), (kind =?s "all"), (kind =?s "archived_resource");
    cbn -[rows_of table]; rewrite !rows_of_cons; cbn -[table]; lia.
Qed.

(** Statements left, at most *)
Definition measure (pc : DelPc) (d : StoreDB) : nat :=
  match pc with
  | PLoad _ => 3 * (rows_of (stages DeleteAll) d + 15) + 4
  | PStart _ s => 3 * (rows_of (stages (sc_kind s)) d + length (stages (sc_kind s))) + 3
  | PTest _ _ todo _ => 3 * (rows_of todo d + length todo) + 2
  | PBatch _ _ st todo _ => 3 * (rows_of (st :: todo) d + length (st :: todo)) + 1
  | PProgress _ _ st todo _ n =>
      if n =? 0 then 3 * (rows_of todo d + length todo) + 3
      else 3 * (rows_of (st :: todo) d + length (st :: todo)) + 3
  | PCancel _ | PFail _ _ => 1
  | PDone _ => 0
  end.

Lemma tables_rows_of l d d' : st_tables d' = st_tables d -> rows_of l d' = rows_of l d.
Proof.
  intros E. induction l as [|st l IH]; [done|]. rewrite !rows_of_cons, IH. unfold table. by rewrite E.
Qed.

Lemma attempt_eq {A} (m : tx StoreDB A) w : attempt m w = (inr (m w).1, (m w).2).
Proof. unfold attempt. by destruct (m w). Qed.

(** Job statements leave the tables alone. *)
Lemma update_jobs_tables p f w : st_tables (w_db (update_jobs p f w).2) = st_tables (w_db w).
Proof.
  unfold update_jobs, exec. pose proof (next_fault_db w) as Hd. destruct (next_fault w) as [[] w1]; cbn in *; [by rewrite Hd|].
  destruct (one_active _); cbn; by rewrite Hd.
Qed.
Lemma query_row_db {A} (f : StoreDB -> option A) w : w_db (query_row f w).2 = w_db w.
Proof.
  unfold query_row, exec. pose proof (next_fault_db w) as Hd. destruct (next_fault w) as [[] w1]; cbn in *; [done|].
  by destruct (f (w_db w1)).
Qed.
Lemma time_now_db (w : world StoreDB) : exists t w', time_now w = (inr t, w') /\ w_db w' = w_db w.
Proof. unfold time_now. destruct (w_clock w); eauto. Qed.

Section termination.
Context (error_text : gerr -> string).

Lemma run_step_decreases pc w :
  exists pc' w', run_step error_text pc w = (inr pc', w') /\
    ((exists r, pc = PDone r) \/ (measure pc' (w_db w') < measure pc (w_db w))%nat).
Proof.
  destruct pc as [id|id s|id s [|st todo] del|id|id s st todo del|id e|id s st todo del n|r]; cbn [run_step].
  - unfold bind at 1. rewrite attempt_eq. unfold ret. eexists _, _. split; [reflexivity|]. right.
    rewrite query_row_db. destruct (query_row _ w).1 as [e|j]; cbn [measure]; [lia|].
    pose proof (stages_bounded (sc_kind (job_scope j)) (w_db w)). lia.
  - unfold bind at 1. destruct (time_now_db w) as (t & w1 & -> & Hw). unfold bind at 1. rewrite attempt_eq. unfold ret.
    eexists _, _. split; [reflexivity|]. right. rewrite <- Hw. unfold on_job.
    destruct (update_jobs _ _ w1).1; cbn [measure]; [lia|].
    erewrite tables_rows_of by apply update_jobs_tables. lia.
  - unfold bind at 1, finish_run. destruct (time_now_db w) as (t & w1 & -> & Hw). unfold bind at 1. rewrite attempt_eq.
    unfold ret. eexists _, _. split; [reflexivity|]. right. cbn [measure]. lia.
  - unfold bind at 1. rewrite attempt_eq. unfold ret. eexists _, _. split; [reflexivity|]. right.
    rewrite query_row_db. destruct (query_row _ w).1 as [e|st']; cbn [measure]; [lia|].
    destruct (st' =?s "cancelling"); cbn [measure]; lia.
  - unfold bind at 1, finish_run. destruct (time_now_db w) as (t & w1 & -> & Hw). unfold bind at 1. rewrite attempt_eq.
    unfold ret. eexists _, _. split; [reflexivity|]. right. cbn [measure]. lia.
  - unfold bind at 1. rewrite attempt_eq. unfold ret. eexists _, _. split; [reflexivity|]. right.
    assert (delete_stage s st = delete_batch (stage_table st) (stage_where s st) batch_limit) as -> by (by destruct st).
    pose proof (delete_batch_length (stage_table st) (stage_where s st) batch_limit w) as Hb.
    destruct (delete_batch _ _ _ w) as [[e|m] w']; cbn [measure fst snd length]; [lia|].
    destruct Hb as (Hm & Hle & Hn). pose proof (rows_of_le todo _ _ Hle). rewrite !rows_of_cons. cbn [length].
    destruct (m =? 0) eqn:E; lia.
  - unfold bind at 1. destruct (time_now_db w) as (t & w1 & -> & Hw). unfold bind, ignore, ret.
    eexists _, _. split; [reflexivity|]. right. cbn [measure]. lia.
  - unfold bind, ignore, ret. eexists _, _. split; [reflexivity|]. right. unfold on_job.
    destruct (n =? 0) eqn:E; cbn [measure]; rewrite E; erewrite tables_rows_of by apply update_jobs_tables; lia.
  - eexists _, _. split; [reflexivity|]. left. eauto.
Qed.

Lemma run_steps_stay fuel r w : run_steps error_text fuel (PDone r) w = (inr (PDone r), w).
Proof. induction fuel as [|fuel IH]; [done|]. exact IH. Qed.

Lemma run_steps_done fuel pc w :
  (measure pc (w_db w) <= fuel)%nat -> exists r w', run_steps error_text fuel pc w = (inr (PDone r), w').
Proof.
  revert pc w. induction fuel as [|fuel IH]; intros pc w Hm; cbn [run_steps].
  - destruct pc as [| | | | | | ? ? ? ? ? n|]; cbn in Hm; try lia; [|by eexists _, _]. destruct (n =? 0); lia.
  - unfold bind. destruct (run_step_decreases pc w) as (pc' & w' & E & [[r ->]|Hlt]).
    + rewrite E. cbn in E. injection E as <- <-. eexists _, _. apply run_steps_stay.
    + rewrite E. apply IH. lia.
Qed.

(** A deletion run ends.  From any database, with any
    statements failing, [RunDeletion] returns after finitely many statements,
    at most three for every row of the tables it visits. *)
Theorem deletion_terminates (id : string) (w : world StoreDB) :
  exists r w', RunDeletion error_text id w = (inr (PDone r), w').
Proof. apply run_steps_done. cbn [measure]. unfold run_fuel. lia. Qed.
End termination.

(** ** What a run deletes *)

Lemma delete_first_none {R} (p : R -> bool) k t : sql_count p t = 0 -> delete_first p k t = t.
Proof.
  intros Hc. rewrite <- (sql_delete_none p (delete_first p k t)).
  - by rewrite delete_first_rest, sql_delete_none.
  - rewrite delete_first_count. lia.
Qed.

Lemma count_update_le {R} (q p : R -> bool) f t :
  (forall r, In r t -> p r = true -> q (f r) = true -> q r = true) ->
  sql_count q (sql_update p f t) <= sql_count q t.
Proof.
  induction t as [|r t IH]; intros H; [done|]. unfold sql_update in *. cbn [map]. rewrite !sql_count_cons.
  specialize (IH ltac:(intros; apply H; [by right|done..])). destruct (p r) eqn:Ep; [|lia].
  destruct (q (f r)) eqn:Eq; [rewrite (H r); [lia|by left|done|done]|]. destruct (q r); lia.
Qed.

Section exact.
Context (error_text : gerr -> string) (id : string) (s : Scope).

(** The job is in the given state and describes the scope. *)
Definition job_is (state : string) (d : StoreDB) : Prop :=
  (exists j, find_job id d = Some j) /\ one_active (st_jobs d) = true /\
  forall j, In j (st_jobs d) -> jb_id j = id -> jb_state j = state /\ job_scope j = s.

Definition reaches (pc : DelPc) (w : world StoreDB) (pc' : DelPc) (w' : world StoreDB) : Prop :=
  exists fuel, run_steps error_text fuel pc w = (inr pc', w').

Lemma reaches_refl pc w : reaches pc w pc w.
Proof. by exists 0%nat. Qed.
Lemma reaches_step pc w pc1 w1 pc2 w2 :
  run_step error_text pc w = (inr pc1, w1) -> reaches pc1 w1 pc2 w2 -> reaches pc w pc2 w2.
Proof. intros E [fuel Hf]. exists (S fuel). cbn. unfold bind. by rewrite E. Qed.
Lemma reaches_trans pc w pc1 w1 pc2 w2 :
  reaches pc w pc1 w1 -> reaches pc1 w1 pc2 w2 -> reaches pc w pc2 w2.
Proof.
  intros [f1 H1] [f2 H2]. exists (f1 + f2)%nat. revert pc w H1.
  induction f1 as [|f1 IH]; intros pc w H1; cbn in *.
  - unfold ret in H1. by simplify_eq.
  - unfold bind in *. destruct (run_step error_text pc w) as [[e|pc'] w']; [done|]. by apply IH.
Qed.

(** A run that reaches its end is what [RunDeletion] computes. *)
Lemma reaches_done w r w' : reaches (PLoad id) w (PDone r) w' -> RunDeletion error_text id w = (inr (PDone r), w').
Proof.
  intros [fuel Hf]. destruct (deletion_terminates error_text id w) as (r' & w'' & E). rewrite E.
  unfold RunDeletion in E. set (n := run_fuel (w_db w)) in E. clearbody n.
  assert (forall a b pc w0 r0 w1, run_steps error_text a pc w0 = (inr (PDone r0), w1) ->
    run_steps error_text (a + b) pc w0 = (inr (PDone r0), w1)) as Hmono.
  { induction a as [|a IH]; intros b pc w0 r0 w1 Ha; cbn in *.
    - unfold ret in Ha. simplify_eq. apply run_steps_stay.
    - unfold bind in *. destruct (run_step error_text pc w0) as [[e|pc'] w0']; [done|]. by apply IH. }
  apply (Hmono _ n) in Hf. apply (Hmono _ fuel) in E. rewrite Nat.add_comm in E. congruence.
Qed.

Lemma on_job_healthy (f : JobRow -> JobRow) st st' d n c :
  job_is st d ->
  (forall j, jb_id (f j) = jb_id j /\ job_scope (f j) = job_scope j) ->
  (forall j, jb_state j = st -> jb_state (f j) = st') ->
  (str_in st' active_states = true -> str_in st active_states = true) ->
  let d' := set_jobs (sql_update (fun j => jb_id j =?s id) f (st_jobs d)) d in
  (exists k, on_job id f (World d [] n c) = (inr k, World d' [] n c)) /\ job_is st' d' /\
  find_job id d' = f <$> find_job id d.
Proof.
  intros ((j0 & Hj0) & Hone & Hall) Hf Hst Hact d'.
  assert (one_active (st_jobs d') = true) as Hone'.
  { unfold one_active in *. apply Z.leb_le in Hone. apply Z.leb_le. etransitivity; [|exact Hone].
    apply count_update_le. intros r Hr Hid. apply String.eqb_eq in Hid. unfold active.
    destruct (Hall r Hr Hid) as [Hs _]. rewrite (Hst r Hs), Hs. exact Hact. }
  assert (find_job id d' = f <$> find_job id d) as Hfind.
  { unfold find_job, d', sql_find, sql_update. cbn. clear -Hf. induction (st_jobs d) as [|r t IH]; [done|]. cbn.
    destruct (jb_id r =?s id) eqn:E; [by rewrite (proj1 (Hf r)), E|]. by rewrite E. }
  split; [|split; [split_and!|done]].
  - unfold on_job, update_jobs, exec. cbn [next_fault w_faults w_db]. fold d'.
    change (st_jobs d') with (sql_update (fun j => jb_id j =?s id) f (st_jobs d)) in Hone'. rewrite Hone'. by eexists.
  - rewrite Hfind, Hj0. by eexists.
  - done.
  - cbn. intros j (j1 & Hj1 & ->)%in_sql_update Hid. destruct (jb_id j1 =?s id) eqn:E.
    + apply String.eqb_eq in E. destruct (Hall j1 Hj1 E) as [H1 H2]. split; [by apply Hst|by rewrite (proj2 (Hf j1))].
    + by apply String.eqb_neq in E.
Qed.

(** The state between the stages of a healthy run *)
Definition between (w : world StoreDB) : Prop :=
  w_faults w = [] /\ job_is "running" (w_db w) /\ refs_ok (w_db w) = true.

(** Tables that are neither cleared nor cascaded into stay. *)
Definition others_kept (l : list string) (d d' : StoreDB) : Prop :=
  forall n, ~ In n l -> n <> "deployment_grace_periods" -> table n d' = table n d.

Lemma others_kept_trans l l' d d1 d2 :
  others_kept l d d1 -> others_kept l' d1 d2 -> others_kept (l ++ l') d d2.
Proof. intros Ha Hb n Hn Hg. rewrite in_app_iff in Hn. rewrite Hb, Ha; tauto. Qed.

(** The condition of a stage reads no table the stage changes. *)
Lemma stage_where_ext st d d' r :
  table "container_instances" d' = table "container_instances" d ->
  stage_where s st d' r = stage_where s st d r.
Proof. intros E. destruct st; [|done]. cbn. unfold history_where. by rewrite E. Qed.
Definition stage_independent (st : Stage) : Prop :=
  stage_table st <> "deployment_grace_periods" /\
  match st with History t => t <> "container_instances" | Metadata _ => True end.

Lemma sql_ext {R} (p q : R -> bool) t :
  (forall r, p r = q r) -> sql_delete p t = sql_delete q t /\ sql_count p t = sql_count q t.
Proof.
  intros E. split; [unfold sql_delete; apply filter_ext; intros r; by rewrite E|by apply sql_count_ext].
Qed.

(** The database after one batch of a stage *)
Definition after_batch (st : Stage) (d : StoreDB) : StoreDB :=
  cascade (set_table (stage_table st)
    (delete_first (stage_where s st d) batch_limit (table (stage_table st) d)) d).

Lemma after_batch_incl st d n r : In r (table n (after_batch st d)) -> In r (table n d).
Proof.
  unfold after_batch. intros Hin%in_cascade. destruct (decide (n = stage_table st)) as [->|].
  - rewrite table_set in Hin. by apply delete_first_incl in Hin.
  - by rewrite table_set_ne in Hin.
Qed.
Lemma after_batch_others st d : others_kept [stage_table st] d (after_batch st d).
Proof.
  intros n Hn Hg. unfold after_batch. rewrite table_cascade by done. apply table_set_ne. intros ->. apply Hn. by left.
Qed.
Lemma after_batch_table st d :
  stage_table st <> "deployment_grace_periods" ->
  table (stage_table st) (after_batch st d) =
    delete_first (stage_where s st d) batch_limit (table (stage_table st) d).
Proof. intros Hg. unfold after_batch. by rewrite table_cascade, table_set. Qed.
Lemma after_batch_where st d r :
  stage_independent st -> stage_where s st (after_batch st d) r = stage_where s st d r.
Proof.
  intros [_ Hi]. destruct st as [t|t]; [|done]. apply stage_where_ext, after_batch_others; [|done].
  intros [E|[]]. cbn in E. by subst t.
Qed.
Lemma after_batch_unreferenced st d :
  stage_independent st -> unreferenced (stage_table st) (stage_where s st d) d ->
  unreferenced (stage_table st) (stage_where s st (after_batch st d)) (after_batch st d).
Proof.
  intros Hi Hu fk c r Hfk E Ec Hc%after_batch_incl Hr%after_batch_incl Hp.
  rewrite after_batch_where in Hp by done. by eapply Hu.
Qed.

(** One round on a stage: the state is read, a batch deleted, the progress
    recorded. *)
Lemma stage_round st todo del d rn ck :
  job_is "running" d -> refs_ok d = true -> unreferenced (stage_table st) (stage_where s st d) d ->
  let n := Z.min (Z.of_nat batch_limit) (sql_count (stage_where s st d) (table (stage_table st) d)) in
  exists w', reaches (PTest id s (st :: todo) del) (World d [] rn ck)
      (if n =? 0 then PTest id s todo (del + n) else PTest id s (st :: todo) (del + n)) w' /\
    between w' /\ st_tables (w_db w') = st_tables (after_batch st d).
Proof.
  intros Hj Hr Hu n.
  assert (job_is "running" (after_batch st d)) as Hj1 by exact Hj.
  destruct (on_job_healthy (set_progress (del + n) (Some (stage_table st))) "running" "running"
    (after_batch st d) rn ck Hj1) as ((k & Ek) & Hj2 & _); [done|done|done|].
  eexists (World _ [] rn ck). split_and!; [|split_and!; [reflexivity|exact Hj2|exact (delete_refs_ok _ _ batch_limit d Hr Hu)]|reflexivity].
  apply (reaches_step _ _ (PBatch id s st todo del) (World d [] rn ck)); [|
    apply (reaches_step _ _ (PProgress id s st todo (del + n) n) (World (after_batch st d) [] rn ck)); [|
      eapply reaches_step; [|apply reaches_refl]]].
  - cbn [run_step]. unfold bind, attempt, ret. rewrite query_row_healthy. destruct Hj as ((j & Hfj) & _ & Hall).
    rewrite Hfj. cbn [fmap option_fmap option_map]. unfold find_job in Hfj. apply sql_find_some in Hfj as [Hin Hid].
    apply String.eqb_eq in Hid. by rewrite (proj1 (Hall j Hin Hid)).
  - cbn [run_step]. unfold bind, attempt.
    assert (delete_stage s st = delete_batch (stage_table st) (stage_where s st) batch_limit) as -> by (by destruct st).
    by rewrite delete_batch_healthy.
  - cbn [run_step]. unfold bind, ignore. rewrite Ek. by destruct (n =? 0).
Qed.

Lemma batch_limit_pos : 0 < Z.of_nat batch_limit.
Proof. by vm_compute. Qed.

(** A stage clears its table of the rows in scope. *)
Lemma stage_runs st todo del d rn ck :
  job_is "running" d -> refs_ok d = true -> unreferenced (stage_table st) (stage_where s st d) d ->
  stage_independent st ->
  exists w', reaches (PTest id s (st :: todo) del) (World d [] rn ck)
      (PTest id s todo (del + sql_count (stage_where s st d) (table (stage_table st) d))) w' /\
    between w' /\ others_kept [stage_table st] d (w_db w') /\
    table (stage_table st) (w_db w') = sql_delete (stage_where s st d) (table (stage_table st) d).
Proof.
  remember (Z.to_nat (sql_count (stage_where s st d) (table (stage_table st) d))) as m eqn:Em.
  revert d del rn ck Em. induction (lt_wf m) as [m _ IH]. intros d del rn ck Em Hj Hr Hu Hi.
  set (c := sql_count (stage_where s st d) (table (stage_table st) d)) in *.
  pose proof (sql_count_nonneg (stage_where s st d) (table (stage_table st) d) : 0 <= c) as Hc.
  destruct (stage_round st todo del d rn ck Hj Hr Hu) as (w1 & H1 & (Hf1 & Hj1 & Hr1) & Ht1). fold c in H1.
  assert (forall x, table x (w_db w1) = table x (after_batch st d)) as Htab by (intros x; unfold table; by rewrite Ht1).
  destruct (Z.min (Z.of_nat batch_limit) c =? 0) eqn:En.
  - assert (c = 0) as Hc0 by (pose proof batch_limit_pos; lia). exists w1. split_and!.
    + rewrite Hc0 in *. exact H1.
    + done.
    + intros x Hx Hg. rewrite Htab. by apply after_batch_others.
    + rewrite Htab, after_batch_table by apply Hi. rewrite delete_first_none, sql_delete_none; done.
  - destruct w1 as [d1 fs1 rn1 ck1]. cbn [w_db w_faults] in *. subst fs1.
    assert (forall r, stage_where s st d1 r = stage_where s st d r) as Hw.
    { intros r. rewrite <- (after_batch_where st d r Hi). apply stage_where_ext. apply Htab. }
    destruct (sql_ext _ _ (table (stage_table st) d1) Hw) as [Hd1 Hc1].
    rewrite Htab, after_batch_table in Hc1, Hd1 by apply Hi.
    rewrite delete_first_count in Hc1. fold c in Hc1. rewrite delete_first_rest in Hd1.
    rewrite <- (after_batch_table st d) in Hc1, Hd1 by apply Hi. rewrite <- Htab in Hc1, Hd1.
    assert (Z.to_nat (sql_count (stage_where s st d1) (table (stage_table st) d1)) < m)%nat as Hlt
      by (rewrite Hc1; pose proof batch_limit_pos; lia).
    destruct (IH _ Hlt d1 (del + Z.min (Z.of_nat batch_limit) c) rn1 ck1 eq_refl Hj1 Hr1) as (w2 & H2 & Hb2 & Ho2 & Ht2); [|done|].
    { intros fk x r Hfk E Ec Hx Hr' Hp. rewrite Hw in Hp. rewrite Htab in Hx, Hr'.
      eapply Hu; eauto using after_batch_incl. }
    exists w2. split_and!; [|done| |by rewrite Ht2].
    + eapply reaches_trans; [exact H1|]. rewrite Hc1 in H2.
      replace (del + c) with (del + Z.min (Z.of_nat batch_limit) c + Z.max 0 (c - Z.of_nat batch_limit)) by lia. exact H2.
    + intros x Hx Hg. rewrite (Ho2 x Hx Hg), Htab. by apply after_batch_others.
Qed.

(** The stages of [l] are done, nothing else changed. *)
Definition cleared (l : list Stage) (d d' : StoreDB) : Prop :=
  others_kept (map stage_table l) d d' /\
  forall st, In st l ->
    table (stage_table st) d' = sql_delete (stage_where s st d) (table (stage_table st) d).

Lemma cleared_nil d : cleared [] d d.
Proof. by split. Qed.

Definition scope_total (l : list Stage) (d : StoreDB) : Z :=
  fold_right (fun st n => sql_count (stage_where s st d) (table (stage_table st) d) + n) 0 l.

(** Every stage of [todo] can run after those of [pre]. *)
Fixpoint safe (d : StoreDB) (pre todo : list Stage) : Prop :=
  match todo with
  | [] => True
  | st :: todo =>
      (stage_independent st /\ ~ In (stage_table st) (map stage_table pre) /\
       (match st with History _ => ~ In "container_instances" (map stage_table pre) | Metadata _ => True end) /\
       forall d', cleared pre d d' -> unreferenced (stage_table st) (stage_where s st d) d') /\
      safe d (pre ++ [st]) todo
  end.

Lemma cleared_snoc pre st d d1 d2 :
  cleared pre d d1 -> others_kept [stage_table st] d1 d2 ->
  (forall st', In st' pre -> stage_table st' <> stage_table st /\ stage_table st' <> "deployment_grace_periods") ->
  table (stage_table st) d2 = sql_delete (stage_where s st d) (table (stage_table st) d) ->
  cleared (pre ++ [st]) d d2.
Proof.
  intros [Ho Hc] Ho2 Hne Ht. split.
  - rewrite map_app. by eapply others_kept_trans.
  - intros st' [Hin|[<-|[]]]%in_app_iff; [|done]. destruct (Hne st' Hin).
    rewrite Ho2; [by apply Hc|intros [?|[]]; congruence|done].
Qed.

Lemma stages_run todo pre del d0 d rn ck :
  cleared pre d0 d -> job_is "running" d -> refs_ok d = true ->
  (forall st, In st pre -> stage_table st <> "deployment_grace_periods") -> safe d0 pre todo ->
  exists w', reaches (PTest id s todo del) (World d [] rn ck) (PTest id s [] (del + scope_total todo d0)) w' /\
    between w' /\ cleared (pre ++ todo) d0 (w_db w').
Proof.
  revert pre del d rn ck. induction todo as [|st todo IH]; intros pre del d rn ck Hc Hj Hr Hg Hs.
  { exists (World d [] rn ck). cbn [scope_total fold_right]. rewrite Z.add_0_r, app_nil_r.
    split_and!; [apply reaches_refl|done|done]. }
  destruct Hs as ((Hi & Hni & Hci & Hu) & Hs).
  assert (table (stage_table st) d = table (stage_table st) d0) as Etab by (apply Hc; [done|apply Hi]).
  assert (forall r, stage_where s st d r = stage_where s st d0 r) as Ew.
  { intros r. destruct st as [t|t]; [|done]. apply stage_where_ext, Hc; done. }
  destruct (stage_runs st todo del d rn ck Hj Hr) as (w1 & H1 & (Hf1 & Hj1 & Hr1) & Ho1 & Ht1); [|done|].
  { intros fk c r Hfk E Ec Hx Hr' Hp. rewrite Ew in Hp. by eapply (Hu d Hc). }
  destruct (sql_ext _ _ (table (stage_table st) d) Ew) as [Ed Ecnt]. rewrite Ed, Etab in Ht1. rewrite Ecnt, Etab in H1.
  destruct w1 as [d1 fs1 rn1 ck1]. cbn [w_db w_faults] in *. subst fs1.
  destruct (IH (pre ++ [st]) (del + sql_count (stage_where s st d0) (table (stage_table st) d0)) d1 rn1 ck1)
    as (w2 & H2 & Hb2 & Hc2); [|done|done| |done|].
  { eapply cleared_snoc; [done|done| |done]. intros st' Hin. split; [|by apply Hg].
    intros E. apply Hni. rewrite <- E. by apply in_map. }
  { intros st' [Hin|[<-|[]]]%in_app_iff; [by apply Hg|apply Hi]. }
  exists w2. split_and!; [|done|by rewrite <- app_assoc in Hc2].
  eapply reaches_trans; [exact H1|]. cbn [scope_total fold_right]. rewrite Z.add_assoc. exact H2.
Qed.

(** No check monitors a resource the job removes: their rows keep the
    resource referenced. *)
Definition unchecked (d : StoreDB) : Prop :=
  In (Metadata "resources") (stages (sc_kind s)) ->
  forall h r, In h (table "health_checks" d) -> In r (table "resources" d) ->
    metadata_where s "resources" d r = true ->
    col "id" r <> col "resource_id" h \/ col "resource_id" h = VNull.

Lemma plain_not_parent n fk : plain_table n = true -> In fk foreign_keys -> fk_parent fk <> n.
Proof. intros Hp Hin. destruct (plain_not n fk Hp Hin). congruence. Qed.

Lemma safe_history d ts pre rest :
  Forall (fun t => plain_table t = true) ts -> NoDup ts ->
  (forall t, In t ts -> ~ In t (map stage_table pre)) -> ~ In "container_instances" (map stage_table pre) ->
  safe d (pre ++ map History ts) rest -> safe d pre (map History ts ++ rest).
Proof.
  revert pre. induction ts as [|t ts IH]; intros pre Hp Hnd Hni Hci Hs; cbn [map app safe] in *.
  { by rewrite app_nil_r in Hs. }
  inversion_clear Hp as [|? ? Ht Hts]. apply NoDup_cons in Hnd as [Hnt Hnd].
  assert (t <> "deployment_grace_periods" /\ t <> "container_instances") as [Hg Hc]
    by (split; intros ->; by vm_compute in Ht).
  split; [split_and!|]; [done|apply Hni; by left|done| |].
  - intros d' _. apply unreferenced_not_parent. intros fk. by apply plain_not_parent.
  - apply IH; [done|done| | |by rewrite <- app_assoc].
    + intros t' Hin. rewrite map_app, in_app_iff. intros [?|[E|[]]]; [by eapply (Hni t'); [right|]|].
      cbn in E. subst t'. by apply Hnt, list_elem_of_In.
    + rewrite map_app, in_app_iff. intros [?|[E|[]]]; [done|]. by cbn in E.
Qed.

Lemma history_plain kind :
  Forall (fun t => plain_table t = true) (deletionTables kind) /\ NoDup (deletionTables kind).
Proof.
  unfold deletionTables. destruct (_ || _); split; apply (bool_decide_eq_true_1 _); by vm_compute.
Qed.

(** A cleared table has no row in scope left. *)
Lemma cleared_row pre st d d' r :
  cleared pre d d' -> In st pre -> In r (table (stage_table st) d') -> stage_where s st d r = false.
Proof. intros [_ Hc] Hin. rewrite (Hc st Hin). by intros [_ ?]%in_sql_delete. Qed.

Lemma child_cases fk n :
  In fk foreign_keys -> fk_parent fk = n -> fk_cascade fk = false ->
  (n = "hosts" /\ (fk_child fk = "boot_sessions" \/ fk_child fk = "resources")) \/
  (n = "resources" /\ fk_col fk = "resource_id" /\
   (fk_child fk = "container_instances" \/ fk_child fk = "health_checks")).
Proof. cbn. intros [<-|[<-|[<-|[<-|[<-|[]]]]]] <-; cbn; intros ?; try done; auto 6. Qed.

Lemma unreferenced_resources pre d d' :
  cleared pre d d' -> In (Metadata "container_instances") pre ->
  ~ In "resources" (map stage_table pre) -> ~ In "health_checks" (map stage_table pre) ->
  In (Metadata "resources") (stages (sc_kind s)) -> unchecked d ->
  unreferenced "resources" (stage_where s (Metadata "resources") d) d'.
Proof.
  intros Hc Hci Hnr Hnh Hin Hun fk c r Hfk Hp Hcas Hcc Hr Hs.
  destruct (child_cases fk _ Hfk Hp Hcas) as [[? _]|(_ & Ecol & [Ech|Ech])]; [done| |]; rewrite Ech in Hcc; rewrite Ecol.
  - left. assert (stage_where s (Metadata "container_instances") d c = false) as Hcw
      by (by eapply cleared_row). cbn in Hcw, Hs. unfold metadata_where in Hcw, Hs. cbn in Hcw, Hs.
    destruct (sc_kind s =?s DeleteArchived); [|done]. cbn in Hcw, Hs. bool_hyps.
    unfold value_eqb in *. rewrite !bool_decide_eq_true in *. rewrite bool_decide_eq_false in Hcw. congruence.
  - destruct Hc as [Ho _]. rewrite Ho in Hcc, Hr by done. by apply Hun.
Qed.

Lemma safe_all d : unchecked d -> safe d [] (stages (sc_kind s)).
Proof.
  intros Hun. unfold stages. destruct (history_plain (sc_kind s)) as [Hp Hnd].
  apply safe_history; [done|done|by intros t _ []|by intros []|]. cbn [app].
  assert (forall t, In t (map stage_table (map History (deletionTables (sc_kind s)))) -> plain_table t = true) as Hpl.
  { intros t (st & <- & (t' & <- & Ht)%in_map_iff)%in_map_iff. apply (proj1 (Forall_forall _ _) Hp t'). by apply list_elem_of_In. }
  set (pre := map History (deletionTables (sc_kind s))) in *.
  assert (forall t l, plain_table t = false -> ~ In t l -> ~ In t (map stage_table pre ++ l)) as Hni.
  { intros t l Ht Hl [Hin%Hpl|?]%in_app_iff; congruence. }
  assert (forall st, Forall (fun fk => fk_parent fk <> stage_table st) foreign_keys ->
    forall d', unreferenced (stage_table st) (stage_where s st d) d') as Hleaf.
  { intros st Hst d'. apply unreferenced_not_parent. intros fk Hfk. apply (proj1 (Forall_forall _ _) Hst fk). by apply list_elem_of_In. }
  clearbody pre.
  assert (forall rest, In (Metadata "resources") (stages (sc_kind s)) ->
    safe d (pre ++ [Metadata "container_instances"; Metadata "resources"]) rest ->
    safe d pre ([Metadata "container_instances"; Metadata "resources"] ++ rest)) as Hci.
  { intros rest Hin Hrest. cbn [app safe stage_table].
    split; [split_and!|split; [split_and!|by rewrite <- app_assoc]]; try done.
    - rewrite <- (app_nil_r (map _ _)). apply Hni; [done|by intros []].
    - intros d' _. apply (Hleaf (Metadata "container_instances")). by repeat constructor.
    - rewrite map_app. apply Hni; [done|]. by intros [?|[]].
    - intros d' Hc. eapply unreferenced_resources; [exact Hc|apply in_app_iff; right; by left| | |done|done];
        rewrite map_app; (apply Hni; [done|]; by intros [?|[]]). }
  unfold metadataDeletionTables. unfold stages, metadataDeletionTables in Hci.
  destruct (sc_kind s =?s DeleteArchived) eqn:Ea.
  { apply (Hci []); [|done]. apply in_app_iff. right. cbn. tauto. }
  destruct (sc_kind s =?s DeleteAll) eqn:Eall; [|done].
  apply (Hci [Metadata "boot_sessions"; Metadata "hosts"]); [apply in_app_iff; right; cbn; tauto|].
  cbn [safe stage_table]. rewrite !map_app. split_and!; try done.
  - apply Hni; [done|]. by intros [?|[?|[]]].
  - intros d' _. apply (Hleaf (Metadata "boot_sessions")). by repeat constructor.
  - rewrite <- app_assoc. apply Hni; [done|]. by intros [?|[?|[?|[]]]].
  - intros d' Hc fk c r Hfk Hpar Hcas Hcc Hr Hs.
    assert (forall t, In (Metadata t) ((pre ++ [Metadata "container_instances"; Metadata "resources"]) ++ [Metadata "boot_sessions"]) ->
      In c (table t d') -> metadata_where s t d c = false) as Hno by (intros t Ht Hin; by eapply (cleared_row _ (Metadata t))).
    exfalso. destruct (child_cases fk _ Hfk Hpar Hcas) as [(_ & [Ech|Ech])|[? _]]; [| |done]; rewrite Ech in Hcc;
      apply Hno in Hcc; rewrite ?in_app_iff; cbn; auto 6; unfold metadata_where in Hcc; by rewrite Ea in Hcc.
Qed.
End exact.

(** ** Counting *)

Lemma sum_tx_healthy {A} (f : A -> tx StoreDB Z) (g : A -> Z) l d rn ck :
  (forall x, In x l -> f x (World d [] rn ck) = (inr (g x), World d [] rn ck)) ->
  sum_tx f l (World d [] rn ck) = (inr (fold_right (fun x n => g x + n) 0 l), World d [] rn ck).
Proof.
  intros Hf. induction l as [|x l IH]; [done|]. cbn [sum_tx fold_right]. unfold bind, ret.
  rewrite (Hf x) by (by left). rewrite IH; [done|]. intros y Hy. apply Hf. by right.
Qed.

Lemma scope_total_tables s l d d' : st_tables d = st_tables d' -> scope_total s l d = scope_total s l d'.
Proof.
  intros E. assert (forall n, table n d = table n d') as Ht by (intros n; unfold table; by rewrite E).
  induction l as [|st l IH]; [done|]. cbn [scope_total fold_right]. fold (scope_total s l d) (scope_total s l d').
  rewrite IH, Ht. f_equal. apply sql_count_ext. intros r _. by apply stage_where_ext.
Qed.

(** The preview counts what the job deletes. *)
Lemma existsb_and {A} b (p q : A -> bool) l : existsb (fun x => p x && (b && q x)) l = b && existsb (fun x => p x && q x) l.
Proof. induction l as [|x l IH]; cbn; [by rewrite andb_false_r|]. rewrite IH. by destruct b, (p x), (q x). Qed.
Lemma count_where_same s t d r : count_where (sc_kind s) (sc_resource s) (sc_before s) (sc_fence s) t d r = history_where s t d r.
Proof.
  unfold count_where, history_where. fold (by_resource (sc_kind s)). destruct (by_resource (sc_kind s)); cbn [andb].
  - destruct (t =?s _); [apply existsb_and|]. by destruct (resourceScopedTable t); cbn [negb orb]; rewrite ?andb_true_r.
  - by rewrite andb_true_r.
Qed.

Lemma count_total s d rn ck :
  deletionCountTx s (World d [] rn ck) = (inr (scope_total s (stages (sc_kind s)) d), World d [] rn ck).
Proof.
  assert (forall t p, count_rows t p (World d [] rn ck) = (inr (sql_count (p d) (table t d)), World d [] rn ck)) as Hq
    by done.
  unfold deletionCountTx, stages, metadataDeletionTables.
  unfold bind at 1. erewrite sum_tx_healthy by (intros; apply Hq).
  assert (forall l n, scope_total s (map History l) d + n =
    fold_right (fun st n => sql_count (stage_where s st d) (table (stage_table st) d) + n) n (map History l)) as Hh.
  { intros l n. induction l as [|t l IH]; [done|]. cbn [map scope_total fold_right]. rewrite <- IH. unfold scope_total. lia. }
  unfold scope_total at 1. rewrite fold_right_app, <- Hh.
  assert (fold_right (fun t n => sql_count (count_where (sc_kind s) (sc_resource s) (sc_before s) (sc_fence s) t d) (table t d) + n) 0
    (deletionTables (sc_kind s)) = scope_total s (map History (deletionTables (sc_kind s))) d) as ->.
  { generalize (deletionTables (sc_kind s)) as l. induction l as [|t l IH]; [done|]. cbn in *.
    rewrite IH, (sql_count_ext _ (history_where s t d)); [done|]. intros; apply count_where_same. }
  destruct (sc_kind s =?s DeleteArchived) eqn:Ea.
  { assert ((sc_kind s =?s DeleteAll) = false) as -> by (apply String.eqb_eq in Ea; by rewrite Ea).
    unfold bind, ret. rewrite !Hq. cbn [map fold_right stage_where stage_table]. do 2 f_equal.
    assert (forall r, metadata_where s "container_instances" d r = value_eqb (col "resource_id" r) (VText (sc_resource s)) /\
      metadata_where s "resources" d r = value_eqb (col "id" r) (VText (sc_resource s)) && value_eqb (col "status" r) (VText "archived")) as Hm
      by (intros r; unfold metadata_where; by rewrite Ea).
    rewrite (sql_count_ext (metadata_where s "container_instances" d) _ _ (fun r _ => proj1 (Hm r))).
    rewrite (sql_count_ext (metadata_where s "resources" d) _ _ (fun r _ => proj2 (Hm r))). lia. }
  unfold bind at 1, ret at 1. destruct (sc_kind s =?s DeleteAll) eqn:Eall.
  - unfold bind at 1. erewrite sum_tx_healthy by (intros; apply Hq). unfold bind, ret. do 2 f_equal.
    assert (forall t r, metadata_where s t d r = true) as Hm by (intros t r; unfold metadata_where; by rewrite Ea).
    cbn [map fold_right stage_where stage_table].
    rewrite !(sql_count_ext (metadata_where s _ d) (fun _ => true)) by (intros; apply Hm). lia.
  - unfold bind, ret. do 2 f_equal. cbn. lia.
Qed.

(** ** What a job is for

    A row is in the scope of a deletion when it is old enough and, for the
    kinds that name a resource, the resource's: its own, or of one of its
    container instances.  Of the inventory, a purge has the instances of the
    resource and the resource, if archived, and a reset has everything. *)
Definition belongs (resource t : string) (d : StoreDB) (r : Row) : Prop :=
  if t =?s "container_instance_samples_10s"
  then exists i, In i (table "container_instances" d) /\ col "id" i = col "container_instance_id" r /\ col "resource_id" i = VText resource
  else col "resource_id" r = VText resource.
Definition in_scope (s : Scope) (st : Stage) (d : StoreDB) (r : Row) : Prop :=
  match st with
  | History t =>
      (sc_kind s = DeleteBefore -> row_ts r < sc_before s) /\ (sc_kind s <> DeleteBefore -> row_ts r <= sc_fence s) /\
      (sc_kind s = DeleteResource \/ sc_kind s = DeleteArchived -> belongs (sc_resource s) t d r)
  | Metadata t =>
      sc_kind s = DeleteArchived ->
      (t = "container_instances" -> col "resource_id" r = VText (sc_resource s)) /\
      (t = "resources" -> col "id" r = VText (sc_resource s) /\ col "status" r = VText "archived")
  end.

Lemma value_eqb_iff a b : value_eqb a b = true <-> a = b.
Proof. apply bool_decide_eq_true. Qed.
Lemma by_resource_true k : by_resource k = true <-> k = DeleteResource \/ k = DeleteArchived.
Proof. unfold by_resource. by rewrite orb_true_iff, !String.eqb_eq. Qed.
Lemma resource_tables k t : by_resource k = true -> In t (deletionTables k) -> (t =?s "container_instance_samples_10s") = negb (resourceScopedTable t).
Proof. intros [-> | ->]%by_resource_true Hin; cbn in Hin; by repeat destruct Hin as [<-|Hin]. Qed.
Lemma sample_belongs resource d r :
  existsb (fun i => value_eqb (col "id" i) (col "container_instance_id" r) && value_eqb (col "resource_id" i) (VText resource))
    (table "container_instances" d) = true <-> belongs resource "container_instance_samples_10s" d r.
Proof.
  rewrite existsb_exists. unfold belongs. cbn [String.eqb]. change (_ =?s _) with true. split; intros (i & Hin & Hi); exists i; (split; [done|]).
  - by rewrite andb_true_iff, !value_eqb_iff in Hi.
  - by rewrite andb_true_iff, !value_eqb_iff.
Qed.

Lemma history_in_scope s t d r : In t (deletionTables (sc_kind s)) -> history_where s t d r = true <-> in_scope s (History t) d r.
Proof.
  intros Hin. unfold history_where, in_scope. destruct (by_resource (sc_kind s)) eqn:Er.
  - rewrite (resource_tables _ t Er Hin). pose proof Er as Hk%by_resource_true.
    assert (sc_kind s <> DeleteBefore) as Hb by (by destruct Hk as [-> | ->]). apply String.eqb_neq in Hb as Hb'. rewrite Hb'.
    destruct (resourceScopedTable t) eqn:Et; cbn [negb andb orb].
    + assert (belongs (sc_resource s) t d r <-> col "resource_id" r = VText (sc_resource s)) as ->.
      { unfold belongs. by rewrite (resource_tables _ t Er Hin), Et. }
      rewrite andb_true_iff, Z.leb_le, value_eqb_iff. tauto.
    + assert (t = "container_instance_samples_10s") as -> by (apply String.eqb_eq; by rewrite (resource_tables _ t Er Hin), Et).
      rewrite andb_true_iff, Z.leb_le, sample_belongs. tauto.
  - assert (~ (sc_kind s = DeleteResource \/ sc_kind s = DeleteArchived)) as Hk by (by rewrite <- by_resource_true, Er).
    cbn [andb negb orb]. rewrite andb_true_r. destruct (String.eqb_spec (sc_kind s) DeleteBefore) as [Hb|Hb].
    + rewrite Z.ltb_lt. tauto.
    + rewrite Z.leb_le. tauto.
Qed.
Lemma stage_in_scope s st d r : In st (stages (sc_kind s)) -> stage_where s st d r = true <-> in_scope s st d r.
Proof.
  unfold stages. rewrite in_app_iff, !in_map_iff. intros [(t & <- & Hin)|(t & <- & Hin)]; [by apply history_in_scope|].
  cbn [stage_where in_scope]. unfold metadata_where. destruct (String.eqb_spec (sc_kind s) DeleteArchived) as [Hk|Hk]; cbn [andb]; [|tauto].
  destruct (String.eqb_spec t "container_instances") as [->|H1]; [rewrite value_eqb_iff; naive_solver|].
  destruct (String.eqb_spec t "resources") as [->|H2]; [rewrite andb_true_iff, !value_eqb_iff; naive_solver|tauto].
Qed.

(** C6 (functional): a completed deletion deletes its scope and nothing else.
    When storage does not fail and no check monitors a resource to be
    removed, running a queued job removes from every table it visits exactly
    the rows that are in the scope of its kind, resource and time limits, leaves every other table
    as it was (but for rows that cascade), and marks the job completed with
    the number of rows the preview counts. *)
Theorem deletion_exact (error_text : gerr -> string) (j : JobRow) (d : StoreDB) (rn : nat) (ck : list Z) :
  refs_ok d = true -> NoDup (map jb_id (st_jobs d)) -> one_active (st_jobs d) = true ->
  In j (st_jobs d) -> jb_state j = "queued" -> unchecked (job_scope j) d ->
  exists w' j', RunDeletion error_text (jb_id j) (World d [] rn ck) = (inr (PDone (inr tt)), w') /\
    (forall st, In st (stages (jb_kind j)) ->
      table (stage_table st) (w_db w') = sql_delete (stage_where (job_scope j) st d) (table (stage_table st) d) /\
      forall r, stage_where (job_scope j) st d r = true <-> in_scope (job_scope j) st d r) /\
    others_kept (map stage_table (stages (jb_kind j))) d (w_db w') /\
    find_job (jb_id j) (w_db w') = Some j' /\ jb_state j' = "completed" /\
    (deletionCountTx (job_scope j) (World d [] rn ck)).1 = inr (jb_deleted_rows j').
Proof.
  intros Hr Hnd Hone Hj Hq Hun. set (s := job_scope j) in *. set (id := jb_id j) in *.
  assert (job_is id s "queued" d) as Hji.
  { split_and!; [|done|].
    - destruct (find_job id d) as [j0|] eqn:E; [by eexists|].
      pose proof (find_none _ _ E j Hj) as Hn. cbn in Hn. by rewrite String.eqb_refl in Hn.
    - intros j0 Hj0 Hid. assert (j0 = j) as -> by (by eapply nodup_key_inj). done. }
  destruct (time_now_db (World d [] rn ck)) as (t1 & w1 & E1 & _).
  assert (exists ck1, w1 = World d [] rn ck1) as [ck1 ->].
  { unfold time_now in E1. cbn in E1. destruct ck; simplify_eq; by eexists. }
  destruct (on_job_healthy id s (fun j => set_started (Some (time_unix_milli t1)) (set_state "running" (jb_finished_at j) j))
    "queued" "running" d rn ck1 Hji) as ((k1 & Ek1) & Hj1 & _); [done|done|done|].
  set (d1 := set_jobs _ d) in *.
  destruct (stages_run error_text id s (stages (sc_kind s)) [] 0 d1 d1 rn ck1) as (w2 & H2 & (Hf2 & Hj2 & Hr2) & Ho2 & Hc2);
    [apply cleared_nil|done|exact Hr|by intros ? []|by apply safe_all|].
  destruct w2 as [d2 fs2 rn2 ck2]. cbn [w_db w_faults] in *. subst fs2.
  assert (exists t3 ck3, time_now (World d2 [] rn2 ck2) = (inr t3, World d2 [] rn2 ck3)) as (t3 & ck3 & E3)
    by (unfold time_now; destruct ck2; by eexists _, _).
  set (f := fun j => set_progress (0 + scope_total s (stages (sc_kind s)) d1) None
    (set_state "completed" (Some (time_unix_milli t3)) j)).
  destruct (on_job_healthy id s f "running" "completed" d2 rn2 ck3 Hj2) as ((k3 & Ek3) & Hj3 & Hf3); [done|done|done|].
  set (d3 := set_jobs _ d2) in *.
  destruct (proj1 Hj2) as [j2 Hj2']. rewrite Hj2' in Hf3.
  exists (World d3 [] rn2 ck3), (f j2). split_and!; [| |exact Ho2|exact Hf3|done|].
  - apply reaches_done. eapply reaches_step; [|eapply reaches_step; [|eapply reaches_trans; [exact H2|eapply reaches_step; [|apply reaches_refl]]]].
    + cbn [run_step]. unfold bind, attempt, ret. rewrite query_row_healthy.
      assert (sql_find (fun j => (jb_id j =?s id) && (jb_state j =?s "queued")) (st_jobs d) = Some j) as ->; [|done].
      destruct (sql_find _ _) as [j0|] eqn:E0.
      * apply sql_find_some in E0 as [Hin0 He0]. bool_hyps. apply String.eqb_eq in H. f_equal. by eapply nodup_key_inj.
      * pose proof (sql_find_none _ _ E0 j Hj) as Hn. cbn in Hn. by rewrite Hq, String.eqb_refl in Hn.
    + cbn [run_step]. unfold bind at 1. rewrite E1. unfold bind, attempt. rewrite Ek1. done.
    + cbn [run_step]. unfold bind at 1. rewrite E3. unfold finish_run, bind, attempt. fold f. by rewrite Ek3.
  - intros st Hst. split; [|intros r; by apply stage_in_scope].
    etransitivity; [apply (Hc2 st Hst)|]. apply sql_ext. intros r. by apply stage_where_ext.
  - rewrite count_total. cbn [fst f set_progress jb_deleted_rows]. rewrite Z.add_0_l. f_equal.
    by apply scope_total_tables.
Qed.

(** ** Requests and worker, interleaved *)

Inductive DelOp :=
  | OpPreview (request : DeletionRequest)
  | OpCreate (token confirmation actor : string)
  | OpCancel (id : string)
  | OpRetry (id : string)
  | OpRestart
  | OpTables (f : gmap string (list Row) -> gmap string (list Row))
  | OpWorker.

Section interleaving.
Context `{Rand} `{SHA256} (error_text : gerr -> string).

(** Where the worker stands, and the database.  Between two statements of the
    worker come requests, restarts, and anything the rest of the server does
    to the telemetry tables. *)
Definition Sys : Type := option DelPc * world StoreDB.

Definition pick_job : tx StoreDB (option DelPc) :=
  id <- or_default "" (query_row next_job) ;;
  ret (if id =?s "" then None else Some (PLoad id)).

Definition worker_step (pc : option DelPc) : tx StoreDB (option DelPc) :=
  match pc with
  | None | Some (PDone _) => pick_job
  | Some pc => pc' <- run_step error_text pc ;; ret (Some pc')
  end.

Definition sys_step (st : Sys) (op : DelOp) : Sys :=
  let '(pc, w) := st in
  match op with
  | OpPreview r => (pc, (PreviewDeletion r w).2)
  | OpCreate token confirmation actor => (pc, (CreateDeletion token confirmation actor w).2)
  | OpCancel id => (pc, (CancelDeletion id w).2)
  | OpRetry id => (pc, (RetryDeletion id w).2)
  | OpRestart => (None, (recoverDeletionJobs w).2)
  | OpTables f => (pc, World (set_tables (f (st_tables (w_db w))) (w_db w)) (w_faults w) (w_rand w) (w_clock w))
  | OpWorker => match worker_step pc w with (inr pc', w') => (pc', w') | (inl _, w') => (pc, w') end
  end.
Definition sys_run (ops : list DelOp) (st : Sys) : Sys := fold_left sys_step ops st.

(** The request describes the scope. *)
Definition requested (r : DeletionRequest) (s : Scope) : Prop :=
  validDeletion r = None /\ sc_kind s = dr_Kind r /\ sc_resource s = dr_ResourceID r /\
  (dr_Kind r = DeleteBefore -> sc_before s <= time_unix_milli (dr_Before r)).

(** Someone typed the phrase for the scope. *)
Definition confirmed (ops : list DelOp) (s : Scope) : Prop :=
  exists r token actor, requested r s /\ In (OpCreate token (confirmationFor r) actor) ops.

Definition jobs_ok (ops : list DelOp) (d : StoreDB) : Prop :=
  one_active (st_jobs d) = true /\
  (forall j, In j (st_jobs d) -> confirmed ops (job_scope j)) /\
  (forall p, In p (st_previews d) -> exists r, requested r (preview_scope p) /\ pv_confirmation p = confirmationFor r).

Lemma confirmed_mono ops ops' s : incl ops ops' -> confirmed ops s -> confirmed ops' s.
Proof. intros Hi (r & t & a & Hr & Hin). exists r, t, a. auto. Qed.
Lemma jobs_ok_mono ops ops' d : incl ops ops' -> jobs_ok ops d -> jobs_ok ops' d.
Proof. intros Hi (H1 & H2 & H3). split_and!; eauto using confirmed_mono. Qed.

Lemma update_jobs_ok ops p f :
  (forall j, job_scope (f j) = job_scope j) -> preserves (jobs_ok ops) (update_jobs p f).
Proof.
  intros Hf. unfold update_jobs. apply exec_preserves. intros d n d' (H1 & H2 & H3) E.
  cbv zeta in E. revert E. destruct (one_active (sql_update p f (st_jobs d))) eqn:Eo; [|done]. intros E. injection E as _ <-. split_and!; [exact Eo| |exact H3].
  cbn. intros j (j0 & Hj0 & ->)%in_sql_update. destruct (p j0); rewrite ?Hf; by apply H2.
Qed.

Lemma cancel_ok ops id : preserves (jobs_ok ops) (CancelDeletion id).
Proof. unfold CancelDeletion. frame_auto. apply update_jobs_ok. intros j. by destruct (_ =?s _). Qed.
Lemma retry_ok ops id : preserves (jobs_ok ops) (RetryDeletion id).
Proof. unfold RetryDeletion. frame_auto. by apply update_jobs_ok. Qed.
Lemma recover_ok ops : preserves (jobs_ok ops) recoverDeletionJobs.
Proof. unfold recoverDeletionJobs. frame_auto; by apply update_jobs_ok. Qed.

Lemma count_ok (I : StoreDB -> Prop) s : preserves I (deletionCountTx s).
Proof.
  assert (forall A (f : A -> tx StoreDB Z) l, (forall x, preserves I (f x)) -> preserves I (sum_tx f l)) as Hs.
  { intros A f l Hf. induction l; cbn [sum_tx]; frame_auto; auto. }
  unfold deletionCountTx, count_rows. frame_auto; try apply Hs; intros; frame_auto.
Qed.

Lemma preview_ok ops r : preserves (jobs_ok ops) (PreviewDeletion r).
Proof.
  unfold PreviewDeletion. destruct (validDeletion r) as [e|] eqn:Ev; [frame_auto|].
  frame_auto; try apply count_ok.
  - apply exec_preserves. intros d n d' (H1 & H2 & H3) E. simplify_eq. split_and!; [done|done|].
    cbn. intros p Hp%delete_first_incl. by apply H3.
  - apply exec_preserves. intros d n d' (H1 & H2 & H3) E. unfold insert_preview in E. sql_inv E.
    apply insert_pk_inv in E as [-> _]. split_and!; [done|done|]. cbn.
    intros p [Hp|[<-|[]]]%in_app_iff; [by apply H3|]. exists r. split; [|done]. unfold requested, preview_scope. cbn.
    split_and!; [done|done| |].
    + unfold null_string. destruct (_ =?s "") eqn:E; [|done]. by apply String.eqb_eq in E.
    + intros ->. cbn. destruct (_ <? _) eqn:E; cbn; lia.
Qed.

Lemma create_ok ops token confirmation actor :
  preserves (jobs_ok (OpCreate token confirmation actor :: ops)) (CreateDeletion token confirmation actor).
Proof.
  unfold CreateDeletion. apply tx_preserves. intros d Hd.
  apply runs_bind, runs_map_err, runs_query_row. intros p Hp. apply sql_find_some in Hp as [Hp _].
  apply runs_bind, runs_now. intros t1. destruct (_ || _) eqn:Ec; [apply runs_throw|].
  apply orb_false_iff in Ec as [_ Ec]. apply negb_false_iff, String.eqb_eq in Ec.
  apply runs_bind. eapply runs_mono; [apply (runs_preserves _ _ (fun d' => d' = d)); [apply count_ok|done]|].
  intros total d1 ->. apply runs_bind, runs_rand. intros raw. apply runs_bind, runs_now. intros t2. cbv zeta.
  apply runs_bind, runs_exec. intros [] d2 E. apply runs_bind. unfold use_preview, update_rows.
  apply runs_exec. intros n d3 E3. simplify_eq. apply runs_ret.
  destruct Hd as (H1 & H2 & H3). unfold insert_job in E. destruct (insert_pk _ _ _) as [e|t] eqn:Ei; [done|].
  sql_inv E. simplify_eq. apply insert_pk_inv in Ei as [-> _]. cbn [st_jobs set_jobs set_previews st_previews].
  destruct (H3 p Hp) as (r & Hr & Hconf).
  split_and!; cbn; [done| |].
  - intros j [Hj|[<-|[]]]%in_app_iff; [by apply H2|]. exists r, token, actor. split; [exact Hr|].
    left. by rewrite <- Hconf.
  - intros q (q0 & Hq0 & ->)%in_sql_update. destruct (H3 q0 Hq0) as (r0 & Hr0 & Hc0). exists r0.
    by destruct (pv_id_hash q0 =?s _).
Qed.

(** The worker's scope is a job's, and its stages are the scope's. *)
Definition pc_ok (pc : option DelPc) (d : StoreDB) : Prop :=
  match pc with
  | Some (PStart _ s) => exists j, In j (st_jobs d) /\ job_scope j = s
  | Some (PTest _ s todo _) =>
      (exists j, In j (st_jobs d) /\ job_scope j = s) /\ incl todo (stages (sc_kind s))
  | Some (PBatch _ s st todo _) | Some (PProgress _ s st todo _ _) =>
      (exists j, In j (st_jobs d) /\ job_scope j = s) /\ incl (st :: todo) (stages (sc_kind s))
  | _ => True
  end.

(** No job disappears or changes its scope. *)
Definition scopes_kept (d d' : StoreDB) : Prop :=
  forall j, In j (st_jobs d) -> exists j', In j' (st_jobs d') /\ job_scope j' = job_scope j.

Lemma pc_ok_kept pc d d' : scopes_kept d d' -> pc_ok pc d -> pc_ok pc d'.
Proof.
  intros Hk. assert (forall s, (exists j, In j (st_jobs d) /\ job_scope j = s) ->
    exists j, In j (st_jobs d') /\ job_scope j = s) as He.
  { intros s (j & Hj & <-). destruct (Hk j Hj) as (j' & ? & ?). eauto. }
  destruct pc as [[]|]; cbn; intuition auto.
Qed.
Lemma scopes_kept_refl d : scopes_kept d d.
Proof. intros j Hj. eauto. Qed.

(** Each operation keeps the jobs' scopes; failed statements keep everything. *)
Lemma update_jobs_kept p f d0 :
  (forall j, job_scope (f j) = job_scope j) -> preserves (scopes_kept d0) (update_jobs p f).
Proof.
  intros Hf. unfold update_jobs. apply exec_preserves. intros d n d' Hd E. cbv zeta in E.
  destruct (one_active (sql_update p f (st_jobs d))); [|done]. simplify_eq.
  intros j Hj. destruct (Hd j Hj) as (j1 & Hj1 & Hs). cbn.
  exists (if p j1 then f j1 else j1). split; [by apply in_sql_update; eauto|]. destruct (p j1); by rewrite ?Hf.
Qed.
Lemma request_kept d0 :
  (forall r, preserves (scopes_kept d0) (PreviewDeletion r)) /\
  (forall token c actor, preserves (scopes_kept d0) (CreateDeletion token c actor)) /\
  (forall id, preserves (scopes_kept d0) (CancelDeletion id)) /\
  (forall id, preserves (scopes_kept d0) (RetryDeletion id)).
Proof.
  split_and!.
  - intros r. unfold PreviewDeletion. destruct (validDeletion r); frame_auto; try apply count_ok.
    + apply exec_preserves. intros d n d' Hd E. by simplify_eq.
    + apply exec_preserves. intros d n d' Hd E. unfold insert_preview in E. sql_inv E. done.
  - intros token c actor. unfold CreateDeletion, use_preview, update_rows. frame_auto; try apply count_ok.
    + apply exec_preserves. intros d [] d' Hd E. unfold insert_job in E. destruct (insert_pk _ _ _) eqn:Ei; [done|].
      sql_inv E. simplify_eq. apply insert_pk_inv in Ei as [-> _]. intros j Hj. destruct (Hd j Hj) as (j1 & ? & ?).
      exists j1. split; [|done]. cbn. apply in_app_iff. by left.
    + apply exec_preserves. intros d n d' Hd E. by simplify_eq.
  - intros id. unfold CancelDeletion. frame_auto. apply update_jobs_kept. intros j. by destruct (_ =?s _).
  - intros id. unfold RetryDeletion. frame_auto. by apply update_jobs_kept.
Qed.

Lemma delete_stage_jobs (I : list JobRow -> list PreviewRow -> Prop) s st :
  preserves (fun d => I (st_jobs d) (st_previews d)) (delete_stage s st).
Proof.
  assert (forall n p, preserves (fun d => I (st_jobs d) (st_previews d)) (delete_batch n p batch_limit)) as Hb.
  { intros n p. apply exec_preserves. intros d m d' Hd [E _]%checked_inr. apply (f_equal snd) in E. cbn in E. by subst d'. }
  destruct st as [t|t]; [exact (Hb t (history_where s t))|exact (Hb t (metadata_where s t))].
Qed.

Lemma run_step_frame ops pc :
  preserves (jobs_ok ops) (run_step error_text pc) /\ forall d0, preserves (scopes_kept d0) (run_step error_text pc).
Proof.
  split; [|intros d0]; destruct pc as [| |? ? []| | | | |]; cbn [run_step]; unfold finish_run, on_job; frame_auto;
    try (by apply update_jobs_ok); try (by apply update_jobs_kept).
  - apply (delete_stage_jobs (fun js ps => one_active js = true /\ (forall j, In j js -> confirmed ops (job_scope j)) /\
      forall p, In p ps -> exists r, requested r (preview_scope p) /\ pv_confirmation p = confirmationFor r)).
  - apply (delete_stage_jobs (fun js _ => forall j, In j (st_jobs d0) -> exists j', In j' js /\ job_scope j' = job_scope j)).
Qed.

(** The next position keeps to the job. *)
Lemma run_step_pc pc w pc' w' :
  pc_ok (Some pc) (w_db w) -> run_step error_text pc w = (inr pc', w') ->
  scopes_kept (w_db w) (w_db w') -> pc_ok (Some pc') (w_db w').
Proof.
  intros Hpc E Hk.
  destruct pc as [id|id s|id s [|st todo] del|id|id s st todo del|id e|id s st todo del n|r]; cbn [run_step] in E.
  - unfold bind in E. rewrite attempt_eq in E. unfold ret in E. injection E as <- <-.
    unfold query_row, exec in *. destruct (next_fault w) as [[] w1] eqn:Ef; [done|].
    destruct (sql_find _ _) as [j|] eqn:Ej; [|done]. cbn. exists j. split; [|done]. by apply sql_find_some in Ej as [? _].
  - unfold bind in E at 1. destruct (time_now_db w) as (t & w1 & Et & Hw). rewrite Et in E. unfold bind in E.
    rewrite attempt_eq in E. unfold ret in E. injection E as <- <-. destruct (on_job _ _ _).1; [done|].
    cbn. split; [|apply incl_refl]. apply (pc_ok_kept (Some (PStart id s)) (w_db w)); done.
  - unfold finish_run in E. unfold bind in E at 1. destruct (time_now_db w) as (t & w1 & Et & Hw). rewrite Et in E.
    unfold bind in E. rewrite attempt_eq in E. unfold ret in E. by injection E as <- <-.
  - unfold bind in E. rewrite attempt_eq in E. unfold ret in E. injection E as <- <-.
    destruct (query_row _ w).1 as [e|st']; [done|]. destruct (st' =?s "cancelling"); [done|].
    apply (pc_ok_kept (Some (PBatch id s st todo del)) (w_db w)); done.
  - unfold finish_run in E. unfold bind in E at 1. destruct (time_now_db w) as (t & w1 & Et & Hw). rewrite Et in E.
    unfold bind in E. rewrite attempt_eq in E. unfold ret in E. by injection E as <- <-.
  - unfold bind in E. rewrite attempt_eq in E. unfold ret in E. injection E as <- <-.
    destruct (delete_stage s st w).1; [done|].
    apply (pc_ok_kept (Some (PBatch id s st todo del)) (w_db w)); done.
  - unfold bind in E at 1. destruct (time_now_db w) as (t & w1 & Et & Hw). rewrite Et in E. unfold bind, ignore, ret in E.
    by injection E as <- <-.
  - unfold bind, ignore, ret in E. injection E as <- <-. apply (pc_ok_kept _ _ _ Hk) in Hpc. cbn in Hpc.
    destruct Hpc as [Hj Hi]. destruct (n =? 0); cbn; (split; [done|]); [|done]. intros x Hx. apply Hi. by right.
  - by injection E as <- <-.
Qed.

(** The rows a statement of the worker removes are in its scope. *)
Lemma run_step_rows pc w n r :
  In r (table n (w_db w)) -> ~ In r (table n (w_db (run_step error_text pc w).2)) ->
  n <> "deployment_grace_periods" ->
  exists id s st todo del, pc = PBatch id s st todo del /\ n = stage_table st /\ stage_where s st (w_db w) r = true.
Proof.
  intros Hin Hout Hg.
  assert (st_tables (w_db (run_step error_text pc w).2) = st_tables (w_db w) -> False) as Hsame.
  { intros E. apply Hout. unfold table in *. by rewrite E. }
  destruct pc as [id|id s|id s [|st todo] del|id|id s st todo del|id e|id s st todo del m|x]; cbn [run_step] in *.
  - exfalso. apply Hsame. unfold bind. rewrite attempt_eq. unfold ret. cbn [snd]. by rewrite query_row_db.
  - exfalso. apply Hsame. unfold bind at 1. destruct (time_now_db w) as (t & w1 & -> & <-). unfold bind.
    rewrite attempt_eq. apply update_jobs_tables.
  - exfalso. apply Hsame. unfold bind at 1, finish_run. destruct (time_now_db w) as (t & w1 & -> & <-). unfold bind.
    rewrite attempt_eq. apply update_jobs_tables.
  - exfalso. apply Hsame. unfold bind. rewrite attempt_eq. unfold ret. cbn [snd]. by rewrite query_row_db.
  - exfalso. apply Hsame. unfold bind at 1, finish_run. destruct (time_now_db w) as (t & w1 & -> & <-). unfold bind.
    rewrite attempt_eq. apply update_jobs_tables.
  - exists id, s, st, todo, del. split; [done|].
    unfold bind in Hout. rewrite attempt_eq in Hout. unfold ret in Hout. cbn [snd] in Hout.
    assert (delete_stage s st = delete_batch (stage_table st) (stage_where s st) batch_limit) as Hds by (by destruct st).
    rewrite Hds in Hout. unfold delete_batch, exec in Hout. pose proof (next_fault_db w) as Hd.
    destruct (next_fault w) as [[] w1]; cbn in *; [by rewrite Hd in Hout|].
    destruct (checked _) as [e|[k d']] eqn:E; cbn in Hout; [by rewrite Hd in Hout|].
    apply checked_inr in E as [E _]. apply (f_equal snd) in E. cbn [snd] in E. subst d'. rewrite Hd in *.
    fold (after_batch s st (w_db w)) in Hout.
    destruct (decide (n = stage_table st)) as [->|Hne].
    + split; [done|]. rewrite after_batch_table in Hout by done. destruct (stage_where s st (w_db w) r) eqn:Ew; [done|].
      exfalso. by apply Hout, delete_first_keeps.
    + exfalso. apply Hout. rewrite after_batch_others; [done| |done]. intros [?|[]]. congruence.
  - exfalso. apply Hsame. unfold bind at 1. destruct (time_now_db w) as (t & w1 & -> & <-). apply update_jobs_tables.
  - exfalso. apply Hsame. apply update_jobs_tables.
  - done.
Qed.

Lemma preserves_run {A} (I : StoreDB -> Prop) (m : tx StoreDB A) w :
  preserves I m -> I (w_db w) -> I (w_db (m w).2).
Proof. intros Hm Hw. specialize (Hm w Hw). by destruct (m w) as [[] ?]. Qed.

Lemma worker_step_ok ops pc w :
  jobs_ok ops (w_db w) -> pc_ok pc (w_db w) ->
  let st := sys_step (pc, w) OpWorker in jobs_ok ops (w_db st.2) /\ pc_ok st.1 (w_db st.2).
Proof.
  intros Hj Hpc. cbn [sys_step]. assert (forall pc0, pc = Some pc0 -> (forall r, pc0 <> PDone r) ->
    worker_step pc w = (pc' <- run_step error_text pc0 ;; ret (Some pc')) w) as Hrun
    by (intros pc0 ->; destruct pc0; try done; intros Hn; by destruct (Hn r)).
  assert ((exists pc0, pc = Some pc0 /\ forall r, pc0 <> PDone r) \/ worker_step pc = pick_job) as [(pc0 & -> & Hn)|Hp].
  { destruct pc as [[]|]; cbn; auto; left; by eexists. }
  - rewrite (Hrun pc0 eq_refl Hn). unfold bind. destruct (run_step_decreases error_text pc0 w) as (pc' & w' & E & _).
    pose proof (preserves_run _ _ w (proj1 (run_step_frame ops pc0)) Hj) as H1.
    pose proof (preserves_run _ _ w (proj2 (run_step_frame ops pc0) (w_db w)) (scopes_kept_refl _)) as H2.
    rewrite E in H1, H2 |- *. cbn in *. split; [done|]. by eapply run_step_pc.
  - rewrite Hp. unfold pick_job, bind, or_default. pose proof (query_row_db next_job w) as Hd.
    destruct (query_row next_job w) as [[e|i] w1]; cbn in *; rewrite Hd; (split; [done|]); [done|]; by destruct (i =?s "").
Qed.

Lemma sys_ok ops pc w op :
  jobs_ok ops (w_db w) -> pc_ok pc (w_db w) ->
  let st := sys_step (pc, w) op in jobs_ok (op :: ops) (w_db st.2) /\ pc_ok st.1 (w_db st.2).
Proof.
  intros Hj Hpc. assert (jobs_ok (op :: ops) (w_db w)) as Hj' by (eapply jobs_ok_mono; [|exact Hj]; by right).
  destruct (request_kept (w_db w)) as (K1 & K2 & K3 & K4).
  pose proof (scopes_kept_refl (w_db w)) as Hr.
  destruct op as [r|token c actor|id|id| |f|]; cbn [sys_step fst snd].
  - split; [apply preserves_run; [apply preview_ok|done]|].
    apply (pc_ok_kept _ (w_db w)); [by apply (preserves_run (scopes_kept (w_db w)))|done].
  - split; [apply preserves_run; [apply create_ok|done]|].
    apply (pc_ok_kept _ (w_db w)); [by apply (preserves_run (scopes_kept (w_db w)))|done].
  - split; [apply preserves_run; [apply cancel_ok|done]|].
    apply (pc_ok_kept _ (w_db w)); [by apply (preserves_run (scopes_kept (w_db w)))|done].
  - split; [apply preserves_run; [apply retry_ok|done]|].
    apply (pc_ok_kept _ (w_db w)); [by apply (preserves_run (scopes_kept (w_db w)))|done].
  - split; [apply preserves_run; [apply recover_ok|done]|done].
  - done.
  - by apply (worker_step_ok (OpWorker :: ops)).
Qed.

Lemma sys_run_ok ops st :
  jobs_ok [] (w_db st.2) -> pc_ok st.1 (w_db st.2) ->
  jobs_ok ops (w_db (sys_run ops st).2) /\ pc_ok (sys_run ops st).1 (w_db (sys_run ops st).2).
Proof.
  intros Hj Hpc. induction ops as [|op ops IH] using rev_ind; [done|]. unfold sys_run in *. rewrite fold_left_app. cbn [fold_left].
  destruct (fold_left sys_step ops st) as [pc w]. destruct IH as [IH1 IH2].
  destruct (sys_ok ops pc w op IH1 IH2) as [H1 H2]. split; [|done].
  eapply jobs_ok_mono; [|exact H1]. intros x. rewrite in_app_iff. cbn. tauto.
Qed.

(** C7 (safety): only what was confirmed is deleted.  Over any interleaving of
    previews, confirmations, cancellations, retries, restarts and changes of
    the telemetry tables with the statements of the worker, any of which may
    fail: at most one job is active, and every row a statement of the worker
    takes from a table is in the scope of a job whose confirmation phrase,
    for that kind, resource and date, someone entered before. *)
Theorem deletion_confirmed (ops : list DelOp) (tables : gmap string (list Row)) (faults : list bool)
    (rn : nat) (ck : list Z) :
  let st := sys_run ops (None, World (mkStore tables [] []) faults rn ck) in
  let d := w_db st.2 in let d' := w_db (sys_step st OpWorker).2 in
  one_active (st_jobs d) = true /\
  forall n r, In r (table n d) -> ~ In r (table n d') -> n <> "deployment_grace_periods" ->
    exists j stage, In j (st_jobs d) /\ confirmed ops (job_scope j) /\
      In stage (stages (jb_kind j)) /\ n = stage_table stage /\ in_scope (job_scope j) stage d r.
Proof.
  intros st d d'. destruct (sys_run_ok ops (None, World (mkStore tables [] []) faults rn ck)) as [(H1 & H2 & _) Hpc];
    [done|done|]. fold st in H1, H2, Hpc. fold d in H1, H2, Hpc. split; [done|]. intros n r Hin Hout Hg.
  subst d'. destruct st as [pc w]. cbn [fst snd] in *.
  assert (exists pc0, pc = Some pc0 /\ w_db (sys_step (pc, w) OpWorker).2 = w_db (run_step error_text pc0 w).2) as (pc0 & -> & E).
  { assert (w_db (pick_job w).2 = w_db w) as Hp.
    { unfold pick_job, bind, or_default. pose proof (query_row_db next_job w) as Hd.
      destruct (query_row next_job w) as [[e|i] w1]; exact Hd. }
    assert (worker_step pc w = pick_job w -> False) as Hno.
    { intros E. cbn [sys_step] in Hout. rewrite E in Hout. apply Hout. destruct (pick_job w) as [[] w']; cbn in *; by rewrite Hp. }
    destruct pc as [pc0|]; [|by destruct Hno]. exists pc0. split; [done|].
    destruct pc0; try (by destruct Hno); cbn [sys_step worker_step]; unfold bind; by destruct (run_step _ _ w) as [[] ?]. }
  rewrite E in Hout. destruct (run_step_rows pc0 w n r Hin Hout Hg) as (i & s & stage & todo & del & -> & Hn & Hw).
  destruct Hpc as [(j & Hj & Hs) Hi]. exists j, stage. subst s.
  assert (In stage (stages (jb_kind j))) as Hst by (apply (Hi stage); by left).
  split_and!; [done|by apply H2|done|done|by apply stage_in_scope].
Qed.
End interleaving.

(** ** Witnesses *)

Definition sample_job (kind : string) (resource : option string) : JobRow :=
  mkJobRow "del_1" kind resource None 100 "" "queued" None 0 None None 0 0 None None.
Definition sample_event (id resource : string) (ts : Z) : Row :=
  row [("id", VText id); ("ts", VInt ts); ("resource_id", VText resource)].
(** A host with two resources, one with an instance and its samples, and a
    check on the first resource when [check] holds. *)
Definition sample_store (check : bool) (job : JobRow) : StoreDB :=
  mkStore (list_to_map [
    ("hosts", [row [("id", VText "host")]]);
    ("resources", [row [("id", VText "res_a"); ("host_id", VText "host"); ("status", VText "archived")];
                   row [("id", VText "res_b"); ("host_id", VText "host"); ("status", VText "running")]]);
    ("container_instances", [row [("id", VText "c1"); ("resource_id", VText "res_a")]]);
    ("container_instance_samples_10s", [row [("container_instance_id", VText "c1"); ("ts", VInt 50)]]);
    ("events", [sample_event "1" "res_a" 50; sample_event "2" "res_b" 60; sample_event "3" "res_a" 150]);
    ("health_checks", if check then [row [("id", VText "chk"); ("resource_id", VText "res_a")]] else [])])
    [job] [].

Lemma deletion_exact_witness :
  exists w', RunDeletion (fun _ => "") "del_1" (World (sample_store true (sample_job DeleteResource (Some "res_a"))) [] 0 []) =
      (inr (PDone (inr tt)), w') /\
    map (text_col "id") (table "events" (w_db w')) = ["2"; "3"] /\
    table "container_instance_samples_10s" (w_db w') = [].
Proof.
  set (j := sample_job DeleteResource (Some "res_a")). set (d := sample_store true j).
  destruct (deletion_exact (fun _ => "") j d 0 []) as (w' & j' & E & Ht & _).
  - by vm_compute.
  - apply (bool_decide_eq_true_1 _). by vm_compute.
  - by vm_compute.
  - by left.
  - reflexivity.
  - intros Hin. exfalso. cbn in Hin. by repeat (destruct Hin as [Hin|Hin]; [discriminate Hin|]).
  - exists w'. split; [exact E|].
    rewrite (proj1 (Ht (History "events") ltac:(cbn; tauto)) : table "events" (w_db w') = _).
    rewrite (proj1 (Ht (History "container_instance_samples_10s") ltac:(cbn; tauto)) :
      table "container_instance_samples_10s" (w_db w') = _).
    split; by vm_compute.
Defined.

(** The result of a run, the states of the jobs and the events left *)
Definition outcome (r : (gerr + DelPc) * world StoreDB) : option (gerr + unit) * list string * list string :=
  (match r.1 with inr (PDone x) => Some x | _ => None end,
   map jb_state (st_jobs (w_db r.2)), map (text_col "id") (table "events" (w_db r.2))).

(** The worker loads a queued job, a request cancels it, the worker goes on. *)
Definition cancel_race : (gerr + unit) * (option (gerr + unit) * list string * list string) :=
  let w0 := World (sample_store true (sample_job DeleteResource (Some "res_a"))) [] 0 [] in
  let '(pc, w1) := run_step (fun _ => "") (PLoad "del_1") w0 in
  let '(cancelled, w2) := CancelDeletion "del_1" w1 in
  (cancelled, outcome (match pc with inr pc => run_steps (fun _ => "") 100 pc w2 | inl e => (inl e, w2) end)).

(** A cancellation can be lost: between loading a queued job and marking it
    running, [RunDeletion] does not look at the state again, so a job whose
    cancellation was reported as successful is carried out and completed. *)
Lemma cancellation_lost : cancel_race = (inr tt, (Some (inr tt), ["completed"], ["2"; "3"])).
Proof. vm_compute. reflexivity. Qed.

(** Checks keep resources from being removed: a reset of the whole history
    and the purge of an archived resource fail while a check refers to one of
    the resources, after the history rows in scope are gone. *)
Lemma reset_blocked_by_checks :
  let run kind := outcome (RunDeletion (fun _ => "") "del_1"
    (World (sample_store true (sample_job kind (Some "res_a"))) [] 0 [])) in
  run DeleteAll = (Some (inl (EConstraint "FOREIGN KEY")), ["failed"], ["3"]) /\
  run DeleteArchived = (Some (inl (EConstraint "FOREIGN KEY")), ["failed"], ["2"; "3"]).
Proof. vm_compute. split; reflexivity. Qed.
