(* ===== verification/StoreWriter.v ===== *)
(** * Writing history

    [internal/storage/writer.go], [hosts.go] and [resources.go]: batches of
    telemetry in one transaction, the collector state log, events, and the
    host and resource inventory. *)

From stdpp Require Import base tactics list gmap strings pretty.
From Stdlib Require Import ZArith Lia.
From S2P Require Import Prelude Float64 GoString Db Metrics AlertRepository AuthSchema StoreSchema.

Definition hostID : string := "host".

(** ** Events *)

Definition nullableResource (id : string) : Value := opt_text id.
Definition nullableContainer (id : string) : Value := opt_text id.
Definition nullableString (s : string) : Value := opt_text s.

Definition eventSeverity (t : string) : string :=
  if str_in t ["container_oom"; "collector_down"; "persistence_degraded"; "host_reboot"] then "critical"
  else if str_in t ["container_restart"; "container_stop"; "container_die"; "persistence_gap"] then "warning"
  else "info".
Definition severity (e : Event) : string :=
  if negb (e_Severity e =?s "") then e_Severity e else eventSeverity (e_Type e).
Definition eventSource (t : string) : string :=
  if str_in t ["host_reboot"; "collector_down"; "collector_degraded"; "persistence_degraded"; "persistence_gap"]
  then "binnacle" else "docker".

(** The integer identifier becomes text in a [TEXT] column. *)
Definition event_row (e : Event) : Row :=
  row [("id", VText (pretty (e_ID e))); ("ts", VInt (time_unix_milli (e_At e))); ("host_id", VText hostID);
       ("resource_id", nullableResource (e_ResourceID e));
       ("container_instance_id", nullableContainer (e_ContainerInstance e));
       ("type", VText (e_Type e)); ("severity", VText (severity e)); ("summary", VText (e_Message e));
       ("details_json", nullableString (e_Details e)); ("correlation_key", nullableString (e_CorrelationKey e));
       ("source", VText (eventSource (e_Type e))); ("created_at", VInt (time_unix_milli (e_At e)))].

Definition WriteEvent (e : Event) : tx StoreDB unit := insert_or_ignore "events" (event_row e).

(** ** Batches *)

(** [database/sql] refuses unsigned values with the high bit set. *)
Definition bindable (r : Row) : bool :=
  forallb (fun kv => match kv.2 with VInt z => z <? 2 ^ 63 | _ => true end) (map_to_list r).
Definition bind_row {A} (r : Row) (m : tx StoreDB A) : tx StoreDB A :=
  if bindable r then m else throw (EMsg "uint64 values with high bit set are not supported").

Definition host_row (s : Snapshot) : Row :=
  let h := sn_Host s in
  row [("ts", VInt (time_unix_milli (sn_At s))); ("host_id", VText hostID); ("boot_session_id", VText (sn_BootIdentity s));
       ("cpu_busy_pct", opt_real (h_CPUPercent h)); ("cpu_user_pct", opt_real (h_CPUUserPercent h));
       ("cpu_system_pct", opt_real (h_CPUSystemPercent h)); ("cpu_iowait_pct", opt_real (h_CPUIOWaitPercent h));
       ("cpu_steal_pct", opt_real (h_CPUStealPercent h));
       ("load_1", opt_real (h_Load1 h)); ("load_5", opt_real (h_Load5 h)); ("load_15", opt_real (h_Load15 h));
       ("memory_used_bytes", opt_int (h_MemoryUsedBytes h)); ("memory_available_bytes", opt_int (h_MemoryAvailableBytes h));
       ("memory_total_bytes", opt_int (h_MemoryTotalBytes h)); ("memory_used_pct", opt_real (h_MemoryPercent h));
       ("memory_cached_bytes", opt_int (h_MemoryCachedBytes h)); ("memory_buffers_bytes", opt_int (h_MemoryBuffersBytes h));
       ("swap_used_bytes", opt_int (h_SwapUsedBytes h)); ("swap_total_bytes", opt_int (h_SwapTotalBytes h));
       ("swap_used_pct", opt_real (h_SwapPercent h));
       ("network_rx_bps", opt_real (h_NetworkRXBPS h)); ("network_tx_bps", opt_real (h_NetworkTXBPS h));
       ("network_rx_packets_ps", opt_real (h_NetworkRXPacketsPS h)); ("network_tx_packets_ps", opt_real (h_NetworkTXPacketsPS h));
       ("network_rx_errors_delta", opt_int (h_NetworkRXErrorsDelta h)); ("network_tx_errors_delta", opt_int (h_NetworkTXErrorsDelta h));
       ("network_rx_drops_delta", opt_int (h_NetworkRXDropsDelta h)); ("network_tx_drops_delta", opt_int (h_NetworkTXDropsDelta h));
       ("disk_read_bps", opt_real (h_DiskReadBPS h)); ("disk_write_bps", opt_real (h_DiskWriteBPS h));
       ("disk_read_iops", opt_real (h_DiskReadIOPS h)); ("disk_write_iops", opt_real (h_DiskWriteIOPS h))].

Definition resource_row (at_ : Z) (r : ResourceSnapshot) : Row :=
  row [("ts", VInt (time_unix_milli at_)); ("resource_id", VText (rs_ID r));
       ("cpu_host_pct", opt_real (rs_CPUHostPercent r)); ("memory_working_set_bytes", opt_int (rs_MemoryBytes r));
       ("network_rx_bps", opt_real (rs_RXBPS r)); ("network_tx_bps", opt_real (rs_TXBPS r));
       ("block_read_bps", opt_real (rs_BlockReadBPS r)); ("block_write_bps", opt_real (rs_BlockWriteBPS r));
       ("active_instance_count", VInt (Z.of_nat (length (rs_Components r)))); ("status", VText (rs_Status r))].

Definition instance_row (at_ : Z) (r : ResourceSnapshot) (c : ResourceComponent) : Row :=
  row [("id", VText (rc_ID c)); ("resource_id", VText (rs_ID r)); ("name", VText (rc_Name c));
       ("created_at", VInt (time_unix_milli at_))].
Definition instance_sample_row (at_ : Z) (c : ResourceComponent) : Row :=
  row [("ts", VInt (time_unix_milli at_)); ("container_instance_id", VText (rc_ID c));
       ("cpu_host_pct", opt_real (rc_CPUHostPercent c)); ("memory_working_set_bytes", opt_int (rc_MemoryBytes c));
       ("network_rx_bps", opt_real (rc_RXBPS c)); ("network_tx_bps", opt_real (rc_TXBPS c));
       ("block_read_bps", opt_real (rc_BlockReadBPS c)); ("block_write_bps", opt_real (rc_BlockWriteBPS c));
       ("pids", opt_int (rc_PIDs c))].
Definition filesystem_row (f : FilesystemObservation) : Row :=
  row [("ts", VInt (time_unix_milli (fo_At f))); ("host_id", VText hostID); ("mount_key", VText (fo_MountKey f));
       ("mount_point", VText (fo_MountPoint f)); ("fs_type", VText (fo_FSType f));
       ("total_bytes", opt_int (fo_TotalBytes f)); ("used_bytes", opt_int (fo_UsedBytes f));
       ("available_bytes", opt_int (fo_AvailableBytes f)); ("used_pct", opt_real (fo_UsedPercent f));
       ("inodes_total", opt_int (fo_InodesTotal f)); ("inodes_used", opt_int (fo_InodesUsed f));
       ("inodes_used_pct", opt_real (fo_InodesUsedPercent f))].

Definition write_instance (at_ : Z) (r : ResourceSnapshot) (c : ResourceComponent) : tx StoreDB unit :=
  insert_or_ignore "container_instances" (instance_row at_ r c) ;;;
  update_table "container_instances" (fun i => value_eqb (col "id" i) (VText (rc_ID c)))
    (fun i => <["resource_id" := VText (rs_ID r)]> (<["name" := VText (rc_Name c)]> i)) ;;;
  bind_row (instance_sample_row at_ c)
    (insert_or_replace "container_instance_samples_10s" (instance_sample_row at_ c)).

Definition write_resource (at_ : Z) (r : ResourceSnapshot) : tx StoreDB unit :=
  bind_row (resource_row at_ r) (insert_or_replace "resource_samples_10s" (resource_row at_ r)) ;;;
  iter_tx (write_instance at_ r) (rs_Components r).

Definition write_samples (s : Snapshot) : tx StoreDB unit :=
  if 0 <? sn_Sequence s then
    bind_row (host_row s) (insert_or_replace "host_samples_10s" (host_row s)) ;;;
    iter_tx (write_resource (sn_At s)) (sn_Resources s)
  else ret tt.

(** ** The collector state log

    [prevCollectors] is in memory: a rollback does not undo it. *)
Definition collector_row (at_ : Z) (name prev : string) (h : CollectorHealth) : Row :=
  row [("id", VText ("cse_" +:+ pretty (time_unix_milli at_) +:+ "_" +:+ name)); ("ts", VInt (time_unix_milli at_));
       ("collector_name", VText name); ("previous_state", VText prev); ("new_state", VText (co_State h));
       ("reason_code", VText (co_State h)); ("message", VText (co_Reason h))].

Fixpoint writeCollectorStateEvents (at_ : Z) (l : list (string * CollectorHealth)) (prev : gmap string string) :
    tx StoreDB ((gerr + unit) * gmap string string) :=
  match l with
  | [] => ret (inr tt, prev)
  | (name, h) :: l =>
      let p := default "" (prev !! name) in
      let p := if p =?s "" then CollectorUnknown else p in
      if p =?s co_State h then writeCollectorStateEvents at_ l prev
      else
        r <- attempt (insert_or_ignore "collector_state_events" (collector_row at_ name p h)) ;;
        match r with
        | inl e => ret (inl e, prev)
        | inr _ => writeCollectorStateEvents at_ l (<[name := co_State h]> prev)
        end
  end.

Definition batch_body `{MapOrder} (b : PersistenceBatch) (prev : gmap string string) :
    tx StoreDB ((gerr + unit) * gmap string string) :=
  write_samples (pb_Snapshot b) ;;;
  iter_tx (fun f => bind_row (filesystem_row f) (insert_or_replace "filesystem_samples_1m" (filesystem_row f))) (pb_Filesystems b) ;;;
  iter_tx (fun e => insert_or_ignore "events" (event_row e)) (pb_Events b) ;;;
  writeCollectorStateEvents (sn_At (pb_Snapshot b)) (range_map (sn_Collectors (pb_Snapshot b))) prev.

Definition WriteBatch `{MapOrder} (b : PersistenceBatch) (prev : gmap string string) :
    tx StoreDB ((gerr + unit) * gmap string string) := fun w =>
  let '(bad, w1) := next_fault w in
  let undo (w2 : world StoreDB) := World (w_db w1) (w_faults w2) (w_rand w2) (w_clock w2) in
  if bad : bool then (inr (inl EFault, prev), w1)
  else match batch_body b prev w1 with
       | (inl e, w2) => (inr (inl e, prev), undo w2)
       | (inr (inl e, prev'), w2) => (inr (inl e, prev'), undo w2)
       | (inr (inr _, prev'), w2) =>
           let '(bad, w3) := next_fault w2 in
           if bad : bool then (inr (inl EFault, prev'), undo w3) else (inr (inr tt, prev'), w3)
       end.

(** ** Hosts and resources *)

Section inventory.
Context `{SHA256}.
(** [Format(time.RFC3339Nano)] *)
Context (rfc3339 : Z -> string).

Definition HostIdentity (machineID installationID : string) : string :=
  sha256_hex (if machineID =?s "" then installationID else machineID).

(** [INSERT ... ON CONFLICT(id) DO UPDATE]; [identity_hash] is [UNIQUE]. *)
Definition UpsertHost (id identity name : string) : tx StoreDB unit :=
  now <- time_now ;;
  exec (fun d =>
    let hosts := table "hosts" d in
    if sql_exists (fun h => value_eqb (col "id" h) (VText id)) hosts then
      checked (tt, set_table "hosts" (sql_update (fun h => value_eqb (col "id" h) (VText id))
        (fun h => <["name" := VText name]> (<["updated_at" := VText (rfc3339 now)]> h)) hosts) d)
    else if sql_exists (fun h => value_eqb (col "identity_hash" h) (VText identity)) hosts
    then inl (EConstraint "UNIQUE hosts.identity_hash")
    else checked (tt, set_table "hosts" (hosts ++
      [row [("id", VText id); ("identity_hash", VText identity); ("name", VText name);
            ("updated_at", VText (rfc3339 now))]]) d)).

Definition OpenBoot (hostID boot : string) : tx StoreDB unit :=
  now1 <- time_now ;;
  update_table "boot_sessions"
    (fun b => value_eqb (col "host_id" b) (VText hostID) && value_eqb (col "ended_at" b) VNull &&
              negb (value_eqb (col "boot_identity" b) (VText boot)))
    (fun b => <["ended_at" := VText (rfc3339 now1)]> b) ;;;
  now2 <- time_now ;;
  insert_or_ignore "boot_sessions"
    (row [("host_id", VText hostID); ("boot_identity", VText boot); ("started_at", VText (rfc3339 now2))]).

Record Resource := mkStoredResource {
  sr_ID : string; sr_HostID : string; sr_StableKey : string; sr_SourceKind : string; sr_Name : string;
  sr_Context : string; sr_Category : string; sr_Status : string; sr_ProjectName : string;
  sr_EnvironmentName : string; sr_ArchivedAt : option Z;
}.

Definition same_resource (r : Resource) (x : Row) : bool :=
  value_eqb (col "host_id" x) (VText (sr_HostID r)) && value_eqb (col "stable_key" x) (VText (sr_StableKey r)).
Definition refresh_resource (r : Resource) (now : Z) (x : Row) : Row :=
  <["name" := VText (sr_Name r)]> (<["context" := VText (sr_Context r)]>
  (<["project_name" := opt_text (sr_ProjectName r)]> (<["environment_name" := opt_text (sr_EnvironmentName r)]>
  (<["category" := VText (sr_Category r)]> (<["status" := VText (sr_Status r)]>
  (<["archived_at" := VNull]> (<["last_seen_at" := VInt now]> x))))))).
Definition new_resource (r : Resource) (now : Z) : Row :=
  row [("id", VText (sr_ID r)); ("host_id", VText (sr_HostID r)); ("stable_key", VText (sr_StableKey r));
       ("source_kind", VText (sr_SourceKind r)); ("name", VText (sr_Name r)); ("context", VText (sr_Context r));
       ("project_name", opt_text (sr_ProjectName r)); ("environment_name", opt_text (sr_EnvironmentName r));
       ("category", VText (sr_Category r)); ("status", VText (sr_Status r)); ("first_seen_at", VInt now);
       ("last_seen_at", VInt now)].

(** [ON CONFLICT(host_id,stable_key) DO UPDATE]; another row with the
    identifier is refused. *)
Definition UpsertResource (r : Resource) : tx StoreDB unit :=
  t <- time_now ;;
  let now := time_unix_milli t in
  exec (fun d =>
    let rs := table "resources" d in
    if sql_exists (same_resource r) rs
    then checked (tt, set_table "resources" (sql_update (same_resource r) (refresh_resource r now) rs) d)
    else if sql_exists (fun x => value_eqb (col "id" x) (VText (sr_ID r))) rs
    then inl (EConstraint "PRIMARY KEY")
    else checked (tt, set_table "resources" (rs ++ [new_resource r now]) d)).

Definition archive (now : Z) (x : Row) : Row :=
  <["status" := VText "archived"]> (<["archived_at" := VInt now]> x).

Definition ArchiveMissingResources (active : list string) (before : Z) : tx StoreDB unit :=
  now <- time_now ;;
  update_table "resources"
    (fun x => negb (value_eqb (col "status" x) (VText "archived")) &&
              (int_col "last_seen_at" x <? time_unix_milli before) &&
              (match active with [] => true | _ => negb (str_in (text_col "id" x) active) end))
    (archive (time_unix_milli now)) ;;;
  ret tt.

Definition ArchiveResource (id : string) : tx StoreDB unit :=
  now <- time_now ;;
  update_table "resources" (fun x => value_eqb (col "id" x) (VText id)) (archive (time_unix_milli now)) ;;;
  ret tt.

Definition resource_of (x : Row) : Resource :=
  mkStoredResource (text_col "id" x) (text_col "host_id" x) (text_col "stable_key" x) (text_col "source_kind" x)
    (text_col "name" x) (text_col "context" x) (text_col "category" x) (text_col "status" x)
    (text_col "project_name" x) (text_col "environment_name" x)
    (match col "archived_at" x with VInt ms => Some (of_unix_milli ms) | _ => None end).

(** [ORDER BY archived_at DESC,name]; [NULL] sorts last. *)
Definition archived_le (a b : Row) : bool :=
  match col "archived_at" a, col "archived_at" b with
  | VInt x, VInt y => (y <? x) || ((x =? y) && String.leb (text_col "name" a) (text_col "name" b))
  | VInt _, _ => true
  | _, VInt _ => false
  | _, _ => String.leb (text_col "name" a) (text_col "name" b)
  end.
(** A [NULL] does not scan into the [int64]. *)
Definition ArchivedResources : tx StoreDB (list Resource) :=
  rows <- query (fun d => sql_order_by archived_le
    (List.filter (fun x => value_eqb (col "status" x) (VText "archived")) (table "resources" d))) ;;
  if forallb (fun x => not_null (col "archived_at" x)) rows then ret (map resource_of rows)
  else throw (EMsg "converting NULL to int64 is unsupported").

Definition Resource_Get (id : string) : tx StoreDB Resource :=
  query_row (fun d => resource_of <$> sql_find (fun x => value_eqb (col "id" x) (VText id)) (table "resources" d)).
End inventory.

(** ** Findings *)

(** The collector states that were logged are remembered in memory before the
    transaction commits: when the commit fails and the batch is written again,
    the change of state is in no row. *)
Lemma collector_event_lost_on_retry :
  let collectors := {[ "host" := mkCollector "host" "degraded" "no data" 0 ]} in
  let b := mkBatch (mkSnapshot 0 Second "" zero_host [] collectors) [] [] in
  let first := WriteBatch b ∅ (World empty_store [false; false; true] 0%nat []) in
  first.1 = inr (inl EFault, {[ "host" := "degraded" ]}) /\
  (WriteBatch b {[ "host" := "degraded" ]} first.2).1 = inr (inr tt, {[ "host" := "degraded" ]}) /\
  table "collector_state_events" (w_db (WriteBatch b {[ "host" := "degraded" ]} first.2).2) = [].
Proof. split_and!; vm_compute; reflexivity. Qed.

(** Events are numbered from the start of the process and an event whose
    number is taken is ignored: after a restart, the first events are lost
    while rows of the previous process are kept. *)
Lemma events_lost_after_restart :
  let ev type at_ := mkEvent 1 at_ type "" "" "" "" "" "" in
  let b e := mkBatch (mkSnapshot 0 0 "" zero_host [] ∅) [e] [] in
  let before := (WriteBatch (b (ev "container_start" Second)) ∅ (World empty_store [] 0%nat [])).2 in
  let after := WriteBatch (b (ev "container_oom" (60 * Second))) ∅ before in
  after.1 = inr (inr tt, ∅) /\
  map (fun r => text_col "type" r) (table "events" (w_db after.2)) = ["container_start"].
Proof. split; vm_compute; reflexivity. Qed.
