(* ===== verification/Rollups.v ===== *)
(** * Rollups

    [internal/storage/rollups.go] and [internal/rollup]: closed buckets of the
    raw samples aggregated into the one-minute, fifteen-minute and one-hour
    tables. *)

From stdpp Require Import base tactics list gmap strings pretty.
From Stdlib Require Import ZArith Lia SpecFloat.
From S2P Require Import Prelude Float64 Db StoreSchema.

(** [t.Truncate(d)]: down to a multiple of [d] since the zero time *)
Definition truncate (t d : Z) : Z := t - (t - zero_time) mod d.
(** [rollup.Bucket] *)
Definition Bucket (t size : Z) : Z := truncate t size.

(** ** Aggregates *)

(** What is aggregated: a column, or the sum of two *)
Inductive Expr := Column (c : string) | Sum (a b : string).

Definition to_real (v : Value) : F64 :=
  match v with VInt z => f64_of_Z z | VReal f => f | _ => f64_zero end.
Definition eval (e : Expr) (r : Row) : Value :=
  match e with
  | Column c => col c r
  | Sum a b =>
      match col a r, col b r with
      | VNull, _ | _, VNull => VNull
      | VInt x, VInt y => VInt (x + y)
      | x, y => real (f64_add (to_real x) (to_real y))
      end
  end.

Definition value_ltb (a b : Value) : bool :=
  match a, b with
  | VInt x, VInt y => x <? y
  | _, _ => (to_real a <? to_real b)%F
  end.
(** [MIN] and [MAX] of the values that are not [NULL] *)
Definition sql_min (l : list Value) : Value :=
  match l with [] => VNull | v :: l => fold_left (fun m x => if value_ltb x m then x else m) l v end.
Definition sql_max (l : list Value) : Value :=
  match l with [] => VNull | v :: l => fold_left (fun m x => if value_ltb m x then x else m) l v end.

Record Aggregate := mkAggregate { ag_prefix : string; ag_expr : Expr; ag_count : string }.

Definition host_aggregates : list Aggregate :=
  [ mkAggregate "cpu" (Column "cpu_busy_pct") "sample_count";
    mkAggregate "memory" (Column "memory_used_bytes") "memory_count";
    mkAggregate "network_rx" (Column "network_rx_bps") "network_rx_count";
    mkAggregate "network_tx" (Column "network_tx_bps") "network_tx_count";
    mkAggregate "cpu_user" (Column "cpu_user_pct") "cpu_user_count";
    mkAggregate "cpu_system" (Column "cpu_system_pct") "cpu_system_count";
    mkAggregate "cpu_iowait" (Column "cpu_iowait_pct") "cpu_iowait_count";
    mkAggregate "cpu_steal" (Column "cpu_steal_pct") "cpu_steal_count";
    mkAggregate "load_1" (Column "load_1") "load_1_count";
    mkAggregate "load_5" (Column "load_5") "load_5_count";
    mkAggregate "load_15" (Column "load_15") "load_15_count";
    mkAggregate "swap_used" (Column "swap_used_bytes") "swap_used_count";
    mkAggregate "disk_read" (Column "disk_read_bps") "disk_read_count";
    mkAggregate "disk_write" (Column "disk_write_bps") "disk_write_count";
    mkAggregate "disk_iops" (Sum "disk_read_iops" "disk_write_iops") "disk_iops_count" ].
Definition resource_aggregates : list Aggregate :=
  [ mkAggregate "cpu" (Column "cpu_host_pct") "sample_count";
    mkAggregate "memory" (Column "memory_working_set_bytes") "memory_count";
    mkAggregate "network_rx" (Column "network_rx_bps") "network_rx_count";
    mkAggregate "network_tx" (Column "network_tx_bps") "network_tx_count";
    mkAggregate "block_read" (Column "block_read_bps") "block_read_count";
    mkAggregate "block_write" (Column "block_write_bps") "block_write_count" ].

Section rollups.
(** SQLite's [AVG] of values that are not [NULL] *)
Context (sql_avg : list Value -> F64).

Definition values (e : Expr) (rows : list Row) : list Value := List.filter not_null (map (eval e) rows).

Definition aggregate_columns (rows : list Row) (a : Aggregate) : list (string * Value) :=
  let vs := values (ag_expr a) rows in
  [ (ag_prefix a +:+ "_avg", match vs with [] => VNull | _ => real (sql_avg vs) end);
    (ag_prefix a +:+ "_min", sql_min vs); (ag_prefix a +:+ "_max", sql_max vs);
    (ag_count a, VInt (Z.of_nat (length vs))) ].

(** The row of one group *)
Definition rollup_row (aggs : list Aggregate) (key : list (string * Value)) (rows : list Row) : Row :=
  row (key ++ concat (map (aggregate_columns rows) aggs)).

(** ** Groups *)

Definition bucket_of (bucket : Z) (r : Row) : Z := Z.quot (row_ts r) bucket.
Definition bucket_ts (bucket : Z) (r : Row) : Z := bucket_of bucket r * bucket.

(** The group keys, in order of appearance *)
Fixpoint distinct {K} `{EqDecision K} (l : list K) : list K :=
  match l with
  | [] => []
  | x :: l => x :: List.filter (fun y => negb (bool_decide (x = y))) (distinct l)
  end.

Definition closed (cutoff : Z) (r : Row) : bool := row_ts r <? cutoff.

Definition host_groups (bucket cutoff : Z) (samples : list Row) : list Row :=
  let rows := List.filter (closed cutoff) samples in
  map (fun k => rollup_row host_aggregates [("ts", VInt (k * bucket))]
         (List.filter (fun r => bucket_of bucket r =? k) rows))
    (distinct (map (bucket_of bucket) rows)).

Definition resource_groups (bucket cutoff : Z) (samples : list Row) : list Row :=
  let rows := List.filter (closed cutoff) samples in
  map (fun k : Value * Z => rollup_row resource_aggregates [("ts", VInt (k.2 * bucket)); ("resource_id", k.1)]
         (List.filter (fun r => value_eqb (col "resource_id" r) k.1 && (bucket_of bucket r =? k.2)) rows))
    (distinct (map (fun r => (col "resource_id" r, bucket_of bucket r)) rows)).

Definition tiers : list (string * Z) := [("1m", Minute); ("15m", 15 * Minute); ("1h", Hour)].

Definition rollup_tier (now : Z) (tier : string * Z) : tx StoreDB unit :=
  let bucket := tier.2 / Millisecond in
  let cutoff := time_unix_milli (truncate now tier.2) in
  insert_select ("host_rollups_" +:+ tier.1) (fun d => host_groups bucket cutoff (table "host_samples_10s" d)) ;;;
  insert_select ("resource_rollups_" +:+ tier.1) (fun d => resource_groups bucket cutoff (table "resource_samples_10s" d)).

Definition RollupOnce (now : Z) : tx StoreDB unit := iter_tx (rollup_tier now) tiers.
End rollups.

(** ** Replacing rows *)

Lemma value_eqb_true a b : value_eqb a b = true <-> a = b.
Proof. apply bool_decide_eq_true. Qed.
Lemma value_eqb_refl v : value_eqb v v = true.
Proof. by apply value_eqb_true. Qed.

Lemma in_replace n r t x :
  In x (replace_row n r t) <-> x = r \/ (In x t /\ same_key (primary_key n) x r = false).
Proof.
  unfold replace_row. rewrite in_app_iff, filter_In, negb_true_iff. cbn. intuition congruence.
Qed.

(** The rows of a selection with distinct keys replace the rows that have
    their keys. *)
Lemma in_replace_all n gs t x :
  (forall i j a b, gs !! i = Some a -> gs !! j = Some b -> same_key (primary_key n) a b = true -> i = j) ->
  In x (fold_left (fun t r => replace_row n r t) gs t) <->
  In x gs \/ (In x t /\ forall g, In g gs -> same_key (primary_key n) x g = false).
Proof.
  revert t. induction gs as [|g gs IH]; intros t Hd; cbn [fold_left].
  { split; [intros Hx; right; split; [done|by intros ? []]|by intros [[]|[? _]]]. }
  rewrite IH, in_replace by (intros i j a b Ha Hb Hk; pose proof (Hd (S i) (S j) a b Ha Hb Hk); lia).
  assert (forall y, In y gs -> same_key (primary_key n) g y = false) as Hg.
  { intros y Hy. destruct (same_key _ g y) eqn:E; [|done]. apply list_elem_of_In, list_elem_of_lookup in Hy as [j Hj].
    by discriminate (Hd O (S j) g y eq_refl Hj E). }
  cbn [In]. split.
  - intros [Hx|[[->|[Hx Hn]] Hall]]; [by auto|by auto|]. right. split; [done|]. intros y [<-|Hy]; auto.
  - intros [[->|Hx]|[Hx Hall]]; [right; split; [by left|by apply Hg]|by left|].
    right. split; [right; split; [done|apply Hall; by left]|]. intros y Hy. apply Hall. by right.
Qed.

Lemma insert_select_healthy n q d rn ck :
  refs_ok d = true -> plain_table n = true ->
  insert_select n q (World d [] rn ck) =
    (inr tt, World (set_table n (fold_left (fun t r => replace_row n r t) (q d) (table n d)) d) [] rn ck).
Proof.
  intros Hr Hn. unfold insert_select, exec. cbn [next_fault w_faults w_db]. unfold checked. cbn [snd].
  by rewrite refs_ok_plain, Hr.
Qed.

(** ** Groups *)

Section distinct.
Context {K : Type} `{EqDecision K}.
Implicit Types l : list K.

Lemma in_distinct l x : In x (distinct l) <-> In x l.
Proof.
  induction l as [|y l IH]; [done|]. cbn. rewrite filter_In, negb_true_iff, bool_decide_eq_false, IH.
  destruct (decide (y = x)); intuition congruence.
Qed.
Lemma nodup_distinct l : NoDup (distinct l).
Proof.
  induction l as [|y l IH]; cbn; [constructor|]. apply NoDup_cons. split.
  - rewrite list_elem_of_In, filter_In, negb_true_iff, bool_decide_eq_false. tauto.
  - clear -IH. induction (distinct l) as [|z t IHt]; cbn; [constructor|]. apply NoDup_cons in IH as [Hz Ht].
    case_match; [|by apply IHt]. apply NoDup_cons. split; [|by apply IHt].
    intros Hin. apply Hz. rewrite list_elem_of_In, filter_In in Hin. apply list_elem_of_In, Hin.
Qed.
(** Rows made from distinct keys are told apart by them. *)
Lemma distinct_rows n (f : K -> Row) l :
  (forall k k', same_key (primary_key n) (f k) (f k') = true -> k = k') ->
  forall i j a b, map f (distinct l) !! i = Some a -> map f (distinct l) !! j = Some b ->
    same_key (primary_key n) a b = true -> i = j.
Proof.
  intros Hf i j a b Ha Hb Hk. apply list_lookup_fmap_Some in Ha as (x & -> & Hx).
  apply list_lookup_fmap_Some in Hb as (y & -> & Hy). apply Hf in Hk as ->.
  eapply NoDup_lookup; [apply (nodup_distinct l)|done|done].
Qed.
End distinct.

(** The closed samples of a bucket *)
Definition bucket_samples (bucket cutoff k : Z) (samples : list Row) : list Row :=
  List.filter (fun r => bucket_of bucket r =? k) (List.filter (closed cutoff) samples).
Definition resource_bucket (bucket cutoff : Z) (id : Value) (k : Z) (samples : list Row) : list Row :=
  List.filter (fun r => value_eqb (col "resource_id" r) id && (bucket_of bucket r =? k))
    (List.filter (closed cutoff) samples).

Lemma col_row_hd c v l : col c (row ((c, v) :: l)) = v.
Proof. unfold col, row. by rewrite list_to_map_cons, lookup_insert_eq. Qed.
Lemma col_row_tl c c' v l : c <> c' -> col c (row ((c', v) :: l)) = col c (row l).
Proof. intros Hn. unfold col, row. by rewrite list_to_map_cons, lookup_insert_ne. Qed.

Lemma filter_nonempty {A} (p : A -> bool) l : List.filter p l <> [] <-> exists x, In x l /\ p x = true.
Proof.
  split.
  - destruct (List.filter p l) as [|x t] eqn:E; [done|]. intros _. exists x. apply filter_In. rewrite E. by left.
  - intros (x & Hx & Hp) E. assert (In x (List.filter p l)) as Hin by (by apply filter_In). by rewrite E in Hin.
Qed.

Section exact.
Context (sql_avg : list Value -> F64).

Definition host_rollup (bucket cutoff k : Z) (samples : list Row) : Row :=
  rollup_row sql_avg host_aggregates [("ts", VInt (k * bucket))] (bucket_samples bucket cutoff k samples).
Definition resource_rollup (bucket cutoff : Z) (id : Value) (k : Z) (samples : list Row) : Row :=
  rollup_row sql_avg resource_aggregates [("ts", VInt (k * bucket)); ("resource_id", id)]
    (resource_bucket bucket cutoff id k samples).

Lemma host_rollup_key bucket cutoff k samples : col "ts" (host_rollup bucket cutoff k samples) = VInt (k * bucket).
Proof. apply col_row_hd. Qed.
Lemma resource_rollup_key bucket cutoff id k samples :
  col "ts" (resource_rollup bucket cutoff id k samples) = VInt (k * bucket) /\
  col "resource_id" (resource_rollup bucket cutoff id k samples) = id.
Proof. split; [apply col_row_hd|]. unfold resource_rollup, rollup_row. cbn [app]. by rewrite col_row_tl, col_row_hd. Qed.

Lemma iff_or_and (A A' B C C' : Prop) : (A <-> A') -> (C <-> C') -> (A \/ (B /\ C) <-> A' \/ (B /\ C')).
Proof. tauto. Qed.

(** The table after replacing the buckets of the samples *)
Lemma host_table_exact n bucket cutoff samples t x :
  0 < bucket -> primary_key n = ["ts"] ->
  In x (fold_left (fun t r => replace_row n r t) (host_groups sql_avg bucket cutoff samples) t) <->
  (exists k, bucket_samples bucket cutoff k samples <> [] /\ x = host_rollup bucket cutoff k samples) \/
  (In x t /\ forall r, In r samples -> closed cutoff r = true -> col "ts" x <> VInt (bucket_ts bucket r)).
Proof.
  intros Hb Hk. unfold host_groups.
  rewrite in_replace_all.
  2:{ apply distinct_rows. intros k k' E. unfold same_key in E. rewrite Hk in E. cbn [forallb] in E.
      apply andb_true_iff in E as [E%value_eqb_true _]. unfold rollup_row in E. cbn [app] in E.
      rewrite !col_row_hd in E. injection E as E. nia. }
  assert (forall k, In k (distinct (map (bucket_of bucket) (List.filter (closed cutoff) samples))) <->
    bucket_samples bucket cutoff k samples <> []) as Hkeys.
  { intros k. rewrite in_distinct, in_map_iff. unfold bucket_samples. rewrite filter_nonempty.
    setoid_rewrite Z.eqb_eq. firstorder. }
  assert (forall y, same_key (primary_key n) x y = false <-> col "ts" x <> col "ts" y) as Hsame.
  { intros y. unfold same_key. rewrite Hk. cbn [forallb]. rewrite andb_true_r. apply bool_decide_eq_false. }
  rewrite in_map_iff. apply iff_or_and.
  - split; intros (k & H1 & H2); exists k; [split; [by apply Hkeys|done]|split; [done|by apply Hkeys]].
  - split.
    + intros Hall r Hr Hc. assert (In (host_rollup bucket cutoff (bucket_of bucket r) samples)
        (map (fun k => host_rollup bucket cutoff k samples)
          (distinct (map (bucket_of bucket) (List.filter (closed cutoff) samples))))) as Hin.
      { apply (in_map (fun k => host_rollup bucket cutoff k samples)), in_distinct, in_map. by apply filter_In. }
      specialize (Hall _ Hin). apply Hsame in Hall. by rewrite host_rollup_key in Hall.
    + intros Hall g (k & <- & Hin%Hkeys)%in_map_iff. apply Hsame.
      fold (bucket_samples bucket cutoff k samples). change (rollup_row _ _ _ _) with (host_rollup bucket cutoff k samples).
      rewrite host_rollup_key. unfold bucket_samples in Hin. rewrite filter_nonempty in Hin.
      destruct Hin as (r & [Hr Hc]%filter_In & <-%Z.eqb_eq). by apply Hall.
Qed.

Lemma resource_table_exact n bucket cutoff samples t x :
  0 < bucket -> primary_key n = ["resource_id"; "ts"] ->
  In x (fold_left (fun t r => replace_row n r t) (resource_groups sql_avg bucket cutoff samples) t) <->
  (exists id k, resource_bucket bucket cutoff id k samples <> [] /\ x = resource_rollup bucket cutoff id k samples) \/
  (In x t /\ forall r, In r samples -> closed cutoff r = true ->
    (col "resource_id" x, col "ts" x) <> (col "resource_id" r, VInt (bucket_ts bucket r))).
Proof.
  intros Hb Hk. unfold resource_groups.
  rewrite in_replace_all.
  2:{ apply distinct_rows. intros [v k] [v' k'] E. unfold same_key in E. rewrite Hk in E. cbn [forallb] in E.
      rewrite andb_true_r in E. apply andb_true_iff in E as [E1%value_eqb_true E2%value_eqb_true].
      unfold rollup_row in E1, E2. cbn [app fst snd] in E1, E2.
      rewrite !col_row_hd in E2. rewrite !(col_row_tl "resource_id" "ts"), !col_row_hd in E1 by done.
      injection E2 as E2. subst v'. f_equal. nia. }
  assert (forall v k, In (v, k) (distinct (map (fun r => (col "resource_id" r, bucket_of bucket r))
      (List.filter (closed cutoff) samples))) <-> resource_bucket bucket cutoff v k samples <> []) as Hkeys.
  { intros v k. rewrite in_distinct, in_map_iff. unfold resource_bucket. rewrite filter_nonempty.
    split; intros (r & H1 & H2); exists r.
    - simplify_eq. by rewrite value_eqb_refl, Z.eqb_refl.
    - apply andb_true_iff in H2 as [<-%value_eqb_true <-%Z.eqb_eq]. done. }
  assert (forall y, same_key (primary_key n) x y = false <->
    (col "resource_id" x, col "ts" x) <> (col "resource_id" y, col "ts" y)) as Hsame.
  { intros y. unfold same_key. rewrite Hk. cbn [forallb]. rewrite andb_true_r. unfold value_eqb.
    rewrite andb_false_iff, !bool_decide_eq_false.
    destruct (decide (col "resource_id" x = col "resource_id" y)), (decide (col "ts" x = col "ts" y)); intuition congruence. }
  rewrite in_map_iff. apply iff_or_and.
  - split; [intros ([v k] & H1 & H2); exists v, k; split; [by apply Hkeys|done]|].
    intros (v & k & H1 & H2). exists (v, k). split; [done|by apply Hkeys].
  - split.
    + intros Hall r Hr Hc. assert (In (resource_rollup bucket cutoff (col "resource_id" r) (bucket_of bucket r) samples)
        (map (fun k : Value * Z => resource_rollup bucket cutoff k.1 k.2 samples)
          (distinct (map (fun r => (col "resource_id" r, bucket_of bucket r)) (List.filter (closed cutoff) samples))))) as Hin.
      { apply (in_map (fun k : Value * Z => resource_rollup bucket cutoff k.1 k.2 samples) _ (col "resource_id" r, bucket_of bucket r)).
        apply in_distinct, (in_map (fun r => (col "resource_id" r, bucket_of bucket r))). by apply filter_In. }
      specialize (Hall _ Hin). apply Hsame in Hall.
      destruct (resource_rollup_key bucket cutoff (col "resource_id" r) (bucket_of bucket r) samples) as [E1 E2].
      by rewrite E1, E2 in Hall.
    + intros Hall g ([v k] & <- & Hin%Hkeys)%in_map_iff. apply Hsame. cbn [fst snd].
      change (rollup_row _ _ _ _) with (resource_rollup bucket cutoff v k samples).
      destruct (resource_rollup_key bucket cutoff v k samples) as [-> ->].
      unfold resource_bucket in Hin. rewrite filter_nonempty in Hin.
      destruct Hin as (r & [Hr Hc]%filter_In & E). apply andb_true_iff in E as [<-%value_eqb_true <-%Z.eqb_eq]. by apply Hall.
Qed.
End exact.

(** ** Minimum and maximum *)

(** Values of one column: all integers, or all reals *)
Definition homogeneous (l : list Value) : Prop :=
  (forall v, In v l -> exists z, v = VInt z) \/ (forall v, In v l -> exists f, v = VReal f /\ f <> S754_nan).

Definition value_le (a b : Value) : bool :=
  match a, b with
  | VInt x, VInt y => x <=? y
  | VReal x, VReal y => (x <=? y)%F
  | _, _ => false
  end.

Lemma value_le_refl v : (exists z, v = VInt z) \/ (exists f, v = VReal f /\ f <> S754_nan) -> value_le v v = true.
Proof.
  intros [[z ->]|(f & -> & Hf)]; cbn; [lia|]. apply f64_leb_key.
  destruct (f64_key f) as [k|] eqn:E; [exists k, k; auto|]. by destruct f as [[]|[]| |[]].
Qed.

(** A fold that keeps the smaller element of a total order ends below all. *)
Lemma fold_least (le : Value -> Value -> bool) (lt : Value -> Value -> bool) l v :
  (forall x, In x (v :: l) -> le x x = true) ->
  (forall x y z, le x y = true -> le y z = true -> le x z = true) ->
  (forall x y, In x (v :: l) -> In y (v :: l) -> if lt x y then le x y = true else le y x = true) ->
  let m := fold_left (fun m x => if lt x m then x else m) l v in
  In m (v :: l) /\ forall x, In x (v :: l) -> le m x = true.
Proof.
  intros Hr Ht. revert v Hr. induction l as [|y l IH]; intros v Hr Hc; cbn [fold_left].
  { split; [by left|]. intros x [<-|[]]. apply Hr. by left. }
  pose proof (Hc y v ltac:(cbn; auto) ltac:(cbn; auto)) as Hyv.
  assert (forall w, w = y \/ w = v -> In w (v :: y :: l)) as Hw by (cbn; intuition congruence).
  destruct (IH (if lt y v then y else v)) as [Hin Hall].
  - intros x [<-|Hx]; apply Hr; [apply Hw; destruct (lt y v); auto|by do 2 right].
  - intros a b Ha Hb. apply Hc.
    + destruct Ha as [<-|Ha]; [apply Hw; destruct (lt y v); auto|by do 2 right].
    + destruct Hb as [<-|Hb]; [apply Hw; destruct (lt y v); auto|by do 2 right].
  - split.
    + destruct Hin as [E|Hin]; [|by do 2 right]. rewrite <- E. apply Hw. destruct (lt y v); auto.
    + pose proof (Hall _ (or_introl eq_refl)) as H0. intros x [<-|[<-|Hx]]; [| |apply Hall; by right].
      * destruct (lt y v); [by eapply Ht|done].
      * destruct (lt y v); [done|by eapply Ht].
Qed.

Lemma value_le_trans x y z : value_le x y = true -> value_le y z = true -> value_le x z = true.
Proof.
  destruct x, y, z; cbn; try done; [lia|]. apply f64_le_trans.
Qed.
Lemma value_ltb_le l x y :
  homogeneous l -> In x l -> In y l -> if value_ltb x y then value_le x y = true else value_le y x = true.
Proof.
  intros [Hi|Hf] Hx Hy.
  - destruct (Hi x Hx) as [a ->], (Hi y Hy) as [b ->]. cbn. destruct (a <? b) eqn:E; lia.
  - destruct (Hf x Hx) as (a & -> & Ha), (Hf y Hy) as (b & -> & Hb). cbn. destruct (SFltb a b) eqn:E.
    + apply f64_ltb_key in E as (k & k' & E1 & E2 & E3). apply f64_leb_key. exists k, k'. auto.
    + apply f64_nlt_ge; [done|done|exact E].
Qed.
Lemma homogeneous_refl l v : homogeneous l -> In v l -> value_le v v = true.
Proof. intros [Hi|Hf] Hv; apply value_le_refl; [left|right]; auto. Qed.

(** The minimum and the maximum are values of the column, and bound it. *)
Lemma sql_min_max l :
  homogeneous l -> l <> [] ->
  In (sql_min l) l /\ In (sql_max l) l /\
  forall v, In v l -> value_le (sql_min l) v = true /\ value_le v (sql_max l) = true.
Proof.
  intros Hh. destruct l as [|v l]; [done|]. intros _.
  destruct (fold_least value_le value_ltb l v) as [H1 H2].
  { intros x. by apply homogeneous_refl. } { exact value_le_trans. } { intros x y. by apply value_ltb_le. }
  destruct (fold_least (fun a b => value_le b a) (fun a b => value_ltb b a) l v) as [H3 H4].
  { intros x. by apply homogeneous_refl. } { intros x y z Ha Hb. by eapply value_le_trans. }
  { intros x y Hx Hy. by apply (value_ltb_le (v :: l)). }
  split_and!; [done|done|]. intros x Hx. split; [by apply H2|by apply H4].
Qed.

(** ** The rollup of a healthy database *)

Section theorem.
Context (sql_avg : list Value -> F64).

(** What the four columns of an aggregate hold *)
Definition aggregated (a : Aggregate) (rows : list Row) (x : Row) : Prop :=
  let vs := values (ag_expr a) rows in
  col (ag_prefix a +:+ "_min") x = sql_min vs /\ col (ag_prefix a +:+ "_max") x = sql_max vs /\
  col (ag_count a) x = VInt (Z.of_nat (length vs)) /\
  col (ag_prefix a +:+ "_avg") x = match vs with [] => VNull | _ => real (sql_avg vs) end.

Lemma host_columns a bucket cutoff k samples :
  In a host_aggregates -> aggregated a (bucket_samples bucket cutoff k samples) (host_rollup sql_avg bucket cutoff k samples).
Proof.
  unfold host_rollup. generalize (bucket_samples bucket cutoff k samples) as rows. intros rows.
  unfold aggregated, rollup_row, row, col.
  intros Ha. cbn [host_aggregates In] in Ha. repeat (destruct Ha as [<-|Ha]; [split_and!; reflexivity|]). done.
Qed.
Lemma resource_columns a bucket cutoff id k samples :
  In a resource_aggregates ->
  aggregated a (resource_bucket bucket cutoff id k samples) (resource_rollup sql_avg bucket cutoff id k samples).
Proof.
  unfold resource_rollup. generalize (resource_bucket bucket cutoff id k samples) as rows. intros rows.
  unfold aggregated, rollup_row, row, col.
  intros Ha. cbn [resource_aggregates In] in Ha. repeat (destruct Ha as [<-|Ha]; [split_and!; reflexivity|]). done.
Qed.

(** One tier, on a healthy database *)
Definition tier_tables (now : Z) (tier : string * Z) (d : StoreDB) : StoreDB :=
  let bucket := tier.2 / Millisecond in
  let cutoff := time_unix_milli (truncate now tier.2) in
  let host := "host_rollups_" +:+ tier.1 in let resource := "resource_rollups_" +:+ tier.1 in
  let d1 := set_table host (fold_left (fun t r => replace_row host r t)
    (host_groups sql_avg bucket cutoff (table "host_samples_10s" d)) (table host d)) d in
  set_table resource (fold_left (fun t r => replace_row resource r t)
    (resource_groups sql_avg bucket cutoff (table "resource_samples_10s" d1)) (table resource d1)) d1.

Definition rollup_tables (tier : string) : list string := ["host_rollups_" +:+ tier; "resource_rollups_" +:+ tier].

Lemma tier_healthy now tier d rn ck :
  refs_ok d = true -> In tier tiers ->
  rollup_tier sql_avg now tier (World d [] rn ck) = (inr tt, World (tier_tables now tier d) [] rn ck) /\
  refs_ok (tier_tables now tier d) = true.
Proof.
  intros Hr Ht. assert (plain_table ("host_rollups_" +:+ tier.1) = true /\ plain_table ("resource_rollups_" +:+ tier.1) = true)
    as [Hp1 Hp2] by (cbn in Ht; destruct Ht as [<-|[<-|[<-|[]]]]; split; reflexivity).
  unfold rollup_tier, bind. rewrite insert_select_healthy by done.
  rewrite insert_select_healthy by (rewrite ?refs_ok_plain; done). split; [done|].
  unfold tier_tables. cbv zeta. by rewrite !refs_ok_plain.
Qed.

Lemma tier_others now tier d n :
  ~ In n (rollup_tables tier.1) -> table n (tier_tables now tier d) = table n d.
Proof.
  intros Hn. unfold tier_tables. cbv zeta. rewrite !table_set_ne; [done|intros ->; apply Hn; cbn; tauto..].
Qed.

Lemma tier_names tier :
  In tier tiers -> "host_rollups_" +:+ tier.1 <> "resource_samples_10s" /\
    "host_rollups_" +:+ tier.1 <> "resource_rollups_" +:+ tier.1.
Proof. intros Ht. cbn in Ht. destruct Ht as [<-|[<-|[<-|[]]]]; split; apply String.eqb_neq; reflexivity. Qed.

Lemma tier_host now tier d :
  In tier tiers ->
  table ("host_rollups_" +:+ tier.1) (tier_tables now tier d) =
    fold_left (fun t r => replace_row ("host_rollups_" +:+ tier.1) r t)
      (host_groups sql_avg (tier.2 / Millisecond) (time_unix_milli (truncate now tier.2)) (table "host_samples_10s" d))
      (table ("host_rollups_" +:+ tier.1) d).
Proof. intros Ht. destruct (tier_names tier Ht). unfold tier_tables. cbv zeta. by rewrite table_set_ne, table_set. Qed.
Lemma tier_resource now tier d :
  In tier tiers ->
  table ("resource_rollups_" +:+ tier.1) (tier_tables now tier d) =
    fold_left (fun t r => replace_row ("resource_rollups_" +:+ tier.1) r t)
      (resource_groups sql_avg (tier.2 / Millisecond) (time_unix_milli (truncate now tier.2)) (table "resource_samples_10s" d))
      (table ("resource_rollups_" +:+ tier.1) d).
Proof.
  intros Ht. destruct (tier_names tier Ht). unfold tier_tables. cbv zeta. rewrite table_set.
  rewrite !(table_set_ne _ ("host_rollups_" +:+ tier.1)) by congruence. done.
Qed.

Definition rolled_up (now : Z) (d : StoreDB) : StoreDB := fold_left (fun d tier => tier_tables now tier d) tiers d.

Lemma rollup_healthy now d rn ck :
  refs_ok d = true -> RollupOnce sql_avg now (World d [] rn ck) = (inr tt, World (rolled_up now d) [] rn ck).
Proof.
  intros Hr. unfold RollupOnce, rolled_up.
  assert (forall l, incl l tiers -> forall d, refs_ok d = true ->
    iter_tx (rollup_tier sql_avg now) l (World d [] rn ck) =
      (inr tt, World (fold_left (fun d tier => tier_tables now tier d) l d) [] rn ck)) as Hl; [|apply Hl; [apply incl_refl|done]].
  clear. induction l as [|tier l IH]; intros Hi d Hr; [done|]. cbn [iter_tx fold_left]. unfold bind.
  destruct (tier_healthy now tier d rn ck Hr) as [-> Hr']; [apply Hi; by left|]. apply IH; [|done].
  intros x Hx. apply Hi. by right.
Qed.

(** Each tier's tables are written once, from samples no tier touches. *)
Lemma rolled_up_tables now d :
  (forall n, ~ In n (concat (map (fun t => rollup_tables t.1) tiers)) -> table n (rolled_up now d) = table n d) /\
  (forall tier n, In tier tiers -> In n (rollup_tables tier.1) ->
    table n (rolled_up now d) = table n (tier_tables now tier d)).
Proof.
  unfold rolled_up, tiers. cbn [fold_left map concat app In fst]. split.
  - intros n Hn. rewrite !tier_others; [done|..]; cbn in Hn |- *; tauto.
  - intros tier n Ht Hn.
    assert (forall t t', In t' tiers -> t <> t'.1 -> str_in t ["1m"; "15m"; "1h"] = true ->
      forall n, In n (rollup_tables t) -> ~ In n (rollup_tables t'.1)) as Hdis.
    { intros t t' Ht' Hne Hs n0 Hn0 Hn1. apply str_in_spec in Hs.
      cbn in Ht', Hs. destruct Ht' as [<-|[<-|[<-|[]]]], Hs as [<-|[<-|[<-|[]]]]; try done;
        cbn in Hn0, Hn1; destruct Hn0 as [<-|[<-|[]]], Hn1 as [?|[?|[]]]; done. }
    assert (forall t d1 d2, table "host_samples_10s" d1 = table "host_samples_10s" d2 ->
      table "resource_samples_10s" d1 = table "resource_samples_10s" d2 ->
      (forall n, In n (rollup_tables t.1) -> table n d1 = table n d2) ->
      forall n, In t tiers -> In n (rollup_tables t.1) -> table n (tier_tables now t d1) = table n (tier_tables now t d2)) as Hext.
    { intros t d1 d2 E1 E2 E3 n0 Ht0 Hn0.
      destruct Hn0 as [<-|[<-|[]]]; [rewrite !tier_host, E1, E3 by (try done; cbn; tauto)|
        rewrite !tier_resource, E2, E3 by (try done; cbn; tauto)]; done. }
    assert (forall t, In t tiers -> forall m, m = "host_samples_10s" \/ m = "resource_samples_10s" ->
      ~ In m (rollup_tables t.1)) as Hsm.
    { intros t Ht' m Hm Hin. cbn in Ht'. destruct Ht' as [<-|[<-|[<-|[]]]], Hm as [-> | ->]; cbn in Hin;
        destruct Hin as [?|[?|[]]]; done. }
    cbn [tiers In] in Ht. destruct Ht as [<-|[<-|[<-|[]]]].
    + do 2 rewrite tier_others by (apply (Hdis "1m"); [cbn; auto|by apply String.eqb_neq|reflexivity|exact Hn]). done.
    + rewrite tier_others by (apply (Hdis "15m"); [cbn; auto|by apply String.eqb_neq|reflexivity|exact Hn]).
      apply Hext; [..|cbn; tauto|done].
      * apply tier_others, Hsm; cbn; auto.
      * apply tier_others, Hsm; cbn; auto.
      * intros m Hm. apply tier_others, (Hdis "15m"); [cbn; auto|by apply String.eqb_neq|reflexivity|exact Hm].
    + apply Hext; [..|cbn; tauto|done].
      * rewrite !tier_others; [done|apply Hsm; cbn; auto..].
      * rewrite !tier_others; [done|apply Hsm; cbn; auto..].
      * intros m Hm. rewrite !tier_others; [done|(apply (Hdis "1h"); [cbn; auto|by apply String.eqb_neq|reflexivity|exact Hm])..].
Qed.

(** C9 (equivalence): a rollup is the aggregate of the closed buckets.  When
    storage does not fail, after [RollupOnce] each tier holds, per bucket that
    is closed and has samples left, exactly the aggregate of those samples,
    besides the earlier rows of buckets without samples; no open bucket is
    materialised and no other table changes.  The minimum and maximum columns
    bound the samples of the bucket and are among them, and the count is the
    number of samples with a value. *)
Theorem rollup_exact (now : Z) (d : StoreDB) (rn : nat) (ck : list Z) :
  refs_ok d = true ->
  exists d', RollupOnce sql_avg now (World d [] rn ck) = (inr tt, World d' [] rn ck) /\
    (forall tier size x, In (tier, size) tiers ->
      let bucket := size / Millisecond in let cutoff := time_unix_milli (truncate now size) in
      let samples := table "host_samples_10s" d in
      In x (table ("host_rollups_" +:+ tier) d') <->
      (exists k, bucket_samples bucket cutoff k samples <> [] /\ x = host_rollup sql_avg bucket cutoff k samples) \/
      (In x (table ("host_rollups_" +:+ tier) d) /\
       forall r, In r samples -> closed cutoff r = true -> col "ts" x <> VInt (bucket_ts bucket r))) /\
    (forall tier size x, In (tier, size) tiers ->
      let bucket := size / Millisecond in let cutoff := time_unix_milli (truncate now size) in
      let samples := table "resource_samples_10s" d in
      In x (table ("resource_rollups_" +:+ tier) d') <->
      (exists id k, resource_bucket bucket cutoff id k samples <> [] /\
         x = resource_rollup sql_avg bucket cutoff id k samples) \/
      (In x (table ("resource_rollups_" +:+ tier) d) /\
       forall r, In r samples -> closed cutoff r = true ->
         (col "resource_id" x, col "ts" x) <> (col "resource_id" r, VInt (bucket_ts bucket r)))) /\
    (forall n, ~ In n (concat (map (fun t => rollup_tables t.1) tiers)) -> table n d' = table n d) /\
    (forall a bucket cutoff k samples v, In a host_aggregates ->
      let rows := bucket_samples bucket cutoff k samples in let x := host_rollup sql_avg bucket cutoff k samples in
      let vs := values (ag_expr a) rows in
      col (ag_count a) x = VInt (Z.of_nat (length vs)) /\
      (homogeneous vs -> In v vs ->
        In (col (ag_prefix a +:+ "_min") x) vs /\ In (col (ag_prefix a +:+ "_max") x) vs /\
        value_le (col (ag_prefix a +:+ "_min") x) v = true /\ value_le v (col (ag_prefix a +:+ "_max") x) = true)).
Proof.
  intros Hr. exists (rolled_up now d). destruct (rolled_up_tables now d) as [Ho Ht].
  split_and!; [by apply rollup_healthy| | |exact Ho|].
  - intros tier size x Hin. cbv zeta. rewrite (Ht (tier, size)) by (cbn; auto).
    change tier with (tier, size).1. rewrite tier_host by done. cbn [fst snd].
    apply host_table_exact; cbn in Hin; destruct Hin as [E|[E|[E|[]]]]; injection E as <- <-; reflexivity.
  - intros tier size x Hin. cbv zeta. rewrite (Ht (tier, size)) by (cbn; auto).
    change tier with (tier, size).1. rewrite tier_resource by done. cbn [fst snd].
    apply resource_table_exact; cbn in Hin; destruct Hin as [E|[E|[E|[]]]]; injection E as <- <-; reflexivity.
  - intros a bucket cutoff k samples v Ha. cbv zeta.
    destruct (host_columns a bucket cutoff k samples Ha) as (Emin & Emax & Ecount & _). rewrite Ecount, Emin, Emax.
    split; [done|]. intros Hh Hv. destruct (sql_min_max _ Hh) as (H1 & H2 & H3); [by intros E; rewrite E in Hv|].
    destruct (H3 v Hv). by split_and!.
Qed.
End theorem.

(** ** Witness *)

Definition sample_host_row (ts : Z) (mem : Z) : Row := row [("ts", VInt ts); ("host_id", VText "host"); ("memory_used_bytes", VInt mem)].
Definition sample_history : StoreDB :=
  mkStore (list_to_map [("host_samples_10s", [sample_host_row 10000 4; sample_host_row 50000 6; sample_host_row 70000 9])]) [] [].

Lemma rollup_exact_witness :
  exists d', RollupOnce (fun _ => f64_zero) (2 * Minute - 1) (World sample_history [] 0 []) = (inr tt, World d' [] 0 []) /\
    exists x, In x (table "host_rollups_1m" d') /\ col "ts" x = VInt 0 /\ col "memory_min" x = VInt 4 /\
      col "memory_max" x = VInt 6 /\ col "memory_count" x = VInt 2.
Proof.
  destruct (rollup_exact (fun _ => f64_zero) (2 * Minute - 1) sample_history 0 []) as (d' & E & Hh & _); [by vm_compute|].
  exists d'. split; [exact E|].
  exists (host_rollup (fun _ => f64_zero) 60000 60000 0 (table "host_samples_10s" sample_history)). split.
  - apply (proj2 (Hh "1m" Minute _ (or_introl eq_refl))). left. exists 0. split; [|reflexivity].
    intros C. vm_compute in C. discriminate C.
  - split_and!; vm_compute; reflexivity.
Defined.
