(* ===== verification/Retention.v ===== *)
(** * Retention and the storage budget

    [internal/storage/retention.go], [budget.go] and
    [internal/retention/delete.go]: expiry of every tier, the soft budget of
    the database file, and the pause of raw persistence in an emergency. *)

From stdpp Require Import base tactics list gmap strings pretty.
From Stdlib Require Import ZArith Lia SpecFloat.
From S2P Require Import Prelude Float64 Db Metrics StoreSchema StoreWriter Rollups.

(** ** Budget *)

Inductive BudgetState := BudgetOK | BudgetWarning | BudgetCritical | BudgetEmergency.
#[export] Instance BudgetState_eq_dec : EqDecision BudgetState.
Proof. solve_decision. Defined.

Definition EvaluateBudget (used target : Z) (warning critical emergency : F64) : BudgetState :=
  if target <=? 0 then BudgetOK
  else
    let r := f64_div (f64_of_Z used) (f64_of_Z target) in
    if (r >=? emergency)%F then BudgetEmergency
    else if (r >=? critical)%F then BudgetCritical
    else if (r >=? warning)%F then BudgetWarning
    else BudgetOK.

Record RetentionCutoffs := mkCutoffs { rt_Raw : Z; rt_OneMinute : Z; rt_FifteenMinute : Z; rt_OneHour : Z }.
Record DatabaseBudget := mkBudget { bu_UsedBytes : Z; bu_TargetBytes : Z; bu_State : BudgetState }.

(** The part of [Manager] these operations use *)
Record Manager := mkManager {
  mg_retention : RetentionCutoffs; mg_budget : DatabaseBudget; mg_emergencyPause : bool;
}.
Definition SetRetention (r : RetentionCutoffs) (m : Manager) : Manager :=
  mkManager r (mg_budget m) (mg_emergencyPause m).
Definition SetBudgetTarget (bytes : Z) (m : Manager) : Manager :=
  mkManager (mg_retention m) (mkBudget (bu_UsedBytes (mg_budget m)) bytes (bu_State (mg_budget m))) (mg_emergencyPause m).
Definition EmergencyPause (m : Manager) : bool := mg_emergencyPause m.
Definition Budget (m : Manager) : DatabaseBudget := mg_budget m.

(** ** Retention *)

(** [retention.DeleteBefore] *)
Definition retention_DeleteBefore (t : string) (cutoff limit : Z) : tx StoreDB Z :=
  let limit := if limit <? 1 then 500 else limit in
  delete_batch t (fun _ r => row_ts r <? cutoff) (Z.to_nat limit).

Definition cutoffs (r : RetentionCutoffs) : list (string * Z) :=
  [ ("host_samples_10s", rt_Raw r); ("resource_samples_10s", rt_Raw r);
    ("container_instance_samples_10s", rt_Raw r); ("filesystem_samples_1m", rt_Raw r);
    ("network_interface_samples_1m", rt_Raw r); ("events", rt_Raw r); ("collector_state_events", rt_Raw r);
    ("host_rollups_1m", rt_OneMinute r); ("resource_rollups_1m", rt_OneMinute r);
    ("host_rollups_15m", rt_FifteenMinute r); ("resource_rollups_15m", rt_FifteenMinute r);
    ("host_rollups_1h", rt_OneHour r); ("resource_rollups_1h", rt_OneHour r) ].

Definition older (cutoff : Z) (r : Row) : bool := row_ts r <? cutoff.

(** The loop on one table: a failed count ends it, a failed deletion ends the
    whole run, and between the batches of an aggressive run a cancelled
    context does.  Every batch deletes a row at least, so the number of rows
    bounds the rounds. *)
Fixpoint expire (fuel : nat) (aggressive : bool) (t : string) (cutoff : Z) (limit : nat) : tx StoreDB unit :=
  match fuel with
  | O => ret tt
  | S fuel =>
      n <- or_default 0 (count_rows t (fun _ => older cutoff)) ;;
      if n =? 0 then ret tt
      else
        delete_batch t (fun _ => older cutoff) limit ;;;
        (if aggressive then query (fun _ => tt) else ret tt) ;;;
        expire fuel aggressive t cutoff limit
  end.

Definition expire_table (aggressive : bool) (now : Z) (limit : nat) (e : string * Z) : tx StoreDB unit := fun w =>
  if e.2 <=? 0 then (inr tt, w)
  else expire (S (length (table e.1 (w_db w)))) aggressive e.1 (time_unix_milli (time_add now (- e.2))) limit w.

Definition retention_limit (aggressive : bool) : nat := if aggressive then 2000 else 500.

Section retention.
(** [PRAGMA page_count] and [PRAGMA freelist_count] *)
Context (page_count freelist_count : StoreDB -> Z).

Definition vacuumIfWorthwhile : tx StoreDB unit :=
  pages <- query page_count ;;
  freelist <- query freelist_count ;;
  if (pages =? 0) || (f64_div (f64_of_Z freelist) (f64_of_Z pages) <? f64_lit 2 1)%F then ret tt
  else exec (fun d => inr (tt, d)).

(** [order] is the order in which the map of cutoffs is visited. *)
Definition applyRetention (order : list (string * Z)) (r : RetentionCutoffs) (aggressive : bool) : tx StoreDB unit :=
  if rt_Raw r =? 0 then ret tt
  else
    now <- time_now ;;
    iter_tx (expire_table aggressive now (retention_limit aggressive)) order ;;;
    if aggressive then ret tt else ignore vacuumIfWorthwhile.

Definition budget_event (at_ : Z) (type severity message : string) : Event :=
  mkEvent 0 at_ type "" "" severity message "" "".

(** [databaseSize] never fails, since errors of [os.Stat] are skipped;
    [used] is its result. *)
Definition evaluateBudgetAndRetention (order : list (string * Z)) (used : Z) (runRetention : bool) (m : Manager) :
    tx StoreDB Manager :=
  let target := bu_TargetBytes (mg_budget m) in
  let state := EvaluateBudget used target (f64_lit 8 1) (f64_lit 95 2) (f64_lit 98 2) in
  let paused := bool_decide (state = BudgetEmergency) in
  let m' := mkManager (mg_retention m) (mkBudget used target state) paused in
  (if Bool.eqb (mg_emergencyPause m) paused then ret tt
   else
     now <- time_now ;;
     ignore (WriteEvent (if paused
       then budget_event now "persistence_emergency" "critical"
              "Raw history persistence paused; database volume reached emergency threshold"
       else budget_event now "persistence_resumed" "info"
              "Raw history persistence resumed; database volume below emergency threshold"))) ;;;
  (if runRetention
   then ignore (applyRetention order (mg_retention m)
          (bool_decide (state = BudgetCritical) || bool_decide (state = BudgetEmergency)))
   else ret tt) ;;;
  ret m'.
End retention.

(** ** Properties *)

Lemma expiring_plain r : Forall (fun e => plain_table e.1 = true) (cutoffs r).
Proof. repeat constructor. Qed.

(** A batch on a table without references *)
Lemma delete_batch_plain n p k d rn ck :
  refs_ok d = true -> plain_table n = true ->
  delete_batch n p k (World d [] rn ck) =
    (inr (Z.min (Z.of_nat k) (sql_count (p d) (table n d))),
     World (cascade (set_table n (delete_first (p d) k (table n d)) d)) [] rn ck) /\
  refs_ok (cascade (set_table n (delete_first (p d) k (table n d)) d)) = true.
Proof.
  intros Hr Hn. assert (unreferenced n (p d) d) as Hu.
  { apply unreferenced_not_parent. intros fk Hfk E. by destruct (plain_not n fk Hn Hfk). }
  split; [by apply delete_batch_healthy|by apply delete_refs_ok].
Qed.

(** Expiring one table of a healthy database *)
Lemma expire_healthy fuel aggressive t cutoff k d rn ck :
  refs_ok d = true -> plain_table t = true -> (0 < k)%nat -> sql_count (older cutoff) (table t d) < Z.of_nat fuel ->
  exists d', expire fuel aggressive t cutoff k (World d [] rn ck) = (inr tt, World d' [] rn ck) /\ refs_ok d' = true /\
    table t d' = sql_delete (older cutoff) (table t d) /\ (forall n, n <> t -> table n d' = table n d).
Proof.
  revert d. induction fuel as [|fuel IH]; intros d Hr Hp Hk Hc.
  { pose proof (sql_count_nonneg (older cutoff) (table t d)). lia. }
  cbn [expire]. unfold bind at 1.
  assert (or_default 0 (count_rows t (fun _ => older cutoff)) (World d [] rn ck) =
    (inr (sql_count (older cutoff) (table t d)), World d [] rn ck)) as -> by reflexivity.
  destruct (sql_count (older cutoff) (table t d) =? 0) eqn:E0.
  { exists d. split_and!; [done|done| |done]. by rewrite sql_delete_none by lia. }
  unfold bind at 1. destruct (delete_batch_plain t (fun _ => older cutoff) k d rn ck Hr Hp) as [-> Hr1].
  set (d1 := cascade _) in *.
  assert (forall n, table n d1 = table n (set_table t (delete_first (older cutoff) k (table t d)) d)) as Ht.
  { intros n. apply cascade_refs. by rewrite refs_ok_plain. }
  assert ((if aggressive then query (fun _ => tt) else ret tt) (World d1 [] rn ck) = (inr tt, World d1 [] rn ck)) as Hy
    by (by destruct aggressive).
  unfold bind at 1. rewrite Hy.
  destruct (IH d1 Hr1 Hp Hk) as (d' & E & Hr' & Ht' & Ho').
  { rewrite Ht, table_set, delete_first_count. pose proof (sql_count_nonneg (older cutoff) (table t d)). lia. }
  exists d'. split_and!; [done|done| |].
  - by rewrite Ht', Ht, table_set, delete_first_rest.
  - intros n Hn. by rewrite Ho', Ht, table_set_ne.
Qed.

(** What a table keeps *)
Definition retained (now : Z) (e : string * Z) (t : list Row) : list Row :=
  if e.2 <=? 0 then t else sql_delete (older (time_unix_milli (time_add now (- e.2)))) t.

Lemma retention_limit_pos aggressive : (0 < retention_limit aggressive)%nat.
Proof. destruct aggressive; unfold retention_limit; lia. Qed.

Lemma expire_table_healthy aggressive now e d rn ck :
  refs_ok d = true -> plain_table e.1 = true ->
  exists d', expire_table aggressive now (retention_limit aggressive) e (World d [] rn ck) = (inr tt, World d' [] rn ck) /\
    refs_ok d' = true /\ table e.1 d' = retained now e (table e.1 d) /\ (forall n, n <> e.1 -> table n d' = table n d).
Proof.
  intros Hr Hp. unfold expire_table, retained. cbn [w_db]. destruct (e.2 <=? 0); [by exists d|].
  apply expire_healthy; [done|done|apply retention_limit_pos|].
  unfold sql_count. pose proof (List.filter_length_le (older (time_unix_milli (time_add now (- e.2)))) (table e.1 d)). lia.
Qed.

Lemma retention_tables aggressive now order d rn ck :
  refs_ok d = true -> Forall (fun e => plain_table e.1 = true) order -> NoDup (map fst order) ->
  exists d', iter_tx (expire_table aggressive now (retention_limit aggressive)) order (World d [] rn ck) =
      (inr tt, World d' [] rn ck) /\
    (forall e, In e order -> table e.1 d' = retained now e (table e.1 d)) /\
    (forall n, ~ In n (map fst order) -> table n d' = table n d).
Proof.
  revert d. induction order as [|e order IH]; intros d Hr Hp Hnd; [by exists d; split_and!|].
  inversion_clear Hp as [|? ? He Hp']. cbn [map] in Hnd. apply NoDup_cons in Hnd as [Hne Hnd].
  cbn [iter_tx]. unfold bind.
  destruct (expire_table_healthy aggressive now e d rn ck Hr He) as (d1 & -> & Hr1 & Ht1 & Ho1).
  destruct (IH d1 Hr1 Hp' Hnd) as (d' & -> & Ht' & Ho'). exists d'. split_and!; [done| |].
  - intros e' [<-|Hin].
    + rewrite Ho' by (intros Hin; by apply Hne, list_elem_of_In). done.
    + rewrite Ht' by done. f_equal. apply Ho1. intros E. apply Hne. rewrite <- E. by apply list_elem_of_In, in_map.
  - intros n Hn. cbn in Hn. rewrite Ho', Ho1; [done|intros ->; tauto|tauto].
Qed.

Lemma cutoffs_nodup r : NoDup (map fst (cutoffs r)).
Proof. apply (bool_decide_eq_true_1 _). by vm_compute. Qed.

(** A row that the policy lets go *)
Definition expired (r : RetentionCutoffs) (now : Z) (n : string) (x : Row) : Prop :=
  exists duration, In (n, duration) (cutoffs r) /\ 0 < duration /\
    older (time_unix_milli (time_add now (- duration))) x = true.
Definition kept_or_expired (r : RetentionCutoffs) (now : Z) (d0 d : StoreDB) : Prop :=
  forall n x, n <> "deployment_grace_periods" -> In x (table n d0) -> In x (table n d) \/ expired r now n x.

Lemma expire_safe r now d0 fuel aggressive t duration limit :
  In (t, duration) (cutoffs r) -> 0 < duration ->
  preserves (kept_or_expired r now d0)
    (expire fuel aggressive t (time_unix_milli (time_add now (- duration))) limit).
Proof.
  intros Hin Hd. induction fuel as [|fuel IH]; cbn [expire]; [apply preserves_ret|]. unfold count_rows.
  frame_auto; try done. apply exec_preserves. intros d m d' Hi [E _]%checked_inr. apply (f_equal snd) in E. cbn [snd] in E. subst d'.
  intros n x Hg Hx. destruct (Hi n x Hg Hx) as [Hx'|]; [|by right]. rewrite table_cascade by done.
  destruct (decide (n = t)) as [->|]; [|rewrite table_set_ne by done; by left]. rewrite table_set.
  destruct (older (time_unix_milli (time_add now (- duration))) x) eqn:E; [right; exists duration; done|].
  left. by apply delete_first_keeps.
Qed.

Lemma retention_safe r now d0 aggressive order :
  order ≡ₚ cutoffs r ->
  preserves (kept_or_expired r now d0) (iter_tx (expire_table aggressive now (retention_limit aggressive)) order).
Proof.
  intros Hperm. apply triple_iter. intros [t dur] He w Hw. rewrite Hperm in He. apply list_elem_of_In in He.
  unfold expire_table. cbn [fst snd]. destruct (dur <=? 0) eqn:Ee; [done|].
  apply expire_safe; [done|lia|done].
Qed.

(** C12 (safety): retention keeps what the policy keeps.  Whatever statements
    fail, a run removes from a table only rows older than the table's limit.
    When storage does not fail it removes all of them, from every tier with a
    limit, and nothing from any other table, in whatever order the tables are
    visited. *)
Theorem retention_exact (page_count freelist_count : StoreDB -> Z) (r : RetentionCutoffs) (order : list (string * Z))
    (aggressive : bool) :
  order ≡ₚ cutoffs r -> rt_Raw r <> 0 ->
  (forall w n x, n <> "deployment_grace_periods" -> In x (table n (w_db w)) ->
    ~ In x (table n (w_db (applyRetention page_count freelist_count order r aggressive w).2)) ->
    expired r (hd 0 (w_clock w)) n x) /\
  (forall d rn ck, refs_ok d = true ->
    exists w', applyRetention page_count freelist_count order r aggressive (World d [] rn ck) = (inr tt, w') /\
      (forall e, In e (cutoffs r) -> table e.1 (w_db w') = retained (hd 0 ck) e (table e.1 d)) /\
      (forall n, ~ In n (map fst (cutoffs r)) -> table n (w_db w') = table n d)).
Proof.
  intros Hperm Hraw. assert ((rt_Raw r =? 0) = false) as Eraw by (by apply Z.eqb_neq).
  unfold applyRetention. rewrite Eraw. split.
  - intros w n x Hg Hx Hout.
    assert (exists now w1, time_now w = (inr now, w1) /\ now = hd 0 (w_clock w) /\ w_db w1 = w_db w) as (now & w1 & E & En & Ew)
      by (unfold time_now; destruct (w_clock w); by eexists _, _).
    unfold bind at 1 in Hout. rewrite E in Hout. rewrite <- En.
    assert (preserves (kept_or_expired r now (w_db w))
      (iter_tx (expire_table aggressive now (retention_limit aggressive)) order ;;;
       if aggressive then ret tt else ignore (vacuumIfWorthwhile page_count freelist_count))) as Hp.
    { apply preserves_bind; [by apply retention_safe|]. intros _. unfold vacuumIfWorthwhile. frame_auto; try done.
      by apply exec_preserves; intros ? ? ? ? [= _ <-]. }
    specialize (Hp w1). rewrite Ew in Hp. specialize (Hp ltac:(by left)).
    destruct ((iter_tx _ _ ;;; _) w1) as [[] w2]; destruct (Hp n x Hg Hx); done.
  - intros d rn ck Hr.
    assert (time_now (World d [] rn ck) = (inr (hd 0 ck), World d [] rn (tl ck))) as E by (unfold time_now; by destruct ck).
    unfold bind at 1. rewrite E. unfold bind at 1.
    destruct (retention_tables aggressive (hd 0 ck) order d rn (tl ck) Hr) as (d' & -> & Ht & Ho).
    { rewrite Hperm. apply expiring_plain. } { rewrite Hperm. apply cutoffs_nodup. }
    assert (exists w', (if aggressive then ret tt else ignore (vacuumIfWorthwhile page_count freelist_count)) (World d' [] rn (tl ck)) =
      (inr tt, w') /\ w_db w' = d') as (w' & -> & Ew).
    { destruct aggressive; [by eexists|]. unfold ignore. eexists. split; [done|].
      unfold vacuumIfWorthwhile, bind, query, exec. cbn. by destruct (_ || _). }
    exists w'. rewrite Ew. split_and!; [done| |].
    + intros e He. apply Ht. by rewrite Hperm.
    + intros n Hn. apply Ho. by rewrite Hperm.
Qed.

(** ** Witness and findings *)

Definition sample_retention : RetentionCutoffs := mkCutoffs (40 * Second) Hour Hour Hour.

(** At a minute and a half, a limit of 40 seconds takes the samples before 50 s. *)
Lemma retention_exact_witness :
  exists w', applyRetention (fun _ => 0) (fun _ => 0) (rev (cutoffs sample_retention)) sample_retention false
      (World sample_history [] 0%nat [90 * Second]) = (inr tt, w') /\
    table "host_samples_10s" (w_db w') = [sample_host_row 50000 6; sample_host_row 70000 9].
Proof.
  destruct (retention_exact (fun _ => 0) (fun _ => 0) sample_retention (rev (cutoffs sample_retention)) false) as [_ H];
    [by rewrite <- Permutation_rev|done|].
  destruct (H sample_history 0%nat [90 * Second]) as (w' & E & Ht & _); [by vm_compute|].
  exists w'. split; [exact E|].
  etransitivity; [exact (Ht ("host_samples_10s", 40 * Second) (or_introl eq_refl))|]. vm_compute. reflexivity.
Defined.

(** The one-minute rollup of the first minute, as ([memory_min], [memory_count]) *)
Definition first_minute (d : StoreDB) : list (Value * Value) :=
  map (fun x => (col "memory_min" x, col "memory_count" x))
    (List.filter (fun x => bool_decide (col "ts" x = VInt 0)) (table "host_rollups_1m" d)).

(** Retention cuts in the middle of a bucket, and the next pass of the rollup
    replaces the whole bucket by an aggregate of what is left: the sample of
    4 bytes is gone from the minimum that the rollup was kept for. *)
Lemma rollup_loses_expired_samples :
  let roll := RollupOnce (fun _ => f64_zero) (2 * Minute) in
  let expire_raw := applyRetention (fun _ => 0) (fun _ => 0) (cutoffs sample_retention) sample_retention false in
  first_minute (w_db (roll (World sample_history [] 0%nat [90 * Second])).2) = [(VInt 4, VInt 2)] /\
  first_minute (w_db ((roll ;;; expire_raw ;;; roll) (World sample_history [] 0%nat [90 * Second])).2) = [(VInt 6, VInt 1)].
Proof. split; vm_compute; reflexivity. Qed.

(** The events that report a pause of persistence and its end carry the id 0,
    and the table ignores an event whose id it has: of a pause, its end and a
    second pause, only the first is recorded. *)
Lemma budget_events_lost :
  let m := mkManager sample_retention (mkBudget 0 100 BudgetOK) false in
  let tick used m := evaluateBudgetAndRetention (fun _ => 0) (fun _ => 0) [] used false m in
  let r := (m1 <- tick 99 m ;; m2 <- tick 10 m1 ;; tick 99 m2) (World (mkStore ∅ [] []) [] 0%nat [Second; 2 * Second; 3 * Second]) in
  (mg_emergencyPause <$> match r.1 with inr m' => Some m' | inl _ => None end) = Some true /\
  map (fun x => (col "type" x, col "ts" x)) (table "events" (w_db r.2)) = [(VText "persistence_emergency", VInt 1000)].
Proof. split; vm_compute; reflexivity. Qed.
