(* ===== verification/History.v ===== *)
(** * Reading history

    [internal/storage/history.go] and [events.go]: metric queries over the raw
    samples and the rollups, with their gaps, and the event log. *)

From stdpp Require Import base tactics list gmap strings pretty.
From Stdlib Require Import ZArith Lia SpecFloat Sorted.
From S2P Require Import Prelude Float64 Db Metrics StoreSchema StoreWriter Rollups.

(** ** Metrics *)

Definition Metric := string.
Definition MetricCPU : Metric := "cpu".
Definition MetricCPUUser : Metric := "cpu_user".
Definition MetricCPUSystem : Metric := "cpu_system".
Definition MetricCPUIOWait : Metric := "cpu_iowait".
Definition MetricCPUSteal : Metric := "cpu_steal".
Definition MetricMemory : Metric := "memory".
Definition MetricSwap : Metric := "swap".
Definition MetricLoad1 : Metric := "load_1".
Definition MetricLoad5 : Metric := "load_5".
Definition MetricLoad15 : Metric := "load_15".
Definition MetricNetworkRX : Metric := "network_rx".
Definition MetricNetworkTX : Metric := "network_tx".
Definition MetricNetworkPackets : Metric := "network_packets".
Definition MetricDiskRead : Metric := "disk_read".
Definition MetricDiskWrite : Metric := "disk_write".
Definition MetricDiskIOPS : Metric := "disk_iops".
Definition MetricBlockRead : Metric := "block_read".
Definition MetricBlockWrite : Metric := "block_write".

Inductive Resolution := ResolutionRaw | Resolution1m | Resolution15m | Resolution1h.
Definition resolution_name (r : Resolution) : string :=
  match r with ResolutionRaw => "10s" | Resolution1m => "1m" | Resolution15m => "15m" | Resolution1h => "1h" end.

Record MetricQuery := mkMetricQuery {
  mq_Scope : string; mq_ID : string; mq_Metrics : list Metric; mq_From : Z; mq_To : Z;
}.
Record Point := mkPoint {
  p_At : Z; p_Min : option F64; p_Avg : option F64; p_Max : option F64; p_Count : Z;
}.
Record Series := mkSeries { se_Metric : Metric; se_Unit : string; se_Points : list Point }.
Record Gap := mkGap { g_From : Z; g_To : Z; g_Reason : string }.
Record MetricsResponse := mkMetricsResponse {
  mr_Scope : string; mr_ID : string; mr_From : Z; mr_To : Z; mr_Resolution : Resolution;
  mr_Series : list Series; mr_Gaps : list Gap;
}.

Definition HasMetricHistory : tx StoreDB bool :=
  query (fun d => sql_exists (fun _ => true) (table "host_samples_10s" d)).

Definition hostMetrics : list Metric :=
  [ MetricCPU; MetricCPUUser; MetricCPUSystem; MetricCPUIOWait; MetricCPUSteal; MetricMemory; MetricSwap;
    MetricLoad1; MetricLoad5; MetricLoad15; MetricNetworkRX; MetricNetworkTX; MetricDiskRead; MetricDiskWrite;
    MetricDiskIOPS ].
Definition resourceMetrics : list Metric :=
  [ MetricCPU; MetricMemory; MetricNetworkRX; MetricNetworkTX; MetricBlockRead; MetricBlockWrite ].
Definition metricAllowed (scope : string) (metric : Metric) : bool :=
  if scope =?s "host" then str_in metric hostMetrics else str_in metric resourceMetrics.

Fixpoint validate_metrics (scope : string) (seen l : list Metric) : gerr + unit :=
  match l with
  | [] => inr tt
  | m :: l =>
      if str_in m seen || negb (metricAllowed scope m) then inl (EMsg ("invalid metric " +:+ m))
      else validate_metrics scope (m :: seen) l
  end.
Definition MetricQuery_Validate (q : MetricQuery) : gerr + unit :=
  if negb (mq_Scope q =?s "host") && negb (mq_Scope q =?s "resource") then inl (EMsg "invalid scope")
  else if (mq_Scope q =?s "host") && negb (mq_ID q =?s "") then inl (EMsg "host metrics do not accept id")
  else if (mq_Scope q =?s "resource") && (mq_ID q =?s "") then inl (EMsg "resource id is required")
  else if is_zero_time (mq_From q) || is_zero_time (mq_To q) || negb (mq_From q <? mq_To q) ||
          (30 * 24 * Hour <? time_sub (mq_To q) (mq_From q))
  then inl (EMsg "invalid time range")
  else if (length (mq_Metrics q) =? 0)%nat || (6 <? length (mq_Metrics q))%nat then inl (EMsg "invalid metric count")
  else validate_metrics (mq_Scope q) [] (mq_Metrics q).

Definition selectResolution (d : Z) : Resolution :=
  if d <=? 2 * Hour then ResolutionRaw
  else if d <=? 1000 * Minute then Resolution1m
  else if d <=? 1000 * 15 * Minute then Resolution15m
  else Resolution1h.

Definition metricUnit (metric : Metric) : string :=
  if str_in metric [MetricCPU; MetricCPUUser; MetricCPUSystem; MetricCPUIOWait; MetricCPUSteal] then "percent"
  else if str_in metric [MetricMemory; MetricSwap] then "bytes"
  else if str_in metric [MetricLoad1; MetricLoad5; MetricLoad15] then "load"
  else if str_in metric [MetricDiskIOPS] then "ops_per_second"
  else "bytes_per_second".

(** ** Where a metric is read *)

Definition metric_columns : list (Metric * (Expr * string)) :=
  [ (MetricCPU, (Column "cpu_busy_pct", "cpu")); (MetricCPUUser, (Column "cpu_user_pct", "cpu_user"));
    (MetricCPUSystem, (Column "cpu_system_pct", "cpu_system")); (MetricCPUIOWait, (Column "cpu_iowait_pct", "cpu_iowait"));
    (MetricCPUSteal, (Column "cpu_steal_pct", "cpu_steal")); (MetricMemory, (Column "memory_used_bytes", "memory"));
    (MetricSwap, (Column "swap_used_bytes", "swap_used")); (MetricLoad1, (Column "load_1", "load_1"));
    (MetricLoad5, (Column "load_5", "load_5")); (MetricLoad15, (Column "load_15", "load_15"));
    (MetricNetworkRX, (Column "network_rx_bps", "network_rx")); (MetricNetworkTX, (Column "network_tx_bps", "network_tx"));
    (MetricDiskRead, (Column "disk_read_bps", "disk_read")); (MetricDiskWrite, (Column "disk_write_bps", "disk_write"));
    (MetricDiskIOPS, (Sum "disk_read_iops" "disk_write_iops", "disk_iops"));
    (MetricBlockRead, (Column "block_read_bps", "block_read")); (MetricBlockWrite, (Column "block_write_bps", "block_write")) ].
Definition assoc {A} (k : string) (l : list (string * A)) : option A :=
  snd <$> List.find (fun e => e.1 =?s k) l.

Record Source := mkSource { so_min : Expr; so_avg : Expr; so_max : Expr; so_count : string; so_table : string }.

Definition metricSource (scope : string) (metric : Metric) (res : Resolution) : gerr + Source :=
  match assoc metric metric_columns with
  | None => inl (EMsg "unsupported metric")
  | Some (raw, prefix) =>
      match res with
      | ResolutionRaw =>
          let tbl := if scope =?s "host" then "host_samples_10s" else "resource_samples_10s" in
          let column :=
            if scope =?s "resource" then
              if metric =?s MetricCPU then Column "cpu_host_pct"
              else if metric =?s MetricMemory then Column "memory_working_set_bytes" else raw
            else raw in
          inr (mkSource column column column "" tbl)
      | _ =>
          let count := if metric =?s MetricCPU then "sample_count" else prefix +:+ "_count" in
          let tablePrefix := if scope =?s "host" then "host_rollups_" else "resource_rollups_" in
          inr (mkSource (Column (prefix +:+ "_min")) (Column (prefix +:+ "_avg")) (Column (prefix +:+ "_max")) count
                 (tablePrefix +:+ resolution_name res))
      end
  end.

(** ** Points *)

(** Scanning into a [*float64] and into an [int]; the columns are numeric. *)
Definition scan_float (v : Value) : gerr + option F64 :=
  match v with
  | VNull => inr None
  | VInt z => inr (Some (f64_of_Z z))
  | VReal f => inr (Some f)
  | VText _ => inl (EMsg "converting driver.Value type string to a float64: invalid syntax")
  end.
Definition scan_int (v : Value) : gerr + Z :=
  match v with
  | VInt z => inr z
  | _ => inl (EMsg "converting driver.Value type to an int is unsupported")
  end.

Definition lift {A} (r : gerr + A) : tx StoreDB A := match r with inl e => throw e | inr a => ret a end.

Definition scan_point (res : Resolution) (so : Source) (r : Row) : tx StoreDB Point :=
  ms <- lift (scan_int (col "ts" r)) ;;
  match res with
  | ResolutionRaw =>
      avg <- lift (scan_float (eval (so_avg so) r)) ;;
      ret (mkPoint (of_unix_milli ms) avg avg avg (match avg with Some _ => 1 | None => 0 end))
  | _ =>
      mn <- lift (scan_float (eval (so_min so) r)) ;;
      avg <- lift (scan_float (eval (so_avg so) r)) ;;
      mx <- lift (scan_float (eval (so_max so) r)) ;;
      n <- lift (scan_int (col (so_count so) r)) ;;
      ret (mkPoint (of_unix_milli ms) mn avg mx n)
  end.
Fixpoint scan_all {A} (f : Row -> tx StoreDB A) (rows : list Row) : tx StoreDB (list A) :=
  match rows with
  | [] => ret []
  | r :: rows => x <- f r ;; xs <- scan_all f rows ;; ret (x :: xs)
  end.

Definition in_window (q : MetricQuery) (r : Row) : bool :=
  (time_unix_milli (mq_From q) <=? row_ts r) && (row_ts r <=? time_unix_milli (mq_To q)) &&
  (negb (mq_Scope q =?s "resource") || value_eqb (col "resource_id" r) (VText (mq_ID q))).
Definition ts_le (a b : Row) : bool := row_ts a <=? row_ts b.

Definition metricPoints (q : MetricQuery) (metric : Metric) (res : Resolution) : tx StoreDB (list Point) :=
  so <- lift (metricSource (mq_Scope q) metric res) ;;
  rows <- query (fun d => sql_order_by ts_le (List.filter (in_window q) (table (so_table so) d))) ;;
  scan_all (scan_point res so) rows.

(** ** Gaps *)

Definition step (res : Resolution) : Z :=
  match res with ResolutionRaw => 10 * Second | Resolution1m => Minute | Resolution15m => 15 * Minute | Resolution1h => Hour end.

Fixpoint find_from (st to cursor : Z) (points : list Point) : list Gap :=
  match points with
  | [] => if st * 2 <? time_sub to cursor then [mkGap cursor to "missing"] else []
  | p :: points =>
      (if st * 2 <? time_sub (p_At p) cursor then [mkGap cursor (p_At p) "missing"] else []) ++
      (match p_Avg p with None => [mkGap (p_At p) (time_add (p_At p) st) "missing"] | Some _ => [] end) ++
      find_from st to (time_add (p_At p) st) points
  end.
Definition findGaps (from to : Z) (res : Resolution) (points : list Point) : list Gap :=
  find_from (step res) to from points.

Fixpoint merge_into (last : Gap) (gaps : list Gap) : list Gap :=
  match gaps with
  | [] => [last]
  | gap :: gaps =>
      if (g_Reason gap =?s g_Reason last) && negb (g_To last <? g_From gap)
      then merge_into (if g_To last <? g_To gap then mkGap (g_From last) (g_To gap) (g_Reason last) else last) gaps
      else last :: merge_into gap gaps
  end.
Definition mergeGaps (gaps : list Gap) : list Gap :=
  match gaps with [] => [] | g :: gaps => merge_into g gaps end.

Definition classifyGap (q : MetricQuery) (gap : Gap) : tx StoreDB string :=
  let from := time_unix_milli (g_From gap) in
  let to := time_unix_milli (g_To gap) in
  n <- or_default 0 (query (fun d => sql_count (fun r =>
         (from <=? row_ts r) && (row_ts r <? to) && str_in (text_col "type" r) ["persistence_degraded"; "persistence_gap"])
         (table "events" d))) ;;
  if 0 <? n then ret "persistence_failure"
  else
    let collector := if mq_Scope q =?s "resource" then "docker" else "host" in
    let of_collector r := value_eqb (col "collector_name" r) (VText collector) in
    state <- or_default "" (query_row (fun d => text_col "new_state" <$>
               sql_latest (fun r => of_collector r && (row_ts r <=? from)) row_ts (table "collector_state_events" d))) ;;
    if str_in state ["degraded"; "down"] then ret "collector_unavailable"
    else
      n <- or_default 0 (query (fun d => sql_count (fun r =>
             of_collector r && (from <=? row_ts r) && (row_ts r <? to) && str_in (text_col "new_state" r) ["degraded"; "down"])
             (table "collector_state_events" d))) ;;
      if 0 <? n then ret "collector_unavailable"
      else if mq_Scope q =?s "resource" then
        sa <- or_default ("", 0) (query_row (fun d => (fun r => (text_col "status" r, int_col "active_instance_count" r)) <$>
               sql_latest (fun r => value_eqb (col "resource_id" r) (VText (mq_ID q)) && (row_ts r <? to)) row_ts
                 (table "resource_samples_10s" d))) ;;
        if (sa.2 =? 0) || str_in sa.1 ["paused"; "archived"] then ret "inactive" else ret "missing"
      else ret "missing".

Fixpoint classify_all (q : MetricQuery) (gaps : list Gap) : tx StoreDB (list Gap) :=
  match gaps with
  | [] => ret []
  | g :: gaps =>
      reason <- classifyGap q g ;;
      rest <- classify_all q gaps ;;
      ret (mkGap (g_From g) (g_To g) reason :: rest)
  end.

(** ** Queries *)

Fixpoint query_series (q : MetricQuery) (res : Resolution) (metrics : list Metric) : tx StoreDB (list Series) :=
  match metrics with
  | [] => ret []
  | m :: metrics =>
      points <- metricPoints q m res ;;
      rest <- query_series q res metrics ;;
      ret (mkSeries m (metricUnit m) points :: rest)
  end.

(** The gaps are those of the first metric. *)
Definition QueryMetrics (q : MetricQuery) : tx StoreDB MetricsResponse :=
  lift (MetricQuery_Validate q) ;;;
  let res := selectResolution (time_sub (mq_To q) (mq_From q)) in
  match mq_Metrics q with
  | [] => ret (mkMetricsResponse (mq_Scope q) (mq_ID q) (mq_From q) (mq_To q) res [] [])
  | m :: metrics =>
      points <- metricPoints q m res ;;
      gaps <- classify_all q (findGaps (mq_From q) (mq_To q) res points) ;;
      rest <- query_series q res metrics ;;
      ret (mkMetricsResponse (mq_Scope q) (mq_ID q) (mq_From q) (mq_To q) res
             (mkSeries m (metricUnit m) points :: rest) (mergeGaps gaps))
  end.

Definition HostCPU (from to limit : Z) : tx StoreDB (list Point) :=
  r <- QueryMetrics (mkMetricQuery "host" "" [MetricCPU] from to) ;;
  match mr_Series r with
  | [] => ret []
  | s :: _ =>
      if (0 <? limit) && (limit <? Z.of_nat (length (se_Points s)))
      then ret (firstn (Z.to_nat limit) (se_Points s))
      else ret (se_Points s)
  end.

(** ** Events *)

Record HistoricalEvent := mkHistoricalEvent {
  he_ID : string; he_At : Z; he_Type : string; he_Severity : string; he_Summary : string;
  he_Details : option string; he_CorrelationKey : option string; he_ContainerInstance : option string;
  he_ResourceID : option string; he_Source : string;
}.

Definition null_string (v : Value) : option string := match v with VText s => Some s | _ => None end.
(** Every column that is not nullable is text, but for [ts]. *)
Definition historical_event (r : Row) : HistoricalEvent :=
  mkHistoricalEvent (text_col "id" r) (of_unix_milli (row_ts r)) (text_col "type" r) (text_col "severity" r)
    (text_col "summary" r) (null_string (col "details_json" r)) (null_string (col "correlation_key" r))
    (null_string (col "container_instance_id" r)) (null_string (col "resource_id" r)) (text_col "source" r).

Definition event_le (a b : Row) : bool :=
  (row_ts a <? row_ts b) || ((row_ts a =? row_ts b) && String.leb (text_col "id" a) (text_col "id" b)).

Definition EventsFor (from to limit : Z) (resourceID : string) : tx StoreDB (list HistoricalEvent) :=
  let limit := if (limit <? 1) || (200 <? limit) then 100 else limit in
  query (fun d => map historical_event (sql_limit limit 0 (sql_order_by (fun a b => event_le b a)
    (List.filter (fun r => (time_unix_milli from <=? row_ts r) && (row_ts r <=? time_unix_milli to) &&
        ((resourceID =?s "") || value_eqb (col "resource_id" r) (VText resourceID)))
      (table "events" d))))).
Definition Events (from to limit : Z) : tx StoreDB (list HistoricalEvent) := EventsFor from to limit "".

Definition ExportEvents (from to limit : Z) : tx StoreDB (list HistoricalEvent) :=
  let limit := if (limit <? 1) || (10001 <? limit) then 10001 else limit in
  query (fun d => map historical_event (sql_limit limit 0 (sql_order_by event_le
    (List.filter (fun r => (time_unix_milli from <=? row_ts r) && (row_ts r <=? time_unix_milli to))
      (table "events" d))))).

(** ** Gaps are where there is no data *)

Definition slot (st : Z) (p : Point) (t : Z) : Prop := p_At p <= t < p_At p + st.
Definition reported (gaps : list Gap) (t : Z) : Prop := exists g, In g gaps /\ g_From g <= t < g_To g.
Definition ordered (points : list Point) : Prop := StronglySorted (fun p p' => p_At p <= p_At p') points.

Lemma step_bounds res : 0 < step res <= Hour.
Proof. destruct res; cbn; unfold Hour, Minute, Second; lia. Qed.

Section gaps.
Context (st : Z) (Hst : 0 < st <= Hour).

Lemma long_gap a b : (st * 2 <? time_sub a b) = (st * 2 <? a - b).
Proof.
  unfold time_sub, sat64, Hour, Minute, Second, max_int64, min_int64 in *.
  destruct (Z.ltb_spec (st * 2) (a - b)); [apply Z.ltb_lt|apply Z.ltb_ge]; lia.
Qed.

(** A reported instant is in the slot of a point without data, or in no slot
    and not before the points. *)
Lemma find_from_sound to cursor points t :
  ordered points -> reported (find_from st to cursor points) t ->
  (exists p, In p points /\ p_Avg p = None /\ slot st p t) \/
  ((forall b, b <= cursor -> (forall p, In p points -> b <= p_At p + st) -> b <= t) /\
   forall p, In p points -> ~ slot st p t).
Proof.
  revert cursor. induction points as [|p points IH]; intros cursor Ho (g & Hg & Ht); cbn [find_from] in Hg.
  { destruct (_ <? _); [|done]. destruct Hg as [<-|[]]. right. cbn in Ht. split; [lia|done]. }
  inversion_clear Ho as [|? ? Ho' Hp]. rewrite List.Forall_forall in Hp.
  rewrite !in_app_iff in Hg. destruct Hg as [Hg|[Hg|Hg]].
  - destruct (_ <? _); [|done]. destruct Hg as [<-|[]]. right. cbn in Ht. split; [lia|].
    unfold slot. intros p' [<-|Hin]; [lia|]. specialize (Hp p' Hin). lia.
  - destruct (p_Avg p) eqn:E; [done|]. destruct Hg as [<-|[]]. left. exists p. split_and!; [by left|done|exact Ht].
  - destruct (IH (time_add (p_At p) st) Ho') as [(p' & Hin & Hn & Hs)|[Hc Hs]]; [by exists g| |].
    + left. exists p'. split_and!; [by right|done|done].
    + right. unfold time_add in *. assert (p_At p + st <= t) by (apply Hc; [lia|intros p' Hin; specialize (Hp p' Hin); lia]).
      split; [intros b _ Hb; specialize (Hb p ltac:(by left)); lia|].
      intros p' [<-|Hin]; [unfold slot; lia|by apply Hs].
Qed.

Lemma find_from_nil to cursor points p t :
  In p points -> p_Avg p = None -> slot st p t -> reported (find_from st to cursor points) t.
Proof.
  intros Hin Hn Hs. revert cursor. induction points as [|p' points IH]; intros cursor; [done|]. cbn [find_from].
  destruct Hin as [->|Hin].
  - exists (mkGap (p_At p) (time_add (p_At p) st) "missing"). split; [|exact Hs].
    rewrite !in_app_iff, Hn. right. left. by left.
  - destruct (IH Hin (time_add (p_At p') st)) as (g & Hg & Ht). exists g. split; [|done]. rewrite !in_app_iff. auto.
Qed.

(** A stretch of more than two steps that no slot meets is in one gap. *)
Lemma find_from_hole to cursor points u v :
  cursor <= u -> v <= to -> st * 2 < v - u -> (forall p t, In p points -> u <= t < v -> ~ slot st p t) ->
  exists g, In g (find_from st to cursor points) /\ g_From g <= u /\ v <= g_To g.
Proof.
  intros Hu Hv Hl. revert cursor Hu. induction points as [|p points IH]; intros cursor Hu Hs; cbn [find_from].
  { rewrite long_gap, (proj2 (Z.ltb_lt _ _)) by lia. eexists. by split; [left|]. }
  setoid_rewrite in_app_iff. setoid_rewrite in_app_iff.
  destruct (decide (v <= p_At p)).
  { rewrite long_gap, (proj2 (Z.ltb_lt _ _)) by lia. eexists. split; [left; by left|]. cbn. lia. }
  assert (p_At p + st <= u).
  { pose proof (Hs p u ltac:(by left)). pose proof (Hs p (p_At p) ltac:(by left)). unfold slot in *. lia. }
  destruct (IH (time_add (p_At p) st)) as (g & Hg & Hgu); [done| |by exists g; auto].
  intros p' t Hin. apply Hs. by right.
Qed.

Definition from_le (g g' : Gap) : Prop := g_From g <= g_From g'.

Lemma find_from_bound to cursor points b g :
  b <= cursor -> (forall p, In p points -> b <= p_At p) -> In g (find_from st to cursor points) -> b <= g_From g.
Proof.
  revert cursor. induction points as [|p points IH]; intros cursor Hb Hp; cbn [find_from].
  { destruct (_ <? _); [|done]. by intros [<-|[]]. }
  rewrite !in_app_iff. intros [Hg|[Hg|Hg]].
  - destruct (_ <? _); [|done]. by destruct Hg as [<-|[]].
  - destruct (p_Avg p); [done|]. destruct Hg as [<-|[]]. apply Hp. by left.
  - apply (IH (time_add (p_At p) st)); [|intros p' Hin; apply Hp; by right|done].
    specialize (Hp p ltac:(by left)). unfold time_add. lia.
Qed.

Lemma find_from_sorted to cursor points :
  ordered points -> StronglySorted from_le (find_from st to cursor points).
Proof.
  revert cursor. induction points as [|p points IH]; intros cursor Ho; cbn [find_from].
  { destruct (_ <? _); repeat constructor. }
  inversion_clear Ho as [|? ? Ho' Hp]. rewrite List.Forall_forall in Hp.
  assert (forall g, In g (find_from st to (time_add (p_At p) st) points) -> p_At p <= g_From g) as Hb.
  { intros g. apply find_from_bound; [unfold time_add; lia|exact Hp]. }
  specialize (IH (time_add (p_At p) st) Ho'). rewrite long_gap.
  destruct (Z.ltb_spec (st * 2) (p_At p - cursor)), (p_Avg p); cbn [app]; repeat (constructor; [|apply List.Forall_forall]);
    try done; unfold from_le; cbn; intros g Hg; repeat destruct Hg as [<-|Hg]; cbn; try specialize (Hb g Hg); lia.
Qed.
End gaps.

(** Merging changes no instant and no reason. *)
Definition reported_as (gaps : list Gap) (t : Z) (reason : string) : Prop :=
  exists g, In g gaps /\ g_From g <= t < g_To g /\ g_Reason g = reason.

Lemma merge_into_reported last gaps t reason :
  StronglySorted from_le (last :: gaps) ->
  reported_as (merge_into last gaps) t reason <-> reported_as (last :: gaps) t reason.
Proof.
  revert last. induction gaps as [|g gaps IH]; intros last Hs; [done|]. cbn [merge_into].
  inversion_clear Hs as [|? ? Hs' Hl]. rewrite List.Forall_forall in Hl. unfold from_le in Hl.
  destruct ((g_Reason g =?s g_Reason last) && negb (g_To last <? g_From g)) eqn:E.
  - apply andb_true_iff in E as [Er%String.eqb_eq Et%negb_true_iff%Z.ltb_ge].
    pose proof (Hl g ltac:(by left)) as Hlg. inversion_clear Hs' as [|? ? Hs'' Hg].
    rewrite IH.
    + unfold reported_as. split.
      * intros (g' & [<-|Hin] & Ht & Hr); [|by exists g'; split; [right; right|]].
        destruct (Z.ltb_spec (g_To last) (g_To g)); [|by exists last; split; [left|]]. cbn in Ht, Hr.
        destruct (decide (t < g_To last)); [exists last|exists g]; (split; [cbn; auto|split; [lia|congruence]]).
      * intros (g' & [<-|[<-|Hin]] & Ht & Hr); [| |by exists g'; split; [right|]];
          (eexists; split; [by left|]); destruct (Z.ltb_spec (g_To last) (g_To g)); cbn; (split; [lia|congruence]).
    + constructor; [done|]. apply List.Forall_forall. unfold from_le. intros g' Hin.
      specialize (Hl g' ltac:(by right)). destruct (_ <? _); done.
  - specialize (IH g Hs'). unfold reported_as in *. split.
    + intros (g' & [<-|Hin] & H); [by exists last; split; [left|]|].
      destruct (proj1 IH) as (g'' & Hin' & H'); [by exists g'|]. exists g''. split; [by right|done].
    + intros (g' & [<-|Hin] & H); [by exists last; split; [left|]|].
      destruct (proj2 IH) as (g'' & Hin' & H'); [by exists g'|]. exists g''. split; [by right|done].
Qed.

Lemma merge_reported gaps t reason :
  StronglySorted from_le gaps -> reported_as (mergeGaps gaps) t reason <-> reported_as gaps t reason.
Proof. destruct gaps; [done|]. apply merge_into_reported. Qed.

Lemma merge_into_head last gaps :
  exists to rest, merge_into last gaps = mkGap (g_From last) to (g_Reason last) :: rest.
Proof.
  revert last. induction gaps as [|g gaps IH]; intros [f t r]; cbn [merge_into]; [by eexists _, _|].
  destruct (_ && _); [|by eexists _, _]. destruct (_ <? _); [apply (IH (mkGap f (g_To g) r))|apply (IH (mkGap f t r))].
Qed.
Lemma merge_separated gaps :
  Sorted (fun g g' => g_Reason g' = g_Reason g -> g_To g < g_From g') (mergeGaps gaps).
Proof.
  destruct gaps as [|last gaps]; [constructor|]. cbn [mergeGaps]. revert last.
  induction gaps as [|g gaps IH]; intros last; cbn [merge_into]; [repeat constructor|].
  destruct (_ && _) eqn:E; [apply IH|]. constructor; [apply IH|].
  destruct (merge_into_head g gaps) as (to & rest & ->). constructor. cbn. intros Er.
  rewrite Er, String.eqb_refl in E. cbn in E. apply negb_false_iff in E. by apply Z.ltb_lt.
Qed.

(** ** Points *)

Lemma lift_inv {A} (r : gerr + A) w a w' : lift r w = (inr a, w') -> r = inr a /\ w' = w.
Proof. destruct r; cbn; [done|]. by intros [= -> ->]. Qed.

Ltac tx_inv H :=
  let a := fresh "a" in let w1 := fresh "w" in let H1 := fresh "Hm" in
  apply bind_inr in H as (a & w1 & H1 & H).

Lemma scan_point_inv res so r w p w' :
  scan_point res so r w = (inr p, w') -> exists ms, col "ts" r = VInt ms /\ p_At p = of_unix_milli ms /\ w' = w.
Proof.
  unfold scan_point. intros H. tx_inv H. apply lift_inv in Hm as [Hts ->].
  destruct (col "ts" r) as [|ms| |] eqn:E; try done. injection Hts as <-. exists ms.
  destruct res; repeat (tx_inv H; apply lift_inv in Hm as [_ ->]); by injection H as <- <-.
Qed.

Lemma scan_all_inv {A} (f : Row -> tx StoreDB A) rows w l w' :
  scan_all f rows w = (inr l, w') -> Forall2 (fun r x => exists w1 w2, f r w1 = (inr x, w2)) rows l.
Proof.
  revert w l w'. induction rows as [|r rows IH]; intros w l w' H; cbn in H; [injection H as <- _; constructor|].
  tx_inv H. tx_inv H. injection H as <- _. constructor; [by eexists _, _|by eapply IH].
Qed.

Lemma scan_db res so rows w points w' :
  scan_all (scan_point res so) rows w = (inr points, w') -> w_db w' = w_db w.
Proof.
  revert w points. induction rows as [|r rows IH]; intros w points H; cbn in H; [by injection H as _ <-|].
  tx_inv H. tx_inv H. injection H as _ <-. apply scan_point_inv in Hm as (_ & _ & _ & ->). by eapply IH.
Qed.

Lemma ts_le_sorted l : StronglySorted (fun a b => ts_le a b = true) (sql_order_by ts_le l).
Proof.
  apply Sorted_StronglySorted.
  - intros a b c. unfold ts_le. rewrite !Z.leb_le. lia.
  - apply sql_order_by_sorted. intros a b. unfold ts_le. rewrite Z.leb_gt, Z.leb_le. lia.
Qed.

(** Points come in the order of time, one per row in the window. *)
Lemma points_of_rows res so rows w points w' :
  scan_all (scan_point res so) rows w = (inr points, w') ->
  map p_At points = map (fun r => of_unix_milli (row_ts r)) rows.
Proof.
  intros H%scan_all_inv. induction H as [|r p rows points (w1 & w2 & H) _ IH]; cbn; [done|].
  apply scan_point_inv in H as (ms & Hts & -> & _). rewrite IH. unfold row_ts, int_col. by rewrite Hts.
Qed.

Lemma StronglySorted_map {A B} (f : A -> B) (R : A -> A -> Prop) (S : B -> B -> Prop) l :
  (forall a b, R a b -> S (f a) (f b)) -> StronglySorted R l -> StronglySorted S (map f l).
Proof.
  intros Hf. induction 1 as [|a l _ IH Ha]; cbn; constructor; [done|].
  rewrite Forall_map. eapply Forall_impl; [exact Ha|]. auto.
Qed.
Lemma StronglySorted_unmap {A B} (f : A -> B) (S : B -> B -> Prop) l :
  StronglySorted S (map f l) -> StronglySorted (fun a b => S (f a) (f b)) l.
Proof.
  induction l as [|a l IH]; cbn; [constructor|]. inversion_clear 1 as [|? ? Hs Ha]. constructor; [auto|].
  by rewrite Forall_map in Ha.
Qed.

Lemma metricPoints_ordered q m res w points w' :
  metricPoints q m res w = (inr points, w') -> ordered points.
Proof.
  unfold metricPoints. intros H. tx_inv H. tx_inv H. apply query_inr in Hm0 as [-> _]. apply points_of_rows in H.
  unfold ordered. apply (StronglySorted_unmap p_At Z.le). rewrite H.
  eapply StronglySorted_map; [|apply ts_le_sorted]. intros x y. unfold ts_le, of_unix_milli, Millisecond.
  rewrite Z.leb_le. lia.
Qed.

(** ** Classification *)

Definition bounds_of (g : Gap) : Z * Z := (g_From g, g_To g).

Lemma classify_all_total q gaps w :
  exists gaps' w', classify_all q gaps w = (inr gaps', w') /\ map bounds_of gaps' = map bounds_of gaps.
Proof.
  revert w. induction gaps as [|g gaps IH]; intros w; [by eexists [], w|]. cbn [classify_all]. unfold bind at 1.
  assert (exists reason w1, classifyGap q g w = (inr reason, w1)) as (reason & w1 & ->).
  { unfold classifyGap, bind, or_default.
    repeat (match goal with |- context [query ?f ?w] => destruct (query f w) as [[] ?] | |- context [query_row ?f ?w] =>
        destruct (query_row f w) as [[] ?] end || case_match); by eexists _, _. }
  unfold bind. destruct (IH w1) as (gaps' & w' & -> & E). eexists _, _. split; [done|]. cbn. by rewrite E.
Qed.

Lemma from_le_bounds gaps gaps' :
  map bounds_of gaps' = map bounds_of gaps -> StronglySorted from_le gaps -> StronglySorted from_le gaps'.
Proof.
  intros E Hs. apply (StronglySorted_unmap bounds_of (fun x y => x.1 <= y.1)). rewrite E.
  by eapply StronglySorted_map; [|exact Hs].
Qed.
Lemma reported_bounds gaps gaps' t :
  map bounds_of gaps' = map bounds_of gaps -> reported gaps t -> reported gaps' t.
Proof.
  intros E (g & Hg & Ht). apply (in_map bounds_of) in Hg. rewrite <- E in Hg. apply in_map_iff in Hg as (g' & Eg & Hg').
  injection Eg as E1 E2. exists g'. split; [done|]. by rewrite E1, E2.
Qed.
Lemma reported_iff gaps t : reported gaps t <-> exists reason, reported_as gaps t reason.
Proof. unfold reported, reported_as. naive_solver. Qed.

(** The response's first series and its gaps *)
Lemma query_gaps q w r w' s rest :
  QueryMetrics q w = (inr r, w') -> mr_Series r = s :: rest ->
  ordered (se_Points s) /\ exists gaps,
    map bounds_of gaps = map bounds_of (findGaps (mq_From q) (mq_To q) (mr_Resolution r) (se_Points s)) /\
    mr_Gaps r = mergeGaps gaps.
Proof.
  unfold QueryMetrics. intros H Hs. tx_inv H. apply lift_inv in Hm as [_ ->]. clear a.
  destruct (mq_Metrics q) as [|m metrics]; [injection H as <- <-; done|].
  tx_inv H. tx_inv H. tx_inv H. injection H as <- <-. cbn [mr_Series mr_Resolution mr_Gaps] in *.
  injection Hs as <- _. cbn [se_Points]. split; [by eapply metricPoints_ordered|]. exists a0. split; [|done].
  destruct (classify_all_total q (findGaps (mq_From q) (mq_To q)
    (selectResolution (time_sub (mq_To q) (mq_From q))) a) w0) as (gaps' & w3 & E & Eb).
  rewrite E in Hm0. by injection Hm0 as <- _.
Qed.

(** C27 (functional): the gaps of a metric query are where there is no data.  An
    instant is reported when a point without a value stands for it, and
    when it lies in a stretch of more than two steps without points; an
    instant that is reported is of one of these kinds, never one that only
    points with a value stand for.  Gaps that touch and have the same reason
    are one gap. *)
Theorem history_gaps (q : MetricQuery) (w w' : world StoreDB) (r : MetricsResponse) (s : Series) (rest : list Series) :
  QueryMetrics q w = (inr r, w') -> mr_Series r = s :: rest ->
  let st := step (mr_Resolution r) in let points := se_Points s in let gaps := mr_Gaps r in
  (forall p t, In p points -> p_Avg p = None -> slot st p t -> reported gaps t) /\
  (forall u v t, mq_From q <= u -> v <= mq_To q -> 2 * st < v - u ->
    (forall p t', In p points -> u <= t' < v -> ~ slot st p t') -> u <= t < v -> reported gaps t) /\
  (forall t, reported gaps t ->
    (exists p, In p points /\ p_Avg p = None /\ slot st p t) \/ (forall p, In p points -> ~ slot st p t)) /\
  Sorted (fun g g' => g_Reason g' = g_Reason g -> g_To g < g_From g') gaps.
Proof.
  intros H Hs. destruct (query_gaps q w r w' s rest H Hs) as (Ho & gaps & Eb & Eg). cbv zeta. clear H Hs.
  pose proof (step_bounds (mr_Resolution r)) as Hst.
  assert (StronglySorted from_le gaps) as Hsort by (eapply from_le_bounds; [done|]; by apply find_from_sorted).
  assert (forall t, reported (mr_Gaps r) t <-> reported gaps t) as Hm.
  { intros t. rewrite Eg, !reported_iff. by setoid_rewrite merge_reported. }
  split_and!.
  - intros p t Hp Hn Ht. apply Hm, (reported_bounds _ _ _ Eb). by eapply find_from_nil.
  - intros u v t Hu Hv Hl Hno Ht. apply Hm, (reported_bounds _ _ _ Eb).
    destruct (find_from_hole _ Hst (mq_To q) (mq_From q) (se_Points s) u v) as (g & Hg & Hgu & Hgv); try done; [lia|].
    exists g. split; [done|lia].
  - intros t Ht%Hm%(reported_bounds _ _ _ (eq_sym Eb)).
    destruct (find_from_sound _ _ _ _ _ Ho Ht) as [|[_ ?]]; auto.
  - rewrite Eg. apply merge_separated.
Qed.
