(* ===== verification/HistoryInvariants.v ===== *)
(** * Well-typed history

    What the writer, the rollups and retention keep true of the history
    tables, and what the queries of [History] rely on: the columns a query
    reads are there and numeric, the rollups are aligned to their buckets and
    have one row per key. *)

From stdpp Require Import base tactics list gmap strings pretty.
From Stdlib Require Import ZArith Lia SpecFloat Sorted.
From S2P Require Import Prelude Float64 Db Metrics StoreSchema StoreWriter Rollups Retention History.

(** ** Shapes of the tables *)

Inductive Shape :=
  | Samples (aggs : list Aggregate)
  | RolledUp (bucket : Z) (aggs : list Aggregate).

Definition shapes : list (string * Shape) :=
  ("host_samples_10s", Samples host_aggregates) :: ("resource_samples_10s", Samples resource_aggregates) ::
  map (fun t : string * Z => ("host_rollups_" +:+ t.1, RolledUp (t.2 / Millisecond) host_aggregates)) tiers ++
  map (fun t : string * Z => ("resource_rollups_" +:+ t.1, RolledUp (t.2 / Millisecond) resource_aggregates)) tiers.
Definition table_shape (n : string) : option Shape := assoc n shapes.

Definition numeric (v : Value) : Prop := match v with VText _ => False | _ => True end.
Definition integer (v : Value) : Prop := match v with VInt _ => True | _ => False end.

Definition shaped (s : Shape) (r : Row) : Prop :=
  match s with
  | Samples aggs => integer (col "ts" r) /\ forall a, In a aggs -> numeric (eval (ag_expr a) r)
  | RolledUp bucket aggs =>
      (exists k, col "ts" r = VInt (k * bucket)) /\
      forall a, In a aggs ->
        numeric (col (ag_prefix a +:+ "_min") r) /\ numeric (col (ag_prefix a +:+ "_avg") r) /\
        numeric (col (ag_prefix a +:+ "_max") r) /\ integer (col (ag_count a) r)
  end.

Definition unique_keys (n : string) (t : list Row) : Prop :=
  ForallOrdPairs (fun a b => same_key (primary_key n) a b = false) t.

Definition history_ok (d : StoreDB) : Prop :=
  forall n s, table_shape n = Some s -> Forall (shaped s) (table n d) /\ unique_keys n (table n d).

(** ** Statements *)

Lemma unique_filter n p t : unique_keys n t -> unique_keys n (List.filter p t).
Proof.
  induction 1 as [|a t Ha _ IH]; cbn; [constructor|]. destruct (p a); [|done]. constructor; [|done].
  apply List.Forall_forall. intros x [Hx _]%filter_In. rewrite List.Forall_forall in Ha. auto.
Qed.
Lemma unique_snoc n t r :
  unique_keys n t -> (forall x, In x t -> same_key (primary_key n) x r = false) -> unique_keys n (t ++ [r]).
Proof.
  induction 1 as [|a t Ha _ IH]; cbn; intros Hr; [repeat constructor|].
  constructor; [|by apply IH; intros x Hx; apply Hr; right].
  apply Forall_app. split; [done|]. apply List.Forall_cons; [apply Hr; by left|done].
Qed.
Lemma unique_replace n r t : unique_keys n t -> unique_keys n (replace_row n r t).
Proof.
  intros H. apply unique_snoc; [by apply unique_filter|]. intros x [_ Hx]%filter_In. by apply negb_true_iff.
Qed.
Lemma shaped_replace s n r t : Forall (shaped s) t -> shaped s r -> Forall (shaped s) (replace_row n r t).
Proof.
  intros Ht Hr. apply Forall_app. split; [|by repeat constructor].
  rewrite List.Forall_forall in *. intros x [Hx _]%filter_In. auto.
Qed.
Lemma unique_delete_first n p k t : unique_keys n t -> unique_keys n (delete_first p k t).
Proof.
  intros H. revert k. induction H as [|a t Ha Ht IH]; intros [|k]; cbn; [constructor..|by constructor|].
  destruct (p a); [apply IH|]. constructor; [|apply IH].
  rewrite List.Forall_forall in *. intros x Hx%delete_first_incl. auto.
Qed.

(** The tables an invariant of [history_ok] is about are plain. *)
Lemma shaped_not_cascaded n s : table_shape n = Some s -> n <> "deployment_grace_periods".
Proof. intros E ->. by vm_compute in E. Qed.

Lemma history_set n t d :
  history_ok d -> (forall s, table_shape n = Some s -> Forall (shaped s) t /\ unique_keys n t) ->
  history_ok (set_table n t d).
Proof.
  intros H Ht n' s Hs. destruct (decide (n' = n)) as [->|]; [rewrite table_set; auto|].
  rewrite table_set_ne by done. auto.
Qed.

Lemma insert_or_replace_ok n r :
  (forall s, table_shape n = Some s -> shaped s r) -> preserves history_ok (insert_or_replace n r).
Proof.
  intros Hr. apply exec_preserves. intros d x d' Hd [E _]%checked_inr. injection E as _ ->.
  apply history_set; [done|]. intros s Hs. destruct (Hd n s Hs). split; [by apply shaped_replace; auto|by apply unique_replace].
Qed.
Lemma insert_or_ignore_ok n r : table_shape n = None -> preserves history_ok (insert_or_ignore n r).
Proof.
  intros Hn. apply exec_preserves. intros d x d' Hd [E _]%checked_inr. injection E as _ ->.
  apply history_set; [done|]. intros s Hs. by rewrite Hn in Hs.
Qed.
Lemma update_table_ok n p f : table_shape n = None -> preserves history_ok (update_table n p f).
Proof.
  intros Hn. apply exec_preserves. intros d x d' Hd [E _]%checked_inr. injection E as _ ->.
  apply history_set; [done|]. intros s Hs. by rewrite Hn in Hs.
Qed.
Lemma insert_select_ok n q :
  (forall d s, history_ok d -> table_shape n = Some s -> Forall (shaped s) (q d)) ->
  preserves history_ok (insert_select n q).
Proof.
  intros Hq. apply exec_preserves. intros d x d' Hd [E _]%checked_inr. injection E as _ ->.
  apply history_set; [done|]. intros s Hs. specialize (Hq d s Hd Hs). destruct (Hd n s Hs) as [H1 H2].
  revert H1 H2. generalize (table n d). induction Hq as [|r gs Hr _ IH]; intros t H1 H2; cbn; [done|].
  apply IH; [by apply shaped_replace|by apply unique_replace].
Qed.
Lemma delete_batch_ok n p k : preserves history_ok (delete_batch n p k).
Proof.
  apply exec_preserves. intros d x d' Hd [E _]%checked_inr. injection E as _ ->.
  intros n' s Hs. rewrite table_cascade by (by eapply shaped_not_cascaded).
  revert n' s Hs. apply history_set; [done|]. intros s Hs. destruct (Hd n s Hs) as [H1 H2].
  split; [|by apply unique_delete_first]. rewrite List.Forall_forall in *. intros r Hr%delete_first_incl. auto.
Qed.

(** ** The writer *)

Lemma real_numeric f : numeric (real f).
Proof. by destruct f. Qed.
Lemma opt_real_numeric f : numeric (opt_real f).
Proof. destruct f; [apply real_numeric|done]. Qed.
Lemma opt_int_numeric z : numeric (opt_int z).
Proof. by destruct z. Qed.
#[local] Hint Resolve real_numeric opt_real_numeric opt_int_numeric : core.

Lemma numeric_col texts l c :
  Forall (fun kv => In kv.1 texts \/ numeric kv.2) l -> ~ In c texts -> numeric (col c (row l)).
Proof.
  intros Hl Hc. induction Hl as [|[k v] l Hkv _ IH]; [done|].
  destruct (decide (c = k)) as [->|]; [rewrite col_row_hd|by rewrite col_row_tl]. by destruct Hkv.
Qed.
Lemma sum_numeric a b r : numeric (eval (Sum a b) r).
Proof. unfold eval. destruct (col a r), (col b r); auto; exact I. Qed.

Ltac numeric_entries :=
  repeat (constructor; [cbn [fst snd In];
    first [right; first [apply opt_real_numeric|apply opt_int_numeric|exact I]|left; tauto]|]); constructor.

Definition samples_columns (aggs : list Aggregate) : list string :=
  concat (map (fun a => match ag_expr a with Column c => [c] | Sum _ _ => [] end) aggs).
Lemma samples_shaped aggs texts l :
  integer (col "ts" (row l)) -> Forall (fun kv => In kv.1 texts \/ numeric kv.2) l ->
  forallb (fun c => negb (str_in c texts)) (samples_columns aggs) = true -> shaped (Samples aggs) (row l).
Proof.
  intros Ht Hl Hc. split; [done|]. intros a Ha. destruct (ag_expr a) as [c|] eqn:E; [|apply sum_numeric].
  cbn [eval]. apply (numeric_col texts); [done|]. rewrite forallb_forall in Hc. rewrite <- str_in_spec, not_true_iff_false.
  apply negb_true_iff, Hc. apply in_concat. exists [c]. split; [|by left].
  apply (in_map (fun a => match ag_expr a with Column c => [c] | Sum _ _ => [] end)) in Ha. by rewrite E in Ha.
Qed.

Lemma host_row_shaped s : shaped (Samples host_aggregates) (host_row s).
Proof.
  apply (samples_shaped _ ["host_id"; "boot_session_id"]); [vm_compute; exact I| |reflexivity].
  numeric_entries.
Qed.
Lemma resource_row_shaped at_ r : shaped (Samples resource_aggregates) (resource_row at_ r).
Proof.
  apply (samples_shaped _ ["resource_id"; "status"]); [vm_compute; exact I| |reflexivity].
  numeric_entries.
Qed.

Ltac statement_ok :=
  match goal with
  | |- preserves _ (insert_or_ignore _ _) => by apply insert_or_ignore_ok
  | |- preserves _ (update_table _ _ _) => by apply update_table_ok
  | |- preserves _ (delete_batch _ _ _) => apply delete_batch_ok
  | |- preserves _ (insert_or_replace _ _) =>
      apply insert_or_replace_ok; let s := fresh "s" in let Hs := fresh "Hs" in
      intros s Hs; vm_compute in Hs; first [discriminate Hs|injection Hs as <-]
  | _ => idtac
  end.

Lemma collector_events_ok at_ l prev : preserves history_ok (writeCollectorStateEvents at_ l prev).
Proof.
  revert prev. induction l as [|[name h] l IH]; intros prev; cbn [writeCollectorStateEvents]; [apply preserves_ret|].
  frame_auto; [apply IH|by apply insert_or_ignore_ok|apply IH].
Qed.

Lemma batch_body_ok `{MapOrder} b prev : preserves history_ok (batch_body b prev).
Proof.
  unfold batch_body, write_samples, write_resource, write_instance, bind_row.
  frame_auto; statement_ok.
  - apply host_row_shaped.
  - apply resource_row_shaped.
  - apply collector_events_ok.
Qed.

Lemma write_batch_ok `{MapOrder} b prev : preserves history_ok (WriteBatch b prev).
Proof.
  intros w Hw. unfold WriteBatch.
  assert (forall w : world StoreDB, w_db (next_fault w).2 = w_db w) as Hf by (intros w1; unfold next_fault; by destruct (w_faults w1)).
  pose proof (Hf w) as Hf1. destruct (next_fault w) as [[] w1]; cbn in Hf1; [by rewrite Hf1|].
  rewrite <- Hf1 in Hw. pose proof (batch_body_ok b prev w1 Hw) as Hb.
  destruct (batch_body b prev w1) as [[e|[[e|[]] prev']] w2]; [done|done|].
  pose proof (Hf w2) as Hf2. by destruct (next_fault w2) as [[] w3]; cbn in Hf2 |- *; [|rewrite Hf2].
Qed.

(** ** The rollups *)

Lemma fold_pick (c : Value -> Value -> bool) l v : In (fold_left (fun m x => if c x m then x else m) l v) (v :: l).
Proof.
  revert v. induction l as [|x l IH]; intros v; [by left|]. cbn [fold_left].
  destruct (c x v); destruct (IH x) as [E|E], (IH v) as [E'|E']; cbn; auto.
Qed.
Lemma min_max_numeric l : Forall numeric l -> numeric (sql_min l) /\ numeric (sql_max l).
Proof.
  destruct l as [|v l]; [done|]. rewrite List.Forall_forall. intros H. split; apply H.
  - apply (fold_pick value_ltb).
  - apply (fold_pick (fun x m => value_ltb m x)).
Qed.

Section rollups.
Context (sql_avg : list Value -> F64).

Lemma aggregated_numeric aggs a rows x :
  In a aggs -> Forall (shaped (Samples aggs)) rows -> aggregated sql_avg a rows x ->
  numeric (col (ag_prefix a +:+ "_min") x) /\ numeric (col (ag_prefix a +:+ "_avg") x) /\
  numeric (col (ag_prefix a +:+ "_max") x) /\ integer (col (ag_count a) x).
Proof.
  intros Ha Hr (-> & -> & -> & ->). rewrite List.Forall_forall in Hr.
  destruct (min_max_numeric (values (ag_expr a) rows)) as [H1 H2].
  { apply List.Forall_forall. unfold values. intros v [Hv _]%filter_In. apply in_map_iff in Hv as (r & <- & Hin).
    by apply (Hr r Hin). }
  split_and!; [done| |done|exact I]. destruct (values _ _); [exact I|apply real_numeric].
Qed.

Lemma host_groups_shaped bucket cutoff samples :
  Forall (shaped (Samples host_aggregates)) samples ->
  Forall (shaped (RolledUp bucket host_aggregates)) (host_groups sql_avg bucket cutoff samples).
Proof.
  intros H. apply List.Forall_forall. intros x Hx. apply in_map_iff in Hx as (k & <- & _).
  change (shaped (RolledUp bucket host_aggregates) (host_rollup sql_avg bucket cutoff k samples)).
  split; [exists k; apply host_rollup_key|]. intros a Ha. eapply (aggregated_numeric host_aggregates); [done| |by apply host_columns].
  rewrite List.Forall_forall in *. intros r [[Hr _]%filter_In _]%filter_In. auto.
Qed.
Lemma resource_groups_shaped bucket cutoff samples :
  Forall (shaped (Samples resource_aggregates)) samples ->
  Forall (shaped (RolledUp bucket resource_aggregates)) (resource_groups sql_avg bucket cutoff samples).
Proof.
  intros H. apply List.Forall_forall. intros x Hx. apply in_map_iff in Hx as ([id k] & <- & _).
  change (shaped (RolledUp bucket resource_aggregates) (resource_rollup sql_avg bucket cutoff id k samples)).
  split; [exists k; apply resource_rollup_key|]. intros a Ha.
  eapply (aggregated_numeric resource_aggregates); [done| |by apply resource_columns].
  rewrite List.Forall_forall in *. intros r [[Hr _]%filter_In _]%filter_In. auto.
Qed.

Lemma rollup_ok now : preserves history_ok (RollupOnce sql_avg now).
Proof.
  unfold RollupOnce. apply triple_iter. intros tier Ht. unfold rollup_tier.
  assert (table_shape ("host_rollups_" +:+ tier.1) = Some (RolledUp (tier.2 / Millisecond) host_aggregates) /\
    table_shape ("resource_rollups_" +:+ tier.1) = Some (RolledUp (tier.2 / Millisecond) resource_aggregates)) as [Eh Er].
  { apply list_elem_of_In in Ht. cbn [tiers In] in Ht. by repeat destruct Ht as [<-|Ht]. }
  apply preserves_bind; [|intros _]; apply insert_select_ok; intros d s Hd.
  - rewrite Eh. intros [= <-]. apply host_groups_shaped. by apply (Hd "host_samples_10s").
  - rewrite Er. intros [= <-]. apply resource_groups_shaped. by apply (Hd "resource_samples_10s").
Qed.
End rollups.

Lemma expire_ok fuel aggressive t cutoff limit : preserves history_ok (expire fuel aggressive t cutoff limit).
Proof.
  induction fuel as [|fuel IH]; cbn [expire]; [apply preserves_ret|]. unfold count_rows.
  frame_auto; try done; apply delete_batch_ok.
Qed.
Lemma retention_ok page_count freelist_count order r aggressive :
  preserves history_ok (applyRetention page_count freelist_count order r aggressive).
Proof.
  unfold applyRetention. destruct (_ =? _); [apply preserves_ret|]. apply preserves_bind; [apply preserves_now|].
  intros now. apply preserves_bind.
  - apply preserves_iter. intros e w Hw. unfold expire_table. destruct (_ <=? _); [done|by apply expire_ok].
  - intros _. unfold vacuumIfWorthwhile. frame_auto. by apply exec_preserves; intros ? ? ? ? [= _ <-].
Qed.

(** ** Queries *)

Definition scope_aggregates (scope : string) : list Aggregate :=
  if scope =?s "host" then host_aggregates else resource_aggregates.
Definition aggregate_source (scope : string) (a : Aggregate) (res : Resolution) : Source :=
  match res with
  | ResolutionRaw =>
      mkSource (ag_expr a) (ag_expr a) (ag_expr a) "" (if scope =?s "host" then "host_samples_10s" else "resource_samples_10s")
  | _ =>
      mkSource (Column (ag_prefix a +:+ "_min")) (Column (ag_prefix a +:+ "_avg")) (Column (ag_prefix a +:+ "_max")) (ag_count a)
        ((if scope =?s "host" then "host_rollups_" else "resource_rollups_") +:+ resolution_name res)
  end.
Definition source_shape (scope : string) (res : Resolution) : Shape :=
  match res with
  | ResolutionRaw => Samples (scope_aggregates scope)
  | _ => RolledUp (step res / Millisecond) (scope_aggregates scope)
  end.

(** A metric that a query accepts is a metric that the rollups aggregate, read
    from the columns that they write. *)
Lemma metric_source scope metric :
  scope = "host" \/ scope = "resource" -> metricAllowed scope metric = true ->
  exists a, In a (scope_aggregates scope) /\
    forall res, metricSource scope metric res = inr (aggregate_source scope a res).
Proof.
  intros [-> | ->]; unfold metricAllowed; cbn [String.eqb Ascii.eqb Bool.eqb]; rewrite str_in_spec; intros Hm.
  - assert (forall m, In m hostMetrics -> Exists (fun a => forall res, metricSource "host" m res = inr (aggregate_source "host" a res)) host_aggregates) as H.
    { clear. intros m Hm. cbn [hostMetrics In] in Hm.
      repeat (destruct Hm as [<-|Hm]; [repeat first [apply Exists_cons_hd; intros []; reflexivity|apply Exists_cons_tl]|]). done. }
    apply H, List.Exists_exists in Hm as (a & Ha & E). by exists a.
  - assert (forall m, In m resourceMetrics -> Exists (fun a => forall res, metricSource "resource" m res = inr (aggregate_source "resource" a res)) resource_aggregates) as H.
    { clear. intros m Hm. cbn [resourceMetrics In] in Hm.
      repeat (destruct Hm as [<-|Hm]; [repeat first [apply Exists_cons_hd; intros []; reflexivity|apply Exists_cons_tl]|]). done. }
    apply H, List.Exists_exists in Hm as (a & Ha & E). by exists a.
Qed.
Lemma source_table scope a res :
  scope = "host" \/ scope = "resource" -> table_shape (so_table (aggregate_source scope a res)) = Some (source_shape scope res).
Proof. intros [-> | ->]; by destruct res. Qed.

Lemma scan_numeric v : numeric v -> exists f, scan_float v = inr f.
Proof. destruct v; [by eexists..|done]. Qed.
Lemma scan_integer v : integer v -> exists z, scan_int v = inr z.
Proof. destruct v; try done. by eexists. Qed.

Lemma scan_point_ok scope a res r w :
  In a (scope_aggregates scope) -> shaped (source_shape scope res) r ->
  exists p, scan_point res (aggregate_source scope a res) r w = (inr p, w).
Proof.
  intros Ha. unfold scan_point, bind, source_shape. destruct res; cbn [shaped aggregate_source so_min so_avg so_max so_count].
  { intros [Hts Hc]. destruct (scan_integer _ Hts) as [ms ->], (scan_numeric _ (Hc a Ha)) as [f ->]. by eexists. }
  all: intros [[k Hts] Hc]; rewrite Hts; destruct (Hc a Ha) as (H1 & H2 & H3 & H4);
    destruct (scan_numeric _ H1) as [f1 E1], (scan_numeric _ H2) as [f2 E2], (scan_numeric _ H3) as [f3 E3],
      (scan_integer _ H4) as [n E4]; cbn [eval scan_int lift ret]; rewrite E1, E2, E3, E4; by eexists.
Qed.
Lemma scan_all_ok {A} (f : Row -> tx StoreDB A) rows w :
  (forall r, In r rows -> exists x, f r w = (inr x, w)) -> exists l, scan_all f rows w = (inr l, w).
Proof.
  induction rows as [|r rows IH]; intros H; [by eexists|]. cbn [scan_all]. unfold bind.
  destruct (H r ltac:(by left)) as [x ->], IH as [l ->]; [|by eexists]. intros r' Hr. apply H. by right.
Qed.

Lemma validate_metrics_allowed scope seen l m :
  validate_metrics scope seen l = inr tt -> In m l -> metricAllowed scope m = true.
Proof.
  revert seen. induction l as [|x l IH]; intros seen; [done|]. cbn [validate_metrics].
  destruct (str_in x seen || negb (metricAllowed scope x)) eqn:E; [done|]. apply orb_false_iff in E as [_ E%negb_false_iff].
  intros H [->|Hm]; [done|by eapply IH].
Qed.
(** What a valid query has *)
Lemma validate_inv q :
  MetricQuery_Validate q = inr tt ->
  (mq_Scope q = "host" \/ mq_Scope q = "resource") /\ mq_From q < mq_To q /\
  time_sub (mq_To q) (mq_From q) <= 30 * 24 * Hour /\
  forall m, In m (mq_Metrics q) -> metricAllowed (mq_Scope q) m = true.
Proof.
  unfold MetricQuery_Validate.
  destruct (mq_Scope q =?s "host") eqn:E1, (mq_Scope q =?s "resource") eqn:E2; cbn [negb andb]; try done.
  all: repeat match goal with |- (if ?b then inl _ else _) = _ -> _ => destruct b eqn:?; [done|] end.
  all: rewrite ?orb_false_iff, ?negb_false_iff, ?Z.ltb_ge, ?Z.ltb_lt, ?String.eqb_eq in *.
  all: intros H; split_and!; [tauto|tauto|tauto|intros m; by apply validate_metrics_allowed with (seen := [])].
Qed.

Section queries.
Context (d : StoreDB) (rn : nat) (ck : list Z) (Hd : history_ok d).
Let w := World d [] rn ck.

Lemma points_ok q m res :
  mq_Scope q = "host" \/ mq_Scope q = "resource" -> metricAllowed (mq_Scope q) m = true ->
  exists points, metricPoints q m res w = (inr points, w).
Proof.
  intros Hs Hm. destruct (metric_source _ _ Hs Hm) as (a & Ha & E). unfold metricPoints. rewrite E. unfold bind.
  cbn [lift ret query exec next_fault w w_faults w_db]. apply scan_all_ok. intros r Hr.
  apply scan_point_ok; [done|]. destruct (Hd _ _ (source_table (mq_Scope q) a res Hs)) as [Hall _].
  rewrite List.Forall_forall in Hall. apply Hall.
  apply list_elem_of_In in Hr. rewrite sql_order_by_perm in Hr. apply list_elem_of_In in Hr. by apply filter_In in Hr as [? _].
Qed.
Definition series_of (q : MetricQuery) (res : Resolution) (s : Series) : Prop :=
  metricPoints q (se_Metric s) res w = (inr (se_Points s), w).
Lemma series_ok q res l :
  mq_Scope q = "host" \/ mq_Scope q = "resource" -> (forall m, In m l -> metricAllowed (mq_Scope q) m = true) ->
  exists ss, query_series q res l w = (inr ss, w) /\ map se_Metric ss = l /\ Forall (series_of q res) ss.
Proof.
  intros Hs. induction l as [|m l IH]; intros Hl; [by exists []|]. cbn [query_series]. unfold bind.
  destruct (points_ok q m res Hs (Hl m ltac:(by left))) as [points E]. rewrite E.
  destruct IH as (ss & -> & <- & Hss); [intros m' Hm; apply Hl; by right|]. eexists. split; [done|]. split; [done|].
  by constructor.
Qed.
Lemma or_default_healthy {A} (a : A) f : or_default a (query f) (World d [] rn ck) = (inr (f d), World d [] rn ck).
Proof. reflexivity. Qed.
Lemma or_default_row_healthy {A} (a : A) f :
  or_default a (query_row f) (World d [] rn ck) = (inr (default a (f d)), World d [] rn ck).
Proof. unfold or_default, query_row, exec. cbn. by destruct (f d). Qed.
Lemma classify_ok q gaps : exists gaps', classify_all q gaps w = (inr gaps', w).
Proof.
  induction gaps as [|g gaps [gaps' IH]]; [by eexists|]. cbn [classify_all]. unfold bind at 1.
  assert (exists reason, classifyGap q g w = (inr reason, w)) as [reason ->].
  { unfold classifyGap, w, bind. repeat (rewrite ?or_default_healthy, ?or_default_row_healthy; cbv iota beta;
      match goal with |- context [if ?c then _ else _] => destruct c | _ => by eexists end). }
  unfold bind. rewrite IH. by eexists.
Qed.
Lemma query_ok q :
  MetricQuery_Validate q = inr tt ->
  exists r, QueryMetrics q w = (inr r, w) /\ map se_Metric (mr_Series r) = mq_Metrics q /\
    Forall (series_of q (selectResolution (time_sub (mq_To q) (mq_From q)))) (mr_Series r).
Proof.
  intros Hv. destruct (validate_inv q Hv) as (Hs & _ & _ & Hm). unfold QueryMetrics. rewrite Hv. unfold bind at 1. cbn [lift ret].
  destruct (mq_Metrics q) as [|m l]; [by eexists|].
  set (res := selectResolution _). unfold bind.
  destruct (points_ok q m res Hs (Hm m ltac:(by left))) as [points Ep]. rewrite Ep.
  destruct (classify_ok q (findGaps (mq_From q) (mq_To q) res points)) as [gaps ->].
  destruct (series_ok q res l Hs) as (ss & -> & <- & Hss); [intros m' Hm'; apply Hm; by right|].
  eexists. split; [done|]. split; [done|]. by constructor.
Qed.
End queries.

(** ** The number of points *)

(** Distinct multiples of [b] in a window of [k] times [b] *)
Lemma multiples_bounded (b lo hi : Z) (k : nat) (l : list Z) :
  0 < b -> hi - lo <= Z.of_nat k * b -> NoDup l ->
  (forall x, In x l -> lo <= x <= hi /\ exists q, x = q * b) -> (length l <= S k)%nat.
Proof.
  intros Hb Hw Hnd Hl. set (q0 := - ((- lo) / b)).
  assert (lo <= q0 * b < lo + b) as Hq0.
  { unfold q0. pose proof (Z.div_mod (- lo) b). pose proof (Z.mod_pos_bound (- lo) b). nia. }
  assert (l ⊆ (fun q => q * b) <$> seqZ q0 (Z.of_nat (S k))) as Hsub.
  { intros x Hx%list_elem_of_In. destruct (Hl x Hx) as [Hx' [q ->]]. apply list_elem_of_fmap. exists q. split; [done|].
    apply elem_of_seqZ. nia. }
  pose proof (submseteq_length _ _ (NoDup_submseteq _ _ Hnd Hsub)) as Hlen.
  rewrite length_fmap, length_seqZ in Hlen. lia.
Qed.

Lemma window_keys q n s bucket t :
  mq_Scope q = "host" /\ primary_key n = ["ts"] \/ mq_Scope q = "resource" /\ primary_key n = ["resource_id"; "ts"] ->
  s = RolledUp bucket (scope_aggregates (mq_Scope q)) -> Forall (shaped s) t -> unique_keys n t ->
  NoDup (map row_ts (List.filter (in_window q) t)).
Proof.
  intros Hq -> Hs Hu. induction Hu as [|a t Ha _ IH]; cbn; [constructor|].
  apply Forall_cons in Hs as [Hsa Hs]. destruct (in_window q a) eqn:Ea; [|auto]. cbn. constructor; [|auto].
  intros Hin%list_elem_of_In%in_map_iff. destruct Hin as (b & Eb & [Hb Ewb]%filter_In).
  rewrite List.Forall_forall in Ha, Hs. specialize (Ha b Hb). destruct Hsa as [[k Ek] _], (Hs b Hb) as [[k' Ek'] _].
  assert (col "ts" a = col "ts" b) as Ets by (unfold row_ts, int_col in Eb; rewrite Ek, Ek' in *; congruence).
  destruct Hq as [[Eq Epk]|[Eq Epk]]; rewrite Epk in Ha; cbn [same_key forallb] in Ha; rewrite Ets, value_eqb_refl in Ha; [done|].
  unfold in_window in Ea, Ewb. rewrite Eq in Ea, Ewb. cbn in Ea, Ewb. apply andb_true_iff in Ea as [_ Ea], Ewb as [_ Ewb].
  apply value_eqb_true in Ea, Ewb. by rewrite Ea, Ewb, value_eqb_refl in Ha.
Qed.

(** The window of a query is at most a thousand buckets wide. *)
Lemma window_bounded q res :
  MetricQuery_Validate q = inr tt -> res = selectResolution (time_sub (mq_To q) (mq_From q)) -> res <> ResolutionRaw ->
  time_unix_milli (mq_To q) - time_unix_milli (mq_From q) <= Z.of_nat 1000 * (step res / Millisecond).
Proof.
  intros Hv Er Hres. destruct (validate_inv q Hv) as (_ & Hft & Hmax & _).
  assert (mq_To q - mq_From q <= 1000 * step res) as Hw.
  { subst res. unfold selectResolution in *. revert Hres. unfold time_sub, sat64 in *.
    repeat (case_match; [rewrite ?Z.leb_le, ?Z.leb_gt in *;
      cbn [step]; unfold Hour, Minute, Second, max_int64, min_int64 in *; intros; try congruence; lia|]).
    cbn [step]; unfold Hour, Minute, Second, max_int64, min_int64 in *. lia. }
  assert (exists m, step res = m * Millisecond) as [m Em] by (exists (step res / Millisecond); by destruct res).
  rewrite Em in *. change (Z.of_nat 1000) with 1000. unfold time_unix_milli, Millisecond in *. rewrite Z.div_mul by done.
  pose proof (Z.div_mod (mq_To q) 1000000). pose proof (Z.mod_pos_bound (mq_To q) 1000000).
  pose proof (Z.div_mod (mq_From q) 1000000). pose proof (Z.mod_pos_bound (mq_From q) 1000000). lia.
Qed.

Lemma points_bounded q m res w points w' :
  history_ok (w_db w) -> MetricQuery_Validate q = inr tt -> metricAllowed (mq_Scope q) m = true ->
  res = selectResolution (time_sub (mq_To q) (mq_From q)) -> res <> ResolutionRaw ->
  metricPoints q m res w = (inr points, w') -> (length points <= 1001)%nat /\ w_db w' = w_db w.
Proof.
  intros Hd Hv Hm Er Hres H. destruct (validate_inv q Hv) as (Hs & _). destruct (metric_source _ _ Hs Hm) as (a & _ & E).
  unfold metricPoints in H. rewrite E in H. tx_inv H. apply lift_inv in Hm0 as [Ea ->]. injection Ea as <-.
  tx_inv H. apply query_inr in Hm0 as [-> Ew]. rewrite <- Ew.
  set (rows := sql_order_by _ _) in H. assert (w_db w' = w_db w0) as -> by (by eapply scan_db).
  split; [|done]. apply points_of_rows, (f_equal length) in H. rewrite !length_map in H. rewrite H. unfold rows.
  rewrite sql_order_by_perm, <- (length_map row_ts).
  destruct (Hd _ _ (source_table _ a res Hs)) as [H1 H2].
  assert (source_shape (mq_Scope q) res = RolledUp (step res / Millisecond) (scope_aggregates (mq_Scope q))) as Esh by (by destruct res).
  apply (multiples_bounded (step res / Millisecond) (time_unix_milli (mq_From q)) (time_unix_milli (mq_To q))).
  - by destruct res.
  - by apply window_bounded.
  - eapply window_keys; [|exact Esh|exact H1|exact H2]. clear -Hs Hres. destruct Hs as [-> | ->], res; try done; auto.
  - intros x Hx. apply in_map_iff in Hx as (r & <- & [Hr Hw]%filter_In). split.
    + unfold in_window in Hw. rewrite !andb_true_iff, !Z.leb_le in Hw. tauto.
    + rewrite List.Forall_forall in H1. specialize (H1 r Hr). rewrite Esh in H1. destruct H1 as [[k Ek] _].
      exists k. unfold row_ts, int_col. by rewrite Ek.
Qed.

Lemma classify_db q gaps w gaps' w' : classify_all q gaps w = (inr gaps', w') -> w_db w' = w_db w.
Proof.
  intros H. assert (preserves (eq (w_db w)) (classify_all q gaps)) as Hp.
  { clear H. induction gaps as [|g gaps IH]; cbn [classify_all]; [apply preserves_ret|]. unfold classifyGap.
    frame_auto; try done. }
  specialize (Hp w eq_refl). by rewrite H in Hp.
Qed.

Lemma series_bounded q res l w ss w' :
  history_ok (w_db w) -> MetricQuery_Validate q = inr tt -> (forall m, In m l -> metricAllowed (mq_Scope q) m = true) ->
  res = selectResolution (time_sub (mq_To q) (mq_From q)) -> res <> ResolutionRaw ->
  query_series q res l w = (inr ss, w') -> Forall (fun s => (length (se_Points s) <= 1001)%nat) ss.
Proof.
  intros Hd Hv Hl Er Hres. revert w Hd ss. induction l as [|m l IH]; intros w Hd ss H; cbn [query_series] in H.
  { by injection H as <- _. }
  tx_inv H. tx_inv H. injection H as <- ->. cbn [In] in Hl.
  destruct (points_bounded q m res w a w0) as [Hb Ew]; [done|done|by apply Hl; left|done|done|done|].
  constructor; [done|]. eapply (IH _ w0); [by rewrite Ew|done]. Unshelve. intros m' Hm'. apply Hl. by right.
Qed.

(** C11 (type): the history is well typed.  Batches, rollups and retention keep
    every column that a query reads numeric, the rollups aligned to their
    buckets and the keys unique, whatever statements fail; and on a database of
    this type every query that passes validation returns a series for each of
    its metrics, never an error about a column, a table or a value. *)
Theorem history_well_typed `{MapOrder} (sql_avg : list Value -> F64) (page_count freelist_count : StoreDB -> Z) :
  history_ok empty_store /\
  (forall b prev, preserves history_ok (WriteBatch b prev)) /\
  (forall now, preserves history_ok (RollupOnce sql_avg now)) /\
  (forall order r aggressive, preserves history_ok (applyRetention page_count freelist_count order r aggressive)) /\
  (forall d rn ck q, history_ok d -> MetricQuery_Validate q = inr tt ->
    exists r, QueryMetrics q (World d [] rn ck) = (inr r, World d [] rn ck) /\ map se_Metric (mr_Series r) = mq_Metrics q).
Proof.
  split_and!.
  - intros n s _. split; constructor.
  - apply write_batch_ok.
  - apply rollup_ok.
  - apply retention_ok.
  - intros d rn ck q Hd Hv. destruct (query_ok d rn ck Hd q Hv) as (r & E & Em & _). by exists r.
Qed.

(** A response stays small.  However long the range, a series read
    from rollups has at most 1001 points. *)
Theorem history_bounded (q : MetricQuery) (w w' : world StoreDB) (r : MetricsResponse) :
  history_ok (w_db w) -> QueryMetrics q w = (inr r, w') -> mr_Resolution r <> ResolutionRaw ->
  Forall (fun s => (length (se_Points s) <= 1001)%nat) (mr_Series r).
Proof.
  intros Hd H Hres. unfold QueryMetrics in H. tx_inv H. apply lift_inv in Hm as [Hv ->]. destruct a.
  destruct (validate_inv q Hv) as (_ & _ & _ & Hm). destruct (mq_Metrics q) as [|m l]; [by injection H as <- _|].
  tx_inv H. tx_inv H. tx_inv H. injection H as <- ->. cbn [mr_Series mr_Resolution] in *.
  destruct (points_bounded q m _ w a w0 Hd Hv (Hm m ltac:(by left)) eq_refl Hres Hm0) as [Hb Ew].
  constructor; [done|]. eapply series_bounded; [|exact Hv| |reflexivity|exact Hres|exact Hm2].
  - rewrite (classify_db _ _ _ _ _ Hm1), Ew. done.
  - intros m' Hm'. apply Hm. by right.
Qed.

(** ** What was written is what is read *)

(** A reading as the database keeps it *)
Definition known (f : option F64) : option F64 := match f with Some S754_nan => None | f => f end.

Definition host_reading (m : Metric) (h : HostObservation) : option F64 :=
  default None (assoc m
    [ (MetricCPU, known (h_CPUPercent h)); (MetricCPUUser, known (h_CPUUserPercent h));
      (MetricCPUSystem, known (h_CPUSystemPercent h)); (MetricCPUIOWait, known (h_CPUIOWaitPercent h));
      (MetricCPUSteal, known (h_CPUStealPercent h)); (MetricMemory, f64_of_Z <$> h_MemoryUsedBytes h);
      (MetricSwap, f64_of_Z <$> h_SwapUsedBytes h); (MetricLoad1, known (h_Load1 h)); (MetricLoad5, known (h_Load5 h));
      (MetricLoad15, known (h_Load15 h)); (MetricNetworkRX, known (h_NetworkRXBPS h));
      (MetricNetworkTX, known (h_NetworkTXBPS h)); (MetricDiskRead, known (h_DiskReadBPS h));
      (MetricDiskWrite, known (h_DiskWriteBPS h));
      (MetricDiskIOPS, a ← known (h_DiskReadIOPS h); b ← known (h_DiskWriteIOPS h); known (Some (f64_add a b))) ]).
Definition resource_reading (m : Metric) (r : ResourceSnapshot) : option F64 :=
  default None (assoc m
    [ (MetricCPU, known (rs_CPUHostPercent r)); (MetricMemory, f64_of_Z <$> rs_MemoryBytes r);
      (MetricNetworkRX, known (rs_RXBPS r)); (MetricNetworkTX, known (rs_TXBPS r));
      (MetricBlockRead, known (rs_BlockReadBPS r)); (MetricBlockWrite, known (rs_BlockWriteBPS r)) ]).

Lemma scan_opt_real f : scan_float (opt_real f) = inr (known f).
Proof. by destruct f as [[]|]. Qed.
Lemma scan_opt_int z : scan_float (opt_int z) = inr (f64_of_Z <$> z).
Proof. by destruct z. Qed.
Lemma scan_sum a b :
  scan_float (match opt_real a, opt_real b with
    | VNull, _ | _, VNull => VNull
    | VInt x, VInt y => VInt (x + y)
    | x, y => real (f64_add (to_real x) (to_real y))
    end) = inr (x ← known a; y ← known b; known (Some (f64_add x y))).
Proof.
  destruct a as [[]|]; [..|done]; destruct b as [[]|]; cbn [opt_real real known mbind option_bind to_real]; try done.
  all: match goal with |- context [real ?f] => generalize f; intros f0; by destruct f0 end.
Qed.

Lemma host_value m s so :
  In m hostMetrics -> metricSource "host" m ResolutionRaw = inr so ->
  scan_float (eval (so_avg so) (host_row s)) = inr (host_reading m (sn_Host s)).
Proof.
  intros Hm. cbn [hostMetrics In] in Hm.
  repeat (destruct Hm as [<-|Hm]; [intros [= <-]; first [apply scan_opt_real|apply scan_opt_int|apply scan_sum]|]). done.
Qed.
Lemma resource_value m at_ r so :
  In m resourceMetrics -> metricSource "resource" m ResolutionRaw = inr so ->
  scan_float (eval (so_avg so) (resource_row at_ r)) = inr (resource_reading m r).
Proof.
  intros Hm. cbn [resourceMetrics In] in Hm.
  repeat (destruct Hm as [<-|Hm]; [intros [= <-]; first [apply scan_opt_real|apply scan_opt_int]|]). done.
Qed.

Definition stored (n : string) (x : Row) (d : StoreDB) : Prop := In x (table n d).

Lemma replace_keeps n x n' r :
  (n' = n -> same_key (primary_key n) x r = false) -> preserves (stored n x) (insert_or_replace n' r).
Proof.
  intros Hk. apply exec_preserves. intros d u d' Hd [E _]%checked_inr. injection E as _ ->. unfold stored in *.
  destruct (decide (n = n')) as [->|]; [|by rewrite table_set_ne]. rewrite table_set. apply in_replace. auto.
Qed.
Lemma ignore_keeps n x n' r : preserves (stored n x) (insert_or_ignore n' r).
Proof.
  apply exec_preserves. intros d u d' Hd [E _]%checked_inr. injection E as _ ->. unfold stored in *.
  destruct (decide (n = n')) as [->|]; [|by rewrite table_set_ne]. rewrite table_set. unfold add_row.
  destruct (existsb _ _); [done|]. apply in_app_iff. by left.
Qed.
Lemma update_keeps n x n' p f : n' <> n -> preserves (stored n x) (update_table n' p f).
Proof.
  intros Hn. apply exec_preserves. intros d u d' Hd [E _]%checked_inr. injection E as _ ->. unfold stored in *.
  by rewrite table_set_ne.
Qed.
Ltac keep_row :=
  match goal with
  | |- preserves _ (insert_or_ignore _ _) => apply ignore_keeps
  | |- preserves _ (update_table _ _ _) => by apply update_keeps
  | |- preserves _ (insert_or_replace _ _) => apply replace_keeps; try discriminate
  | _ => idtac
  end.

Lemma replace_stores n r P : triple P (insert_or_replace n r) (fun _ => stored n r) (fun _ _ => True).
Proof.
  apply triple_exec; [done|]. intros d _. destruct (checked _) as [|[u d']] eqn:E; [done|].
  apply checked_inr in E as [E _]. injection E as _ ->. unfold stored. rewrite table_set. apply in_replace. by left.
Qed.

Lemma resource_key_differs at_ r r' :
  rs_ID r <> rs_ID r' -> same_key ["resource_id"; "ts"] (resource_row at_ r) (resource_row at_ r') = false.
Proof.
  intros Hne. unfold same_key. cbn [forallb]. apply andb_false_iff. left. unfold value_eqb. apply bool_decide_eq_false.
  change (VText (rs_ID r) <> VText (rs_ID r')). congruence.
Qed.

Lemma write_resource_keeps_host at_ r x : preserves (stored "host_samples_10s" x) (write_resource at_ r).
Proof. unfold write_resource, write_instance, bind_row. frame_auto; keep_row. Qed.
Lemma write_resource_keeps at_ r r' :
  rs_ID r <> rs_ID r' -> preserves (stored "resource_samples_10s" (resource_row at_ r)) (write_resource at_ r').
Proof.
  intros Hne. unfold write_resource, write_instance, bind_row. frame_auto; keep_row. intros _. by apply resource_key_differs.
Qed.
Lemma write_resource_stores at_ r :
  triple (fun _ => True) (write_resource at_ r) (fun _ => stored "resource_samples_10s" (resource_row at_ r)) (fun _ _ => True).
Proof.
  unfold write_resource. eapply triple_bind.
  - unfold bind_row. destruct (bindable _); [apply replace_stores|by apply triple_throw].
  - intros u. apply preserves_weaken. unfold write_instance, bind_row. frame_auto; keep_row.
Qed.

Lemma write_resources_stores at_ l r :
  NoDup (map rs_ID l) -> In r l ->
  triple (fun _ => True) (iter_tx (write_resource at_) l)
    (fun _ => stored "resource_samples_10s" (resource_row at_ r)) (fun _ _ => True).
Proof.
  induction l as [|r' l IH]; [done|]. cbn [map iter_tx]. intros [Hn Hnd]%NoDup_cons [->|Hin].
  - eapply triple_bind; [apply write_resource_stores|]. intros u. apply triple_iter. intros r' Hr'.
    apply preserves_weaken, write_resource_keeps. intros E. apply Hn. rewrite E. by apply list_elem_of_fmap_2.
  - eapply triple_bind; [|intros u; by apply IH].
    by eapply triple_conseq; [apply write_resource_stores| | |].
Qed.

(** Nothing in a batch after the samples touches them. *)
Lemma batch_rest_keeps `{MapOrder} n x (b : PersistenceBatch) prev :
  n <> "filesystem_samples_1m" ->
  preserves (stored n x)
    (iter_tx (fun f => bind_row (filesystem_row f) (insert_or_replace "filesystem_samples_1m" (filesystem_row f))) (pb_Filesystems b) ;;;
     iter_tx (fun e => insert_or_ignore "events" (event_row e)) (pb_Events b) ;;;
     writeCollectorStateEvents (sn_At (pb_Snapshot b)) (range_map (sn_Collectors (pb_Snapshot b))) prev).
Proof.
  intros Hn. unfold bind_row. frame_auto; keep_row; [by intros E; destruct Hn|].
  generalize (range_map (sn_Collectors (pb_Snapshot b))). intros l. revert prev.
  induction l as [|[name h] l IH]; intros prev; cbn [writeCollectorStateEvents]; [apply preserves_ret|].
  frame_auto; [apply IH|apply ignore_keeps|apply IH].
Qed.

Lemma batch_stores `{MapOrder} (b : PersistenceBatch) prev n x :
  n <> "filesystem_samples_1m" -> 0 < sn_Sequence (pb_Snapshot b) ->
  triple (fun _ => True) (bind_row (host_row (pb_Snapshot b)) (insert_or_replace "host_samples_10s" (host_row (pb_Snapshot b))) ;;;
    iter_tx (write_resource (sn_At (pb_Snapshot b))) (sn_Resources (pb_Snapshot b))) (fun _ => stored n x) (fun _ _ => True) ->
  triple (fun _ => True) (batch_body b prev) (fun _ => stored n x) (fun _ _ => True).
Proof.
  intros Hn Hseq Hs. unfold batch_body, write_samples. rewrite (proj2 (Z.ltb_lt _ _)) by lia.
  eapply triple_bind; [exact Hs|]. intros u. by apply preserves_weaken, batch_rest_keeps.
Qed.

(** A batch that is committed leaves the database of its body; one that is
    not leaves the database as it was. *)
Lemma write_batch_inv `{MapOrder} b prev w e prev' w' :
  WriteBatch b prev w = (inr (e, prev'), w') ->
  match e with
  | inl _ => w_db w' = w_db w
  | inr _ => exists w1 w2, batch_body b prev w1 = (inr (inr tt, prev'), w2) /\ w_db w1 = w_db w /\ w_db w' = w_db w2
  end.
Proof.
  unfold WriteBatch.
  assert (forall w : world StoreDB, w_db (next_fault w).2 = w_db w) as Hf by (intros w1; unfold next_fault; by destruct (w_faults w1)).
  pose proof (Hf w) as Hf1. destruct (next_fault w) as [[] w1]; cbn in Hf1; [by intros [= <- _ <-]|].
  destruct (batch_body b prev w1) as [[e1|[[e1|[]] p]] w2] eqn:E; [by intros [= <- _ <-]..|].
  pose proof (Hf w2) as Hf2. destruct (next_fault w2) as [[] w3]; cbn in Hf2; intros [= <- <- <-]; [done|].
  exists w1, w2. done.
Qed.

(** A row in the window of a raw query is a point of the series. *)
Lemma query_point d rn ck q m so r v :
  history_ok d -> MetricQuery_Validate q = inr tt -> time_sub (mq_To q) (mq_From q) <= 2 * Hour -> In m (mq_Metrics q) ->
  metricSource (mq_Scope q) m ResolutionRaw = inr so -> stored (so_table so) r d -> in_window q r = true ->
  integer (col "ts" r) -> scan_float (eval (so_avg so) r) = inr v ->
  exists resp s, QueryMetrics q (World d [] rn ck) = (inr resp, World d [] rn ck) /\ In s (mr_Series resp) /\ se_Metric s = m /\
    In (mkPoint (of_unix_milli (row_ts r)) v v v (if v then 1 else 0)) (se_Points s).
Proof.
  intros Hd Hv Hraw Hm Hso Hr Hw Hts Hf. destruct (query_ok d rn ck Hd q Hv) as (resp & E & Em & Hs).
  rewrite <- Em in Hm. apply in_map_iff in Hm as (s & <- & Hin). exists resp, s. split_and!; [done..|].
  rewrite List.Forall_forall in Hs. specialize (Hs s Hin). unfold series_of, selectResolution in Hs.
  rewrite (proj2 (Z.leb_le _ _)) in Hs by done. unfold metricPoints in Hs. rewrite Hso in Hs.
  tx_inv Hs. apply lift_inv in Hm as [Ea ->]. injection Ea as <-. tx_inv Hs. apply query_inr in Hm as [-> _].
  apply scan_all_inv in Hs.
  assert (r ∈ sql_order_by ts_le (List.filter (in_window q) (table (so_table so) d))) as Hrow.
  { rewrite sql_order_by_perm. by apply list_elem_of_In, filter_In. }
  apply list_elem_of_lookup in Hrow as [i Hi]. destruct (Forall2_lookup_l _ _ _ _ _ Hs Hi) as (p & Hp & w1 & w2 & Ep).
  apply list_elem_of_In, list_elem_of_lookup. exists i. rewrite Hp. f_equal.
  unfold scan_point, bind in Ep. rewrite Hf in Ep. unfold row_ts, int_col.
  destruct (col "ts" r); try done. cbn in Ep. by injection Ep as <- _.
Qed.

Lemma host_row_ts s : row_ts (host_row s) = time_unix_milli (sn_At s).
Proof. reflexivity. Qed.
Lemma resource_row_ts at_ r : row_ts (resource_row at_ r) = time_unix_milli at_.
Proof. reflexivity. Qed.

(** The query [q] answers with a point for [m] at [at_], to the millisecond,
    with the value [v]. *)
Definition answers (q : MetricQuery) (m : Metric) (d : StoreDB) (at_ : Z) (v : option F64) : Prop :=
  forall rn ck, exists resp s,
    QueryMetrics q (World d [] rn ck) = (inr resp, World d [] rn ck) /\ In s (mr_Series resp) /\ se_Metric s = m /\
    In (mkPoint (of_unix_milli (time_unix_milli at_)) v v v (if v then 1 else 0)) (se_Points s).

Lemma in_window_at q r at_ :
  row_ts r = time_unix_milli at_ -> mq_From q <= at_ <= mq_To q ->
  (mq_Scope q = "resource" -> col "resource_id" r = VText (mq_ID q)) -> in_window q r = true.
Proof.
  intros Er Hat Hid. unfold in_window, time_unix_milli in *. rewrite Er.
  rewrite !(proj2 (Z.leb_le _ _)) by (apply Z.div_le_mono; unfold Millisecond; lia). cbn.
  destruct (String.eqb_spec (mq_Scope q) "resource") as [E|]; [|done]. rewrite Hid by done. apply value_eqb_refl.
Qed.

Section roundtrip.
Context `{MapOrder} (b : PersistenceBatch) (prev prev' : gmap string string) (w w' : world StoreDB) (q : MetricQuery).
Let s := pb_Snapshot b.
Context (Hd : history_ok (w_db w)) (Hw : WriteBatch b prev w = (inr (inr tt, prev'), w')) (Hseq : 0 < sn_Sequence s).
Context (Hv : MetricQuery_Validate q = inr tt) (Hraw : time_sub (mq_To q) (mq_From q) <= 2 * Hour).
Context (Hat : mq_From q <= sn_At s <= mq_To q).

Lemma batch_history_ok : history_ok (w_db w').
Proof using Hd Hw. pose proof (write_batch_ok b prev w Hd) as Hp. by rewrite Hw in Hp. Qed.

Lemma host_stored : stored "host_samples_10s" (host_row s) (w_db w').
Proof using Hw Hseq.
  destruct (write_batch_inv _ _ _ _ _ _ Hw) as (w1 & w2 & E & _ & ->).
  assert (triple (fun _ => True) (batch_body b prev) (fun _ => stored "host_samples_10s" (host_row s)) (fun _ _ => True)) as Hp.
  { apply batch_stores; [done|done|]. eapply triple_bind.
    - unfold bind_row. destruct (bindable _); [apply replace_stores|by apply triple_throw].
    - intros u. apply triple_iter. intros r _. apply preserves_weaken, write_resource_keeps_host. }
  specialize (Hp w1 I). by rewrite E in Hp.
Qed.
Lemma resource_stored r :
  NoDup (map rs_ID (sn_Resources s)) -> In r (sn_Resources s) ->
  stored "resource_samples_10s" (resource_row (sn_At s) r) (w_db w').
Proof using Hw Hseq.
  intros Hnd Hr. destruct (write_batch_inv _ _ _ _ _ _ Hw) as (w1 & w2 & E & _ & ->).
  assert (triple (fun _ => True) (batch_body b prev) (fun _ => stored "resource_samples_10s" (resource_row (sn_At s) r)) (fun _ _ => True)) as Hp.
  { apply batch_stores; [done|done|]. eapply (triple_bind _ _ _ (fun _ _ => True)); [|intros u; by apply write_resources_stores].
    unfold bind_row. destruct (bindable _); [|by apply triple_throw].
    by eapply triple_conseq; [apply (replace_stores _ _ (fun _ => True))| | |]. }
  specialize (Hp w1 I). by rewrite E in Hp.
Qed.

Lemma host_answers m : mq_Scope q = "host" -> In m (mq_Metrics q) -> answers q m (w_db w') (sn_At s) (host_reading m (sn_Host s)).
Proof using All.
  intros Es Hm rn ck. destruct (validate_inv q Hv) as (Hs & _ & _ & Ha). specialize (Ha m Hm).
  destruct (metric_source _ _ Hs Ha) as (a & _ & Eso). rewrite <- (host_row_ts s).
  eapply (query_point (w_db w') rn ck q m _ (host_row s)); [apply batch_history_ok|done|done|done|exact (Eso ResolutionRaw)| | |apply host_row_shaped|].
  - rewrite Es. apply host_stored.
  - eapply in_window_at; [apply host_row_ts|done|by rewrite Es].
  - rewrite Es in *. apply (host_value m s); [by apply str_in_spec in Ha|apply Eso].
Qed.
Lemma resource_answers m r :
  NoDup (map rs_ID (sn_Resources s)) -> In r (sn_Resources s) -> mq_Scope q = "resource" -> mq_ID q = rs_ID r ->
  In m (mq_Metrics q) -> answers q m (w_db w') (sn_At s) (resource_reading m r).
Proof using All.
  intros Hnd Hr Es Eid Hm rn ck. destruct (validate_inv q Hv) as (Hs & _ & _ & Ha). specialize (Ha m Hm).
  destruct (metric_source _ _ Hs Ha) as (a & _ & Eso). rewrite <- (resource_row_ts (sn_At s) r).
  eapply (query_point (w_db w') rn ck q m _ (resource_row (sn_At s) r));
    [apply batch_history_ok|done|done|done|exact (Eso ResolutionRaw)| | |apply resource_row_shaped|].
  - rewrite Es. by apply resource_stored.
  - eapply in_window_at; [apply resource_row_ts|done|by rewrite Eid].
  - rewrite Es in *. apply (resource_value m (sn_At s) r); [by apply str_in_spec in Ha|apply Eso].
Qed.
End roundtrip.

(** C10 (roundtrip): what is written is what is read.  After a batch is
    committed, a raw query over its instant answers with the snapshot's
    reading of every host metric, and for each resource with the resource's;
    a batch that is not committed leaves the database as it was. *)
Theorem sample_roundtrip `{MapOrder} (b : PersistenceBatch) (prev prev' : gmap string string) (w w' : world StoreDB) (e : gerr + unit) :
  history_ok (w_db w) -> WriteBatch b prev w = (inr (e, prev'), w') -> 0 < sn_Sequence (pb_Snapshot b) ->
  NoDup (map rs_ID (sn_Resources (pb_Snapshot b))) ->
  let s := pb_Snapshot b in
  match e with
  | inl _ => w_db w' = w_db w
  | inr _ =>
      forall q m, MetricQuery_Validate q = inr tt -> time_sub (mq_To q) (mq_From q) <= 2 * Hour ->
      mq_From q <= sn_At s <= mq_To q -> In m (mq_Metrics q) ->
      (mq_Scope q = "host" -> answers q m (w_db w') (sn_At s) (host_reading m (sn_Host s))) /\
      (forall r, In r (sn_Resources s) -> mq_Scope q = "resource" -> mq_ID q = rs_ID r ->
        answers q m (w_db w') (sn_At s) (resource_reading m r))
  end.
Proof.
  intros Hd Hw Hseq Hnd. cbv zeta. destruct e as [e|[]]; [by apply write_batch_inv in Hw|].
  intros q m Hv Hraw Hat Hm. split; [intros Es|intros r Hr Es Eid].
  - by eapply host_answers.
  - by eapply resource_answers.
Qed.

(** ** Witnesses *)

Definition sample_host : HostObservation :=
  mkHost Second (Some (f64_of_Z 5)) None None None None None None None None None None None None None None
    None None None None None None None None None None None None None None None None None.
Definition sample_batch : PersistenceBatch := mkBatch (mkSnapshot 1 Second "boot" sample_host [] ∅) [] [].
Definition sample_query : MetricQuery := mkMetricQuery "host" "" [MetricCPU] (Second / 2) (10 * Minute).

Lemma sample_roundtrip_witness :
  exists w', WriteBatch sample_batch ∅ (World empty_store [] 0%nat []) = (inr (inr tt, ∅), w') /\
    answers sample_query MetricCPU (w_db w') Second (Some (f64_of_Z 5)).
Proof.
  eexists. assert (WriteBatch sample_batch ∅ (World empty_store [] 0%nat []) = (inr (inr tt, ∅), _)) as E by (vm_compute; reflexivity).
  split; [exact E|].
  refine (proj1 (sample_roundtrip sample_batch ∅ ∅ _ _ (inr tt) _ E _ _ sample_query MetricCPU _ _ _ _) _).
  - intros n s _. split; constructor.
  - reflexivity.
  - constructor.
  - vm_compute. reflexivity.
  - vm_compute. discriminate.
  - vm_compute. split; discriminate.
  - by left.
  - reflexivity.
Defined.

Lemma history_gaps_witness :
  exists r w', QueryMetrics sample_query (World empty_store [] 0%nat []) = (inr r, w') /\ reported (mr_Gaps r) (5 * Minute).
Proof.
  eexists _, _. assert (QueryMetrics sample_query (World empty_store [] 0%nat []) = (inr _, _)) as E by (vm_compute; reflexivity).
  split; [exact E|].
  destruct (history_gaps sample_query _ _ _ (mkSeries MetricCPU "percent" []) [] E eq_refl) as (_ & H & _).
  apply (H (Second / 2) (10 * Minute)).
  - vm_compute. discriminate.
  - vm_compute. discriminate.
  - vm_compute. reflexivity.
  - intros p t' [].
  - vm_compute. split; [discriminate|reflexivity].
Defined.

Lemma sample_history_ok : history_ok sample_history.
Proof.
  change sample_history with (set_table "host_samples_10s"
    [sample_host_row 10000 4; sample_host_row 50000 6; sample_host_row 70000 9] empty_store).
  apply history_set; [intros n s _; split; constructor|]. intros s Hs. vm_compute in Hs. injection Hs as <-. split.
  - repeat (constructor; [apply (samples_shaped host_aggregates ["host_id"]); [vm_compute; exact I|numeric_entries|reflexivity]|]).
    constructor.
  - repeat (constructor; [repeat constructor|]). constructor.
Qed.

Definition long_query : MetricQuery := mkMetricQuery "host" "" [MetricMemory] 1 (3 * Hour).
Definition rolled_up_world : world StoreDB := (RollupOnce (fun _ => f64_zero) (2 * Minute) (World sample_history [] 0%nat [])).2.

Lemma history_bounded_witness :
  exists r w', QueryMetrics long_query rolled_up_world = (inr r, w') /\ mr_Resolution r = Resolution1m /\
    map (fun s => length (se_Points s)) (mr_Series r) = [2%nat] /\
    Forall (fun s => (length (se_Points s) <= 1001)%nat) (mr_Series r).
Proof.
  eexists _, _. assert (QueryMetrics long_query rolled_up_world = (inr _, _)) as E by (vm_compute; reflexivity).
  split_and!; [exact E|reflexivity|reflexivity|].
  refine (history_bounded long_query rolled_up_world _ _ _ E _); [|discriminate].
  pose proof (rollup_ok (fun _ => f64_zero) (2 * Minute) (World sample_history [] 0%nat []) sample_history_ok) as Hp.
  unfold rolled_up_world. destruct (RollupOnce _ _ _) as [[] w1]; exact Hp.
Defined.
