(* ===== verification/Persistence.v ===== *)
(** * The persistence queue

    [internal/storage/persistence.go] and [retry.go]: snapshots are put in a
    bounded queue by one goroutine and written by another, which retries
    transient errors.  The two interleave at every channel operation. *)

From stdpp Require Import base tactics list gmap strings pretty.
From Stdlib Require Import ZArith Lia.
From S2P Require Import Prelude GoString Db Metrics.

(** ** Retry *)

Section retry.
Context {S E : Type}.
(** [err.Error()] and [errors.Is(err, context.DeadlineExceeded)] *)
Context (error_text : E -> string) (deadline_exceeded : E -> bool).

Definition Transient (e : E) : bool :=
  let s := ToLower (error_text e) in Contains s "busy" || Contains s "locked" || deadline_exceeded e.

(** The waits of [Retry], with whether the context ends each of them;
    [cancelled] is [ctx.Err()]. *)
Fixpoint retry_from (attempt fuel : nat) (last : option E) (cancelled : E) (ends : nat -> bool)
    (fn : S -> option E * S) (s : S) : option E * S * list Z :=
  match fuel with
  | O => (last, s, [])
  | Datatypes.S fuel =>
      match fn s with
      | (None, s') => (None, s', [])
      | (Some e, s') =>
          if negb (Transient e) then (Some e, s', [])
          else
            let d := Z.shiftl 1 (Z.of_nat attempt) * 100 * Millisecond in
            if ends attempt then (Some cancelled, s', [d])
            else
              let '(r, s'', ds) := retry_from (Datatypes.S attempt) fuel (Some e) cancelled ends fn s' in
              (r, s'', d :: ds)
      end
  end.
Definition Retry := retry_from 0 5 None.
End retry.

(** ** The queue *)

Section queue.
Context {B : Type}.

(** What became of a batch that left the queue *)
Inductive Fate := Taken | DroppedOldest.

(** The producer between two channel operations of [enqueue] *)
Inductive Producer :=
  | PIdle
  | PSend (b : B)          (** before [queue <- batch] *)
  | PDrop (b : B)          (** in [default]: before [<-queue] *)
  | PDepth (b : B)         (** before the first [QueueDepth.Store] of [default] *)
  | PResend (b : B)        (** before the second [queue <- batch] *)
  | PStore.                (** before a [QueueDepth.Store] after a send *)
Inductive Consumer := CWait | CStore (b : B) | CWrite (b : B).

Record Persistence := mkPersistence {
  ps_QueueLimit : Z; ps_queue : list B; ps_Dropped : Z; ps_QueueDepth : Z; ps_Paused : bool;
  ps_producer : Producer; ps_consumer : Consumer;
  (** ghost: what was sent, what left the queue, and what was refused *)
  ps_sent : list B; ps_left : list (B * Fate); ps_refused : list B;
}.

Definition set_producer (p : Producer) (s : Persistence) : Persistence :=
  mkPersistence (ps_QueueLimit s) (ps_queue s) (ps_Dropped s) (ps_QueueDepth s) (ps_Paused s) p (ps_consumer s)
    (ps_sent s) (ps_left s) (ps_refused s).
Definition set_consumer (c : Consumer) (s : Persistence) : Persistence :=
  mkPersistence (ps_QueueLimit s) (ps_queue s) (ps_Dropped s) (ps_QueueDepth s) (ps_Paused s) (ps_producer s) c
    (ps_sent s) (ps_left s) (ps_refused s).
Definition store_depth (s : Persistence) : Persistence :=
  mkPersistence (ps_QueueLimit s) (ps_queue s) (ps_Dropped s) (Z.of_nat (length (ps_queue s))) (ps_Paused s) (ps_producer s)
    (ps_consumer s) (ps_sent s) (ps_left s) (ps_refused s).
(** [Dropped.Add(1)]: the counter wraps at 64 bits. *)
Definition count_drop (s : Persistence) : Persistence :=
  mkPersistence (ps_QueueLimit s) (ps_queue s) (wrapu64 (ps_Dropped s + 1)) (ps_QueueDepth s) (ps_Paused s) (ps_producer s)
    (ps_consumer s) (ps_sent s) (ps_left s) (ps_refused s).
Definition pause (v : bool) (s : Persistence) : Persistence :=
  mkPersistence (ps_QueueLimit s) (ps_queue s) (ps_Dropped s) (ps_QueueDepth s) v (ps_producer s) (ps_consumer s)
    (ps_sent s) (ps_left s) (ps_refused s).

Definition NewPersistence (limit : Z) : Persistence := mkPersistence limit [] 0 0 false PIdle CWait [] [] [].
(** [Start]: a limit below one is replaced. *)
Definition Start (s : Persistence) : Persistence :=
  let limit := if ps_QueueLimit s <? 1 then 60 else ps_QueueLimit s in
  mkPersistence limit [] (ps_Dropped s) (ps_QueueDepth s) (ps_Paused s) PIdle CWait [] [] [].

(** [queue <- batch] when there is room, else [None] *)
Definition send (b : B) (s : Persistence) : option Persistence :=
  if Z.of_nat (length (ps_queue s)) <? ps_QueueLimit s then
    Some (mkPersistence (ps_QueueLimit s) (ps_queue s ++ [b]) (ps_Dropped s) (ps_QueueDepth s) (ps_Paused s) (ps_producer s)
      (ps_consumer s) (ps_sent s ++ [b]) (ps_left s) (ps_refused s))
  else None.
(** [<-queue] when there is a batch, else [None] *)
Definition receive (f : Fate) (s : Persistence) : option (B * Persistence) :=
  match ps_queue s with
  | [] => None
  | b :: q => Some (b, mkPersistence (ps_QueueLimit s) q (ps_Dropped s) (ps_QueueDepth s) (ps_Paused s) (ps_producer s)
      (ps_consumer s) (ps_sent s) (ps_left s ++ [(b, f)]) (ps_refused s))
  end.
Definition refuse (b : B) (s : Persistence) : Persistence :=
  mkPersistence (ps_QueueLimit s) (ps_queue s) (ps_Dropped s) (ps_QueueDepth s) (ps_Paused s) (ps_producer s)
    (ps_consumer s) (ps_sent s) (ps_left s) (ps_refused s ++ [b]).

(** The steps of the two goroutines: [Tick b seq emergency] starts [enqueue]
    with the engine's batch [b], whose snapshot has the sequence [seq] *)
Inductive PStep :=
  | Tick (b : B) (seq : Z) (emergency : bool)
  | Produce
  | Consume.

(** One step of a run of [enqueue] *)
Definition produce (s : Persistence) : Persistence :=
  match ps_producer s with
  | PIdle => s
  | PSend b => match send b s with Some s' => set_producer PStore s' | None => set_producer (PDrop b) s end
  | PDrop b =>
      match receive DroppedOldest s with
      | Some (_, s') => set_producer (PDepth b) (count_drop s')
      | None => set_producer (PDepth b) s
      end
  | PDepth b => set_producer (PResend b) (store_depth s)
  | PResend b =>
      match send b s with
      | Some s' => set_producer PStore s'
      | None => set_producer PIdle (count_drop (refuse b s))
      end
  | PStore => set_producer PIdle (store_depth s)
  end.
Definition tick (b : B) (seq : Z) (emergency : bool) (s : Persistence) : Persistence :=
  match ps_producer s with
  | PIdle =>
      if seq =? 0 then s
      else if emergency then count_drop (pause true s)
      else set_producer (PSend b) (pause false s)
  | _ => s
  end.
(** The writer takes a batch, records the depth, and writes it; the write ends
    with a step of its own. *)
Definition consume (s : Persistence) : Persistence :=
  match ps_consumer s with
  | CWait => match receive Taken s with Some (b, s') => set_consumer (CStore b) s' | None => s end
  | CStore b => set_consumer (CWrite b) (store_depth s)
  | CWrite _ => set_consumer CWait s
  end.
Definition pstep (x : PStep) (s : Persistence) : Persistence :=
  match x with
  | Tick b seq emergency => tick b seq emergency s
  | Produce => produce s
  | Consume => consume s
  end.
Definition prun (xs : list PStep) (s : Persistence) : Persistence := fold_left (fun s x => pstep x s) xs s.

Definition Queue (s : Persistence) : Z := ps_QueueDepth s.
Definition DroppedCount (s : Persistence) : Z := ps_Dropped s.
End queue.
Arguments Persistence : clear implicits.
Arguments PStep : clear implicits.

(** ** Properties of the queue *)

Section properties.
Context {B : Type}.
Implicit Types (s : Persistence B).

(** Room is left for the batch that the producer is about to send again. *)
Definition has_room s : Prop := Z.of_nat (length (ps_queue s)) < ps_QueueLimit s.
Record queue_ok (limit : Z) s : Prop := {
  qk_limit : ps_QueueLimit s = limit;
  qk_length : Z.of_nat (length (ps_queue s)) <= limit;
  qk_order : ps_sent s = map fst (ps_left s) ++ ps_queue s;
  qk_room : match ps_producer s with PDepth _ | PResend _ => has_room s | _ => True end;
  qk_refused : ps_refused s = [];
}.

Lemma receive_inv f s b s' :
  receive f s = Some (b, s') -> exists q, ps_queue s = b :: q /\ ps_queue s' = q /\ ps_left s' = ps_left s ++ [(b, f)] /\
    ps_QueueLimit s' = ps_QueueLimit s /\ ps_sent s' = ps_sent s /\ ps_refused s' = ps_refused s /\
    ps_producer s' = ps_producer s.
Proof. unfold receive. destruct (ps_queue s) as [|b' q] eqn:E; [done|]. intros [= -> <-]. by exists q. Qed.

Lemma dequeue_ok limit f s b s' : queue_ok limit s -> receive f s = Some (b, s') -> queue_ok limit s' /\ has_room s'.
Proof.
  intros [Hl Hn Ho Hr Hf] H. apply receive_inv in H as (q & Eq & Eq' & El & EL & Es & Er & Ep).
  rewrite Eq in Hn, Ho. cbn in Hn. assert (has_room s') by (unfold has_room; rewrite Eq', EL; lia).
  split; [|done]. split; [congruence|rewrite Eq'; lia| | |congruence].
  - by rewrite Es, Ho, El, Eq', map_app, <- app_assoc.
  - by destruct (ps_producer s').
Qed.
Lemma send_ok limit b s : queue_ok limit s -> forall s', send b s = Some s' -> queue_ok limit (set_producer PStore s').
Proof.
  intros [Hl Hn Ho Hr Hf] s'. unfold send. destruct (Z.ltb_spec (Z.of_nat (length (ps_queue s))) (ps_QueueLimit s)); [|done].
  intros [= <-]. split; cbn; [done| |by rewrite Ho, app_assoc|done|done]. rewrite length_app. cbn. lia.
Qed.

Lemma pstep_ok limit x s : 0 < limit -> queue_ok limit s -> queue_ok limit (pstep x s).
Proof.
  intros Hlim Hs. destruct x as [b seq emergency| |]; cbn [pstep].
  - unfold tick. destruct Hs as [Hl Hn Ho Hr Hf]. destruct (ps_producer s) eqn:Ep; [|by split; try done; rewrite Ep..].
    destruct (seq =? 0); [by split; try done; rewrite Ep|]. destruct emergency; split; try done. cbn. by rewrite Ep.
  - unfold produce. destruct (ps_producer s) as [|b|b|b|b|] eqn:Ep; [done| | | | |].
    + destruct (send b s) as [s'|] eqn:E; [by eapply send_ok|]. by destruct Hs; split.
    + destruct (receive DroppedOldest s) as [[b' s']|] eqn:E.
      * destruct (dequeue_ok limit _ _ _ _ Hs E) as [[] Hroom]. by split.
      * destruct Hs as [Hl Hn Ho Hr Hf]. split; try done. unfold receive in E. cbn. unfold has_room. cbn.
        destruct (ps_queue s); [cbn; lia|done].
    + destruct Hs as [Hl Hn Ho Hr Hf]. rewrite Ep in Hr. by split.
    + destruct (send b s) as [s'|] eqn:E; [by eapply send_ok|]. destruct Hs as [Hl Hn Ho Hr Hf]. rewrite Ep in Hr.
      unfold send in E. unfold has_room in Hr. by rewrite (proj2 (Z.ltb_lt _ _)) in E.
    + by destruct Hs; split.
  - unfold consume. destruct (ps_consumer s); [|by destruct Hs; split..].
    destruct (receive Taken s) as [[b' s']|] eqn:E; [|done]. by destruct (dequeue_ok limit _ _ _ _ Hs E) as [[] _]; split.
Qed.

(** The steps that the producer needs to have sent its batch *)
Definition sending s (b : B) (n : nat) : Prop :=
  In b (ps_sent s) \/
  match ps_producer s with
  | PSend b' => b' = b /\ (4 <= n)%nat
  | PDrop b' => b' = b /\ (3 <= n)%nat
  | PDepth b' => b' = b /\ (2 <= n)%nat
  | PResend b' => b' = b /\ (1 <= n)%nat
  | _ => False
  end.
Definition is_produce (x : PStep B) : bool := match x with Produce => true | _ => false end.

Lemma sent_grows x s b : In b (ps_sent s) -> In b (ps_sent (pstep x s)).
Proof.
  intros Hb. destruct x; cbn [pstep].
  - unfold tick. by repeat case_match.
  - unfold produce, send, receive. repeat case_match; simplify_eq; cbn; try done; apply in_app_iff; by left.
  - unfold consume, receive. by repeat case_match; simplify_eq.
Qed.

Lemma pstep_sending limit x s b n :
  queue_ok limit s -> sending s b n -> sending (pstep x s) b (if is_produce x then pred n else n).
Proof.
  intros Hs [Hb|Hb]; [left; by apply sent_grows|]. destruct x as [b' seq emergency| |]; cbn [pstep is_produce].
  - unfold tick. right. destruct (ps_producer s) eqn:Ep; rewrite ?Ep; done.
  - unfold produce, sending. destruct (ps_producer s) as [|b'|b'|b'|b'|] eqn:Ep; try done; destruct Hb as [-> Hn].
    + unfold send. destruct (_ <? _); cbn; [left; apply in_app_iff; right; by left|right; split; [done|lia]].
    + right. destruct (receive _ _) as [[]|]; cbn; (split; [done|lia]).
    + right. cbn. split; [done|lia].
    + left. destruct Hs as [Hl Hlen Ho Hr Hf]. rewrite Ep in Hr. unfold has_room in Hr.
      unfold send. rewrite (proj2 (Z.ltb_lt _ _)) by done. cbn. apply in_app_iff. right. by left.
  - right. assert (ps_producer (consume s) = ps_producer s) as ->; [|done].
    unfold consume, receive. destruct (ps_consumer s); [destruct (ps_queue s)|..]; done.
Qed.

Lemma prun_ok limit xs s : 0 < limit -> queue_ok limit s -> queue_ok limit (prun xs s).
Proof.
  intros Hl. unfold prun. revert s. induction xs as [|x xs IH]; intros s Hs; cbn; [done|]. by apply IH, pstep_ok.
Qed.
Lemma prun_sending limit xs s b n :
  0 < limit -> queue_ok limit s -> sending s b n -> (n <= length (List.filter is_produce xs))%nat ->
  sending (prun xs s) b 0.
Proof.
  intros Hl. unfold prun. revert s n. induction xs as [|x xs IH]; intros s n Hs Hb Hn; cbn in *.
  { by replace n with 0%nat in Hb by lia. }
  apply (IH _ (if is_produce x then pred n else n)); [by apply pstep_ok|by eapply pstep_sending|].
  destruct (is_produce x); cbn in Hn; lia.
Qed.

Lemma start_ok limit : queue_ok (if limit <? 1 then 60 else limit) (Start (NewPersistence limit) : Persistence B).
Proof. split; cbn; try done. destruct (Z.ltb_spec limit 1); lia. Qed.

(** The queue never holds up collection and keeps the newest
    data.  However producer and writer interleave, the queue stays within its
    limit, batches leave it in the order they came, no batch is refused in
    favour of older ones, and a batch that the producer starts to enqueue is in
    the queue after at most four steps of its own, whatever the writer does. *)
Theorem persistence_queue (limit : Z) (xs : list (PStep B)) :
  let s := prun xs (Start (NewPersistence limit)) in
  Z.of_nat (length (ps_queue s)) <= (if limit <? 1 then 60 else limit) /\
  ps_sent s = map fst (ps_left s) ++ ps_queue s /\
  ps_refused s = [] /\
  (forall b seq ys, ps_producer s = PIdle -> seq <> 0 -> (4 <= length (List.filter is_produce ys))%nat ->
    In b (ps_sent (prun ys (pstep (Tick b seq false) s)))).
Proof.
  cbv zeta. set (l := if limit <? 1 then 60 else limit).
  assert (0 < l) as Hl by (unfold l; destruct (Z.ltb_spec limit 1); lia).
  pose proof (prun_ok l xs _ Hl (start_ok limit)) as Hs. set (s := prun _ _) in *.
  destruct Hs as [H1 H2 H3 H4 H5] eqn:E. clear E. split_and!; [done|done|done|].
  intros b seq ys Hp Hseq Hn.
  assert (sending (pstep (Tick b seq false) s) b 4) as Hb.
  { right. cbn. unfold tick. rewrite Hp, (proj2 (Z.eqb_neq _ _)) by done. cbn. done. }
  destruct (prun_sending l ys _ b 4 Hl (pstep_ok l (Tick b seq false) s Hl Hs) Hb Hn) as [|Hq]; [done|].
  by destruct (ps_producer _) in Hq; try lia.
Qed.
End properties.

(** ** Properties of retrying *)

Section retrying.
Context {S E : Type} (error_text : E -> string) (deadline_exceeded : E -> bool).
Context (fn : S -> option E * S) (ends : nat -> bool) (cancelled : E).

(** The state before attempt [k] and what the attempt returns *)
Fixpoint before (k : nat) (s : S) : S := match k with O => s | Datatypes.S k => before k (fn s).2 end.
Definition outcome (k : nat) (s : S) : option E := (fn (before k s)).1.

Definition backoff (k : nat) : Z := Z.shiftl 1 (Z.of_nat k) * 100 * Millisecond.

(** The attempts before [k] fail with an error worth retrying, and the context
    outlives the waits. *)
Definition tried (k : nat) (attempt : nat) (s : S) : Prop :=
  forall i, (i < k)%nat -> exists e, outcome i s = Some e /\ Transient error_text deadline_exceeded e = true /\ ends (attempt + i) = false.

Lemma outcome_S k s : outcome (Datatypes.S k) s = outcome k (fn s).2.
Proof. reflexivity. Qed.
Lemma tried_S k attempt s :
  tried (Datatypes.S k) attempt s ->
  (exists e, (fn s).1 = Some e /\ Transient error_text deadline_exceeded e = true) /\ ends attempt = false /\
  tried k (Datatypes.S attempt) (fn s).2.
Proof.
  intros H. destruct (H 0%nat ltac:(lia)) as (e & Ho & Ht & He). rewrite Nat.add_0_r in He. split_and!; [by exists e|done|].
  intros i Hi. destruct (H (Datatypes.S i) ltac:(lia)) as (e' & Ho' & Ht' & He'). exists e'. split_and!; [done|done|].
  by rewrite Nat.add_succ_r in He'.
Qed.

Lemma retry_from_spec fuel attempt last s :
  let '(r, s', ds) := retry_from error_text deadline_exceeded attempt fuel last cancelled ends fn s in
  ((length ds <= fuel)%nat /\ ds = map backoff (seq attempt (length ds))) /\
  (forall k, (k < fuel)%nat -> tried k attempt s ->
    match outcome k s with
    | None => r = None /\ s' = before (Datatypes.S k) s
    | Some e => Transient error_text deadline_exceeded e = false -> r = Some e /\ s' = before (Datatypes.S k) s
    end) /\
  (tried fuel attempt s -> (r = None -> last = None /\ fuel = 0%nat) /\ s' = before fuel s).
Proof.
  revert attempt last s. induction fuel as [|fuel IH]; intros attempt last s; cbn [retry_from]; [split_and!; [done|done|lia|done]|].
  destruct (fn s) as [[e|] s1] eqn:Ef.
  - destruct (Transient error_text deadline_exceeded e) eqn:Et; cbn [negb].
    + destruct (ends attempt) eqn:Ee.
      { split_and!; [cbn; lia|done| |].
        - intros [|k] Hk Htr; [unfold outcome; cbn; rewrite Ef; cbn; congruence|].
          apply tried_S in Htr as (_ & Ex & _). congruence.
        - intros (_ & Ex & _)%tried_S. congruence. }
      specialize (IH (Datatypes.S attempt) (Some e) s1).
      destruct (retry_from _ _ (Datatypes.S attempt) fuel _ _ _ _ _) as [[r s'] ds]. destruct IH as ([Hl Hds] & Hk' & Hall).
      split_and!; [cbn; lia|cbn; by rewrite Hds at 1| |].
      * intros [|k] Hk Htr; [unfold outcome; cbn; rewrite Ef; cbn; congruence|].
        apply tried_S in Htr as (_ & _ & Htr). rewrite outcome_S. cbn [before]. rewrite Ef in *. apply Hk'; [lia|done].
      * intros (_ & _ & Htr)%tried_S. cbn [before]. rewrite Ef in *. destruct (Hall Htr) as [Hr ->]. split; [|done].
        intros Ex. by destruct (Hr Ex).
    + split_and!; [cbn; lia|done| |].
      * intros [|k] Hk Htr; [unfold outcome; cbn; by rewrite Ef|].
        apply tried_S in Htr as ((e' & Ex & Et') & _). rewrite Ef in Ex. cbn in Ex. congruence.
      * intros ((e' & Ex & Et') & _)%tried_S. rewrite Ef in Ex. cbn in Ex. congruence.
  - split_and!; [cbn; lia|done| |].
    + intros [|k] Hk Htr; [unfold outcome; cbn; by rewrite Ef|]. apply tried_S in Htr as ((e & Ex & _) & _). by rewrite Ef in Ex.
    + intros ((e & Ex & _) & _)%tried_S. by rewrite Ef in Ex.
Qed.
End retrying.

(** [Retry] ends.  It makes at most five attempts, with waits
    of 100, 200, 400, 800 and 1600 milliseconds; it succeeds as soon as an
    attempt does, stops at the first error that is not worth retrying, and
    reports an error when all five attempts fail. *)
Theorem retry_bounded {S E : Type} (error_text : E -> string) (deadline_exceeded : E -> bool)
    (fn : S -> option E * S) (ends : nat -> bool) (cancelled : E) (s : S) :
  let '(r, s', ds) := Retry error_text deadline_exceeded cancelled ends fn s in
  (ds = firstn (length ds) (map (fun ms => ms * Millisecond) [100; 200; 400; 800; 1600]) /\ (length ds <= 5)%nat) /\
  (forall k, (k < 5)%nat -> tried error_text deadline_exceeded fn ends k 0 s ->
    match outcome fn k s with
    | None => r = None /\ s' = before fn (Datatypes.S k) s
    | Some e => Transient error_text deadline_exceeded e = false -> r = Some e /\ s' = before fn (Datatypes.S k) s
    end) /\
  (tried error_text deadline_exceeded fn ends 5 0 s -> r <> None /\ s' = before fn 5 s).
Proof.
  pose proof (retry_from_spec error_text deadline_exceeded fn ends cancelled 5 0 None s) as H. unfold Retry.
  destruct (retry_from _ _ _ _ _ _ _ _ _) as [[r s'] ds]. destruct H as ([Hl Hds] & Hk & Hall). split_and!; [|done|done|].
  - rewrite Hds at 1. do 6 (destruct ds as [|? ds]; [reflexivity|]). cbn in Hl. lia.
  - intros Ht. destruct (Hall Ht) as [Hr Hs']. split; [|done]. intros E'. by destruct (Hr E').
Qed.
