(* ===== verification/Protection.v ===== *)
(** * Rate limits, trusted proxies and proxy authentication

    [internal/auth/protection.go] and [internal/auth/proxy_auth.go]: the
    bounded token-bucket limiter, the provenance of forwarding headers, the
    same-origin test and the identity that an authenticating proxy asserts. *)

From stdpp Require Import base tactics list gmap strings pretty.
From Stdlib Require Import ZArith Lia Ascii SpecFloat.
From S2P Require Import Prelude GoString Float64 GoParse Outbound Netip.

(** What the checks read of an [http.Request]; headers by canonical name *)
Record HTTPRequest := mkHTTP {
  hr_RemoteAddr : string; hr_TLS : bool; hr_Host : string; hr_Header : string -> list string;
}.
Definition Header_Get (r : HTTPRequest) (k : string) : string := hd "" (hr_Header r k).
(** ** Trusted proxies *)

Definition TrustedProxies := list Prefix.

Definition errExactHost : string := "trusted proxy CIDRs must identify one exact host (/32 for IPv4 or /128 for IPv6)".
Fixpoint parse_proxies (values : list string) (p : TrustedProxies) : string + TrustedProxies :=
  match values with
  | [] => inr p
  | value :: values =>
      let value := TrimSpace value in
      if value =?s "" then parse_proxies values p
      else match ParsePrefix value with
           | None => inl ("netip.ParsePrefix(" +:+ value +:+ ")")
           | Some prefix =>
               if negb (px_bits prefix =? BitLen (px_ip prefix)) then inl errExactHost
               else parse_proxies values (p ++ [prefix])
           end
  end.
Definition ParseTrustedProxies (values : list string) : string + TrustedProxies := parse_proxies values [].

Definition trustedAddr (p : TrustedProxies) (addr : Addr) : bool := existsb (fun prefix => Prefix_Contains prefix addr) p.
Definition trusted (p : TrustedProxies) (r : HTTPRequest) : bool :=
  match SplitHostPort (hr_RemoteAddr r) with
  | None => false
  | Some (host, _) => match ParseAddr host with None => false | Some addr => trustedAddr p addr end
  end.
Definition TrustedPeer := trusted.

Definition Proxies_Secure (p : TrustedProxies) (r : HTTPRequest) : bool :=
  if hr_TLS r then true
  else if negb (trusted p r) then false
  else EqualFold (TrimSpace (hd "" (Split (Header_Get r "X-Forwarded-Proto") ","%char))) "https".

(** The forwarded addresses from the right: the first that parses and is not
    a trusted proxy *)
Fixpoint forwarded (p : TrustedProxies) (values : list string) : option Addr :=
  match values with
  | [] => None
  | v :: values =>
      match ParseAddr (TrimSpace v) with
      | None => forwarded p values
      | Some addr => if trustedAddr p addr then forwarded p values else Some addr
      end
  end.
Definition client_host (p : TrustedProxies) (r : HTTPRequest) : string :=
  let host := match SplitHostPort (hr_RemoteAddr r) with Some (h, _) => h | None => hr_RemoteAddr r end in
  if trusted p r then
    let values := Split (Header_Get r "X-Forwarded-For") ","%char in
    if (0 <? length values)%nat && (length values <=? 16)%nat then
      match forwarded p (rev values) with Some addr => Addr_String addr | None => host end
    else host
  else host.
Definition prefix_of (addr : Addr) : string :=
  Prefix_String (Masked (PrefixFrom addr (if Is4 addr then 24 else 56))).
Definition ClientPrefix (p : TrustedProxies) (r : HTTPRequest) : string :=
  match ParseAddr (client_host p r) with None => "unknown" | Some addr => prefix_of addr end.

(** [url.Parse] as far as it matters: scheme and host of an origin *)
Section origin.
Context (url_origin : string -> option (string * string)).
Definition SameOrigin (r : HTTPRequest) (proxies : TrustedProxies) : bool :=
  let raw := let o := Header_Get r "Origin" in if o =?s "" then Header_Get r "Referer" else o in
  match url_origin raw with
  | None => false
  | Some (scheme, host) =>
      if host =?s "" then false
      else EqualFold scheme (if Proxies_Secure proxies r then "https" else "http") && EqualFold host (hr_Host r)
  end.
End origin.

(** ** Proxy authentication *)

Inductive AuthMode := LocalAuth | ProxyAuthOnly | LocalAndProxyAuth.
#[export] Instance AuthMode_eq_dec : EqDecision AuthMode.
Proof. solve_decision. Defined.
Definition auth_mode (s : string) : option AuthMode :=
  if (s =?s "") || (s =?s "local") then Some LocalAuth
  else if s =?s "proxy" then Some ProxyAuthOnly
  else if s =?s "local_and_proxy" then Some LocalAndProxyAuth else None.

Record ProxyAuthConfig := mkProxyConfig {
  pc_Mode : string; pc_IdentityHeader : string; pc_AllowedSubject : string; pc_ProxyCIDRs : list string;
}.
Record ProxyAuthenticator := mkProxyAuth {
  pa_Mode : AuthMode; pa_IdentityHeader : string; pa_AllowedSubject : string;
  pa_identityPeers : TrustedProxies; pa_cookieProxies : TrustedProxies;
}.

(** [textproto.CanonicalMIMEHeaderKey] *)
Definition token_byte (c : ascii) : bool :=
  is_digit c || is_lower c || is_upper c || str_in (of_bytes [c]) ["!"; "#"; "$"; "%"; "&"; "'"; "*"; "+"; "-"; "."; "^"; "_"; "`"; "|"; "~"].
Fixpoint canonical_from (upper : bool) (l : list ascii) : list ascii :=
  match l with
  | [] => []
  | c :: l =>
      let c' := if upper then (if is_lower c then ascii_of_nat (nat_of_ascii c - 32) else c) else lower_byte c in
      c' :: canonical_from (Ascii.eqb c "-"%char) l
  end.
Definition CanonicalMIMEHeaderKey (s : string) : string :=
  if forallb token_byte (bytes s) then of_bytes (canonical_from true (bytes s)) else s.
(** [strings.ContainsAny] of blanks, line ends and colons *)
Definition bad_header (s : string) : bool :=
  existsb (fun c => let n := byte_code c in (n =? 32) || (n =? 9) || (n =? 13) || (n =? 10) || (n =? 58)) (bytes s).

Definition NewProxyAuthenticator (config : ProxyAuthConfig) (cookieProxies : TrustedProxies) : string + ProxyAuthenticator :=
  match auth_mode (pc_Mode config) with
  | None => inl "auth mode must be local, proxy, or local_and_proxy"
  | Some mode =>
      match ParseTrustedProxies (pc_ProxyCIDRs config) with
      | inl e => inl e
      | inr peers =>
          if bool_decide (mode = LocalAuth)
          then inr (mkProxyAuth mode (pc_IdentityHeader config) (pc_AllowedSubject config) peers cookieProxies)
          else
            let header := CanonicalMIMEHeaderKey (TrimSpace (pc_IdentityHeader config)) in
            if (header =?s "") || bad_header header then inl "proxy identity header is invalid"
            else if (pc_AllowedSubject config =?s "") || (512 <? String.length (pc_AllowedSubject config))%nat ||
                    (length (pc_ProxyCIDRs config) =? 0)%nat
            then inl "proxy authentication requires CIDRs, a header, and an allowed subject"
            else inr (mkProxyAuth mode header (pc_AllowedSubject config) peers cookieProxies)
      end
  end.

(** A nil authenticator is [None]. *)
Definition AllowsLocal (p : option ProxyAuthenticator) : bool :=
  match p with None => true | Some p => bool_decide (pa_Mode p = LocalAuth) || bool_decide (pa_Mode p = LocalAndProxyAuth) end.
Definition AllowsProxy (p : option ProxyAuthenticator) : bool :=
  match p with None => false | Some p => bool_decide (pa_Mode p = ProxyAuthOnly) || bool_decide (pa_Mode p = LocalAndProxyAuth) end.
Definition ProxyAuth_Mode (p : option ProxyAuthenticator) : AuthMode := match p with None => LocalAuth | Some p => pa_Mode p end.
Definition Subject (p : option ProxyAuthenticator) (r : HTTPRequest) : option string :=
  match p with
  | None => None
  | Some a =>
      if negb (AllowsProxy p) || negb (TrustedPeer (pa_identityPeers a) r) then None
      else match hr_Header r (pa_IdentityHeader a) with
           | [subject] =>
               if Contains subject "," then None
               else if negb (String.length subject =? String.length (pa_AllowedSubject a))%nat ||
                       negb (subject =?s pa_AllowedSubject a) then None
               else Some subject
           | _ => None
           end
  end.
Definition ProxyAuth_Secure (p : option ProxyAuthenticator) (r : HTTPRequest) : bool :=
  match p with None => false | Some a => Proxies_Secure (pa_cookieProxies a) r end.
Definition CookieProxies (p : option ProxyAuthenticator) : TrustedProxies :=
  match p with None => [] | Some a => pa_cookieProxies a end.
Definition ProxyAuth_SameOrigin (url_origin : string -> option (string * string)) (p : option ProxyAuthenticator) (r : HTTPRequest) : bool :=
  match p with None => false | Some a => SameOrigin url_origin r (pa_cookieProxies a) end.

(** ** The limiter *)

(** [Duration.Seconds] *)
Definition dur_Seconds (d : Z) : F64 :=
  f64_add (f64_of_Z (Z.quot d Second)) (f64_div (f64_of_Z (Z.rem d Second)) (f64_of_Z 1000000000)).
Record BucketPolicy := mkPolicy { bp_Capacity : F64; bp_Refill : Z }.
Record bucket := mkBucket { bk_tokens : F64; bk_at : Z; bk_used : Z }.
(** [lm_order] is the list, front first; [lm_values] the keys of the map into
    it *)
Record Limiter := mkLimiter { lm_values : gset string; lm_order : list (string * bucket); lm_max : Z }.

Definition NewLimiter (max : Z) : Limiter := mkLimiter ∅ [] (if max <? 1 then 4096 else max).

(** [for l.order.Len() >= l.max]: from the back *)
Fixpoint evict (fuel : nat) (l : Limiter) : Limiter :=
  match fuel with
  | O => l
  | S fuel =>
      if Z.of_nat (length (lm_order l)) <? lm_max l then l
      else match last (lm_order l) with
           | None => l
           | Some (key, _) =>
               evict fuel (mkLimiter (lm_values l ∖ {[key]}) (removelast (lm_order l)) (lm_max l))
           end
  end.

Definition find_bucket (key : string) (order : list (string * bucket)) : option bucket :=
  snd <$> List.find (fun e => e.1 =?s key) order.
Definition to_front (key : string) (b : bucket) (order : list (string * bucket)) : list (string * bucket) :=
  (key, b) :: List.filter (fun e => negb (e.1 =?s key)) order.

(** The entry of the key, made when there is none *)
Definition entry (key : string) (capacity : F64) (now : Z) (l : Limiter) : Limiter * bucket :=
  if decide (key ∈ lm_values l)
  then (l, default (mkBucket f64_zero now now) (find_bucket key (lm_order l)))
  else
    let l' := evict (length (lm_order l)) l in
    let b := mkBucket capacity now now in
    (mkLimiter ({[key]} ∪ lm_values l') ((key, b) :: lm_order l') (lm_max l'), b).

Definition Allow (key : string) (policy : BucketPolicy) (now : Z) (l : Limiter) : bool * Z * Limiter :=
  if (bp_Capacity policy <=? f64_zero)%F || (bp_Refill policy <=? 0) then (true, 0, l)
  else
    let '(l1, v) := entry key (bp_Capacity policy) now l in
    let elapsed := time_sub now (bk_at v) in
    let filled := f64_add (bk_tokens v)
      (f64_div (f64_mul (dur_Seconds elapsed) (bp_Capacity policy)) (dur_Seconds (bp_Refill policy))) in
    let tokens := if (filled >? bp_Capacity policy)%F then bp_Capacity policy else filled in
    if (tokens <? f64_one)%F then
      (false,
       wrap64 (f64_trunc (f64_div (f64_mul (f64_sub f64_one tokens) (dur_Seconds (bp_Refill policy))) (bp_Capacity policy)) * Second),
       mkLimiter (lm_values l1) (to_front key (mkBucket tokens now now) (lm_order l1)) (lm_max l1))
    else
      (true, 0, mkLimiter (lm_values l1) (to_front key (mkBucket (f64_sub tokens f64_one) now now) (lm_order l1)) (lm_max l1)).

(** ** The policies *)

Definition loginIPPolicy := mkPolicy (f64_of_Z 10) Minute.
Definition loginAccountPolicy := mkPolicy (f64_of_Z 5) (5 * Minute).
Definition setupPolicy := mkPolicy (f64_of_Z 5) (5 * Minute).
Definition diagnosticsPolicy := mkPolicy (f64_of_Z 3) (15 * Minute).
Definition metricsPolicy := mkPolicy (f64_of_Z 60) Minute.
Definition resourcesPolicy := mkPolicy (f64_of_Z 120) Minute.
Definition livePolicy := mkPolicy (f64_of_Z 30) Minute.

Record Protection := mkProtection { pr_limiter : Limiter; pr_proxies : TrustedProxies }.
Definition NewProtection (max : Z) (proxies : TrustedProxies) : Protection := mkProtection (NewLimiter max) proxies.
Definition allow (scope key : string) (policy : BucketPolicy) (now : Z) (p : Protection) : bool * Z * Protection :=
  let '(ok, retry, l) := Allow (scope +:+ ":" +:+ key) policy now (pr_limiter p) in (ok, retry, mkProtection l (pr_proxies p)).
(** The two clocks are read one after the other. *)
Definition AllowLogin (r : HTTPRequest) (account : string) (now1 now2 : Z) (p : Protection) : bool * Z * Protection :=
  let '(a, ra, p1) := allow "login-ip" (ClientPrefix (pr_proxies p) r) loginIPPolicy now1 p in
  let '(b, rb, p2) := allow "login-account" (ToLower (TrimSpace account)) loginAccountPolicy now2 p1 in
  (a && b, if ra <? rb then rb else ra, p2).
Definition AllowSetup (r : HTTPRequest) (now : Z) (p : Protection) :=
  allow "setup" (ClientPrefix (pr_proxies p) r) setupPolicy now p.
Definition AllowDiagnostics (r : HTTPRequest) (actor : string) (now : Z) (p : Protection) :=
  allow "diagnostics" (actor +:+ ":" +:+ ClientPrefix (pr_proxies p) r) diagnosticsPolicy now p.
Definition AllowMetrics (r : HTTPRequest) (now : Z) (p : Protection) :=
  allow "metrics" (ClientPrefix (pr_proxies p) r) metricsPolicy now p.
Definition AllowEvents (r : HTTPRequest) (now : Z) (p : Protection) :=
  allow "events" (ClientPrefix (pr_proxies p) r) metricsPolicy now p.
Definition AllowResources (r : HTTPRequest) (now : Z) (p : Protection) :=
  allow "resources" (ClientPrefix (pr_proxies p) r) resourcesPolicy now p.
Definition AllowLive (r : HTTPRequest) (now : Z) (p : Protection) :=
  allow "live" (ClientPrefix (pr_proxies p) r) livePolicy now p.

(** ** The limiter is bounded *)

Definition keys (l : Limiter) : list string := map fst (lm_order l).
Record limiter_ok (max : Z) (l : Limiter) : Prop := {
  lk_max : lm_max l = max;
  lk_pos : 0 < max;
  lk_nodup : NoDup (keys l);
  lk_values : lm_values l = list_to_set (keys l);
  lk_bound : Z.of_nat (length (lm_order l)) <= max;
}.

Lemma evict_ok max fuel l :
  limiter_ok max l -> (length (lm_order l) <= fuel)%nat ->
  limiter_ok max (evict fuel l) /\ Z.of_nat (length (lm_order (evict fuel l))) < max.
Proof.
  revert l. induction fuel as [|fuel IH]; intros l Hl Hf; cbn [evict].
  { split; [done|]. destruct Hl. lia. }
  destruct (Z.ltb_spec (Z.of_nat (length (lm_order l))) (lm_max l)) as [Hlt|Hge].
  { split; [done|]. destruct Hl. lia. }
  destruct Hl as [Hm Hp Hn Hv Hb]. unfold keys in *.
  destruct (lm_order l) as [|e t] eqn:Eo using rev_ind; [cbn in Hge; lia|]. clear IHt.
  rewrite last_snoc. destruct e as [key b]. rewrite removelast_last. rewrite map_app in Hn, Hv. cbn [map fst] in Hn, Hv.
  apply NoDup_app in Hn as (Hn & Hd & _). rewrite length_app in *. cbn [length] in *.
  apply IH; [|cbn; lia]. split; cbn; [done|done|done| |lia].
  rewrite Hv, list_to_set_app_L. cbn. assert (key ∉ map fst t) as Hk by (intros Hk; apply (Hd key Hk); by left). set_solver.
Qed.

Lemma to_front_keys key b order :
  NoDup (map fst order) -> key ∈ map fst order ->
  NoDup (map fst (to_front key b order)) /\
  (list_to_set (map fst (to_front key b order)) : gset string) = list_to_set (map fst order) /\
  length (to_front key b order) = length order.
Proof.
  intros Hn Hk.
  assert (map fst (to_front key b order) ≡ₚ map fst order) as Hp.
  { cbn [to_front map fst]. induction order as [|[k v] order IH]; [by apply elem_of_nil in Hk|].
    cbn [map fst List.filter] in *. apply NoDup_cons in Hn as [Hk' Hn]. destruct (String.eqb_spec k key) as [->|Hne]; cbn [negb map fst].
    - constructor. clear -Hk'. induction order as [|[k v] order IH]; [done|]. cbn [map fst List.filter] in *.
      destruct (String.eqb_spec k key) as [->|]; [set_solver|]. cbn. rewrite IH; set_solver.
    - rewrite (Permutation_swap k key). constructor. apply IH; [done|]. set_solver. }
  split_and!.
  - by rewrite Hp.
  - by rewrite Hp.
  - apply Permutation_length in Hp. by rewrite !length_map in Hp.
Qed.

Lemma evict_values fuel l : lm_values (evict fuel l) ⊆ lm_values l.
Proof.
  revert l. induction fuel as [|fuel IH]; intros l; cbn [evict]; [done|]. destruct (_ <? _); [done|].
  destruct (last (lm_order l)) as [[k b]|]; [|done]. etransitivity; [apply IH|]. cbn. set_solver.
Qed.

Lemma Allow_ok max key policy now l : limiter_ok max l -> limiter_ok max (Allow key policy now l).2.
Proof.
  intros Hl. unfold Allow, entry. destruct (_ || _); [done|].
  assert (forall l1 b, limiter_ok max l1 -> key ∈ lm_values l1 ->
    limiter_ok max (mkLimiter (lm_values l1) (to_front key b (lm_order l1)) (lm_max l1))) as Hfront.
  { intros l1 b [Hm Hp Hn Hv Hb] Hk. rewrite Hv in Hk. apply elem_of_list_to_set in Hk.
    destruct (to_front_keys key b (lm_order l1) Hn Hk) as (H1 & H2 & H3). split; [done|done|exact H1| |cbn [lm_order]; by rewrite H3].
    unfold keys in *. cbn [lm_order lm_values]. by rewrite H2. }
  destruct (decide (key ∈ lm_values l)) as [Hk|Hk].
  - destruct (_ <? f64_one)%F; by apply Hfront.
  - destruct (evict_ok max (length (lm_order l)) l Hl) as [[Hm Hp Hn Hv Hb] Hlt]; [done|].
    pose proof (evict_values (length (lm_order l)) l) as Hsub. set (l' := evict _ l) in *.
    set (b := mkBucket _ _ _). set (l1 := mkLimiter ({[key]} ∪ lm_values l') ((key, b) :: lm_order l') (lm_max l')).
    assert (limiter_ok max l1) as Hl1.
    { unfold keys in *. split; cbn; [done|done| |by rewrite Hv|lia]. apply NoDup_cons. split; [|done].
      intros Hin. apply Hk, Hsub. rewrite Hv. by apply elem_of_list_to_set. }
    assert (key ∈ lm_values l1) as Hk1 by (cbn; set_solver).
    destruct (_ <? f64_one)%F; [apply (Hfront l1 _ Hl1 Hk1)|apply (Hfront l1 _ Hl1 Hk1)].
Qed.

(** ** Bursts *)

(** The policies in use: capacity and refill time *)
Definition code_policies : list (Z * Z) :=
  [(10, Minute); (5, 5 * Minute); (3, 15 * Minute); (60, Minute); (120, Minute); (30, Minute)].
Definition policy_of (p : Z * Z) : BucketPolicy := mkPolicy (f64_of_Z p.1) p.2.

(** Counting down from the capacity is exact in floating point. *)
Definition refilled (p : Z * Z) (t : F64) : F64 :=
  f64_add t (f64_div (f64_mul (dur_Seconds 0) (f64_of_Z p.1)) (dur_Seconds p.2)).
Definition exact_at (p : Z * Z) (j : Z) : bool :=
  let t := f64_of_Z j in
  bool_decide (refilled p t = t) && negb (t >? f64_of_Z p.1)%F && Bool.eqb (t <? f64_one)%F (j <? 1) &&
  ((j <? 1) || bool_decide (f64_sub t f64_one = f64_of_Z (j - 1))).
Lemma policies_exact :
  forallb (fun p => forallb (exact_at p) (seqZ 0 (p.1 + 1)) && negb (f64_of_Z p.1 <=? f64_zero)%F && negb (p.2 <=? 0)) code_policies = true.
Proof. vm_compute. reflexivity. Qed.

Lemma policy_exact p j :
  In p code_policies -> 0 <= j <= p.1 ->
  let t := f64_of_Z j in
  refilled p t = t /\ (t >? f64_of_Z p.1)%F = false /\ (t <? f64_one)%F = (j <? 1) /\ (1 <= j -> f64_sub t f64_one = f64_of_Z (j - 1)).
Proof.
  intros Hp Hj. pose proof policies_exact as H. rewrite forallb_forall in H. specialize (H p Hp).
  rewrite !andb_true_iff, forallb_forall in H. destruct H as [[H _] _].
  specialize (H j ltac:(apply list_elem_of_In, elem_of_seqZ; lia)). unfold exact_at in H.
  rewrite !andb_true_iff, orb_true_iff, !bool_decide_eq_true, negb_true_iff in H. destruct H as [[[H1 H2] H3] H4].
  apply Bool.eqb_prop in H3. split_and!; [done|done|done|]. intros Hj1. destruct H4 as [H4%Z.ltb_lt|]; [lia|done].
Qed.
Lemma policy_positive p : In p code_policies -> ((f64_of_Z p.1 <=? f64_zero)%F || (p.2 <=? 0)) = false /\ 0 < p.1.
Proof.
  intros Hp. split; [|cbn in Hp; repeat destruct Hp as [<-|Hp]; cbn; done || lia].
  pose proof policies_exact as H. rewrite forallb_forall in H. specialize (H p Hp).
  rewrite !andb_true_iff, !negb_true_iff in H. destruct H as [[_ ->] ->]. done.
Qed.

(** Calls at one instant: what each is answered *)
Fixpoint burst (pol : string -> Z * Z) (now : Z) (calls : list string) (l : Limiter) : list (string * bool) :=
  match calls with
  | [] => []
  | k :: calls => let '(ok, _, l') := Allow k (policy_of (pol k)) now l in (k, ok) :: burst pol now calls l'
  end.
Definition calls_of (k : string) (calls : list string) : Z := Z.of_nat (length (List.filter (String.eqb k) calls)).

(** What the limiter holds after [calls] at the instant [now], apart from the
    keys [held] that it had before *)
Record counted (pol : string -> Z * Z) (now max : Z) (held calls : list string) (l : Limiter) : Prop := {
  ct_ok : limiter_ok max l;
  ct_keys : forall k, k ∈ keys l <-> k ∈ held \/ k ∈ calls;
  ct_tokens : forall k, k ∈ calls ->
    find_bucket k (lm_order l) = Some (mkBucket (f64_of_Z (Z.max 0 ((pol k).1 - calls_of k calls))) now now);
}.

Lemma find_to_front key b order k :
  find_bucket k (to_front key b order) = if k =?s key then Some b else find_bucket k order.
Proof.
  unfold find_bucket, to_front. cbn [List.find fst]. rewrite String.eqb_sym. destruct (String.eqb_spec k key) as [->|Hne]; [done|].
  induction order as [|[k' v] order IH]; [done|]. cbn [List.filter List.find fst].
  destruct (String.eqb_spec k' key) as [->|]; cbn [negb List.find fst].
  - by rewrite IH, (proj2 (String.eqb_neq key k)).
  - by destruct (k' =?s k).
Qed.

Lemma evict_room fuel l : Z.of_nat (length (lm_order l)) < lm_max l -> evict fuel l = l.
Proof. intros H. destruct fuel; cbn [evict]; [done|]. by rewrite (proj2 (Z.ltb_lt _ _)). Qed.

(** The bucket that a call takes its token from *)
Lemma Allow_bucket p key now l l1 j :
  In p code_policies -> 0 <= j <= p.1 ->
  entry key (f64_of_Z p.1) now l = (l1, mkBucket (f64_of_Z j) now now) ->
  (Allow key (policy_of p) now l).1.1 = negb (j <? 1) /\
  (Allow key (policy_of p) now l).2 =
    mkLimiter (lm_values l1) (to_front key (mkBucket (f64_of_Z (Z.max 0 (j - 1))) now now) (lm_order l1)) (lm_max l1).
Proof.
  intros Hp Hj E. destruct (policy_positive p Hp) as [Hpos _]. destruct (policy_exact p j Hp Hj) as (H1 & H2 & H3 & H4).
  unfold Allow. cbn [policy_of bp_Capacity bp_Refill]. rewrite Hpos, E. cbn [bk_at bk_tokens].
  replace (time_sub now now) with 0 by (unfold time_sub, sat64, min_int64, max_int64; lia).
  fold (refilled p (f64_of_Z j)). rewrite H1, H2, H3. destruct (Z.ltb_spec j 1); cbn [fst snd negb]; (split; [done|]).
  - by replace (Z.max 0 (j - 1)) with j by lia.
  - rewrite H4 by lia. by replace (Z.max 0 (j - 1)) with (j - 1) by lia.
Qed.

Lemma calls_of_zero k calls : k ∉ calls -> calls_of k calls = 0.
Proof.
  unfold calls_of. intros Hk. induction calls as [|c calls IH]; [done|]. cbn.
  rewrite (proj2 (String.eqb_neq k c)) by set_solver. apply IH. set_solver.
Qed.
Lemma calls_of_snoc k k' calls : calls_of k (calls ++ [k']) = calls_of k calls + if k =?s k' then 1 else 0.
Proof. unfold calls_of. rewrite List.filter_app, length_app. cbn. destruct (k =?s k'); cbn; lia. Qed.

Lemma counted_room pol now max held calls k l :
  counted pol now max held calls l -> NoDup held -> (forall x, x ∈ held -> x ∉ calls ++ [k]) -> k ∉ calls ->
  Z.of_nat (length held + length (remove_dups (calls ++ [k]))) <= max ->
  Z.of_nat (length (lm_order l)) < lm_max l.
Proof.
  intros [[Hm _ Hn _ _] Hk _] Hh Hd Hnew Hmax. rewrite Hm. unfold keys in *.
  assert (k :: map fst (lm_order l) ≡ₚ held ++ remove_dups (calls ++ [k])) as Hp.
  { apply NoDup_Permutation.
    - apply NoDup_cons. split; [|done]. rewrite Hk. intros [Hx|Hx]; [|done]. apply (Hd k Hx). set_solver.
    - apply NoDup_app. split_and!; [done| |apply NoDup_remove_dups]. intros x Hx. rewrite elem_of_remove_dups. by apply Hd.
    - intros x. rewrite elem_of_cons, elem_of_app, elem_of_remove_dups, elem_of_app, list_elem_of_singleton, Hk. tauto. }
  apply Permutation_length in Hp. cbn [length] in Hp. rewrite length_map, length_app in Hp. lia.
Qed.

(** One call at the instant: the bucket counts down. *)
Lemma Allow_counted pol now max held calls k l :
  In (pol k) code_policies -> counted pol now max held calls l -> NoDup held -> (forall x, x ∈ held -> x ∉ calls ++ [k]) ->
  Z.of_nat (length held + length (remove_dups (calls ++ [k]))) <= max ->
  (Allow k (policy_of (pol k)) now l).1.1 = (calls_of k calls <? (pol k).1) /\
  counted pol now max held (calls ++ [k]) (Allow k (policy_of (pol k)) now l).2.
Proof.
  intros Hp Hc Hh Hd Hmax. pose proof (Allow_ok max k (policy_of (pol k)) now l (ct_ok _ _ _ _ _ _ Hc)) as Hok'.
  destruct (policy_positive (pol k) Hp) as [_ Hcap]. set (j := Z.max 0 ((pol k).1 - calls_of k calls)).
  assert (0 <= calls_of k calls) as Hn by (unfold calls_of; lia).
  pose proof (counted_room pol now max held calls k l Hc Hh Hd) as Hroom. destruct Hc as [Hok Hkeys Htok].
  assert (k ∈ lm_values l <-> k ∈ calls) as Hval.
  { rewrite (lk_values _ _ Hok), elem_of_list_to_set, Hkeys. split; [|by right]. intros [Hx|]; [|done]. destruct (Hd k Hx). set_solver. }
  assert (exists l1, entry k (f64_of_Z (pol k).1) now l = (l1, mkBucket (f64_of_Z j) now now) /\
     (forall k', k' ∈ keys l1 <-> k' ∈ held \/ k' ∈ calls ++ [k]) /\
     (forall k', k' <> k -> find_bucket k' (lm_order l1) = find_bucket k' (lm_order l))) as (l1 & E & Hk1 & Hf1).
  { unfold entry. destruct (decide (k ∈ lm_values l)) as [Hin|Hin]; rewrite Hval in Hin.
    - exists l. rewrite Htok by done. split_and!; [done| |done]. intros k'. rewrite Hkeys. set_solver.
    - cbv zeta. rewrite evict_room by (by apply Hroom). eexists. split_and!.
      + unfold j. rewrite calls_of_zero by done. do 3 f_equal. lia.
      + intros k'. unfold keys in *. cbn [lm_order map fst]. rewrite elem_of_cons, Hkeys. set_solver.
      + intros k' Hne. unfold find_bucket. cbn [lm_order List.find fst]. by rewrite (proj2 (String.eqb_neq k k')). }
  destruct (Allow_bucket (pol k) k now l l1 j Hp ltac:(lia) E) as [E1 E2]. rewrite E1. split.
  { unfold j. destruct (Z.ltb_spec (Z.max 0 ((pol k).1 - calls_of k calls)) 1), (Z.ltb_spec (calls_of k calls) (pol k).1); cbn; lia || done. }
  rewrite E2 in Hok' |- *. split; [done| |].
  - intros k'. rewrite <- Hk1. unfold keys. cbn [lm_order].
    assert (k ∈ map fst (lm_order l1)) as Hkin by (apply Hk1; set_solver).
    unfold to_front. cbn [map fst]. rewrite elem_of_cons. split.
    + intros [->|Hin]; [done|]. apply list_elem_of_In, in_map_iff in Hin as (e & <- & [He _]%filter_In). by apply list_elem_of_In, in_map.
    + intros Hin. destruct (decide (k' = k)) as [|Hne]; [by left|right]. apply list_elem_of_In in Hin. apply in_map_iff in Hin as (e & <- & He).
      apply list_elem_of_In, in_map, filter_In. split; [done|]. by apply negb_true_iff, String.eqb_neq.
  - intros k' Hk'. cbn [lm_order]. rewrite find_to_front, calls_of_snoc. destruct (String.eqb_spec k' k) as [->|Hne].
    + do 3 f_equal. lia.
    + rewrite Hf1, Htok by (done || set_solver). do 3 f_equal. lia.
Qed.

Lemma burst_counted pol now max held calls before l i k :
  (forall k, In (pol k) code_policies) -> counted pol now max held before l -> NoDup held -> (forall x, x ∈ held -> x ∉ before ++ calls) ->
  Z.of_nat (length held + length (remove_dups (before ++ calls))) <= max -> calls !! i = Some k ->
  burst pol now calls l !! i = Some (k, calls_of k (before ++ take i calls) <? (pol k).1).
Proof.
  intros Hp Hc Hh. revert before l i Hc. induction calls as [|c calls IH]; intros before l i Hc Hd Hmax Hi; [done|].
  cbn [burst]. assert (length (remove_dups (before ++ [c])) <= length (remove_dups (before ++ c :: calls)))%nat as Hmax1.
  { apply submseteq_length, NoDup_submseteq; [apply NoDup_remove_dups|]. intros x. rewrite !elem_of_remove_dups. set_solver. }
  destruct (Allow_counted pol now max held before c l (Hp c) Hc Hh) as [E Hc']; [intros x Hx; specialize (Hd x Hx); set_solver|lia|].
  destruct (Allow c (policy_of (pol c)) now l) as [[ok r] l'] eqn:EA. cbn [fst snd] in E, Hc'. subst ok.
  destruct i as [|i]; cbn in Hi.
  - injection Hi as <-. cbn. by rewrite app_nil_r.
  - etransitivity; [refine (IH (before ++ [c]) l' i Hc' _ _ Hi)|]; by rewrite <- app_assoc.
Qed.

Lemma new_limiter_ok max : limiter_ok (lm_max (NewLimiter max)) (NewLimiter max).
Proof. unfold NewLimiter. split; cbn; try done; [|constructor|]; destruct (Z.ltb_spec max 1); lia. Qed.

Definition Allow_all (calls : list (string * BucketPolicy * Z)) (l : Limiter) : Limiter :=
  fold_left (fun l c => (Allow c.1.1 c.1.2 c.2 l).2) calls l.
Lemma Allow_all_ok max calls l : limiter_ok max l -> limiter_ok max (Allow_all calls l).
Proof. revert l. induction calls as [|c calls IH]; intros l Hl; [done|]. by apply IH, Allow_ok. Qed.

(** C37 (bounds): the limiter bounds requests and itself.  Whatever keys, policies
    and instants it is asked for, it holds at most its limit of buckets, each
    key once, and its map and its list agree.  In whatever use it is, of
    requests at one instant on keys that it holds no bucket for, no more keys
    than it has room for, and under the built-in policies, one is let through
    exactly when fewer requests of this burst than the capacity of its policy
    came before it on its key. *)
Theorem limiter_exact (max : Z) (past : list (string * BucketPolicy * Z)) :
  let limit := if max <? 1 then 4096 else max in
  let l := Allow_all past (NewLimiter max) in
  (Z.of_nat (length (lm_order l)) <= limit /\ NoDup (keys l) /\ lm_values l = list_to_set (keys l)) /\
  (forall pol now calls i k, (forall k, In (pol k) code_policies) -> (forall k, k ∈ keys l -> k ∉ calls) ->
    Z.of_nat (length (lm_order l) + length (remove_dups calls)) <= limit -> calls !! i = Some k ->
    burst pol now calls l !! i = Some (k, calls_of k (take i calls) <? (pol k).1)) /\
  map policy_of code_policies ≡ₚ
    [loginIPPolicy; loginAccountPolicy; diagnosticsPolicy; metricsPolicy; resourcesPolicy; livePolicy] /\
  setupPolicy = loginAccountPolicy.
Proof.
  cbv zeta. pose proof (Allow_all_ok _ past _ (new_limiter_ok max)) as Hok. set (l := Allow_all past (NewLimiter max)) in *.
  pose proof Hok as [_ _ Hn Hv Hb]. split_and!; [exact Hb|exact Hn|exact Hv| |reflexivity|reflexivity].
  intros pol now calls i k Hp Hd Hmax Hi. apply (burst_counted pol now (lm_max (NewLimiter max)) (keys l) calls []); [done| |done|done| |done].
  - split; [done|set_solver|]. intros k' Hk'. by apply elem_of_nil in Hk'.
  - unfold keys. by rewrite length_map.
Qed.

(** A refusal tells the client to wait whole seconds, rounded down: half a
    second before the next token it says to wait for none. *)
Lemma retry_after_rounds_down :
  let p := policy_of (120, Minute) in
  let l := Allow_all (replicate 120 ("live:k", p, 0)) (NewLimiter 10) in
  (Allow "live:k" p 0 l).1 = (false, 0).
Proof. vm_compute. reflexivity. Qed.

(** ** Who a client is *)

Definition exact_host (p : Prefix) : Prop :=
  px_bits p = BitLen (px_ip p) /\ px_ip p <> AddrZero /\ has_zone (px_ip p) = false.

Lemma parse_kind_nonzero l all a : parse_kind l all = Some a -> a <> AddrZero.
Proof.
  induction l as [|c l IH]; cbn [parse_kind]; [done|]. destruct (Ascii.eqb c dot); [by destruct (parse4 all); intros [= <-]|].
  destruct (Ascii.eqb c colon).
  - unfold parseIPv6. destruct (cut_byte _ all) as [[l' [|z zs]]|]; [done| |]; destruct (parse6_text _); by intros [= <-].
  - by destruct (Ascii.eqb c _).
Qed.
Lemma ParsePrefix_exact s p :
  ParsePrefix s = Some p -> px_bits p = BitLen (px_ip p) -> exact_host p.
Proof.
  unfold ParsePrefix. destruct (cut_last _ _) as [[a b]|]; [|done]. destruct (ParseAddr (of_bytes a)) as [ip|] eqn:E; [|done].
  apply parse_kind_nonzero in E. destruct (has_zone ip) eqn:Ez; [done|].
  repeat case_match; try done; intros [= <-] Hb; (split; [done|]); (split; destruct ip; cbn in *; congruence || done).
Qed.

Lemma contains_exact p a : exact_host p -> Prefix_Contains p a = true <-> a = px_ip p.
Proof.
  intros (Hb & Hz & Hn). unfold Prefix_Contains. rewrite Hb. destruct (px_ip p) as [|x|x zx]; [done| |]; cbn [BitLen].
  - destruct a as [|y|y zy]; cbn [has_zone negb andb]; [by split|change (32 - 32) with 0|by rewrite andb_false_r; split].
    rewrite Z.shiftr_0_r, Z.eqb_eq, Z.lxor_eq_0_iff. split; congruence.
  - destruct a as [|y|y zy]; cbn [has_zone negb andb]; [by split|by split|change (128 - 128) with 0]. cbn in Hn. apply negb_false_iff, String.eqb_eq in Hn.
    rewrite Z.shiftr_0_r, andb_true_iff, Z.eqb_eq, Z.lxor_eq_0_iff, !negb_true_iff, negb_false_iff, String.eqb_eq. split; [intros [-> ->]; congruence|].
    by intros [= -> ->].
Qed.

Lemma parse_proxies_spec values p q :
  parse_proxies values p = inr q ->
  exists new, q = p ++ new /\ Forall exact_host new /\
    forall x, In x new -> exists v, In v values /\ ParsePrefix (TrimSpace v) = Some x.
Proof.
  revert p. induction values as [|v values IH]; intros p; cbn [parse_proxies].
  { intros [= <-]. exists []. split_and!; [by rewrite app_nil_r|done|done]. }
  destruct (TrimSpace v =?s "").
  { intros H. destruct (IH _ H) as (new & -> & Hf & Hi). exists new. split_and!; [done|done|].
    intros x Hx. destruct (Hi x Hx) as (v' & Hv & Hp). exists v'. split; [by right|done]. }
  destruct (ParsePrefix (TrimSpace v)) as [x|] eqn:E; [|done]. destruct (Z.eqb_spec (px_bits x) (BitLen (px_ip x))); [|done].
  intros H. destruct (IH _ H) as (new & -> & Hf & Hi). exists (x :: new). split_and!.
  - by rewrite <- app_assoc.
  - constructor; [by eapply ParsePrefix_exact|done].
  - intros y [<-|Hy]; [exists v; split; [by left|done]|]. destruct (Hi y Hy) as (v' & Hv & Hp). exists v'. split; [by right|done].
Qed.

(** C38 (safety): a proxy identity comes from a configured host only.  When a
    request is given a subject, proxy authentication is on, the TCP peer's
    address is one of the configured addresses, each a single host, and the
    identity header has one value, the configured subject; whatever else the
    request carries. *)
Theorem proxy_identity (config : ProxyAuthConfig) (cookies : TrustedProxies) (a : ProxyAuthenticator) (r : HTTPRequest) (s : string) :
  NewProxyAuthenticator config cookies = inr a -> Subject (Some a) r = Some s ->
  (pc_Mode config = "proxy" \/ pc_Mode config = "local_and_proxy") /\
  s = pc_AllowedSubject config /\ s <> "" /\ hr_Header r (pa_IdentityHeader a) = [s] /\
  exists host port cidr prefix, SplitHostPort (hr_RemoteAddr r) = Some (host, port) /\ In cidr (pc_ProxyCIDRs config) /\
    ParsePrefix (TrimSpace cidr) = Some prefix /\ exact_host prefix /\ ParseAddr host = Some (px_ip prefix).
Proof.
  unfold NewProxyAuthenticator. destruct (auth_mode (pc_Mode config)) as [mode|] eqn:Em; [|done].
  destruct (ParseTrustedProxies (pc_ProxyCIDRs config)) as [|peers] eqn:Ep; [done|].
  destruct (bool_decide_reflect (mode = LocalAuth)) as [->|Hmode]; [by intros [= <-]|].
  destruct (_ || bad_header _); [done|]. destruct (String.eqb_spec (pc_AllowedSubject config) "") as [|Hne]; [done|].
  destruct (_ || _); [done|]. intros [= <-]. unfold Subject. cbn [pa_identityPeers pa_AllowedSubject pa_IdentityHeader].
  destruct (negb _ || _) eqn:Et; [done|]. apply orb_false_iff in Et as [_ Et%negb_false_iff].
  set (header := CanonicalMIMEHeaderKey _). destruct (hr_Header r header) as [|v [|]]; [done| |done].
  destruct (Contains v ","); [done|]. destruct (_ || negb (v =?s _)) eqn:Ev; [done|].
  apply orb_false_iff in Ev as [_ Ev%negb_false_iff%String.eqb_eq]. intros [= <-].
  split_and!; [|done|by rewrite Ev|done|].
  - unfold auth_mode in Em. destruct (_ || _); [congruence|]. destruct (String.eqb_spec (pc_Mode config) "proxy"); [by left|].
    destruct (String.eqb_spec (pc_Mode config) "local_and_proxy"); [by right|done].
  - unfold TrustedPeer, trusted in Et. destruct (SplitHostPort _) as [[host port]|]; [|done].
    destruct (ParseAddr host) as [addr|] eqn:Ea; [|done]. apply existsb_exists in Et as (x & Hx & Hc).
    destruct (parse_proxies_spec _ _ _ Ep) as (new & -> & Hf & Hi). destruct (Hi x Hx) as (cidr & Hcidr & Hpx).
    rewrite List.Forall_forall in Hf. specialize (Hf x Hx). apply (contains_exact x addr Hf) in Hc as ->.
    exists host, port, cidr, x. by split_and!.
Qed.

(** *** The forwarded address *)

Lemma split_bytes_snoc sep cur l y :
  free_of sep y = true -> split_bytes sep cur (l ++ sep :: y) = split_bytes sep cur l ++ [y].
Proof.
  intros Hy. revert cur. induction l as [|c l IH]; intros cur; cbn.
  - rewrite Ascii.eqb_refl. by rewrite split_bytes_end.
  - destruct (Ascii.eqb c sep); [|apply IH]. by rewrite IH.
Qed.
Lemma Split_snoc sep l y :
  free_of sep y = true -> Split (of_bytes (l ++ sep :: y)) sep = Split (of_bytes l) sep ++ [of_bytes y].
Proof.
  intros Hy. unfold Split, bytes, of_bytes. rewrite !String.list_ascii_of_string_of_list_ascii.
  by rewrite split_bytes_snoc, map_app.
Qed.
Lemma drop_while_all {A} (p : A -> bool) l m : forallb p l = true -> drop_while p (l ++ m) = drop_while p m.
Proof. induction l as [|x l IH]; cbn; [done|]. by destruct (p x). Qed.

Lemma trim_padded sp l :
  forallb is_space sp = true -> forallb (fun c => negb (is_space c)) l = true ->
  TrimSpace (of_bytes (sp ++ l)) = of_bytes l.
Proof.
  intros Hs Hl. unfold TrimSpace, bytes, of_bytes. rewrite String.list_ascii_of_string_of_list_ascii.
  rewrite drop_while_all, (drop_while_none is_space l) by done. rewrite (drop_while_none is_space (rev l)); [by rewrite rev_involutive|].
  rewrite forallb_forall in *. intros x Hx. apply Hl. by apply in_rev.
Qed.

Lemma addr_bytes_plain a : addr_wf a -> a <> AddrZero -> has_zone a = false -> forallb addr_byte (addr_bytes a) = true.
Proof.
  intros Hwf Hne Hz. destruct a as [|n|n z]; [done|apply print4_bytes|]. cbn [addr_bytes has_zone] in *.
  apply negb_false_iff in Hz. rewrite Hz, app_nil_r. destruct (Is4In6 _); [|apply print6_bytes].
  rewrite forallb_app, print4_bytes. done.
Qed.
Lemma addr_byte_not_space c : addr_byte c = true -> negb (is_space c) = true.
Proof.
  intros H. destruct (is_space c) eqn:E; [|done]. exfalso. revert H E. clear.
  destruct c as [[] [] [] [] [] [] [] []]; vm_compute; congruence.
Qed.

(** A client cannot choose its rate-limit identity.  Headers count
    only when the TCP peer is a trusted proxy; and when the proxy appends the
    address it saw to whatever the client sent, with at most sixteen entries in
    all, the client is known by the network of that address. *)
Theorem client_prefix_unspoofable (p : TrustedProxies) (r : HTTPRequest) :
  (trusted p r = false -> forall headers,
    ClientPrefix p (mkHTTP (hr_RemoteAddr r) (hr_TLS r) (hr_Host r) headers) = ClientPrefix p r) /\
  (forall sent sp a, trusted p r = true -> addr_wf a -> a <> AddrZero -> has_zone a = false -> trustedAddr p a = false ->
    forallb is_space sp = true ->
    Header_Get r "X-Forwarded-For" = of_bytes (sent ++ ","%char :: sp ++ addr_bytes a) ->
    (length (Split (of_bytes sent) ","%char) <= 15)%nat ->
    ClientPrefix p r = prefix_of a).
Proof.
  split.
  - intros Ht headers. unfold ClientPrefix, client_host, trusted in *. cbn [hr_RemoteAddr]. by rewrite Ht.
  - intros sent sp a Ht Hwf Hne Hz Hu Hsp Hh Hlen. unfold ClientPrefix, client_host. rewrite Ht, Hh.
    pose proof (addr_bytes_plain a Hwf Hne Hz) as Hb.
    assert (free_of ","%char (sp ++ addr_bytes a) = true) as Hfree.
    { unfold free_of. rewrite forallb_app. apply andb_true_iff. split; [|by apply (addr_byte_free _ ","%char)].
      rewrite forallb_forall in *. intros c Hc. specialize (Hsp c Hc). apply negb_true_iff, Ascii.eqb_neq. by intros ->. }
    rewrite Split_snoc, rev_app_distr, length_app by done. cbn [length rev app forwarded].
    rewrite trim_padded; [|done|]. 2: { rewrite forallb_forall in *. intros c Hc. by apply addr_byte_not_space, Hb. }
    fold (Addr_String a). rewrite addr_roundtrip, Hu by done.
    rewrite (proj2 (Nat.ltb_lt _ _)), (proj2 (Nat.leb_le _ _)) by lia. cbn [andb]. by rewrite addr_roundtrip.
Qed.

(** Seventeen entries make the limiter fall back to the proxy's own address:
    such clients share one bucket with each other. *)
Lemma long_forwarded_shares_bucket :
  let p := [mkPrefix (V4 (v4 10 0 0 1)) 32] in
  let r := mkHTTP "10.0.0.1:4711" false "binnacle" (fun k => if k =?s "X-Forwarded-For"
    then ["a,a,a,a,a,a,a,a,a,a,a,a,a,a,a,a, 203.0.113.9"] else []) in
  ClientPrefix p r = "10.0.0.0/24".
Proof. vm_compute. reflexivity. Qed.

(** ** Witnesses *)

Definition sample_proxy_config := mkProxyConfig "proxy" "x-forwarded-user" "alice" ["10.0.0.1/32"].
Definition sample_proxy_request : HTTPRequest :=
  mkHTTP "10.0.0.1:4711" false "binnacle" (fun k => if k =?s "X-Forwarded-User" then ["alice"] else []).
Lemma proxy_identity_witness :
  exists a, NewProxyAuthenticator sample_proxy_config [] = inr a /\ Subject (Some a) sample_proxy_request = Some "alice" /\
    hr_Header sample_proxy_request (pa_IdentityHeader a) = ["alice"].
Proof.
  eexists. assert (NewProxyAuthenticator sample_proxy_config [] = inr _) as E by (vm_compute; reflexivity).
  assert (Subject (Some (mkProxyAuth ProxyAuthOnly "X-Forwarded-User" "alice" [mkPrefix (V4 167772161) 32] []))
    sample_proxy_request = Some "alice") as Es by (vm_compute; reflexivity).
  split_and!; [exact E|exact Es|].
  exact (proj1 (proj2 (proj2 (proj2 (proxy_identity _ _ _ _ _ E Es))))).
Defined.
