(* ===== verification/HostProc.v ===== *)
(** * The host's counters

    [internal/collector/host]: the parsers of [/proc/stat], [meminfo],
    [loadavg], [uptime], [net/dev], [diskstats] and the mount table, and what
    is computed from two samples.  Counters are 64-bit and wrap. *)

From stdpp Require Import base tactics list gmap strings.
From Stdlib Require Import ZArith Lia Ascii.
From S2P Require Import Prelude GoString GoParse Float64.

Local Open Scope Z_scope.

Definition Lines (s : string) : list string := Split s newline.
(** [strconv.ParseUint] of all of them, or the first failure *)
Definition parse_uints (l : list string) : option (list Z) := mapM ParseUint l.

(** ** [cpu.go] *)

Record CPUCounters := mkCPUCounters {
  cc_User : Z; cc_Nice : Z; cc_System : Z; cc_Idle : Z; cc_IOWait : Z; cc_IRQ : Z; cc_SoftIRQ : Z; cc_Steal : Z;
}.
Record CPUUsage := mkCPUUsage {
  cu_Busy : option F64; cu_User : option F64; cu_System : option F64; cu_IOWait : option F64; cu_Steal : option F64;
}.
Definition no_usage : CPUUsage := mkCPUUsage None None None None None.

Definition counters_of (v : list Z) : option CPUCounters :=
  match v with
  | user :: nice :: system :: idle :: rest =>
      Some (mkCPUCounters user nice system idle (nth 0 rest 0) 0 0 (nth 3 rest 0))
  | _ => None
  end.
(** One line into the map; [None]: an error *)
Definition stat_line (line : string) (out : gmap string CPUCounters) : option (gmap string CPUCounters) :=
  match Fields line with
  | name :: values =>
      if (length (name :: values) <? 5)%nat || negb (HasPrefix name "cpu") then Some out
      else match parse_uints values with
      | None => None
      | Some v => match counters_of v with Some c => Some (<[name := c]> out) | None => None end
      end
  | [] => Some out
  end.
Fixpoint fold_lines {A} (f : string -> A -> option A) (lines : list string) (a : A) : option A :=
  match lines with
  | [] => Some a
  | l :: lines => match f l a with Some a => fold_lines f lines a | None => None end
  end.
Definition ParseProcStat (input : string) : option (gmap string CPUCounters) :=
  match fold_lines stat_line (Lines input) ∅ with
  | Some out => match out !! "cpu" with None => None | Some _ => Some out end
  | None => None
  end.

Definition cpu_total (c : CPUCounters) : Z :=
  wrapu64 (cc_User c + cc_Nice c + cc_System c + cc_Idle c + cc_IOWait c + cc_IRQ c + cc_SoftIRQ c + cc_Steal c).
Definition percent (part whole : Z) : F64 := f64_div (f64_mul (f64_of_Z part) (f64_of_Z 100)) (f64_of_Z whole).
Definition pct (d now old : Z) : option F64 := if now <? old then None else Some (percent (now - old) d).
Definition CPUDelta (previous current : CPUCounters) : CPUUsage :=
  let p := cpu_total previous in
  let c := cpu_total current in
  if c <=? p then no_usage
  else
    let d := c - p in
    let busyNow := wrapu64 (c - cc_Idle current - cc_IOWait current) in
    let busyOld := wrapu64 (p - cc_Idle previous - cc_IOWait previous) in
    mkCPUUsage (pct d busyNow busyOld)
      (pct d (wrapu64 (cc_User current + cc_Nice current)) (wrapu64 (cc_User previous + cc_Nice previous)))
      (pct d (cc_System current) (cc_System previous)) (pct d (cc_IOWait current) (cc_IOWait previous))
      (pct d (cc_Steal current) (cc_Steal previous)).

(** ** [memory.go] *)

Record Memory := mkMemory {
  me_Total : Z; me_Available : Z; me_Used : Z; me_SwapTotal : Z; me_SwapFree : Z; me_Cached : Z; me_Buffers : Z;
}.
Definition meminfo_line (line : string) (vals : gmap string Z) : option (gmap string Z) :=
  match Fields line with
  | key :: value :: _ =>
      match ParseUint value with
      | None => None
      | Some n => Some (<[TrimSuffix key ":" := wrapu64 (n * 1024)]> vals)
      end
  | _ => Some vals
  end.
(** [None]: an error, of a value or of a missing total *)
Definition ParseMeminfo (input : string) : option Memory :=
  match fold_lines meminfo_line (Lines input) ∅ with
  | None => None
  | Some vals =>
      let get k := default 0 (vals !! k) in
      let total := get "MemTotal" in
      if total =? 0 then None
      else
        let available := if total <? get "MemAvailable" then total else get "MemAvailable" in
        Some (mkMemory total available (wrapu64 (total - available)) (get "SwapTotal") (get "SwapFree") (get "Cached") (get "Buffers"))
  end.

Record Load := mkLoad { ld_One : F64; ld_Five : F64; ld_Fifteen : F64 }.
Definition ParseLoadavgFull (input : string) : option Load :=
  match Fields input with
  | a :: b :: c :: _ =>
      match ParseFloat a, ParseFloat b, ParseFloat c with
      | Some x, Some y, Some z => Some (mkLoad x y z)
      | _, _, _ => None
      end
  | _ => None
  end.
Definition ParseUptime (input : string) : option F64 := match Fields input with [] => None | a :: _ => ParseFloat a end.

(** ** [network.go] *)

Record NetworkCounters := mkNetwork {
  nw_RXBytes : Z; nw_RXPackets : Z; nw_RXErrors : Z; nw_RXDrops : Z; nw_TXBytes : Z; nw_TXPackets : Z; nw_TXErrors : Z; nw_TXDrops : Z;
}.
Definition no_network : NetworkCounters := mkNetwork 0 0 0 0 0 0 0 0.
Definition netdev_line (line : string) (out : gmap string NetworkCounters) : option (gmap string NetworkCounters) :=
  match Split line ":"%char with
  | [name; values] =>
      let f := Fields values in
      if (length f <? 16)%nat then None
      else match parse_uints (take 16 f) with
      | None => None
      | Some v =>
          let at_ i := nth i v 0 in
          Some (<[TrimSpace name := mkNetwork (at_ 0%nat) (at_ 1%nat) (at_ 2%nat) (at_ 3%nat) (at_ 8%nat) (at_ 9%nat) (at_ 10%nat) (at_ 11%nat)]> out)
      end
  | _ => Some out
  end.
Definition ParseNetDev (input : string) : option (gmap string NetworkCounters) := fold_lines netdev_line (Lines input) ∅.

Definition virtual_interface (name : string) : bool :=
  (name =?s "lo") || HasPrefix name "veth" || HasPrefix name "docker" || HasPrefix name "br-".
Definition add_network (a b : NetworkCounters) : NetworkCounters :=
  let sum f := wrapu64 (f a + f b) in
  mkNetwork (sum nw_RXBytes) (sum nw_RXPackets) (sum nw_RXErrors) (sum nw_RXDrops) (sum nw_TXBytes) (sum nw_TXPackets) (sum nw_TXErrors) (sum nw_TXDrops).
Definition AggregateNetwork `{MapOrder} (m : gmap string NetworkCounters) : NetworkCounters :=
  fold_left (fun out kv => if virtual_interface kv.1 then out else add_network out kv.2) (range_map m) no_network.

(** A rate per second, and a difference; nothing when a counter went back *)
Definition Rate (current previous : Z) (elapsed : F64) : option F64 :=
  if (elapsed <=? f64_zero)%F || (current <? previous) then None
  else Some (f64_div (f64_of_Z (current - previous)) elapsed).

(** ** [disk.go] *)

Definition SectorBytes : Z := 512.
Record DiskCounters := mkDisk { dk_Reads : Z; dk_ReadSectors : Z; dk_Writes : Z; dk_WriteSectors : Z }.
Definition diskstats_line (line : string) (out : gmap string DiskCounters) : option (gmap string DiskCounters) :=
  match Fields line with
  | [] => Some out
  | f =>
      if (length f <? 10)%nat then None
      else
        let name := nth 2 f "" in
        if HasPrefix name "loop" || HasPrefix name "ram" then Some out
        else match parse_uints [nth 3 f ""; nth 5 f ""; nth 7 f ""; nth 9 f ""] with
        | Some [r; rs; w; ws] => Some (<[name := mkDisk r rs w ws]> out)
        | _ => None
        end
  end.
Definition ParseDiskstats (input : string) : option (gmap string DiskCounters) := fold_lines diskstats_line (Lines input) ∅.
Definition SectorToBytes (sectors : Z) : Z := wrapu64 (sectors * SectorBytes).

(** ** [filesystem.go] *)

Record MountEntry := mkMount { mo_Source : string; mo_Target : string; mo_FSType : string }.
Definition pseudo_type (t : string) : bool :=
  HasPrefix t "proc" || HasPrefix t "sysfs" || HasPrefix t "cgroup" || (t =?s "tmpfs") || (t =?s "overlay").
Definition mount_line (dataPath line : string) : list MountEntry :=
  match Fields line with
  | source :: target :: fstype :: _ =>
      if (target =?s "/") || (target =?s dataPath) || negb (pseudo_type fstype) then [mkMount source target fstype] else []
  | _ => []
  end.
Definition ParseMounts (input dataPath : string) : list MountEntry := flat_map (mount_line dataPath) (Lines input).

(** ** Texts as the kernel writes them *)

Definition word (w : string) : bool := negb (w =?s "") && forallb (fun c => negb (is_space c)) (bytes w).
Definition blanks (n : nat) : list ascii := repeat " "%char n.
(** A line: indentation, a first word, and words after one or more blanks *)
Record row := mkRow { ro_lead : nat; ro_first : string; ro_rest : list (nat * string) }.
Definition row_words (r : row) : list string := ro_first r :: map snd (ro_rest r).
Definition row_bytes (r : row) : list ascii :=
  blanks (ro_lead r) ++ bytes (ro_first r) ++ flat_map (fun p => blanks (S p.1) ++ bytes p.2) (ro_rest r).
Definition row_ok (r : row) : bool := forallb word (row_words r).
Definition file_bytes (rows : list row) : list ascii := flat_map (fun r => row_bytes r ++ [newline]) rows.
Definition file (rows : list row) : string := of_bytes (file_bytes rows).

Lemma fields_blanks n l : fields_bytes [] (blanks n ++ l) = fields_bytes [] l.
Proof. induction n as [|n IH]; [done|]. exact IH. Qed.
Lemma fields_word w cur l : forallb (fun c => negb (is_space c)) w = true -> fields_bytes cur (w ++ l) = fields_bytes (rev w ++ cur) l.
Proof.
  revert cur. induction w as [|c w IH]; intros cur Hw; [done|]. cbn in Hw. apply andb_true_iff in Hw as [Hc Hw].
  cbn [app fields_bytes]. apply negb_true_iff in Hc. rewrite Hc, IH by done. cbn [rev]. by rewrite <- app_assoc.
Qed.
Lemma word_inv w : word w = true -> bytes w <> [] /\ forallb (fun c => negb (is_space c)) (bytes w) = true.
Proof. unfold word. intros [Hn Hw]%andb_true_iff. split; [|done]. by destruct w. Qed.
Lemma fields_rest cur ws :
  cur <> [] -> forallb word (map snd ws) = true ->
  fields_bytes cur (flat_map (fun p => blanks (S p.1) ++ bytes p.2) ws) = rev cur :: map bytes (map snd ws).
Proof.
  revert cur. induction ws as [|[n w] ws IH]; intros cur Hc Hw; [by destruct cur|].
  cbn [map forallb snd] in Hw. apply andb_true_iff in Hw as [[Hne Hs]%word_inv Hw].
  cbn [flat_map fst snd]. cbn [blanks repeat app fields_bytes]. change (is_space " ") with true. cbv iota.
  fold (blanks n). rewrite <- !app_assoc, fields_blanks, fields_word by done. rewrite app_nil_r.
  rewrite IH; [|by intros E%(f_equal (@rev ascii)); rewrite rev_involutive in E|done]. rewrite rev_involutive. by destruct cur.
Qed.
Lemma Fields_row r : row_ok r = true -> Fields (of_bytes (row_bytes r)) = row_words r.
Proof.
  unfold row_ok, row_words. cbn [forallb]. intros [[Hne Hs]%word_inv Hw]%andb_true_iff. unfold Fields, row_bytes. rewrite bytes_of_bytes.
  rewrite fields_blanks, fields_word, app_nil_r by done. rewrite fields_rest; [|by intros E%(f_equal (@rev ascii)); rewrite rev_involutive in E|done].
  rewrite rev_involutive. cbn [map]. rewrite of_bytes_bytes. f_equal. rewrite map_map. erewrite map_ext; [apply map_id|]. apply of_bytes_bytes.
Qed.

Lemma space_free w : forallb (fun c => negb (is_space c)) w = true -> free_of newline w = true.
Proof.
  unfold free_of. induction w as [|c w IH]; [done|]. cbn [forallb]. intros [Hc Hw]%andb_true_iff. rewrite IH by done.
  destruct (Ascii.eqb c newline) eqn:E; [|done]. apply Ascii.eqb_eq in E as ->. done.
Qed.
Lemma free_app sep a b : free_of sep (a ++ b) = free_of sep a && free_of sep b.
Proof. apply forallb_app. Qed.
Lemma blanks_free n : free_of newline (blanks n) = true.
Proof. induction n; [done|]. done. Qed.
Lemma row_free r : row_ok r = true -> free_of newline (row_bytes r) = true.
Proof.
  unfold row_ok, row_words, row_bytes. cbn [forallb]. intros [[_ Hs]%word_inv Hw]%andb_true_iff.
  rewrite !free_app, blanks_free, space_free by done. cbn [andb]. induction (ro_rest r) as [|[n w] ws IH]; [done|].
  cbn [map forallb snd] in Hw. apply andb_true_iff in Hw as [[_ Hw1]%word_inv Hw].
  cbn [flat_map fst snd]. rewrite !free_app, blanks_free, space_free, IH by done. done.
Qed.
Lemma Lines_file rows : forallb row_ok rows = true -> Lines (file rows) = map (fun r => of_bytes (row_bytes r)) rows ++ [""].
Proof.
  unfold Lines, Split, file. rewrite bytes_of_bytes. induction rows as [|r rows IH]; [done|].
  cbn [forallb]. intros [Hr Hrs]%andb_true_iff. cbn [file_bytes flat_map]. fold (file_bytes rows). rewrite <- app_assoc. cbn [app].
  rewrite split_bytes_cons by (by apply row_free). cbn [map app rev]. f_equal. by apply IH.
Qed.

(** Parsers go line by line, and the empty text after the last line is none. *)
Fixpoint fold_rows {A} (g : list string -> A -> option A) (rows : list row) (a : A) : option A :=
  match rows with
  | [] => Some a
  | r :: rows => match g (row_words r) a with Some a => fold_rows g rows a | None => None end
  end.
Lemma fold_lines_app {A} (f : string -> A -> option A) l1 l2 a :
  fold_lines f (l1 ++ l2) a = match fold_lines f l1 a with Some a => fold_lines f l2 a | None => None end.
Proof. revert a. induction l1 as [|x l1 IH]; intros a; [done|]. cbn. by destruct (f x a). Qed.
Lemma fold_file {A} (f : string -> A -> option A) (g : list string -> A -> option A) rows a :
  forallb row_ok rows = true -> (forall line x, f line x = g (Fields line) x) -> (forall x, g [] x = Some x) ->
  fold_lines f (Lines (file rows)) a = fold_rows g rows a.
Proof.
  intros Hr Hf Hg. rewrite Lines_file, fold_lines_app by done.
  assert (forall a, fold_lines f (map (fun r => of_bytes (row_bytes r)) rows) a = fold_rows g rows a) as E.
  { induction rows as [|r rows IH]; intros x; [done|]. cbn [forallb] in Hr. apply andb_true_iff in Hr as [Hr Hrs].
    cbn [map fold_lines fold_rows]. rewrite Hf, Fields_row by done. destruct (g (row_words r) x); [|done]. by apply IH. }
  rewrite E. destruct (fold_rows g rows a) as [x|]; [|done]. cbn. rewrite Hf. change (Fields "") with (@nil string). by rewrite Hg.
Qed.

(** *** Memory *)

(** [/proc/meminfo]: names with a colon, values in kibibytes *)
Definition meminfo_row (kv : nat * (string * Z)) : row := mkRow 0 (kv.2.1 +:+ ":") [(kv.1, Itoa kv.2.2); (0%nat, "kB")].
Definition meminfo_map (l : list (string * Z)) : gmap string Z := list_to_map (rev (map (fun kv => (kv.1, kv.2 * 1024)) l)).

Lemma digit_not_space c : is_digit c = true -> is_space c = false.
Proof. unfold is_digit, is_space. intros H. bool_hyps. destruct (_ || _) eqn:E; [|done]. bool_hyps. lia. Qed.
Lemma Itoa_word n : in_uint64 n -> word (Itoa n) = true.
Proof.
  intros [Hd Hne]%Itoa_digits. unfold word. apply andb_true_iff. split.
  - apply negb_true_iff, String.eqb_neq. intros E. by rewrite E in Hne.
  - rewrite forallb_forall in *. intros x Hx. by rewrite digit_not_space by auto.
Qed.
Lemma word_app a b : word a = true -> forallb (fun c => negb (is_space c)) (bytes b) = true -> word (a +:+ b) = true.
Proof.
  intros [Hn Hs]%word_inv Hb. unfold word. apply andb_true_iff. split; [by destruct a|].
  by rewrite bytes_append, forallb_app, Hs, Hb.
Qed.
Lemma prefix_app a b : String.prefix a (a +:+ b) = true.
Proof.
  induction a as [|c a IH]; [by destruct b|]. change (String c a +:+ b) with (String c (a +:+ b)). cbn [String.prefix].
  destruct (ascii_dec c c) as [_|Hc]; [exact IH|done].
Qed.
Lemma TrimSuffix_app s x : TrimSuffix (s +:+ x) x = s.
Proof.
  unfold TrimSuffix, HasSuffix. rewrite !bytes_append, rev_app_distr.
  assert (of_bytes (rev (bytes x) ++ rev (bytes s)) = of_bytes (rev (bytes x)) +:+ of_bytes (rev (bytes s))) as ->.
  { rewrite <- (of_bytes_bytes (of_bytes (rev (bytes x)) +:+ _)), bytes_append, !bytes_of_bytes. done. }
  rewrite prefix_app, <- (bytes_length (s +:+ x)), <- (bytes_length x), bytes_append, length_app.
  replace (length (bytes s) + length (bytes x) - length (bytes x))%nat with (length (bytes s)) by lia.
  rewrite take_app_length. apply of_bytes_bytes.
Qed.

Definition meminfo_words (ws : list string) (vals : gmap string Z) : option (gmap string Z) :=
  match ws with
  | key :: value :: _ =>
      match ParseUint value with
      | None => None
      | Some n => Some (<[TrimSuffix key ":" := wrapu64 (n * 1024)]> vals)
      end
  | _ => Some vals
  end.
Definition meminfo_entry (kv : nat * (string * Z)) : Prop := word kv.2.1 = true /\ 0 <= kv.2.2 /\ kv.2.2 * 1024 < 2 ^ 64.
Lemma meminfo_row_ok kv : meminfo_entry kv -> row_ok (meminfo_row kv) = true.
Proof.
  intros (Hw & H0 & Hn). unfold row_ok, row_words. cbn [ro_first ro_rest meminfo_row map snd forallb].
  rewrite word_app, Itoa_word by (done || (unfold in_uint64; lia)). done.
Qed.
Lemma meminfo_fold l m :
  Forall meminfo_entry l ->
  fold_rows meminfo_words (map meminfo_row l) m = Some (list_to_map (rev (map (fun kv => (kv.2.1, kv.2.2 * 1024)) l)) ∪ m).
Proof.
  intros Hl. revert m. induction Hl as [|kv l (Hw & H0 & Hn) _ IH]; intros m; [cbn; by rewrite (left_id_L ∅ (∪))|].
  cbn [map fold_rows]. unfold row_words. cbn [ro_first ro_rest meminfo_row map snd meminfo_words].
  rewrite ParseUint_Itoa by (unfold in_uint64; lia). rewrite TrimSuffix_app, wrapu64_id by (unfold in_uint64; lia). rewrite IH.
  f_equal. cbn [rev]. rewrite list_to_map_app. cbn. rewrite <- (assoc_L (∪)). f_equal. rewrite insert_union_singleton_l. done.
Qed.

(** Memory is read exactly.  For a text in the kernel's format,
    with whatever padding, [ParseMeminfo] gives each quantity in bytes, the last
    line of a name counting; available memory is capped by the total, and used
    and available memory add up to it. *)
Theorem meminfo_exact (l : list (nat * (string * Z))) :
  Forall meminfo_entry l ->
  let get k := default 0 (meminfo_map (map snd l) !! k) in
  0 < get "MemTotal" ->
  let available := Z.min (get "MemTotal") (get "MemAvailable") in
  ParseMeminfo (file (map meminfo_row l)) =
    Some (mkMemory (get "MemTotal") available (get "MemTotal" - available) (get "SwapTotal") (get "SwapFree") (get "Cached") (get "Buffers")).
Proof.
  intros Hl. unfold meminfo_map. rewrite map_map. set (m := list_to_map _). cbv zeta. intros Ht.
  assert (forall k n, m !! k = Some n -> 0 <= n < 2 ^ 64) as Hm.
  { intros k n E. apply elem_of_list_to_map_2, list_elem_of_In, in_rev, in_map_iff in E as ([p [k' n']] & [= <- <-] & Hin).
    rewrite Forall_forall in Hl. destruct (Hl (p, (k', n'))) as (_ & ? & ?); [by apply list_elem_of_In|]. cbn in *. lia. }
  assert (forall k, 0 <= default 0 (m !! k) < 2 ^ 64) as Hd.
  { intros k. destruct (m !! k) eqn:E; cbn; [by apply (Hm k)|lia]. }
  unfold ParseMeminfo. rewrite (fold_file meminfo_line meminfo_words) by
    (try (intros; unfold meminfo_line, meminfo_words; by destruct (Fields _));
     first [done | rewrite forallb_forall; intros r (kv & <- & Hin)%in_map_iff; apply meminfo_row_ok;
       rewrite Forall_forall in Hl; apply Hl; by apply list_elem_of_In]).
  rewrite meminfo_fold by done. rewrite (right_id_L ∅ (∪)). fold m. pose proof (Hd "MemTotal") as H1. pose proof (Hd "MemAvailable") as H2.
  destruct (Z.eqb_spec (default 0 (m !! "MemTotal")) 0); [lia|].
  destruct (Z.ltb_spec (default 0 (m !! "MemTotal")) (default 0 (m !! "MemAvailable"))); f_equal; f_equal; try lia;
    rewrite wrapu64_id by (unfold in_uint64; lia); lia.
Qed.

(** *** CPU *)

Definition cpu_sum (c : CPUCounters) : Z :=
  cc_User c + cc_Nice c + cc_System c + cc_Idle c + cc_IOWait c + cc_IRQ c + cc_SoftIRQ c + cc_Steal c.
(** The counters went on, none of them back. *)
Definition cpu_advance (p c : CPUCounters) : Prop :=
  Forall (fun f => 0 <= f p <= f c) [cc_User; cc_Nice; cc_System; cc_Idle; cc_IOWait; cc_IRQ; cc_SoftIRQ; cc_Steal].

(** The CPU's shares are those of the time between two
    samples.  When no counter goes back and their sums fit 64 bits, nothing is
    reported without time passing; otherwise busy time is what is neither idle
    nor waiting for I/O, every share lies between none and all of the elapsed
    time, and busy, idle and waiting time make it up. *)
Theorem cpu_delta_exact (p c : CPUCounters) :
  cpu_advance p c -> cpu_sum c < 2 ^ 64 ->
  let d := cpu_sum c - cpu_sum p in
  let ran f := f c - f p in
  let busy := d - ran cc_Idle - ran cc_IOWait in
  (d = 0 -> CPUDelta p c = no_usage) /\
  (0 < d -> CPUDelta p c = mkCPUUsage (Some (percent busy d)) (Some (percent (ran cc_User + ran cc_Nice) d)) (Some (percent (ran cc_System) d))
      (Some (percent (ran cc_IOWait) d)) (Some (percent (ran cc_Steal) d))) /\
  Forall (fun share => 0 <= share <= d) [busy; ran cc_User + ran cc_Nice; ran cc_System; ran cc_IOWait; ran cc_Steal] /\
  busy + ran cc_Idle + ran cc_IOWait = d.
Proof.
  unfold cpu_advance. rewrite !Forall_cons. intros (H1 & H2 & H3 & H4 & H5 & H6 & H7 & H8 & _) Hs. unfold cpu_sum in *. cbv zeta.
  unfold CPUDelta, cpu_total, pct. rewrite !(wrapu64_id (_ + _ + _ + _ + _ + _ + _ + _)) by (unfold in_uint64; lia).
  rewrite !wrapu64_id by (unfold in_uint64; lia).
  split; [intros Hd; by rewrite (proj2 (Z.leb_le _ _)) by lia|]. split; [intros Hd|split; [repeat constructor; lia|lia]].
  rewrite (proj2 (Z.leb_gt _ _)) by lia. rewrite !(proj2 (Z.ltb_ge _ _)) by lia. f_equal; f_equal; f_equal; lia.
Qed.

(** *** What the parsers miss *)

(** Time spent on interrupts is in the file and in the sum, but never read. *)
Lemma irq_never_read input m : ParseProcStat input = Some m -> forall name c, m !! name = Some c -> cc_IRQ c = 0 /\ cc_SoftIRQ c = 0.
Proof.
  unfold ParseProcStat. destruct (fold_lines stat_line (Lines input) ∅) as [out|] eqn:E; [|done].
  destruct (out !! "cpu") as [c0|]; [|done]. intros [= <-].
  assert (forall lines a b, fold_lines stat_line lines a = Some b ->
    map_Forall (fun _ c => cc_IRQ c = 0 /\ cc_SoftIRQ c = 0) a -> map_Forall (fun _ c => cc_IRQ c = 0 /\ cc_SoftIRQ c = 0) b) as Hf.
  { induction lines as [|l lines IH]; intros a b Hl Ha; [by injection Hl as <-|]. cbn in Hl.
    destruct (stat_line l a) as [a'|] eqn:Es; [|done]. apply (IH a' b Hl). unfold stat_line in Es.
    destruct (Fields l) as [|name values]; [by injection Es as <-|]. destruct (_ || _); [by injection Es as <-|].
    destruct (parse_uints values) as [v|]; [|done]. destruct (counters_of v) as [c|] eqn:Ec; [|done]. injection Es as <-.
    apply map_Forall_insert_2; [|done]. unfold counters_of in Ec. destruct v as [|? [|? [|? [|? ?]]]]; try done. by injection Ec as <-. }
  specialize (Hf _ _ _ E (map_Forall_empty _)). intros name c Hc. by apply (Hf name c).
Qed.
(** Read as a mount table, a line of [mountinfo] is a mount of its own number
    on the number of its parent. *)
Lemma mountinfo_misread :
  ParseMounts "36 35 98:0 / /mnt rw,noatime shared:1 - ext4 /dev/sda1 rw" "/data" = [mkMount "36" "35" "98:0"].
Proof. vm_compute. reflexivity. Qed.
(** The counters of a disk contain those of its partitions, and both are kept. *)
Lemma partitions_counted_twice :
  let text := of_bytes (bytes "8 0 sda 10 0 80 0 5 0 40 0 0 0 0" ++ [newline] ++ bytes "8 1 sda1 10 0 80 0 5 0 40 0 0 0 0") in
  (fun m : gmap string DiskCounters => (m !! "sda", m !! "sda1")) <$> ParseDiskstats text =
    Some (Some (mkDisk 10 80 5 40), Some (mkDisk 10 80 5 40)).
Proof. vm_compute. reflexivity. Qed.

(** ** Witnesses *)

Lemma meminfo_exact_witness :
  ParseMeminfo (file (map meminfo_row [(7%nat, ("MemTotal", 8)); (4%nat, ("MemAvailable", 3)); (0%nat, ("SwapTotal", 2))])) =
    Some (mkMemory 8192 3072 5120 2048 0 0 0).
Proof.
  apply (meminfo_exact [(7%nat, ("MemTotal", 8)); (4%nat, ("MemAvailable", 3)); (0%nat, ("SwapTotal", 2))]).
  - repeat constructor; cbn; lia.
  - vm_compute. reflexivity.
Defined.
Lemma cpu_delta_exact_witness :
  CPUDelta (mkCPUCounters 10 0 5 100 1 0 0 0) (mkCPUCounters 40 0 15 160 1 0 0 0) =
    mkCPUUsage (Some (percent 40 100)) (Some (percent 30 100)) (Some (percent 10 100)) (Some (percent 0 100)) (Some (percent 0 100)).
Proof.
  destruct (cpu_delta_exact (mkCPUCounters 10 0 5 100 1 0 0 0) (mkCPUCounters 40 0 15 160 1 0 0 0)) as (_ & H & _);
    [repeat constructor; cbn; lia|vm_compute; reflexivity|]. apply H. vm_compute. reflexivity.
Defined.
