(* ===== verification/Resources.v ===== *)
(** * Resource identities

    [internal/resources] ([resolve.go], [status.go], [aggregate.go]) and
    [internal/coolify/resolve.go]: which containers are one resource, under
    which key, name and context, and its status.  The regular expressions are
    written out; [url.Parse] is a parameter. *)

From stdpp Require Import base tactics list gmap strings.
From Stdlib Require Import ZArith Lia Ascii.
From S2P Require Import Prelude GoString GoParse Float64 Json Db AuthSchema Metrics.

(** ** Generated names *)

Definition sep_byte (c : ascii) : bool := Ascii.eqb c "-"%char || Ascii.eqb c "_"%char.
Definition hex_letter (c : ascii) : bool := match hex_byte c with Some _ => true | None => false end.
(** [(?i)^[0-9a-f]{8}-[0-9a-f]{4}-[0-9a-f]{4}-[0-9a-f]{4}-[0-9a-f]{12}$] *)
Fixpoint hex_groups (groups : list nat) (l : list ascii) : bool :=
  match groups with
  | [] => false
  | n :: groups =>
      (length (take n l) =? n)%nat && forallb hex_letter (take n l) &&
      match groups, drop n l with
      | [], [] => true
      | _ :: _, c :: rest => Ascii.eqb c "-"%char && hex_groups groups rest
      | _, _ => false
      end
  end.
Definition uuid_bytes : list ascii -> bool := hex_groups [8; 4; 4; 4; 12]%nat.
(** [^\d{10,17}$] *)
Definition timestamp_bytes (l : list ascii) : bool := (10 <=? length l)%nat && (length l <=? 17)%nat && forallb is_digit l.
(** [(?i)^[0-9a-z]{20,}$] *)
Definition opaque_bytes (l : list ascii) : bool :=
  (20 <=? length (fold_bytes l))%nat && forallb (fun c => is_digit c || is_lower c) (fold_bytes l).
Definition isGeneratedPart (l : list ascii) : bool := uuid_bytes l || timestamp_bytes l || (opaque_bytes l && existsb is_digit l).

(** What is before and after the last byte with [p] *)
Definition split_last (p : ascii -> bool) (l : list ascii) : option (list ascii * list ascii) :=
  let '(tail, front) := span (fun c => negb (p c)) (rev l) in
  match front with [] => None | _ :: front => Some (rev front, rev tail) end.
(** The text without a UUID and a separator at its end *)
Definition cut_uuid (l : list ascii) : option (list ascii) :=
  let n := (length l - 37)%nat in
  match drop n l with
  | c :: tail => if sep_byte c && uuid_bytes tail then Some (take n l) else None
  | [] => None
  end.
(** One round of the loop: [None] leaves it. *)
Definition clean_step (l : list ascii) : option (list ascii) :=
  match cut_uuid l with
  | Some (c :: l') => Some (c :: l')
  | _ =>
      match split_last sep_byte l with
      | Some (before, after) => if negb (length before =? 0)%nat && isGeneratedPart after then Some before else None
      | None => None
      end
  end.
Fixpoint clean_loop (fuel : nat) (l : list ascii) : list ascii :=
  match fuel with
  | O => l
  | S fuel => match clean_step l with Some l => clean_loop fuel l | None => l end
  end.

(** [strings.Trim(value, "-_")] *)
Definition trim_seps (l : list ascii) : list ascii := rev (drop_while sep_byte (rev (drop_while sep_byte l))).
Definition readable (value : string) : string :=
  let l := trim_seps (bytes (TrimSpace value)) in
  match l with [] => "" | _ => if isGeneratedPart l then "" else of_bytes l end.
Definition CleanGeneratedName (value : string) : string :=
  let l := bytes (TrimSpace value) in readable (of_bytes (clean_loop (length l) l)).

(** [[-_]\d+$] removed *)
Definition cut_number (l : list ascii) : list ascii :=
  let '(digits, front) := span is_digit (rev l) in
  match digits, front with
  | _ :: _, c :: front => if sep_byte c then rev front else l
  | _, _ => l
  end.
Definition cleanedContainerName (value project service : string) : string :=
  let value := TrimPrefix (TrimSpace value) "/" in
  let value := if project =?s "" then value else TrimPrefix (TrimPrefix value (project +:+ "-")) (project +:+ "_") in
  if negb (service =?s "") && ((value =?s service +:+ "-1") || (value =?s service +:+ "_1")) then service
  else CleanGeneratedName (of_bytes (cut_number (bytes value))).

(** [path.Base] *)
Definition Base (p : string) : string :=
  match bytes p with
  | [] => "."
  | l =>
      match drop_while (fun c => Ascii.eqb c "/"%char) (rev l) with
      | [] => "/"
      | r => of_bytes (rev (span (fun c => negb (Ascii.eqb c "/"%char)) r).1)
      end
  end.
Definition imageName (value : string) : string :=
  let value := TrimSpace (hd "" (Split value "@"%char)) in
  let base := Base value in
  readable (match split_last (fun c => Ascii.eqb c ":"%char) (bytes base) with
            | Some ((_ :: _) as before, _) => of_bytes before
            | _ => base
            end).

Fixpoint first (values : list string) : string :=
  match values with
  | [] => ""
  | v :: values => if TrimSpace v =?s "" then first values else TrimSpace v
  end.

(** ** Keys *)

Record Identity := mkIdentity {
  id_StableKey : string; id_Name : string; id_Context : string; id_Source : string; id_Project : string; id_Service : string;
}.
Record Metadata := mkMetadata {
  md_Labels : gmap string string; md_Environment : gmap string string; md_ContainerName : string; md_Image : string;
  md_FallbackCategory : string; md_Manual : string;
}.
Definition label (m : gmap string string) (k : string) : string := default "" (m !! k).

Definition categories : list string :=
  ["application"; "service"; "database"; "cache"; "worker"; "proxy"; "infrastructure"; "unmanaged"].
Definition ValidCategory (v : string) : bool := str_in (ToLower v) categories.

Definition safe_byte (c : ascii) : bool := is_lower c || is_upper c || is_digit c || sep_byte c.
(** [strings.Map]: one dash for every other rune; [k] bytes of one remain. *)
Fixpoint safe_bytes (k : nat) (l : list ascii) : list ascii :=
  match l with
  | [] => []
  | c :: l' =>
      match k with
      | S k => safe_bytes k l'
      | O => if safe_byte c then c :: safe_bytes 0 l' else "-"%char :: safe_bytes (pred (rune_width l)) l'
      end
  end.
Definition safe (v : string) : string := of_bytes (safe_bytes 0 (bytes v)).

Section identity.
Context `{SHA256}.
(** [url.Parse] and [Hostname] *)
Context (url_hostname : string -> option string).

Definition nul : string := of_bytes ["000"%char].
Definition Derived (labels : gmap string string) (fallback : string) : Identity :=
  let text := label labels "com.docker.compose.project" +:+ nul +:+ label labels "com.docker.compose.service" +:+ nul +:+
              label labels "org.opencontainers.image.source" +:+ nul +:+ fallback in
  mkIdentity ("derived:" +:+ of_bytes (take 20 (bytes (sha256_hex text)))) fallback "" "derived" "" "".
Definition Compose (labels : gmap string string) (fallback : string) : Identity :=
  let p := TrimSpace (label labels "com.docker.compose.project") in
  let s := TrimSpace (label labels "com.docker.compose.service") in
  if negb (p =?s "") && negb (s =?s "") then mkIdentity ("compose:" +:+ safe p +:+ ":" +:+ safe s) s "" "compose" p s
  else Derived labels fallback.

Definition CoolifyHostname (value : string) : string :=
  let value := TrimSpace (hd "" (Split value ","%char)) in
  if value =?s "" then ""
  else
    let value := if Contains value "://" then value else "https://" +:+ value in
    match url_hostname value with None => "" | Some host => TrimPrefix (ToLower host) "*." end.

Definition withDisplay (i : Identity) (m : Metadata) : Identity :=
  let labels := md_Labels m in
  let get := label labels in
  let project := TrimSpace (get "com.docker.compose.project") in
  let service := TrimSpace (get "com.docker.compose.service") in
  let host := CoolifyHostname (first [label (md_Environment m) "COOLIFY_FQDN"; label (md_Environment m) "COOLIFY_URL";
                                      get "coolify.fqdn"; get "coolify.url"]) in
  let container := cleanedContainerName (md_ContainerName m) project service in
  let name := first [get "binnacle.name"; CleanGeneratedName service; readable container; CleanGeneratedName (get "coolify.name"); host;
                     get "org.opencontainers.image.title"; imageName (md_Image m); md_ContainerName m] in
  let projectContext :=
    let value := CleanGeneratedName project in
    if value =?s "" then ""
    else let env := CleanGeneratedName (get "coolify.environment") in if env =?s "" then value else value +:+ "/" +:+ env in
  mkIdentity (id_StableKey i) name (first [get "binnacle.context"; host; projectContext; md_Image m; md_FallbackCategory m])
    (id_Source i) (if id_Project i =?s "" then project else id_Project i) (if id_Service i =?s "" then service else id_Service i).

Definition coolify_id (m : Metadata) : string :=
  first [label (md_Labels m) "coolify.resource.uuid"; label (md_Labels m) "coolify.uuid"; label (md_Environment m) "COOLIFY_RESOURCE_UUID"].
Definition ResolveMetadata (m : Metadata) : Identity :=
  if negb (md_Manual m =?s "") then withDisplay (mkIdentity ("manual:" +:+ safe (md_Manual m)) "" "" "manual" "" "") m
  else if negb (coolify_id m =?s "") then withDisplay (mkIdentity ("coolify:" +:+ safe (coolify_id m)) "" "" "coolify" "" "") m
  else withDisplay (Compose (md_Labels m) (md_ContainerName m)) m.
End identity.

(** ** [coolify.Resolve] *)

Record CoolifyMetadata := mkCoolifyMetadata {
  cm_UUID : string; cm_Project : string; cm_Environment : string; cm_Name : string; cm_Infrastructure : bool;
}.
Definition Coolify_Resolve (labels : gmap string string) : option CoolifyMetadata :=
  let get := label labels in
  let uuid := TrimSpace (get "coolify.resource.uuid") in
  let uuid := if uuid =?s "" then TrimSpace (get "coolify.uuid") else uuid in
  if uuid =?s "" then None
  else Some (mkCoolifyMetadata uuid (get "coolify.project") (get "coolify.environment") (get "coolify.name")
               (get "coolify.type" =?s "infrastructure")).

(** ** Status and aggregates *)

(** [rank[s]]; zero for what the map does not have *)
Definition status_rank (s : string) : Z :=
  if s =?s StatusPaused then 1 else if s =?s StatusUnknown then 2 else if s =?s StatusDegraded then 3 else if s =?s StatusDown then 4 else 0.
Definition RollupStatus (states : list string) : string :=
  fold_left (fun best s => if status_rank best <? status_rank s then s else best) states StatusHealthy.

Record Component := mkAggregated {
  ag_CPU : option F64; ag_Memory : option F64; ag_RX : option F64; ag_TX : option F64; ag_Read : option F64; ag_Write : option F64;
  ag_PIDs : option Z;
}.
Definition add_values (a b : option F64) : option F64 :=
  match a, b with Some a, Some b => Some (f64_add a b) | _, _ => None end.
Definition AggregateComponents (l : list Component) : Component * Z :=
  fold_left (fun '(o, n) c =>
    (mkAggregated (add_values (ag_CPU o) (ag_CPU c)) (add_values (ag_Memory o) (ag_Memory c)) (add_values (ag_RX o) (ag_RX c))
       (add_values (ag_TX o) (ag_TX c)) (add_values (ag_Read o) (ag_Read c)) (add_values (ag_Write o) (ag_Write c))
       (match ag_PIDs c with None => ag_PIDs o | Some p => Some (wrapu64 (default 0 (ag_PIDs o) + p)) end), n + 1))
    l (mkAggregated None None None None None None None, 0).

(** The sums start from nothing, and nothing plus a value is nothing. *)
Lemma aggregates_always_missing l :
  let a := (AggregateComponents l).1 in
  [ag_CPU a; ag_Memory a; ag_RX a; ag_TX a; ag_Read a; ag_Write a] = [None; None; None; None; None; None].
Proof.
  unfold AggregateComponents. cbv zeta.
  assert (forall l o n, [ag_CPU o; ag_Memory o; ag_RX o; ag_TX o; ag_Read o; ag_Write o] = [None; None; None; None; None; None] ->
    forall a, a = (fold_left (fun '(o, n) c =>
      (mkAggregated (add_values (ag_CPU o) (ag_CPU c)) (add_values (ag_Memory o) (ag_Memory c)) (add_values (ag_RX o) (ag_RX c))
         (add_values (ag_TX o) (ag_TX c)) (add_values (ag_Read o) (ag_Read c)) (add_values (ag_Write o) (ag_Write c))
         (match ag_PIDs c with None => ag_PIDs o | Some p => Some (wrapu64 (default 0 (ag_PIDs o) + p)) end), n + 1)) l (o, n)).1 ->
    [ag_CPU a; ag_Memory a; ag_RX a; ag_TX a; ag_Read a; ag_Write a] = [None; None; None; None; None; None]) as Hl.
  { clear l. induction l as [|c l IH]; intros o n Ho a ->; [exact Ho|]. cbn [fold_left]. eapply IH; [|reflexivity].
    injection Ho as E1 E2 E3 E4 E5 E6. cbn. by rewrite E1, E2, E3, E4, E5, E6. }
  by eapply Hl; [|reflexivity].
Qed.

(** ** Cleaning terminates *)

Lemma span_parts {A} (p : A -> bool) l : (span p l).1 ++ (span p l).2 = l.
Proof. induction l as [|x l IH]; [done|]. cbn. destruct (p x); [|done]. destruct (span p l) as [a b]. cbn in *. by rewrite IH. Qed.
Lemma split_last_spec p l before after :
  split_last p l = Some (before, after) -> exists c, l = before ++ c :: after.
Proof.
  unfold split_last. pose proof (span_parts (fun c => negb (p c)) (rev l)) as Hs. destruct (span _ _) as [tail [|c front]]; [done|].
  intros [= <- <-]. exists c. cbn in Hs. apply (f_equal (@rev ascii)) in Hs. rewrite rev_involutive, rev_app_distr in Hs. cbn in Hs.
  rewrite <- Hs, <- app_assoc. done.
Qed.
Lemma clean_step_shorter l l' : clean_step l = Some l' -> (length l' < length l)%nat /\ l' <> [] /\ exists tail, l = l' ++ tail.
Proof.
  unfold clean_step. assert (forall c x, cut_uuid l = Some (c :: x) -> (length (c :: x) < length l)%nat /\ exists tail, l = (c :: x) ++ tail) as Hu.
  { unfold cut_uuid. intros c x. destruct (drop _ l) as [|a tail] eqn:Ed; [done|]. destruct (_ && _); [|done]. intros [= <-].
    assert (length (drop (length l - 37) l) = S (length tail)) as Hn by (by rewrite Ed). rewrite length_drop in Hn.
    split; [rewrite length_take; lia|]. eexists. symmetry. apply take_drop. }
  destruct (cut_uuid l) as [[|c x]|] eqn:Ec; [|intros [= <-]; destruct (Hu c x eq_refl) as [? ?]; by split_and!|];
    (destruct (split_last sep_byte l) as [[before after]|] eqn:Es; [|done]; destruct (_ && _) eqn:Eb; [|done]; intros [= <-];
     apply split_last_spec in Es as [c ->]; bool_hyps; split_and!;
     [rewrite length_app; cbn; lia|by intros ->|by eexists]).
Qed.
Lemma clean_loop_enough n l : (length l <= n)%nat -> clean_loop n l = clean_loop (length l) l.
Proof.
  revert l. induction n as [n IH] using lt_wf_ind. intros l Hn. destruct n as [|n]; [by replace (length l) with O by lia|].
  destruct (length l) as [|k] eqn:El; [by destruct l|]. cbn [clean_loop]. destruct (clean_step l) as [l'|] eqn:Es; [|done].
  destruct (clean_step_shorter l l' Es) as (Hlt & _). rewrite (IH n) by lia. symmetry. apply IH; lia.
Qed.

(** Cleaning a generated name terminates.  The loop of
    [CleanGeneratedName] stops within as many rounds as the name has bytes; it
    stops at a non-empty beginning of the name from which no generated part
    can be cut any more. *)
Theorem cleaning_terminates (l : list ascii) (n : nat) :
  (length l <= n)%nat ->
  clean_loop n l = clean_loop (length l) l /\ clean_step (clean_loop n l) = None /\
  (exists tail, l = clean_loop n l ++ tail) /\ (l <> [] -> clean_loop n l <> []).
Proof.
  intros Hn. split; [by apply clean_loop_enough|]. revert l Hn. induction n as [|n IH]; intros l Hn.
  - destruct l; [|cbn in Hn; lia]. split_and!; [done|by exists []|done].
  - cbn [clean_loop]. destruct (clean_step l) as [l'|] eqn:Es; [|split_and!; [done|exists []; by rewrite app_nil_r|done]].
    destruct (clean_step_shorter l l' Es) as (Hlt & Hne & tail & ->).
    destruct (IH l') as (Hs & (t & Ht) & Hn'); [lia|]. split_and!; [done| |intros _; by apply Hn'].
    exists (t ++ tail). rewrite Ht at 1. by rewrite <- app_assoc.
Qed.

(** ** Keys are stable *)

Section stability.
Context `{SHA256} (url_hostname : string -> option string).
Local Notation ResolveMetadata := (ResolveMetadata url_hostname).

(** The container is assigned by hand, by Coolify, or as a Compose service. *)
Definition managed (m : Metadata) : Prop :=
  md_Manual m <> "" \/ coolify_id m <> "" \/
  (TrimSpace (label (md_Labels m) "com.docker.compose.project") <> "" /\ TrimSpace (label (md_Labels m) "com.docker.compose.service") <> "").
(** Two containers have the same assignment. *)
Definition same_assignment (m m' : Metadata) : Prop :=
  md_Manual m = md_Manual m' /\ coolify_id m = coolify_id m' /\
  TrimSpace (label (md_Labels m) "com.docker.compose.project") = TrimSpace (label (md_Labels m') "com.docker.compose.project") /\
  TrimSpace (label (md_Labels m) "com.docker.compose.service") = TrimSpace (label (md_Labels m') "com.docker.compose.service").

(** C39 (functional): a resource keeps its key when it is redeployed.  Containers
    with the same manual name, Coolify identifier and Compose project and
    service have the same stable key and source, whatever their names, images,
    other labels and environment; only a container with no such assignment is
    told apart by its name and its image's source. *)
Theorem resource_key_stable (m m' : Metadata) :
  same_assignment m m' ->
  managed m \/ (label (md_Labels m) "com.docker.compose.project" = label (md_Labels m') "com.docker.compose.project" /\
    label (md_Labels m) "com.docker.compose.service" = label (md_Labels m') "com.docker.compose.service" /\
    label (md_Labels m) "org.opencontainers.image.source" = label (md_Labels m') "org.opencontainers.image.source" /\
    md_ContainerName m = md_ContainerName m') ->
  id_StableKey (ResolveMetadata m) = id_StableKey (ResolveMetadata m') /\ id_Source (ResolveMetadata m) = id_Source (ResolveMetadata m').
Proof.
  intros (Hm & Hc & Hp & Hs) Hor. unfold Resources.ResolveMetadata. rewrite <- Hm, <- Hc.
  destruct (md_Manual m =?s "") eqn:Em; [|done]. destruct (coolify_id m =?s "") eqn:Ec; [|done].
  apply String.eqb_eq in Em, Ec. unfold withDisplay. cbn [negb id_StableKey id_Source]. unfold Compose. rewrite <- Hp, <- Hs.
  destruct (negb _ && negb _) eqn:E; [done|]. destruct Hor as [[?|[?|[H1 H2]]]|(E1 & E2 & E3 & E4)]; [done|done| |].
  - apply String.eqb_neq in H1, H2. by rewrite H1, H2 in E.
  - unfold Derived. by rewrite E1, E2, E3, E4.
Qed.
End stability.

(** The status of a resource is its worst component's.  It is
    the status of a component, or healthy when there is none; no component
    ranks above it; and it does not depend on the order of the components. *)
Theorem rollup_worst (states : list string) :
  (RollupStatus states = StatusHealthy \/ RollupStatus states ∈ states) /\
  (forall s, s ∈ states -> status_rank s <= status_rank (RollupStatus states)) /\
  (forall states', states ≡ₚ states' -> status_rank (RollupStatus states') = status_rank (RollupStatus states)).
Proof.
  assert (forall l b, let r := fold_left (fun best s => if status_rank best <? status_rank s then s else best) l b in
    (r = b \/ r ∈ l) /\ status_rank b <= status_rank r /\ (forall s, s ∈ l -> status_rank s <= status_rank r)) as Hl.
  { induction l as [|s l IH]; intros b; cbn [fold_left]; [split_and!; [by left|lia|set_solver]|].
    destruct (IH (if status_rank b <? status_rank s then s else b)) as (Hin & Hb & Hs). cbv zeta in *.
    destruct (Z.ltb_spec (status_rank b) (status_rank s)); (split_and!; [set_solver|lia|]);
      intros x [-> | Hx]%elem_of_cons; try lia; by apply Hs. }
  assert (forall l, 0 <= status_rank (RollupStatus l)) as H0 by (intros l; destruct (Hl l StatusHealthy) as (_ & Hb & _); exact Hb).
  destruct (Hl states StatusHealthy) as (Hin & _ & Hs). split_and!; [exact Hin|exact Hs|]. intros states' Hp.
  destruct (Hl states' StatusHealthy) as (Hin' & _ & Hs'). fold (RollupStatus states) in Hin, Hs. fold (RollupStatus states') in Hin', Hs'.
  apply Z.le_antisymm.
  - destruct Hin' as [-> | Hin']; [apply (H0 states)|]. apply Hs. by rewrite Hp.
  - destruct Hin as [-> | Hin]; [apply (H0 states')|]. apply Hs'. by rewrite <- Hp.
Qed.

(** Without an image the name of the image is a dot, which is preferred to the
    name of the container. *)
Lemma dot_for_no_image : imageName "" = ".".
Proof. vm_compute. reflexivity. Qed.
(** Names that differ in other characters than letters, digits, dashes and
    underscores share a key. *)
Lemma keys_collide : safe "web.1" = safe "web-1".
Proof. vm_compute. reflexivity. Qed.

(** ** Examples and witnesses *)

Example cleaned_names :
  (CleanGeneratedName "api-01jz7c2z5m8w9x3v6n4p2q1r0s", CleanGeneratedName "api-550e8400-e29b-41d4-a716-446655440000",
   CleanGeneratedName "api-somethingverylonghumanreadable", imageName "docker.io/library/postgres:16") =
  ("api", "api", "api-somethingverylonghumanreadable", "postgres").
Proof. vm_compute. reflexivity. Qed.

Definition deployed (name : string) : Metadata :=
  mkMetadata {["coolify.resource.uuid" := "resource-uuid"; "binnacle.name" := name]} ∅ (name +:+ "-1") "registry.example/app" "" "".
Lemma resource_key_stable_witness :
  id_StableKey (ResolveMetadata (fun _ => None) (deployed "First")) = id_StableKey (ResolveMetadata (fun _ => None) (deployed "Renamed")).
Proof.
  apply (resource_key_stable (fun _ => None)); [split_and!; vm_compute; reflexivity|]. left. right. left. vm_compute. discriminate.
Defined.
Lemma cleaning_terminates_witness :
  clean_step (clean_loop 99 (bytes "api-1700000000-550e8400-e29b-41d4-a716-446655440000")) = None /\
  clean_loop 99 (bytes "api-1700000000-550e8400-e29b-41d4-a716-446655440000") = bytes "api".
Proof. split; [|vm_compute; reflexivity]. apply (cleaning_terminates (bytes "api-1700000000-550e8400-e29b-41d4-a716-446655440000") 99). vm_compute. lia. Defined.
