(* ===== verification/DockerApi.v ===== *)
(** * The Docker client

    [internal/dockerapi]: what of the daemon's answers is kept ([client.go]),
    the log streams, the semaphore in front of the daemon and the minimum
    version of the engine ([version.go]).  The SDK's answers are arguments,
    with the fields that are read; errors are their texts. *)

From stdpp Require Import base tactics list gmap strings.
From Stdlib Require Import ZArith Lia Ascii.
From S2P Require Import Prelude GoString GoParse Encoding.

Local Open Scope Z_scope.

(** ** Types *)

Record Container := mkContainer { ct_ID : string; ct_Name : string; ct_Image : string }.
Record Mount := mkDockerMount { dm_Source : string; dm_Destination : string; dm_Type : string }.
Record Inspect := mkInspect {
  in_ID : string; in_Name : string; in_Image : string; in_Created : string; in_State : string; in_Health : string; in_TTY : bool;
  in_Labels : gmap string string; in_Environment : gmap string string; in_Networks : list string; in_Mounts : list Mount;
}.
Record DockerEvent := mkDockerEvent { de_ID : string; de_Action : string; de_Time : string }.
Record IOCounters := mkIO { io_RX : Z; io_TX : Z; io_Read : Z; io_Write : Z }.
(** [CPUStats] and [MemoryStats] are flattened. *)
Record Stats := mkStats {
  st_TotalUsage : Z; st_SystemUsage : Z; st_OnlineCPUs : Z; st_Usage : Z; st_Limit : Z; st_InactiveFile : Z;
  st_IO : IOCounters; st_PIDs : option Z;
}.

(** *** The SDK's answers *)

Record sdkSummary := mkSummary { su_ID : string; su_Names : list string; su_Image : string }.
Record sdkConfig := mkSdkConfig { sc_Image : string; sc_Labels : gmap string string; sc_Tty : bool; sc_Env : list string }.
Record sdkInspect := mkSdkInspect {
  si_ID : string; si_Name : string; si_Created : string; si_Config : option sdkConfig;
  si_State : option (string * option string); si_Networks : option (gmap string unit); si_Mounts : list Mount;
}.
Record sdkStats := mkSdkStats {
  ss_TotalUsage : Z; ss_SystemUsage : Z; ss_OnlineCPUs : Z; ss_Usage : Z; ss_Limit : Z; ss_Stats : gmap string Z;
  ss_Networks : gmap string (Z * Z); ss_Blkio : list (string * Z); ss_Pids : Z;
}.

(** ** [Engine] *)

Definition Engine_List (answer : string + list sdkSummary) : string + list Container :=
  match answer with
  | inl e => inl e
  | inr items =>
      inr (map (fun v => mkContainer (su_ID v) (match su_Names v with [] => "" | n :: _ => TrimPrefix n "/" end) (su_Image v)) items)
  end.

Definition allowedEnvironmentKeys : list string := ["COOLIFY_FQDN"; "COOLIFY_URL"; "COOLIFY_RESOURCE_UUID"].
Definition allowedEnvironment (values : list string) : gmap string string :=
  fold_left (fun result value =>
    match split_pair value "="%char with
    | Some (key, raw) => if str_in key allowedEnvironmentKeys then <[key := raw]> result else result
    | None => result
    end) values ∅.

Definition Engine_Inspect `{MapOrder} (answer : string + sdkInspect) : string + Inspect :=
  match answer with
  | inl e => inl e
  | inr v =>
      let '(image, labels, tty, env) :=
        match si_Config v with
        | Some c => (sc_Image c, sc_Labels c, sc_Tty c, allowedEnvironment (sc_Env c))
        | None => ("", ∅, false, ∅)
        end in
      let '(state, health) := match si_State v with Some (status, health) => (status, default "" health) | None => ("", "") end in
      inr (mkInspect (si_ID v) (TrimPrefix (si_Name v) "/") image (si_Created v) state health tty labels env
             (match si_Networks v with Some m => map fst (range_map m) | None => [] end) (si_Mounts v))
  end.

Definition add_blkio (io : IOCounters) (entry : string * Z) : IOCounters :=
  let op := ToLower entry.1 in
  if op =?s "read" then mkIO (io_RX io) (io_TX io) (wrapu64 (io_Read io + entry.2)) (io_Write io)
  else if op =?s "write" then mkIO (io_RX io) (io_TX io) (io_Read io) (wrapu64 (io_Write io + entry.2)) else io.
(** [answer]: the decoded body, or the error of the request or of the decoder *)
Definition Engine_Stats `{MapOrder} (answer : string + sdkStats) : string + Stats :=
  match answer with
  | inl e => inl e
  | inr v =>
      let io := fold_left (fun io n => mkIO (wrapu64 (io_RX io + n.2.1)) (wrapu64 (io_TX io + n.2.2)) (io_Read io) (io_Write io))
                  (range_map (ss_Networks v)) (mkIO 0 0 0 0) in
      inr (mkStats (ss_TotalUsage v) (ss_SystemUsage v) (ss_OnlineCPUs v) (ss_Usage v) (ss_Limit v)
             (default 0 (ss_Stats v !! "inactive_file")) (fold_left add_blkio (ss_Blkio v) io)
             (if 0 <? ss_Pids v then Some (ss_Pids v) else None))
  end.

(** ** Log streams

    [data] is what the reader yields before it ends, with [ending] for an
    error other than the end of the stream.  [S] is the state of [emit] and of
    the context. *)

Definition drop_cr (l : list ascii) : list ascii := match rev l with c :: r => if Ascii.eqb c "013"%char then rev r else l | [] => l end.
(** The lines of [bufio.Scanner]: nothing after the last newline is no line. *)
Definition scan_tokens (data : list ascii) : list (list ascii) :=
  match rev (split_bytes newline [] data) with
  | [] :: r => rev r
  | r => rev r
  end.

Section logs.
Context {St : Type} (ctx_err : St -> option string) (emit : string -> string -> St -> option string * St).

(** [ctx.Err()] and [emit], for each line *)
Fixpoint emit_lines (stream : string) (lines : list string) (s : St) : option string * St :=
  match lines with
  | [] => (None, s)
  | line :: lines =>
      match ctx_err s with
      | Some e => (Some e, s)
      | None => match emit stream line s with (Some e, s) => (Some e, s) | (None, s) => emit_lines stream lines s end
      end
  end.

Definition maxLine : Z := 2 ^ 20.
(** Lines that do not fit the scanner's buffer end the scan. *)
Fixpoint scan_from (stream : string) (tokens : list (list ascii)) (ending : option string) (s : St) : option string * St :=
  match tokens with
  | [] => (ending, s)
  | t :: tokens =>
      if maxLine <=? Z.of_nat (length t) then (Some "bufio.Scanner: token too long", s)
      else match emit_lines stream [of_bytes (drop_cr t)] s with
      | (Some e, s) => (Some e, s)
      | (None, s) => scan_from stream tokens ending s
      end
  end.
Definition scanLogLines (stream : string) (data : list ascii) (ending : option string) : St -> option string * St :=
  scan_from stream (scan_tokens data) ending.

(** [io.ReadFull]: [inl None] at the very end *)
Definition ReadFull (n : nat) (data : list ascii) (ending : option string) : option string + (list ascii * list ascii) :=
  if (n <=? length data)%nat then inr (take n data, drop n data)
  else match ending, data with
  | Some e, _ => inl (Some e)
  | None, [] => inl None
  | None, _ => inl (Some "unexpected EOF")
  end.
Definition Uint32 (l : list ascii) : Z := fold_left (fun n c => n * 256 + byte_code c) l 0.
Definition frame_lines (payload : list ascii) : list string :=
  let payload := match rev payload with c :: r => if Ascii.eqb c newline then rev r else payload | [] => payload end in
  map of_bytes (split_bytes newline [] payload).

(** The fuel is the length: a frame has a header of eight bytes. *)
Fixpoint scan_frames (fuel : nat) (data : list ascii) (ending : option string) (s : St) : option string * St :=
  match fuel with
  | O => (None, s)
  | S fuel =>
      match ReadFull 8 data ending with
      | inl None => (None, s)
      | inl (Some e) => ((if e =?s "unexpected EOF" then None else Some e), s)
      | inr (header, data) =>
          let length := Uint32 (drop 4 header) in
          if 2 ^ 20 <? length then (Some "docker log frame exceeds limit", s)
          else match ReadFull (Z.to_nat length) data ending with
          | inl e => (Some (default "EOF" e), s)
          | inr (payload, data) =>
              let kind := byte_code (nth 0 header "000"%char) in
              if negb (kind =? 1) && negb (kind =? 2) then (Some ("invalid docker log stream " +:+ Itoa kind), s)
              else match emit_lines (if kind =? 2 then "stderr" else "stdout") (frame_lines payload) s with
              | (Some e, s) => (Some e, s)
              | (None, s) => scan_frames fuel data ending s
              end
          end
      end
  end.
Definition scanMultiplexedLogs (data : list ascii) (ending : option string) (s : St) : option string * St :=
  scan_frames (S (length data)) data ending s.

(** *** [ReadLogs] *)

Record LogOptions := mkLogOptions { lo_Since : Z; lo_Until : Z; lo_Tail : Z; lo_Follow : bool }.
(** What is asked of [ContainerLogs] *)
Record sdkLogRequest := mkLogRequest { lr_ID : string; lr_Since : string; lr_Until : string; lr_Tail : string; lr_Follow : bool }.
Context (rfc3339nano : Z -> string) (sdk_inspect : string -> string + sdkInspect)
  (sdk_logs : sdkLogRequest -> string + (list ascii * option string)).
Definition formatDockerTime (t : Z) : string := if is_zero_time t then "" else rfc3339nano t.
Definition Engine_ReadLogs (id : string) (o : LogOptions) (s : St) : option string * St :=
  match sdk_inspect id with
  | inl e => (Some e, s)
  | inr v =>
      let tail := if 0 <? lo_Tail o then Itoa (lo_Tail o) else "all" in
      match sdk_logs (mkLogRequest id (formatDockerTime (lo_Since o)) (formatDockerTime (lo_Until o)) tail (lo_Follow o)) with
      | inl e => (Some e, s)
      | inr (data, ending) =>
          if match si_Config v with Some c => sc_Tty c | None => false end then scanLogLines "stdout" data ending s
          else scanMultiplexedLogs data ending s
      end
  end.
End logs.

(** *** What the daemon writes *)

Definition be32 (n : Z) : list ascii := map byte_of [n / 16777216 mod 256; n / 65536 mod 256; n / 256 mod 256; n mod 256].
(** A frame: whether it is of the error stream, and its lines *)
Record frame := mkFrame { fr_stderr : bool; fr_lines : list string }.
Definition frame_payload (f : frame) : list ascii := flat_map (fun line => bytes line ++ [newline]) (fr_lines f).
Definition frame_header (f : frame) : list ascii :=
  map byte_of [if fr_stderr f then 2 else 1; 0; 0; 0] ++ be32 (Z.of_nat (length (frame_payload f))).
Definition frame_bytes (f : frame) : list ascii := frame_header f ++ frame_payload f.
Definition frame_ok (f : frame) : bool :=
  negb (length (fr_lines f) =? 0)%nat && forallb (fun line => free_of newline (bytes line)) (fr_lines f) &&
  (Z.of_nat (length (frame_payload f)) <=? 2 ^ 20).
Definition frame_stream (f : frame) : string := if fr_stderr f then "stderr" else "stdout".

Lemma byte_code_of n : 0 <= n < 256 -> byte_code (byte_of n) = n.
Proof. intros Hn. unfold byte_code, byte_of. rewrite nat_ascii_embedding by lia. lia. Qed.
Lemma Uint32_be32 n : 0 <= n < 2 ^ 32 -> Uint32 (be32 n) = n.
Proof.
  intros Hn. unfold Uint32, be32. cbn [map fold_left]. rewrite !byte_code_of by (apply Z.mod_pos_bound; lia).
  pose proof (Z.div_mod n 256). pose proof (Z.div_mod (n / 256) 256). pose proof (Z.div_mod (n / 65536) 256).
  replace (n / 65536) with (n / 256 / 256) in * by (rewrite Z.div_div; [done|lia|lia]).
  replace (n / 16777216) with (n / 256 / 256 / 256) in * by (rewrite !Z.div_div by lia; done).
  assert (n / 256 / 256 / 256 < 256) as Hs by (rewrite !Z.div_div by lia; apply Z.div_lt_upper_bound; lia).
  rewrite (Z.mod_small (n / 256 / 256 / 256)) by (split; [repeat apply Z.div_pos; lia|done]). lia.
Qed.
Lemma ReadFull_app n a b ending : length a = n -> ReadFull n (a ++ b) ending = inr (a, b).
Proof. intros <-. unfold ReadFull. rewrite length_app, (proj2 (Nat.leb_le _ _)) by lia. by rewrite take_app_length, drop_app_length. Qed.
Lemma frame_header_length f : length (frame_header f) = 8%nat.
Proof. done. Qed.
Lemma frame_size f : frame_ok f = true -> 0 < Z.of_nat (length (frame_payload f)) <= 2 ^ 20.
Proof.
  unfold frame_ok, frame_payload. intros [[Hne _]%andb_true_iff Hlen%Z.leb_le]%andb_true_iff. destruct (fr_lines f); [done|].
  cbn [flat_map] in *. rewrite !length_app in *. cbn in *. lia.
Qed.
Lemma frame_length f : frame_ok f = true -> Uint32 (drop 4 (frame_header f)) = Z.of_nat (length (frame_payload f)).
Proof. intros Hf%frame_size. apply Uint32_be32. lia. Qed.
Lemma frame_lines_payload f : frame_ok f = true -> frame_lines (frame_payload f) = fr_lines f.
Proof.
  unfold frame_ok. intros [[Hne Hfree]%andb_true_iff _]%andb_true_iff. unfold frame_lines.
  destruct (exists_last (l := fr_lines f)) as (front & last & E); [by intros E; rewrite E in Hne|].
  unfold frame_payload. rewrite E in Hfree |- *. rewrite flat_map_app. cbn [flat_map]. rewrite app_nil_r, app_assoc, rev_app_distr.
  cbn [rev app]. rewrite Ascii.eqb_refl, rev_involutive. rewrite forallb_app in Hfree. apply andb_true_iff in Hfree as [Hf Hl].
  cbn in Hl. rewrite andb_true_r in Hl. clear E Hne. induction front as [|line front IH].
  - cbn. rewrite split_bytes_end by done. cbn. by rewrite of_bytes_bytes.
  - cbn in Hf. apply andb_true_iff in Hf as [H1 Hf]. cbn [flat_map app]. rewrite <- !app_assoc. cbn [app].
    rewrite split_bytes_cons by done. cbn [map rev app]. rewrite of_bytes_bytes. f_equal. by apply IH.
Qed.

Section streams.
Context {St : Type} (ctx_err : St -> option string) (emit : string -> string -> St -> option string * St).
(** The lines of the frames go to [emit] in order, until it or the context fails. *)
Fixpoint emit_frames (fs : list frame) (s : St) : option string * St :=
  match fs with
  | [] => (None, s)
  | f :: fs => match emit_lines ctx_err emit (frame_stream f) (fr_lines f) s with (Some e, s) => (Some e, s) | (None, s) => emit_frames fs s end
  end.
Lemma scan_frames_step fuel f data ending s :
  frame_ok f = true ->
  scan_frames ctx_err emit (S fuel) (frame_bytes f ++ data) ending s =
    match emit_lines ctx_err emit (frame_stream f) (fr_lines f) s with (Some e, s) => (Some e, s) | (None, s) => scan_frames ctx_err emit fuel data ending s end.
Proof.
  intros Hf. pose proof (frame_size f Hf) as Hlen. cbn [scan_frames]. unfold frame_bytes. rewrite <- app_assoc, ReadFull_app by done. cbv zeta.
  rewrite frame_length by done. rewrite (proj2 (Z.ltb_ge _ _)) by lia. rewrite ReadFull_app by lia.
  rewrite frame_lines_payload by done. unfold frame_header, frame_stream. destruct (fr_stderr f); reflexivity.
Qed.
(** A stream cut inside a frame *)
Lemma scan_frames_cut fuel f n s :
  frame_ok f = true -> (n < length (frame_bytes f))%nat ->
  scan_frames ctx_err emit (S fuel) (take n (frame_bytes f)) None s =
    (if (n <? 8)%nat then None else Some (if (n =? 8)%nat then "EOF" else "unexpected EOF"), s).
Proof.
  intros Hf Hn. pose proof (frame_size f Hf) as Hlen. unfold frame_bytes in *. rewrite length_app, frame_header_length in Hn.
  destruct (Nat.ltb_spec n 8).
  - cbn [scan_frames]. unfold ReadFull. rewrite length_take, length_app, frame_header_length. rewrite (proj2 (Nat.leb_gt _ _)) by lia. by destruct (take n _).
  - rewrite take_app_ge by (rewrite frame_header_length; lia). rewrite frame_header_length. cbn [scan_frames]. rewrite ReadFull_app by done. cbv zeta.
    rewrite frame_length by done. rewrite (proj2 (Z.ltb_ge _ _)) by lia.
    unfold ReadFull. rewrite length_take, (proj2 (Nat.leb_gt _ _)) by lia.
    destruct (Nat.eqb_spec n 8) as [->|Hn8]; [done|]. destruct (take (n - 8) (frame_payload f)) eqn:E; [|done].
    apply (f_equal length) in E. rewrite length_take in E. cbn in E. lia.
Qed.
End streams.

(** C33 (roundtrip): container logs are read as the daemon framed them.  From a
    stream of frames of at most a mebibyte, [scanMultiplexedLogs] hands every
    line to its caller once, in order and under its stream, and stops at the
    first error of the caller or the context; a stream cut inside a frame's
    header ends there, and one cut inside its lines is an error after the
    frames before it. *)
Theorem logs_roundtrip {St} (ctx_err : St -> option string) (emit : string -> string -> St -> option string * St)
    (fs : list frame) (f : frame) (n : nat) (s : St) :
  Forall (fun f => frame_ok f = true) (f :: fs) -> (n < length (frame_bytes f))%nat ->
  scanMultiplexedLogs ctx_err emit (flat_map frame_bytes fs ++ take n (frame_bytes f)) None s =
    match emit_frames ctx_err emit fs s with
    | (Some e, s) => (Some e, s)
    | (None, s) => (if (n <? 8)%nat then None else Some (if (n =? 8)%nat then "EOF" else "unexpected EOF"), s)
    end.
Proof.
  intros [Hf Hfs]%Forall_cons Hn. unfold scanMultiplexedLogs.
  assert (length (flat_map frame_bytes fs) < S (length (flat_map frame_bytes fs ++ take n (frame_bytes f))))%nat as Hfuel by (rewrite length_app; lia).
  revert Hfuel. generalize (S (length (flat_map frame_bytes fs ++ take n (frame_bytes f)))). intros fuel. revert fuel s.
  induction Hfs as [|g fs Hg _ IH]; intros fuel s Hfuel.
  - destruct fuel as [|fuel]; [cbn in Hfuel; lia|]. by apply scan_frames_cut.
  - destruct fuel as [|fuel]; [cbn in Hfuel; lia|]. cbn [flat_map emit_frames] in *. rewrite <- app_assoc, scan_frames_step by done.
    destruct (emit_lines _ _ _ _ s) as [[e|] s']; [done|]. apply IH. unfold frame_bytes in Hfuel at 1. rewrite !length_app, frame_header_length in Hfuel. lia.
Qed.

Lemma logs_roundtrip_witness :
  scanMultiplexedLogs (fun _ => None) (fun stream line s => (None, s ++ [(stream, line)]))
    (flat_map frame_bytes [mkFrame false ["one"; ""]; mkFrame true ["two"]] ++ take 9 (frame_bytes (mkFrame false ["three"]))) None [] =
  (Some "unexpected EOF", [("stdout", "one"); ("stdout", ""); ("stderr", "two")]).
Proof.
  apply (logs_roundtrip (fun _ => None) (fun stream line s => (None, s ++ [(stream, line)]))
    [mkFrame false ["one"; ""]; mkFrame true ["two"]] (mkFrame false ["three"]) 9 []); [repeat constructor|vm_compute; lia].
Defined.

(** ** The environment *)

Lemma allowed_only values key : is_Some (allowedEnvironment values !! key) -> str_in key allowedEnvironmentKeys = true.
Proof.
  unfold allowedEnvironment. assert (forall m : gmap string string, (forall k, is_Some (m !! k) -> str_in k allowedEnvironmentKeys = true) ->
    forall k, is_Some (fold_left (fun result value => match split_pair value "="%char with
      | Some (key, raw) => if str_in key allowedEnvironmentKeys then <[key := raw]> result else result | None => result end) values m !! k) ->
    str_in k allowedEnvironmentKeys = true) as Hf; [|apply Hf; intros k [x Hx]; by rewrite lookup_empty in Hx].
  induction values as [|v values IH]; intros m Hm; [exact Hm|]. apply IH. destruct (split_pair v _) as [[k raw]|]; [|exact Hm].
  destruct (str_in k allowedEnvironmentKeys) eqn:Ek; [|exact Hm]. intros k'. destruct (decide (k = k')) as [<-|Hne]; [done|].
  rewrite lookup_insert_ne by done. apply Hm.
Qed.

(** ** [Limited] *)

(** [make(chan struct{}, max)]; a caller waits in [with], holds a place while
    its request runs, and has left with or without having run it. *)
Inductive phase := Waiting | Running | Left (ran : bool).
#[export] Instance phase_eq_dec : EqDecision phase.
Proof. solve_decision. Defined.
Record Limited := mkLimited { li_max : nat; li_sem : nat; li_calls : gmap nat phase }.
Definition Limited_New (max : Z) : Limited := mkLimited (Z.to_nat (if max <? 1 then 1 else max)) 0 ∅.
Definition set_call (c : nat) (p : phase) (sem : nat) (l : Limited) : Limited := mkLimited (li_max l) sem (<[c := p]> (li_calls l)).
Inductive with_step : Limited -> Limited -> Prop :=
  | with_call l c : li_calls l !! c = None -> with_step l (set_call c Waiting (li_sem l) l)
  | with_enter l c : li_calls l !! c = Some Waiting -> (li_sem l < li_max l)%nat -> with_step l (set_call c Running (S (li_sem l)) l)
  | with_cancelled l c : li_calls l !! c = Some Waiting -> with_step l (set_call c (Left false) (li_sem l) l)
  | with_return l c : li_calls l !! c = Some Running -> with_step l (set_call c (Left true) (pred (li_sem l)) l).

Definition running (l : Limited) : gmap nat phase := filter (fun cp => cp.2 = Running) (li_calls l).

Lemma running_insert l c p sem :
  running (set_call c p sem l) = if decide (p = Running) then <[c := p]> (running l) else delete c (running l).
Proof.
  unfold running, set_call. cbn [li_calls]. destruct (decide (p = Running)) as [->|Hp]; [by rewrite map_filter_insert_True|].
  rewrite map_filter_insert_False by done. by rewrite map_filter_delete.
Qed.

(** The daemon never serves more than the configured number of
    requests.  Whatever callers come, wait, give up and return, in any order,
    the places taken are exactly the requests that run, and there are at most
    [max] of them (one when the configuration asks for none). *)
Theorem requests_limited (max : Z) (l : Limited) :
  rtc with_step (Limited_New max) l ->
  size (running l) = li_sem l /\ (size (running l) <= Z.to_nat (Z.max 1 max))%nat.
Proof.
  intros Hr. assert (li_max l = Z.to_nat (Z.max 1 max) /\ size (running l) = li_sem l /\ (li_sem l <= li_max l)%nat) as (E & -> & Hle);
    [|split; [done|by rewrite <- E]].
  revert l Hr. apply rtc_ind_r; [|intros l l' _ Hstep (Em & Er & Hle)].
  - unfold Limited_New. cbn. destruct (Z.ltb_spec max 1); split_and!; try done; try lia; f_equal; lia.
  - destruct Hstep as [l c Hc|l c Hc Hlt|l c Hc|l c Hc]; rewrite running_insert; cbn [set_call li_max li_sem decide]; (split; [done|]).
    + rewrite decide_False by done. rewrite delete_id by (apply map_lookup_filter_None; left; done). lia.
    + rewrite decide_True by done. rewrite map_size_insert_None; [lia|]. apply map_lookup_filter_None. right. intros p Hp E; cbn in E; congruence.
    + rewrite decide_False by done. rewrite delete_id; [lia|]. apply map_lookup_filter_None. right. intros p Hp E; cbn in E; congruence.
    + rewrite decide_False by done. rewrite map_size_delete_Some; [lia|]. exists Running. by apply map_lookup_filter_Some.
Qed.
(** As many followed logs as there are places keep every other caller
    waiting: the collector's next request can only be cancelled. *)
Lemma followers_starve l l' c :
  (li_max l <= li_sem l)%nat -> li_calls l !! c = Some Waiting -> with_step l l' ->
  li_calls l' !! c = Some Waiting \/ li_calls l' !! c = Some (Left false) \/ (li_sem l' < li_sem l)%nat \/ li_sem l = O.
Proof.
  intros Hm Hc Hs. destruct Hs as [l k Hk|l k Hk Hlt|l k Hk|l k Hk]; cbn [set_call li_calls li_sem]; [| lia| |destruct (li_sem l); [by do 3 right|right; right; left; cbn; lia]];
    (destruct (decide (k = c)) as [->|Hne]; [|left; by rewrite lookup_insert_ne]).
  - congruence.
  - right. left. by rewrite lookup_insert_eq.
Qed.

(** One place, a caller in it and another waiting *)
Definition one_waits : Limited := set_call 1 Waiting 0 (set_call 0 Waiting 0 (Limited_New 0)).
Lemma requests_limited_witness :
  let l := set_call 0 Running 1 one_waits in size (running l) = 1%nat /\ (size (running l) <= Z.to_nat (Z.max 1 0))%nat.
Proof.
  intros l. apply (requests_limited 0 l). apply (rtc_l _ _ (set_call 0 Waiting 0 (Limited_New 0))); [by apply (with_call (Limited_New 0) 0)|].
  apply (rtc_l _ _ one_waits); [apply (with_call (set_call 0 Waiting 0 (Limited_New 0)) 1); vm_compute; reflexivity|].
  apply rtc_once, (with_enter one_waits 0); [vm_compute; reflexivity|cbn; lia].
Defined.

(** ** [version.go] *)

Record semanticVersion := mkVersion { sv_major : Z; sv_minor : Z; sv_patch : Z }.
Definition minimumEngineVersion : semanticVersion := mkVersion 29 5 1.
Definition allDigits (value : list ascii) : bool := negb (length value =? 0)%nat && forallb is_digit value.
Definition hasPrereleaseSuffix (value : string) : bool :=
  match span (fun c => negb (Ascii.eqb c "-"%char)) (bytes (TrimPrefix value "v")) with
  | (_, []) => false
  | (_, _ :: suffix) =>
      let first := hd "" (Split (ToLower (of_bytes suffix)) "."%char) in
      existsb (fun prefix => (first =?s prefix) || allDigits (bytes (TrimPrefix first prefix)) || allDigits (bytes (TrimPrefix first (prefix +:+ "-"))))
        ["alpha"; "beta"; "pre"; "preview"; "rc"]
  end.
Definition validVersionSuffix (l : list ascii) : bool :=
  forallb (fun c => is_lower c || is_upper c || is_digit c || Ascii.eqb c "."%char || Ascii.eqb c "-"%char) l.
Definition version_number (part : string) : option Z :=
  match Atoi part with Some n => if n <? 0 then None else Some n | None => None end.
Definition parseEngineVersion (value : string) : option semanticVersion :=
  if (value =?s "") || negb (TrimSpace value =?s value) then None
  else
    let '(core, suffix) := span (fun c => negb (Ascii.eqb c "-"%char) && negb (Ascii.eqb c "+"%char)) (bytes (TrimPrefix value "v")) in
    if match suffix with [] => false | _ :: l => (length l =? 0)%nat || negb (validVersionSuffix l) end then None
    else match map version_number (Split (of_bytes core) "."%char) with
    | [Some major; Some minor; Some patch] => Some (mkVersion major minor patch)
    | _ => None
    end.
Definition version_less (a b : semanticVersion) : bool :=
  if negb (sv_major a =? sv_major b) then sv_major a <? sv_major b
  else if negb (sv_minor a =? sv_minor b) then sv_minor a <? sv_minor b else sv_patch a <? sv_patch b.
(** [true]: the engine is accepted *)
Definition ValidateEngineVersion (value : string) : bool :=
  negb (hasPrereleaseSuffix value) &&
  match parseEngineVersion value with Some version => negb (version_less version minimumEngineVersion) | None => false end.
(** [client]: the answer of the version request, within its time-out *)
Definition RequireSupportedEngine (client : option (string + string)) : bool :=
  match client with Some (inr version) => ValidateEngineVersion version | _ => false end.

Example versions :
  map ValidateEngineVersion ["29.5.1"; "v29.5.1"; "29.5.1-ce"; "29.5.1+dfsg.1"; "30.0.0"; "29.5.0"; "29.5.1-rc.1"; "29.5.1-beta1"; "29.5"; "29.5.1 "; "29.5.1+"] =
    [true; true; true; true; true; false; false; false; false; false; false].
Proof. vm_compute. reflexivity. Qed.
(** A package revision is taken for a prerelease. *)
Lemma revision_refused : ValidateEngineVersion "29.5.2-1" = false /\ ValidateEngineVersion "29.5.2" = true.
Proof. vm_compute. done. Qed.

Definition version_text (a b c : Z) : string := Itoa a +:+ "." +:+ Itoa b +:+ "." +:+ Itoa c.
Lemma span_all {A} (p : A -> bool) l : forallb p l = true -> span p l = (l, []).
Proof. induction l as [|x l IH]; [done|]. cbn. intros [-> Hl]%andb_true_iff. by rewrite IH. Qed.
Definition version_byte (c : ascii) : bool := is_digit c || Ascii.eqb c "."%char.
Lemma version_bytes a b c : in_uint64 a -> in_uint64 b -> in_uint64 c -> forallb version_byte (bytes (version_text a b c)) = true.
Proof.
  intros [Ha _]%Itoa_digits [Hb _]%Itoa_digits [Hc _]%Itoa_digits. unfold version_text. rewrite !bytes_append, !forallb_app.
  assert (forall l, forallb is_digit l = true -> forallb version_byte l = true) as Hd.
  { intros l. rewrite !forallb_forall. intros Hl x Hx. unfold version_byte. by rewrite Hl. }
  by rewrite (Hd _ Ha), (Hd _ Hb), (Hd _ Hc).
Qed.
Lemma version_byte_plain c : version_byte c = true ->
  is_space c = false /\ Ascii.eqb c "-"%char = false /\ Ascii.eqb c "+"%char = false /\ Ascii.eqb c "v"%char = false.
Proof. destruct c as [[] [] [] [] [] [] [] []]; vm_compute; done. Qed.
Lemma version_split a b c : in_uint64 a -> in_uint64 b -> in_uint64 c -> Split (version_text a b c) "."%char = [Itoa a; Itoa b; Itoa c].
Proof.
  intros [Ha _]%Itoa_digits [Hb _]%Itoa_digits [Hc _]%Itoa_digits.
  assert (forall l, forallb is_digit l = true -> free_of "."%char l = true) as Hd.
  { intros l. unfold free_of. rewrite !forallb_forall. intros Hl x Hx. specialize (Hl x Hx).
    apply negb_true_iff. destruct (Ascii.eqb_spec x "."%char) as [->|]; done. }
  unfold Split, version_text. rewrite !bytes_append. cbn [app]. change (bytes ".") with ["."%char]. cbn [app].
  rewrite !split_bytes_cons by auto. rewrite split_bytes_end by auto. cbn [rev app map]. by rewrite !of_bytes_bytes.
Qed.
Lemma TrimPrefix_v t : TrimPrefix ("v" +:+ t) "v" = t.
Proof.
  unfold TrimPrefix, HasPrefix. change ("v" +:+ t) with (String "v" t). cbn [String.prefix]. destruct (ascii_dec "v" "v"); [|done].
  assert (String.prefix "" t = true) as -> by (by destruct t). apply of_bytes_bytes.
Qed.
Lemma version_number_Itoa n : in_uint64 n -> in_int64 n -> version_number (Itoa n) = Some n.
Proof. intros Hu Hn. unfold version_number, Atoi. rewrite ParseInt_Itoa by done. unfold in_uint64 in Hu. by rewrite (proj2 (Z.ltb_ge _ _)) by lia. Qed.

(** The engine's version is compared as a version.  Every
    release [a.b.c], with or without a leading [v], is accepted exactly when it
    is at least 29.5.1, component by component and not as text. *)
Theorem engine_version_gate (v : bool) (a b c : Z) :
  Forall (fun n => 0 <= n <= max_int64) [a; b; c] ->
  ValidateEngineVersion ((if v then "v" else "") +:+ version_text a b c) = true <->
  (29 < a \/ (a = 29 /\ (5 < b \/ (b = 5 /\ 1 <= c)))).
Proof.
  rewrite !Forall_cons. intros (Ha & Hb & Hc & _). unfold max_int64 in *.
  assert (in_uint64 a /\ in_uint64 b /\ in_uint64 c) as (Ua & Ub & Uc) by (unfold in_uint64; lia).
  pose proof (version_bytes a b c Ua Ub Uc) as Hv. set (t := version_text a b c) in *.
  assert (forallb (fun x => negb (is_space x)) (bytes t) = true /\ forallb (fun x => negb (Ascii.eqb x "-"%char)) (bytes t) = true /\
    forallb (fun x => negb (Ascii.eqb x "-"%char) && negb (Ascii.eqb x "+"%char)) (bytes t) = true) as (Hs & Hm & Hp).
  { split_and!; rewrite forallb_forall in *; intros x Hx; destruct (version_byte_plain x (Hv x Hx)) as (E1 & E2 & E3 & _); by rewrite ?E1, ?E2, ?E3. }
  assert (TrimPrefix ((if v then "v" else "") +:+ t) "v" = t) as Et.
  { destruct v; [exact (TrimPrefix_v t)|]. change ("" +:+ t) with t. unfold TrimPrefix, HasPrefix.
    destruct t as [|x t']; [done|]. destruct (version_byte_plain x) as (_ & _ & _ & Hx); [by apply andb_true_iff in Hv as [? _]|].
    cbn [String.prefix]. destruct (ascii_dec "v" x) as [<-|]; [done|done]. }
  assert (TrimSpace ((if v then "v" else "") +:+ t) = (if v then "v" else "") +:+ t) as Es.
  { apply TrimSpace_none. rewrite bytes_append, forallb_app, Hs. by destruct v. }
  assert ((if v then "v" else "") +:+ t =?s "" = false) as En.
  { destruct v; [done|]. apply String.eqb_neq. change ("" +:+ t) with t. intros E. subst t. pose proof (version_split a b c Ua Ub Uc) as Hsp.
    rewrite E in Hsp. done. }
  unfold ValidateEngineVersion, hasPrereleaseSuffix, parseEngineVersion. rewrite Et, Es, En, String.eqb_refl. cbn [orb negb].
  rewrite !span_all by done. rewrite of_bytes_bytes. subst t. rewrite version_split by done. cbn [map].
  rewrite !version_number_Itoa by (done || (unfold in_int64, min_int64, max_int64; lia)). cbn [andb negb].
  unfold version_less, minimumEngineVersion. cbn [sv_major sv_minor sv_patch]. rewrite negb_true_iff.
  destruct (Z.eqb_spec a 29); cbn [negb]; [|rewrite Z.ltb_ge; lia]. destruct (Z.eqb_spec b 5); cbn [negb]; rewrite Z.ltb_ge; lia.
Qed.
Lemma engine_version_gate_witness :
  ValidateEngineVersion "29.10.0" = true /\ ValidateEngineVersion "v29.5.0" = false.
Proof.
  split.
  - apply (engine_version_gate false 29 10 0); [repeat constructor; vm_compute; done|lia].
  - apply not_true_is_false. intros H. apply (engine_version_gate true 29 5 0) in H; [lia|repeat constructor; vm_compute; done].
Defined.
