(* ===== verification/DockerStats.v ===== *)
(** * Container statistics, metadata and events

    [internal/collector/docker]: what is computed from two samples of a
    container, the failure counter and the metadata cache;
    [internal/events]: the events of the daemon as recorded events, and which
    containers replace each other. *)

From stdpp Require Import base tactics list gmap strings.
From Stdlib Require Import ZArith Lia Ascii.
From S2P Require Import Prelude GoString GoParse Float64 GoTime Metrics DockerApi.

Local Open Scope Z_scope.

(** ** [cpu.go], [memory.go], [io.go] *)

Record CPUStats := mkCPUStats { cs_Total : Z; cs_System : Z; cs_Online : Z }.
Record ContainerCPU := mkContainerCPU { cu_HostPercent : option F64; cu_DockerPercent : option F64; cu_Cores : option F64 }.
Definition no_cpu : ContainerCPU := mkContainerCPU None None None.
Definition NormalizeCPU (previous current : CPUStats) (hostCPUs : Z) : ContainerCPU :=
  if (cs_Total current <? cs_Total previous) || (cs_System current <=? cs_System previous) then no_cpu
  else
    let cpus := if cs_Online current <? 1 then hostCPUs else cs_Online current in
    if cpus <? 1 then no_cpu
    else
      let ratio := f64_div (f64_of_Z (cs_Total current - cs_Total previous)) (f64_of_Z (cs_System current - cs_System previous)) in
      let host := f64_mul ratio (f64_of_Z 100) in
      mkContainerCPU (Some host) (Some (f64_mul host (f64_of_Z cpus))) (Some ratio).

Record MemoryStats := mkMemoryStats { ms_Usage : Z; ms_Limit : Z; ms_InactiveFile : Z; ms_PIDs : option Z }.
Record MemoryUsage := mkMemoryUsage {
  mu_Raw : option F64; mu_WorkingSet : option F64; mu_Limit : option F64; mu_Percent : option F64; mu_PIDs : option Z;
}.
Definition nonzero_number (v : Z) : option F64 := if v =? 0 then None else Some (f64_of_Z v).
Definition working_set (s : MemoryStats) : Z := if ms_InactiveFile s <=? ms_Usage s then ms_Usage s - ms_InactiveFile s else ms_Usage s.
Definition NormalizeMemory (s : MemoryStats) (hostTotal : Z) : MemoryUsage :=
  let working := f64_of_Z (working_set s) in
  let denom := if (ms_Limit s =? 0) || ((hostTotal <? ms_Limit s) && (0 <? hostTotal)) then hostTotal else ms_Limit s in
  mkMemoryUsage (Some (f64_of_Z (ms_Usage s))) (Some working) (nonzero_number (ms_Limit s))
    (if 0 <? denom then Some (f64_div (f64_mul working (f64_of_Z 100)) (f64_of_Z denom)) else None) (ms_PIDs s).

Record IORates := mkRates { ra_RX : option F64; ra_TX : option F64; ra_Read : option F64; ra_Write : option F64 }.
Definition SumIO (values : list IOCounters) : IOCounters :=
  fold_left (fun o v => mkIO (wrapu64 (io_RX o + io_RX v)) (wrapu64 (io_TX o + io_TX v)) (wrapu64 (io_Read o + io_Read v)) (wrapu64 (io_Write o + io_Write v)))
    values (mkIO 0 0 0 0).
Definition io_delta (now old : Z) (elapsed : F64) : option F64 :=
  if (elapsed <=? f64_zero)%F || (now <? old) then None else Some (f64_div (f64_of_Z (now - old)) elapsed).
Definition NormalizeIO (previous current : IOCounters) (elapsed : F64) : IORates :=
  mkRates (io_delta (io_RX current) (io_RX previous) elapsed) (io_delta (io_TX current) (io_TX previous) elapsed)
    (io_delta (io_Read current) (io_Read previous) elapsed) (io_delta (io_Write current) (io_Write previous) elapsed).

(** ** [health.go] *)

Record HealthTracker := mkTracker { ht_Failures : Z; ht_State : string }.
Definition Observe (failed : bool) (t : HealthTracker) : HealthTracker :=
  if negb failed then mkTracker 0 CollectorHealthy
  else
    let n := ht_Failures t + 1 in
    mkTracker n (if 6 <=? n then CollectorDown else if 3 <=? n then CollectorDegraded
                 else if ht_State t =?s "" then CollectorHealthy else ht_State t).

(** ** [cache.go] *)

Record CacheMetadata := mkCacheMetadata {
  ca_ID : string; ca_Name : string; ca_Image : string; ca_Created : string; ca_State : string; ca_Health : string;
  ca_Labels : gmap string string; ca_Environment : gmap string string; ca_Networks : list string; ca_Mounts : list Mount;
}.
Notation Cache := (gmap string CacheMetadata).
Definition metadata_of (v : Inspect) : CacheMetadata :=
  mkCacheMetadata (in_ID v) (in_Name v) (in_Image v) (in_Created v) (in_State v) (in_Health v) (in_Labels v) (in_Environment v) (in_Networks v) (in_Mounts v).
Definition inspect_of (v : CacheMetadata) : Inspect :=
  mkInspect (ca_ID v) (ca_Name v) (ca_Image v) (ca_Created v) (ca_State v) (ca_Health v) false (ca_Labels v) (ca_Environment v) (ca_Networks v) (ca_Mounts v).
Definition Cache_Get (id : string) (c : Cache) : option CacheMetadata := c !! id.
Definition Cache_Set (v : CacheMetadata) (c : Cache) : Cache := <[ca_ID v := v]> c.
Definition Cache_Remove (id : string) (c : Cache) : Cache := delete id c.

(** The answers of the daemon; an answer may differ from call to call. *)
Section discover.
Context (client_List : string + list Container) (client_Inspect : nat -> string -> string + Inspect).
Fixpoint discover_from (i : nat) (list : list Container) (next : Cache) : string + Cache :=
  match list with
  | [] => inr next
  | item :: list =>
      match client_Inspect i (ct_ID item) with
      | inl e => inl e
      | inr v => discover_from (S i) list (<[ct_ID item := metadata_of v]> next)
      end
  end.
(** The error, and the cache after it: the whole of it is replaced or nothing. *)
Definition Discover (c : Cache) : option string * Cache :=
  match client_List with
  | inl e => (Some e, c)
  | inr list => match discover_from 0 list ∅ with inl e => (Some e, c) | inr next => (None, next) end
  end.
End discover.

(** ** [events/docker.go] *)

Definition event_kind (action : string) : string :=
  if HasPrefix action "health_status" then "container_health_status_change"
  else if action =?s "start" then "container_start" else if action =?s "stop" then "container_stop"
  else if action =?s "die" then "container_die" else if action =?s "destroy" then "container_destroy"
  else if action =?s "create" then "container_create" else if action =?s "rename" then "container_rename"
  else if action =?s "oom" then "container_oom" else if action =?s "restart" then "container_restart" else "".
Definition quote : string := String "034"%char "".
Definition NormalizeDocker (e : DockerEvent) (oomKilled : bool) : option Event :=
  let action := ToLower (de_Action e) in
  let kind := event_kind action in
  if kind =?s "" then None
  else
    let kind := if oomKilled || (action =?s "oom") then "container_oom" else kind in
    Some (mkEvent 0 (default zero_time (ParseRFC3339 (de_Time e))) kind "" (de_ID e) "" (kind +:+ " for container")
            ("{" +:+ quote +:+ "action" +:+ quote +:+ ":" +:+ quote +:+ de_Action e +:+ quote +:+ "}") (de_ID e)).

(** ** [events/deployment.go] *)

Definition Confirmed : string := "confirmed".
Definition Likely : string := "likely".
Definition Replacement : string := "replacement".
Record Instance := mkInstance { ins_ID : string; ins_ResourceID : string; ins_Image : string; ins_Started : Z; ins_Stopped : Z }.
Record Deployment := mkDeployment { dp_OldID : string; dp_NewID : string; dp_Confidence : string; dp_Overlap : Z }.
Definition Correlate (old next : Instance) (window : Z) : option Deployment :=
  if (ins_ResourceID old =?s "") || negb (ins_ResourceID old =?s ins_ResourceID next) || is_zero_time (ins_Started next) then None
  else
    let gap := if is_zero_time (ins_Stopped old) then 0 else time_sub (ins_Started next) (ins_Stopped old) in
    if gap <? 0 then Some (mkDeployment (ins_ID old) (ins_ID next) Likely (wrap64 (- gap)))
    else if gap <=? window then
      let c := if negb (ins_Image old =?s "") && negb (ins_Image old =?s ins_Image next) then Confirmed else Replacement in
      Some (mkDeployment (ins_ID old) (ins_ID next) c 0)
    else None.

(** ** What they compute *)

(** A container's figures are what its counters say.  Between
    two samples in which no counter went back and the host's went on, the CPU
    share is the container's part of the host's time, and the rates are the
    differences over the elapsed time; memory is the usage without the cache
    that can be reclaimed, in relation to the container's limit or, without a
    limit or with one above it, to the host's memory. *)
Theorem container_figures (p c : CPUStats) (m : MemoryStats) (io1 io2 : IOCounters) (cpus host : Z) (elapsed : F64) :
  cs_Total p <= cs_Total c -> cs_System p < cs_System c -> 0 < cs_Online c ->
  0 <= ms_InactiveFile m <= ms_Usage m -> 0 <= ms_Limit m -> 0 < host ->
  (elapsed <=? f64_zero)%F = false -> Forall (fun f => f io1 <= f io2) [io_RX; io_TX; io_Read; io_Write] ->
  let rate f := Some (f64_div (f64_of_Z (f io2 - f io1)) elapsed) in
  let base := if ms_Limit m =? 0 then host else Z.min (ms_Limit m) host in
  cu_HostPercent (NormalizeCPU p c cpus) =
    Some (f64_mul (f64_div (f64_of_Z (cs_Total c - cs_Total p)) (f64_of_Z (cs_System c - cs_System p))) (f64_of_Z 100)) /\
  mu_WorkingSet (NormalizeMemory m host) = Some (f64_of_Z (ms_Usage m - ms_InactiveFile m)) /\
  mu_Percent (NormalizeMemory m host) =
    Some (f64_div (f64_mul (f64_of_Z (ms_Usage m - ms_InactiveFile m)) (f64_of_Z 100)) (f64_of_Z base)) /\
  NormalizeIO io1 io2 elapsed = mkRates (rate io_RX) (rate io_TX) (rate io_Read) (rate io_Write).
Proof.
  rewrite !Forall_cons. intros Ht Hs Ho Hi Hl Hh He (H1 & H2 & H3 & H4 & _). cbv zeta. split_and!.
  - unfold NormalizeCPU. rewrite (proj2 (Z.ltb_ge (cs_Total c) _)), (proj2 (Z.leb_gt _ _)), (proj2 (Z.ltb_ge (cs_Online c) 1)) by lia.
    cbn [orb]. by rewrite (proj2 (Z.ltb_ge _ _)) by lia.
  - unfold NormalizeMemory, working_set. by rewrite (proj2 (Z.leb_le _ _)) by lia.
  - unfold NormalizeMemory, working_set. cbn [mu_Percent]. rewrite (proj2 (Z.leb_le _ _)) by lia. rewrite (proj2 (Z.ltb_lt 0 host)), andb_true_r by lia.
    destruct (Z.eqb_spec (ms_Limit m) 0); cbn [orb]; [by rewrite (proj2 (Z.ltb_lt _ _)) by lia|].
    destruct (Z.ltb_spec host (ms_Limit m)); rewrite (proj2 (Z.ltb_lt _ _)) by lia; do 3 f_equal; lia.
  - unfold NormalizeIO, io_delta. rewrite He, !(proj2 (Z.ltb_ge _ _)) by lia. done.
Qed.

(** Three failures in a row degrade a collector and six take it down, and one
    success heals it. *)
Lemma tracker_thresholds n t :
  ht_Failures t = 0 -> ht_State t = CollectorHealthy ->
  ht_State (Nat.iter n (Observe true) t) = (if (6 <=? n)%nat then CollectorDown else if (3 <=? n)%nat then CollectorDegraded else CollectorHealthy) /\
  ht_Failures (Nat.iter n (Observe true) t) = Z.of_nat n.
Proof.
  intros Hf Hs. induction n as [|n [IHs IHf]]; [split; [exact Hs|exact Hf]|]. change (Nat.iter (S n) (Observe true) t) with (Observe true (Nat.iter n (Observe true) t)).
  destruct (Nat.iter n (Observe true) t) as [f s]. cbn [ht_State ht_Failures] in *. subst. unfold Observe. cbn [negb ht_State ht_Failures].
  split; [|lia].
  destruct (Nat.leb_spec 6 n), (Nat.leb_spec 3 n), (Nat.leb_spec 6 (S n)), (Nat.leb_spec 3 (S n)),
    (Z.leb_spec 6 (Z.of_nat n + 1)), (Z.leb_spec 3 (Z.of_nat n + 1)); lia || done.
Qed.

(** The details of an event are not escaped. *)
Lemma details_unescaped :
  e_Details <$> NormalizeDocker (mkDockerEvent "c1" ("health_status: " +:+ quote) "") false =
    Some ("{" +:+ quote +:+ "action" +:+ quote +:+ ":" +:+ quote +:+ "health_status: " +:+ quote +:+ quote +:+ "}").
Proof. vm_compute. reflexivity. Qed.

Lemma container_figures_witness :
  cu_HostPercent (NormalizeCPU (mkCPUStats 100 1000 2) (mkCPUStats 150 1200 2) 4) = Some (f64_of_Z 25).
Proof.
  destruct (container_figures (mkCPUStats 100 1000 2) (mkCPUStats 150 1200 2) (mkMemoryStats 5 0 3 None) (mkIO 0 0 0 0) (mkIO 4 3 2 1) 4 8 f64_one) as (H & _);
    try (cbn; lia); [vm_compute; reflexivity|repeat constructor; cbn; lia|]. rewrite H. vm_compute. reflexivity.
Defined.
