(* ===== verification/Sampler.v ===== *)
(** * The collector

    [internal/collector/production/sampler.go]: one collection after another
    reads the host's files and the daemon's containers, groups the containers
    into resources, publishes a snapshot and keeps the inventory; events of
    the daemon arrive in between.  Files, [statfs] and the daemon answer as
    the [Tick] says. *)

From stdpp Require Import base tactics list gmap strings.
From Stdlib Require Import ZArith Lia Ascii Sorting.Sorted.
From S2P Require Import Prelude GoString GoParse Float64 Db AuthSchema Metrics StoreSchema StoreWriter Protection.
From S2P Require Import HostProc Resources DockerApi DockerStats.

Local Open Scope Z_scope.

(** ** State *)

Record dockerSample := mkSample { ds_value : Stats; ds_at : Z }.
(** [sm_Cache]: [None] without a cache *)
Record Sampler := mkSampler {
  sm_Cache : option Cache;
  sm_cpu : option CPUCounters;
  sm_previousNetwork : NetworkCounters; sm_previousNetworkAt : Z;
  sm_previousDisk : DiskCounters; sm_previousDiskAt : Z;
  sm_previousStats : gmap string dockerSample;
  sm_lastResources : list ResourceSnapshot;
  sm_hostFailures : Z; sm_dockerFailures : Z;
}.
Definition new_sampler (cache : option Cache) : Sampler :=
  mkSampler cache None no_network zero_time (mkDisk 0 0 0 0) zero_time ∅ [] 0 0.
Definition set_cache (c : option Cache) (s : Sampler) : Sampler :=
  mkSampler c (sm_cpu s) (sm_previousNetwork s) (sm_previousNetworkAt s) (sm_previousDisk s) (sm_previousDiskAt s)
    (sm_previousStats s) (sm_lastResources s) (sm_hostFailures s) (sm_dockerFailures s).
Definition set_stats (m : gmap string dockerSample) (s : Sampler) : Sampler :=
  mkSampler (sm_Cache s) (sm_cpu s) (sm_previousNetwork s) (sm_previousNetworkAt s) (sm_previousDisk s) (sm_previousDiskAt s)
    m (sm_lastResources s) (sm_hostFailures s) (sm_dockerFailures s).
Definition set_host_failures (n : Z) (s : Sampler) : Sampler :=
  mkSampler (sm_Cache s) (sm_cpu s) (sm_previousNetwork s) (sm_previousNetworkAt s) (sm_previousDisk s) (sm_previousDiskAt s)
    (sm_previousStats s) (sm_lastResources s) n (sm_dockerFailures s).
Definition set_docker (n : Z) (last : list ResourceSnapshot) (s : Sampler) : Sampler :=
  mkSampler (sm_Cache s) (sm_cpu s) (sm_previousNetwork s) (sm_previousNetworkAt s) (sm_previousDisk s) (sm_previousDiskAt s)
    (sm_previousStats s) last (sm_hostFailures s) n.

(** ** The answers of one collection *)

Record Statfs_t := mkStatfs { sf_Blocks : Z; sf_Bsize : Z; sf_Bavail : Z; sf_Bfree : Z; sf_Files : Z; sf_Ffree : Z }.
(** The daemon's answers carry the number of the container in the list. *)
Record Tick := mkTick {
  tk_now : Z;
  tk_read : string -> string + string;
  tk_statfs : string -> option Statfs_t;
  tk_List : string + list Container;
  tk_Inspect : nat -> string -> string + Inspect;
  tk_Stats : nat -> string -> string + Stats;
}.

(** ** Conversions *)

(** [int64(x)] of a float on amd64: what does not fit is the least integer *)
Definition int64_of_f64 (x : F64) : Z :=
  match x with
  | SpecFloat.S754_finite _ _ _ => let n := f64_trunc x in if (min_int64 <=? n) && (n <=? max_int64) then n else min_int64
  | SpecFloat.S754_zero _ => 0
  | _ => min_int64
  end.
Definition uint64Value (v : option Z) : Z := match v with None => 0 | Some n => if n <? 0 then 0 else n end.
Definition int64PtrFromFloat64Bytes (v : option F64) : option Z := int64_of_f64 <$> v.
Definition deltaInt64 (current previous : Z) : option Z := if current <? previous then None else Some (wrap64 (current - previous)).

(** A sum with whether anything was added to it *)
Definition total : Type := F64 * bool.
Definition no_total : total := (f64_zero, false).
Definition add_total (t : total) (v : option F64) : total := match v with Some x => (f64_add t.1 x, true) | None => t end.
Definition number (t : total) : option F64 := if t.2 then Some t.1 else None.
Definition integer (t : total) : option Z := if t.2 then Some (int64_of_f64 t.1) else None.

Definition containerStatus (state health : string) : string :=
  if state =?s "running" then
    if health =?s "unhealthy" then StatusDown else if health =?s "starting" then StatusUnknown else StatusHealthy
  else if state =?s "paused" then StatusPaused
  else if (state =?s "exited") || (state =?s "dead") then StatusDown else StatusUnknown.
Definition health (name : string) (failures : Z) (err : option string) (now : Z) : CollectorHealth :=
  mkCollector name (if 6 <=? failures then CollectorDown else if 3 <=? failures then CollectorDegraded else CollectorHealthy)
    (default "" err) now.
Definition category (labels : gmap string string) (identity : Identity) : string :=
  let value := ToLower (label labels "binnacle.category") in
  if ValidCategory value then value
  else if label labels "coolify.type" =?s "infrastructure" then "infrastructure"
  else if (id_Source identity =?s "compose") || (id_Source identity =?s "coolify") then "service" else "unmanaged".

(** ** Events of the daemon *)

Definition handleDockerEvent (inspect : string -> string + Inspect) (e : DockerEvent) (s : Sampler) : Sampler :=
  match sm_Cache s with
  | None => s
  | Some cache =>
      let action := ToLower (de_Action e) in
      if action =?s "destroy" then set_cache (Some (Cache_Remove (de_ID e) cache)) s
      else if str_in action ["die"; "stop"; "pause"] then
        match Cache_Get (de_ID e) cache with
        | Some v =>
            set_cache (Some (Cache_Set (mkCacheMetadata (ca_ID v) (ca_Name v) (ca_Image v) (ca_Created v) action (ca_Health v)
              (ca_Labels v) (ca_Environment v) (ca_Networks v) (ca_Mounts v)) cache)) s
        | None => s
        end
      else if str_in action ["start"; "unpause"; "restart"; "health_status"] then
        match inspect (de_ID e) with
        | inr v => set_cache (Some (Cache_Set (metadata_of v) cache)) s
        | inl _ => s
        end
      else s
  end.
(** [pending]: at most 128, the oldest dropped *)
Definition maxPending : nat := 128.
Definition push_event (e : DockerEvent) (pending : list Event) : list Event :=
  match NormalizeDocker e false with
  | None => pending
  | Some v => (if (length pending =? maxPending)%nat then tl pending else pending) ++ [v]
  end.

(** ** The host *)

Section sampler.
Context `{SHA256} `{MapOrder}.
Context (url_hostname : string -> option string).
(** [Format(time.RFC3339Nano)] *)
Context (rfc3339 : Z -> string).
(** The text of a parser's error: of the file, and of its contents *)
Context (parse_error : string -> string -> string).
Context (proc_root data_dir : string).
(** Whether a Docker client and a store are configured *)
Context (have_docker have_store : bool).

Definition read (t : Tick) (name : string) : string + string := tk_read t (Path_Join [proc_root; name]).
Definition read_parsed {A} (t : Tick) (name : string) (parse : string -> option A) : string + A :=
  match read t name with
  | inl e => inl e
  | inr raw => match parse raw with Some a => inr a | None => inl (parse_error name raw) end
  end.

Definition filesystem_of (now : Z) (key : string) (m : MountEntry) (fs : Statfs_t) : FilesystemObservation :=
  let total := wrap64 (wrap64 (sf_Blocks fs) * sf_Bsize fs) in
  let available := wrap64 (wrap64 (sf_Bavail fs) * sf_Bsize fs) in
  let free := wrap64 (wrap64 (sf_Bfree fs) * sf_Bsize fs) in
  let used := wrap64 (total - free) in
  mkFilesystem now key (mo_Target m) (mo_FSType m) (Some total) (Some used) (Some available)
    (if 0 <? total then Some (percent used total) else None)
    (if 0 <? sf_Files fs then Some (wrap64 (sf_Files fs)) else None)
    (if 0 <? sf_Files fs then Some (wrap64 (wrapu64 (sf_Files fs - sf_Ffree fs))) else None) None.
Fixpoint collect_mounts (t : Tick) (seen : list string) (mounts : list MountEntry) : list FilesystemObservation :=
  match mounts with
  | [] => []
  | m :: mounts =>
      let key := mo_Source m +:+ "|" +:+ mo_Target m in
      if str_in key seen then collect_mounts t seen mounts
      else match tk_statfs t (mo_Target m) with
      | None => collect_mounts t (key :: seen) mounts
      | Some fs => filesystem_of (tk_now t) key m fs :: collect_mounts t (key :: seen) mounts
      end
  end.
Definition collectFilesystems (t : Tick) : string + list FilesystemObservation :=
  match (match read t "self/mountinfo" with inl _ => read t "mounts" | inr raw => inr raw end) with
  | inl e => inl e
  | inr raw => inr (collect_mounts t [] (ParseMounts raw data_dir))
  end.

Definition add_disk (a d : DiskCounters) : DiskCounters :=
  mkDisk (wrapu64 (dk_Reads a + dk_Reads d)) (wrapu64 (dk_ReadSectors a + dk_ReadSectors d))
    (wrapu64 (dk_Writes a + dk_Writes d)) (wrapu64 (dk_WriteSectors a + dk_WriteSectors d)).
Definition disk_total (t : Tick) : DiskCounters :=
  match read t "diskstats" with
  | inl _ => mkDisk 0 0 0 0
  | inr raw => match ParseDiskstats raw with
               | Some disks => fold_left (fun a kv => add_disk a kv.2) (range_map disks) (mkDisk 0 0 0 0)
               | None => mkDisk 0 0 0 0
               end
  end.

(** The files every observation needs *)
Record HostFiles := mkHostFiles { hf_cpu : CPUCounters; hf_memory : Memory; hf_load : Load; hf_uptime : F64; hf_network : NetworkCounters }.
Definition read_host (t : Tick) : string + HostFiles :=
  match read_parsed t "stat" ParseProcStat with inl e => inl e | inr stats =>
  match read_parsed t "meminfo" ParseMeminfo with inl e => inl e | inr memory =>
  match read_parsed t "loadavg" ParseLoadavgFull with inl e => inl e | inr load =>
  match read_parsed t "uptime" ParseUptime with inl e => inl e | inr uptime =>
  match read_parsed t "net/dev" ParseNetDev with inl e => inl e | inr networks =>
    inr (mkHostFiles (default (mkCPUCounters 0 0 0 0 0 0 0 0) (stats !! "cpu")) memory load uptime (AggregateNetwork networks))
  end end end end end.

Definition sum_bytes (get : FilesystemObservation -> option Z) (l : list FilesystemObservation) : Z :=
  fold_left (fun n fs => match get fs with Some v => wrap64 (n + v) | None => n end) l 0.

Definition observe_host (s : Sampler) (now : Z) (f : HostFiles) (disk : DiskCounters) (fsystems : list FilesystemObservation) : HostObservation :=
  let usage := match sm_cpu s with Some p => CPUDelta p (hf_cpu f) | None => no_usage end in
  let network := hf_network f in
  let elapsed := dur_Seconds (time_sub now (sm_previousNetworkAt s)) in
  let net_rate get := if is_zero_time (sm_previousNetworkAt s) then None else Rate (get network) (get (sm_previousNetwork s)) elapsed in
  let net_delta get := if is_zero_time (sm_previousNetworkAt s) then None else deltaInt64 (get network) (get (sm_previousNetwork s)) in
  let disk_elapsed := dur_Seconds (time_sub now (sm_previousDiskAt s)) in
  let disk_rate get := if is_zero_time (sm_previousDiskAt s) then None else Rate (get disk) (get (sm_previousDisk s)) disk_elapsed in
  let memory := hf_memory f in
  let swapUsed := wrapu64 (me_SwapTotal memory - me_SwapFree memory) in
  mkHost now (cu_Busy usage) (cu_User usage) (cu_System usage) (cu_IOWait usage) (cu_Steal usage)
    (Some (wrap64 (me_Used memory))) (Some (wrap64 (me_Total memory))) (Some (wrap64 (me_Available memory)))
    (if 0 <? me_Total memory then Some (percent (me_Used memory) (me_Total memory)) else None)
    (Some (wrap64 (me_Cached memory))) (Some (wrap64 (me_Buffers memory))) (Some (wrap64 swapUsed)) (Some (wrap64 (me_SwapTotal memory)))
    (if 0 <? me_SwapTotal memory then Some (percent swapUsed (me_SwapTotal memory)) else None)
    (Some (ld_One (hf_load f))) (Some (ld_Five (hf_load f))) (Some (ld_Fifteen (hf_load f)))
    (net_rate nw_RXBytes) (net_rate nw_TXBytes) (net_rate nw_RXPackets) (net_rate nw_TXPackets)
    (net_delta nw_RXErrors) (net_delta nw_TXErrors) (net_delta nw_RXDrops) (net_delta nw_TXDrops)
    (disk_rate (fun d => SectorToBytes (dk_ReadSectors d))) (disk_rate (fun d => SectorToBytes (dk_WriteSectors d)))
    (disk_rate dk_Reads) (disk_rate dk_Writes)
    (match fsystems with [] => None | _ => Some (sum_bytes fo_UsedBytes fsystems) end)
    (match fsystems with [] => None | _ => Some (sum_bytes fo_TotalBytes fsystems) end)
    (Some (hf_uptime f)).

Definition collectHost (t : Tick) (s : Sampler) : (string + (HostObservation * list FilesystemObservation * string)) * Sampler :=
  match read_host t with
  | inl e => (inl e, s)
  | inr f =>
      let disk := disk_total t in
      let fsystems := match collectFilesystems t with inr l => l | inl _ => [] end in
      let boot := match read t "sys/kernel/random/boot_id" with inr raw => TrimSpace raw | inl _ => "" end in
      (inr (observe_host s (tk_now t) f disk fsystems, fsystems, boot),
       mkSampler (sm_Cache s) (Some (hf_cpu f)) (hf_network f) (tk_now t) disk (tk_now t)
         (sm_previousStats s) (sm_lastResources s) (sm_hostFailures s) (sm_dockerFailures s))
  end.

(** ** The containers *)

Record resourceGroup := mkGroup {
  rg_identity : Identity; rg_category : string; rg_environment : string; rg_infrastructure : bool;
  rg_components : list ResourceComponent;
  rg_cpu : total; rg_memory : total; rg_rx : total; rg_tx : total; rg_read : total; rg_write : total;
  rg_status : list string; rg_manualName : bool; rg_manualContext : bool;
}.
(** [s.inspect]: the cache first *)
Definition inspect (t : Tick) (i : nat) (id : string) (s : Sampler) : (string + Inspect) * Sampler :=
  match sm_Cache s ≫= Cache_Get id with
  | Some v => (inr (inspect_of v), s)
  | None =>
      match tk_Inspect t i id with
      | inl e => (inl e, s)
      | inr v => (inr v, match sm_Cache s with Some cache => set_cache (Some (Cache_Set (metadata_of v) cache)) s | None => s end)
      end
  end.
Definition identity_of (v : Inspect) : Identity :=
  let identity := ResolveMetadata url_hostname (mkMetadata (in_Labels v) (in_Environment v) (in_Name v) (in_Image v) "" "") in
  if id_Context identity =?s ""
  then mkIdentity (id_StableKey identity) (id_Name identity) (category (in_Labels v) identity) (id_Source identity) (id_Project identity) (id_Service identity)
  else identity.
Definition new_group (v : Inspect) : resourceGroup :=
  let identity := identity_of v in
  let labels := in_Labels v in
  let '(identity, environment, infrastructure) :=
    match Coolify_Resolve labels with
    | Some m =>
        (if cm_Project m =?s "" then identity
         else mkIdentity (id_StableKey identity) (id_Name identity) (id_Context identity) (id_Source identity) (cm_Project m) (id_Service identity),
         if cm_Environment m =?s "" then label labels "coolify.environment" else cm_Environment m, cm_Infrastructure m)
    | None => (identity, label labels "coolify.environment", false)
    end in
  mkGroup identity (category labels identity) environment infrastructure [] no_total no_total no_total no_total no_total no_total []
    (negb (TrimSpace (label labels "binnacle.name") =?s "")) (negb (TrimSpace (label labels "binnacle.context") =?s "")).

Definition stopped_component (id : string) (v : Inspect) : ResourceComponent :=
  mkComponent id (in_Name v) (containerStatus (in_State v) (in_Health v)) (in_State v) (in_Health v) None None None None None None None.
(** The component with its figures; [previous]: the sample before *)
Definition running_component (now : Z) (hostTotal : option Z) (id : string) (v : Inspect) (stats : Stats) (previous : option dockerSample) : ResourceComponent :=
  let memory := NormalizeMemory (mkMemoryStats (st_Usage stats) (st_Limit stats) (st_InactiveFile stats) (st_PIDs stats)) (uint64Value hostTotal) in
  let cpu := match previous with
             | Some p => NormalizeCPU (mkCPUStats (st_TotalUsage (ds_value p)) (st_SystemUsage (ds_value p)) (st_OnlineCPUs (ds_value p)))
                           (mkCPUStats (st_TotalUsage stats) (st_SystemUsage stats) (st_OnlineCPUs stats)) (st_OnlineCPUs stats)
             | None => no_cpu
             end in
  let io := match previous with
            | Some p => NormalizeIO (st_IO (ds_value p)) (st_IO stats) (dur_Seconds (time_sub now (ds_at p)))
            | None => mkRates None None None None
            end in
  mkComponent id (in_Name v) (containerStatus (in_State v) (in_Health v)) (in_State v) (in_Health v) (cu_HostPercent cpu)
    (int64PtrFromFloat64Bytes (mu_WorkingSet memory)) (ra_RX io) (ra_TX io) (ra_Read io) (ra_Write io) (st_PIDs stats).
Definition add_component (c : ResourceComponent) (memory : option F64) (g : resourceGroup) : resourceGroup :=
  mkGroup (rg_identity g) (rg_category g) (rg_environment g) (rg_infrastructure g) (rg_components g ++ [c])
    (add_total (rg_cpu g) (rc_CPUHostPercent c)) (add_total (rg_memory g) memory) (add_total (rg_rx g) (rc_RXBPS c)) (add_total (rg_tx g) (rc_TXBPS c))
    (add_total (rg_read g) (rc_BlockReadBPS c)) (add_total (rg_write g) (rc_BlockWriteBPS c))
    (rg_status g ++ [rc_Status c]) (rg_manualName g) (rg_manualContext g).
Definition memory_of (hostTotal : option Z) (stats : Stats) : option F64 :=
  mu_WorkingSet (NormalizeMemory (mkMemoryStats (st_Usage stats) (st_Limit stats) (st_InactiveFile stats) (st_PIDs stats)) (uint64Value hostTotal)).

(** A container into its group *)
Definition group_container (v : Inspect) (c : ResourceComponent) (memory : option F64) (gs : gmap string resourceGroup) : gmap string resourceGroup :=
  let key := id_StableKey (identity_of v) in
  <[key := add_component c memory (default (new_group v) (gs !! key))]> gs.

Fixpoint collect_containers (t : Tick) (hostTotal : option Z) (i : nat) (l : list Container) (gs : gmap string resourceGroup) (s : Sampler) : (string + gmap string resourceGroup) * Sampler :=
  match l with
  | [] => (inr gs, s)
  | c :: l =>
      match inspect t i (ct_ID c) s with
      | (inl e, s) => (inl e, s)
      | (inr v, s) =>
          if negb (in_State v =?s "running")
          then collect_containers t hostTotal (S i) l (group_container v (stopped_component (ct_ID c) v) None gs) s
          else match tk_Stats t i (ct_ID c) with
          | inl e => (inl e, s)
          | inr stats =>
              let component := running_component (tk_now t) hostTotal (ct_ID c) v stats (sm_previousStats s !! ct_ID c) in
              collect_containers t hostTotal (S i) l (group_container v component (memory_of hostTotal stats) gs)
                (set_stats (<[ct_ID c := mkSample stats (tk_now t)]> (sm_previousStats s)) s)
          end
      end
  end.

Definition resourceID (stable : string) : string := "res_" +:+ of_bytes (take 16 (bytes (sha256_hex stable))).
Definition snapshot_of (now : Z) (kv : string * resourceGroup) : ResourceSnapshot :=
  let '(stable, g) := kv in
  mkResource (resourceID stable) (id_Name (rg_identity g)) (RollupStatus (rg_status g)) "" (number (rg_cpu g)) (integer (rg_memory g))
    (number (rg_rx g)) (number (rg_tx g)) (number (rg_read g)) (number (rg_write g)) now (rg_category g) (id_Context (rg_identity g))
    (id_Project (rg_identity g)) (rg_environment g) (rg_infrastructure g) (rg_components g) stable (id_Source (rg_identity g))
    (rg_manualName g) (rg_manualContext g).
(** [sort.Slice] by name: resources of one name stay in the map's order, which is any *)
Definition by_name (a b : ResourceSnapshot) : bool := String.leb (rs_Name a) (rs_Name b).
Definition collectDocker (t : Tick) (hostTotal : option Z) (s : Sampler) : (string + list ResourceSnapshot) * Sampler :=
  if negb have_docker then (inl "Docker client is not configured", s)
  else match tk_List t with
  | inl e => (inl e, s)
  | inr containers =>
      match collect_containers t hostTotal 0 containers ∅ s with
      | (inl e, s) => (inl e, s)
      | (inr gs, s) => (inr (sql_order_by by_name (map (snapshot_of (tk_now t)) (range_map gs))), s)
      end
  end.

(** ** A collection *)

Definition stored_resource (r : ResourceSnapshot) : Resource :=
  mkStoredResource (rs_ID r) "host" (rs_StableKey r) (rs_SourceKind r) (rs_Name r) (rs_Context r) (rs_Category r) (rs_Status r)
    (rs_Project r) (rs_Environment r) None.
(** The inventory; errors of the database are ignored. *)
Definition update_inventory (now : Z) (resources : list ResourceSnapshot) : tx StoreDB unit :=
  ignore (UpsertHost rfc3339 "host" (HostIdentity "" "binnacle-local-host") "Server") ;;;
  iter_tx (fun r => ignore (UpsertResource (stored_resource r))) resources ;;;
  ignore (ArchiveMissingResources (map rs_ID resources) (time_add now (- (5 * Minute)))).

(** What one collection publishes *)
Record collection := mkCollection { cl_sampler : Sampler; cl_filesystems : list FilesystemObservation; cl_snapshot : Snapshot; cl_fresh : bool }.
Definition gather (t : Tick) (s : Sampler) : collection :=
  let now := tk_now t in
  let '(host_result, s) := collectHost t s in
  let '(host, filesystems, boot, hostErr) :=
    match host_result with inr (h, fs, b) => (h, fs, b, None) | inl e => (zero_host, [], "", Some e) end in
  let s := set_host_failures (match hostErr with Some _ => sm_hostFailures s + 1 | None => 0 end) s in
  let '(docker_result, s) := collectDocker t (h_MemoryTotalBytes host) s in
  let '(resources, dockerErr) := match docker_result with inr l => (l, None) | inl e => (sm_lastResources s, Some e) end in
  let s := set_docker (match dockerErr with Some _ => sm_dockerFailures s + 1 | None => 0 end) resources s in
  mkCollection s filesystems
    (mkSnapshot 0 now boot host resources
       {["host" := health "host" (sm_hostFailures s) hostErr now; "docker" := health "docker" (sm_dockerFailures s) dockerErr now]})
    (match dockerErr with None => true | Some _ => false end).
Definition collect (t : Tick) (pending : list Event) (s : Sampler) (e : Engine) : tx StoreDB (Sampler * Engine) :=
  let c := gather t s in
  let e := match cl_filesystems c with [] => e | l => PublishFilesystems l e end in
  (if cl_fresh c && have_store then update_inventory (tk_now t) (sn_Resources (cl_snapshot c)) else ret tt) ;;;
  ret (cl_sampler c, Publish (tk_now t) (cl_snapshot c) pending e).
End sampler.

(** ** Containers and resources *)

Section partition.
Context `{SHA256} `{MapOrder} (url_hostname : string -> option string) (have_docker : bool).
Local Notation identity_of := (identity_of url_hostname).
Local Notation group_container := (group_container url_hostname).
Local Notation new_group := (new_group url_hostname).
Local Notation collect_containers := (collect_containers url_hostname).
Local Notation collectDocker := (collectDocker url_hostname have_docker).

(** What the collection takes each container to be: from the cache, or as the
    daemon answers *)
Fixpoint inspections (t : Tick) (i : nat) (l : list Container) (s : Sampler) : list (string * Inspect) :=
  match l with
  | [] => []
  | c :: l => match inspect t i (ct_ID c) s with
              | (inr v, s) => (ct_ID c, v) :: inspections t (S i) l s
              | (inl _, _) => []
              end
  end.
Definition key_of (v : Inspect) : string := id_StableKey (identity_of v).
(** The working set of the [i]-th container, as the daemon's statistics give
    it; a container that does not run has none *)
Definition container_memory (t : Tick) (hostTotal : option Z) (i : nat) (iv : string * Inspect) : option F64 :=
  if in_State iv.2 =?s "running" then match tk_Stats t i iv.1 with inr stats => memory_of hostTotal stats | inl _ => None end else None.
(** The working sets of the containers of a key, in the daemon's order *)
Fixpoint working_sets (t : Tick) (hostTotal : option Z) (key : string) (i : nat) (seen : list (string * Inspect)) : list (option F64) :=
  match seen with
  | [] => []
  | iv :: seen => if key_of iv.2 =?s key then container_memory t hostTotal i iv :: working_sets t hostTotal key (S i) seen
                  else working_sets t hostTotal key (S i) seen
  end.

(** One container handled: as it was inspected, its component, its memory *)
Record handled := mkHandled { hd_inspect : Inspect; hd_component : ResourceComponent; hd_memory : option F64 }.
Definition put_handled (gs : gmap string resourceGroup) (d : handled) : gmap string resourceGroup := group_container (hd_inspect d) (hd_component d) (hd_memory d) gs.
Definition add_handled (g : resourceGroup) (d : handled) : resourceGroup := add_component (hd_component d) (hd_memory d) g.
Definition of_key (key : string) (ds : list handled) : list handled := List.filter (fun d => key_of (hd_inspect d) =?s key) ds.

Lemma put_lookup ds key :
  fold_left put_handled ds ∅ !! key =
    match of_key key ds with [] => None | d :: _ => Some (fold_left add_handled (of_key key ds) (new_group (hd_inspect d))) end.
Proof.
  induction ds as [|d ds IH] using rev_ind; [done|]. rewrite fold_left_app. cbn [fold_left]. unfold of_key in *. rewrite List.filter_app. cbn [List.filter].
  unfold put_handled at 1, Sampler.group_container. cbv zeta. fold (key_of (hd_inspect d)). destruct (String.eqb_spec (key_of (hd_inspect d)) key) as [<-|Hne].
  - rewrite lookup_insert_eq, IH. destruct (List.filter _ ds) as [|d0 l]; [done|]. cbn [app default].
    change (d0 :: l ++ [d]) with ((d0 :: l) ++ [d]). by rewrite fold_left_app.
  - rewrite lookup_insert_ne, app_nil_r by done. exact IH.
Qed.

(** What a group accumulates *)
Lemma group_fold ds g :
  let g' := fold_left add_handled ds g in
  let cs := map hd_component ds in
  rg_components g' = rg_components g ++ cs /\ rg_status g' = rg_status g ++ map rc_Status cs /\
  rg_cpu g' = fold_left add_total (map rc_CPUHostPercent cs) (rg_cpu g) /\ rg_rx g' = fold_left add_total (map rc_RXBPS cs) (rg_rx g) /\
  rg_tx g' = fold_left add_total (map rc_TXBPS cs) (rg_tx g) /\ rg_read g' = fold_left add_total (map rc_BlockReadBPS cs) (rg_read g) /\
  rg_write g' = fold_left add_total (map rc_BlockWriteBPS cs) (rg_write g) /\ rg_memory g' = fold_left add_total (map hd_memory ds) (rg_memory g).
Proof.
  cbv zeta. revert g. induction ds as [|d ds IH]; intros g; [cbn; by rewrite !app_nil_r|]. cbn [fold_left map].
  destruct (IH (add_handled g d)) as (E1 & E2 & E3 & E4 & E5 & E6 & E7 & E8). rewrite E1, E2, E3, E4, E5, E6, E7, E8. cbn [add_handled add_component rg_components rg_status rg_cpu rg_rx rg_tx rg_read rg_write rg_memory].
  by rewrite <- !app_assoc.
Qed.
Lemma new_group_empty v :
  rg_components (new_group v) = [] /\ rg_status (new_group v) = [] /\ rg_cpu (new_group v) = no_total /\ rg_rx (new_group v) = no_total /\
  rg_tx (new_group v) = no_total /\ rg_read (new_group v) = no_total /\ rg_write (new_group v) = no_total /\ rg_memory (new_group v) = no_total.
Proof. unfold Sampler.new_group. by destruct (Coolify_Resolve (in_Labels v)). Qed.

Lemma inspect_stats t i id m s : inspect t i id (set_stats m s) = (fun r => (r.1, set_stats m r.2)) (inspect t i id s).
Proof.
  unfold inspect. change (sm_Cache (set_stats m s)) with (sm_Cache s). destruct (sm_Cache s ≫= Cache_Get id); [done|].
  destruct (tk_Inspect t i id); [done|]. by destruct (sm_Cache s).
Qed.
Lemma inspections_stats t l : forall i m s, inspections t i l (set_stats m s) = inspections t i l s.
Proof.
  induction l as [|c l IH]; intros i m s; [done|]. cbn [inspections]. rewrite inspect_stats.
  destruct (inspect t i (ct_ID c) s) as [[e|v] s']; [done|]. cbn. by rewrite IH.
Qed.
(** The component is the container's. *)
Definition component_of (id : string) (v : Inspect) (c : ResourceComponent) : Prop :=
  rc_ID c = id /\ rc_Name c = in_Name v /\ rc_Status c = containerStatus (in_State v) (in_Health v) /\ rc_RuntimeState c = in_State v.
Definition handles (iv : string * Inspect) (d : handled) : Prop :=
  hd_inspect d = iv.2 /\ component_of iv.1 iv.2 (hd_component d) /\ rc_MemoryBytes (hd_component d) = int64PtrFromFloat64Bytes (hd_memory d).
Lemma collect_containers_handled t ht l : forall i gs s gs' s',
  collect_containers t ht i l gs s = (inr gs', s') ->
  exists ds, gs' = fold_left put_handled ds gs /\ map ct_ID l = map fst (inspections t i l s) /\
    Forall2 handles (inspections t i l s) ds /\
    forall key, working_sets t ht key i (inspections t i l s) = map hd_memory (of_key key ds).
Proof.
  induction l as [|c l IH]; intros i gs s gs' s' Hc; [injection Hc as <- <-; by exists []|]. cbn [Sampler.collect_containers inspections] in *.
  destruct (inspect t i (ct_ID c) s) as [[e|v] s1]; [done|]. destruct (in_State v =?s "running") eqn:Er; cbn [negb] in Hc.
  - destruct (tk_Stats t i (ct_ID c)) as [e|stats] eqn:Es; [done|]. apply IH in Hc as (ds & -> & Hm & Hf & Hw). rewrite inspections_stats in Hm, Hf, Hw.
    exists (mkHandled v (running_component (tk_now t) ht (ct_ID c) v stats (sm_previousStats s1 !! ct_ID c)) (memory_of ht stats) :: ds).
    split_and!; [done|cbn; by rewrite Hm|by constructor|]. intros key. cbn [working_sets fst snd]. unfold of_key, container_memory. cbn [List.filter hd_inspect fst snd].
    rewrite Er, Es, Hw. by destruct (key_of v =?s key).
  - apply IH in Hc as (ds & -> & Hm & Hf & Hw). exists (mkHandled v (stopped_component (ct_ID c) v) None :: ds). split_and!; [done|cbn; by rewrite Hm|by constructor|].
    intros key. cbn [working_sets fst snd]. unfold of_key, container_memory. cbn [List.filter hd_inspect fst snd]. rewrite Er, Hw. by destruct (key_of v =?s key).
Qed.

Lemma range_lookup (gs : gmap string resourceGroup) key g : (key, g) ∈ range_map gs <-> gs !! key = Some g.
Proof. rewrite range_map_perm. apply elem_of_map_to_list. Qed.
(** The figures of a resource are the sums over its components; its memory is
    the sum of their working sets, [working], each of them the figure that the
    component shows. *)
Definition sums (working : list (option F64)) (r : ResourceSnapshot) : Prop :=
  let sum get := number (fold_left add_total (map get (rs_Components r)) no_total) in
  rs_CPUHostPercent r = sum rc_CPUHostPercent /\ rs_RXBPS r = sum rc_RXBPS /\ rs_TXBPS r = sum rc_TXBPS /\
  rs_BlockReadBPS r = sum rc_BlockReadBPS /\ rs_BlockWriteBPS r = sum rc_BlockWriteBPS /\
  rs_MemoryBytes r = integer (fold_left add_total working no_total) /\
  map rc_MemoryBytes (rs_Components r) = map int64PtrFromFloat64Bytes working.
Lemma snapshot_components now key ds g :
  fold_left put_handled ds ∅ !! key = Some g ->
  Forall (fun d => rc_MemoryBytes (hd_component d) = int64PtrFromFloat64Bytes (hd_memory d)) ds ->
  let r := snapshot_of now (key, g) in
  of_key key ds <> [] /\ rs_Components r = map hd_component (of_key key ds) /\
  rs_Status r = RollupStatus (map rc_Status (rs_Components r)) /\ sums (map hd_memory (of_key key ds)) r.
Proof.
  intros Hg Hm. rewrite put_lookup in Hg. assert (Forall (fun d => rc_MemoryBytes (hd_component d) = int64PtrFromFloat64Bytes (hd_memory d)) (of_key key ds)) as Hk.
  { apply Forall_forall. intros d [Hd _]%list_elem_of_In%filter_In. by apply (proj1 (Forall_forall _ _) Hm), list_elem_of_In. }
  destruct (of_key key ds) as [|d l] eqn:E; [done|]. apply (inj Some) in Hg. subst g. cbv zeta.
  destruct (group_fold (d :: l) (new_group (hd_inspect d))) as (E1 & E2 & E3 & E4 & E5 & E6 & E7 & E8).
  destruct (new_group_empty (hd_inspect d)) as (N1 & N2 & N3 & N4 & N5 & N6 & N7 & N8).
  rewrite N1 in E1. rewrite N2 in E2. rewrite N3 in E3. rewrite N4 in E4. rewrite N5 in E5. rewrite N6 in E6. rewrite N7 in E7. rewrite N8 in E8. cbn [app] in E1, E2.
  split; [done|]. unfold sums. cbn [snapshot_of rs_Components rs_Status rs_CPUHostPercent rs_RXBPS rs_TXBPS rs_BlockReadBPS rs_BlockWriteBPS rs_MemoryBytes].
  rewrite E1, E2, E3, E4, E5, E6, E7, E8. split_and!; [done..|]. rewrite !map_map. by apply Forall_fmap_ext.
Qed.
Lemma handles_memory seen ds :
  Forall2 handles seen ds -> Forall (fun d => rc_MemoryBytes (hd_component d) = int64PtrFromFloat64Bytes (hd_memory d)) ds.
Proof. induction 1 as [|iv d seen ds (_ & _ & Hm) _ IH]; by constructor. Qed.
Lemma of_key_components key (seen : list (string * Inspect)) ds :
  Forall2 handles seen ds ->
  Forall2 (fun iv c => component_of iv.1 iv.2 c) (List.filter (fun iv => key_of iv.2 =?s key) seen) (map hd_component (of_key key ds)).
Proof.
  unfold of_key. induction 1 as [|iv d seen ds (Hi & Hc & _) _ IH]; [constructor|]. cbn [List.filter]. rewrite Hi.
  destruct (key_of iv.2 =?s key); [by constructor|done].
Qed.

(** The statuses, the better first *)
Definition severity_order : list string := [StatusHealthy; StatusPaused; StatusUnknown; StatusDegraded; StatusDown].
(** A status of the list that none of the list is worse than *)
Definition worst_of (st : string) (l : list string) : Prop :=
  st ∈ l /\ forall x, x ∈ l -> exists i j, severity_order !! i = Some x /\ severity_order !! j = Some st /\ (i <= j)%nat.
Lemma container_status_cases state health :
  containerStatus state health ∈ [StatusHealthy; StatusPaused; StatusUnknown; StatusDown].
Proof. unfold containerStatus. repeat case_match; set_solver. Qed.
Lemma rank_order x : x ∈ [StatusHealthy; StatusPaused; StatusUnknown; StatusDown] -> 0 <= status_rank x /\ severity_order !! Z.to_nat (status_rank x) = Some x.
Proof. intros Hx. repeat (apply elem_of_cons in Hx as [-> | Hx]; [done|]). by apply elem_of_nil in Hx. Qed.
Lemma rollup_components l :
  l <> [] -> Forall (fun x => x ∈ [StatusHealthy; StatusPaused; StatusUnknown; StatusDown]) l -> worst_of (RollupStatus l) l.
Proof.
  intros Hne Hl. destruct (rollup_worst l) as (Hin & Hle & _). rewrite Forall_forall in Hl.
  assert (RollupStatus l ∈ l) as Hst.
  { destruct Hin as [E|]; [|done]. rewrite E in *. destruct l as [|x l]; [done|].
    assert (x = StatusHealthy) as ->; [|by left]. destruct (rank_order x (Hl x ltac:(by left))) as [Hp Hx].
    specialize (Hle x ltac:(by left)). change (status_rank StatusHealthy) with 0 in Hle. replace (status_rank x) with 0 in Hx by lia.
    by apply (inj Some) in Hx. }
  split; [done|]. intros x Hx. destruct (rank_order _ (Hl _ Hx)) as [P1 P2], (rank_order _ (Hl _ Hst)) as [P3 P4].
  eexists _, _. split_and!; [exact P2|exact P4|]. specialize (Hle x Hx). lia.
Qed.

(** C24 (functional): the containers are divided among the resources.  When a
    collection succeeds, every container of the daemon's list was inspected;
    resources have distinct stable keys and are sorted by name; the components
    of a resource are exactly the containers of its key, in the daemon's
    order, each with its status; a resource has a component; its status is the
    status of a component that none of the others is worse than; its processor,
    network and disk figures are the sums over the components that have them,
    and its memory is the sum of the working sets of those containers that run,
    as the daemon's statistics give them. *)
Theorem resources_partition (t : Tick) (hostTotal : option Z) (s s' : Sampler) (l : list Container) (rs : list ResourceSnapshot) :
  tk_List t = inr l -> collectDocker t hostTotal s = (inr rs, s') ->
  let seen := inspections t 0 l s in
  map fst seen = map ct_ID l /\ NoDup (map rs_StableKey rs) /\ Sorted (fun a b => by_name a b = true) rs /\
  (forall id v, (id, v) ∈ seen -> exists r, r ∈ rs /\ rs_StableKey r = key_of v) /\
  (forall r, r ∈ rs ->
     Forall2 (fun iv c => component_of iv.1 iv.2 c) (List.filter (fun iv => key_of iv.2 =?s rs_StableKey r) seen) (rs_Components r) /\
     rs_Components r <> [] /\ rs_ID r = resourceID (rs_StableKey r) /\ rs_LastSeenAt r = tk_now t /\
     worst_of (rs_Status r) (map rc_Status (rs_Components r)) /\ sums (working_sets t hostTotal (rs_StableKey r) 0 seen) r).
Proof.
  intros Hl. unfold Sampler.collectDocker. rewrite Hl. destruct have_docker; [|done]. cbn [negb].
  destruct (collect_containers t hostTotal 0 l ∅ s) as [[e|gs] s1] eqn:E; [done|]. intros [= <- <-]. cbv zeta.
  apply collect_containers_handled in E as (ds & -> & Hm & Hf & Hw). set (seen := inspections t 0 l s) in *.
  set (gs := fold_left put_handled ds ∅) in *. pose proof (sql_order_by_perm by_name (map (snapshot_of (tk_now t)) (range_map gs))) as Hp.
  assert (forall r, r ∈ sql_order_by by_name (map (snapshot_of (tk_now t)) (range_map gs)) <->
    exists key g, r = snapshot_of (tk_now t) (key, g) /\ gs !! key = Some g) as Hr.
  { intros r. rewrite Hp, list_elem_of_In, in_map_iff. setoid_rewrite <- list_elem_of_In. split.
    - intros ([key g] & <- & Hin%range_lookup). by exists key, g.
    - intros (key & g & -> & Hg). exists (key, g). split; [done|by apply range_lookup]. }
  split_and!.
  - done.
  - rewrite Hp, map_map. erewrite (map_ext _ fst); [|by intros []]. rewrite range_map_perm. apply NoDup_fst_map_to_list.
  - apply sql_order_by_sorted. intros a b. unfold by_name. destruct (String.leb_total (rs_Name a) (rs_Name b)) as [E|E]; congruence.
  - intros id v Hin. apply list_elem_of_lookup_1 in Hin as [i Hi]. destruct (Forall2_lookup_l _ _ _ _ _ Hf Hi) as (d & Hd & Hv & _). cbn in Hv.
    destruct (gs !! key_of v) as [g|] eqn:Eg; [exists (snapshot_of (tk_now t) (key_of v, g)); split; [apply Hr; eauto|done]|].
    exfalso. subst gs. rewrite put_lookup in Eg. destruct (of_key (key_of v) ds) eqn:Eo; [|done].
    apply list_elem_of_lookup_2, list_elem_of_In in Hd. assert (In d []) as []. rewrite <- Eo. apply filter_In. by rewrite Hv, String.eqb_refl.
  - intros r (key & g & -> & Hg)%Hr. destruct (snapshot_components (tk_now t) key ds g Hg) as (Hne & Hc & Hs & Hsum); [by eapply handles_memory|].
    assert (Forall2 (fun iv c => component_of iv.1 iv.2 c) (List.filter (fun iv => key_of iv.2 =?s key) seen) (rs_Components (snapshot_of (tk_now t) (key, g)))) as Hcs
      by (rewrite Hc; by apply of_key_components).
    assert (rs_Components (snapshot_of (tk_now t) (key, g)) <> []) as Hn by (rewrite Hc; by intros E%map_eq_nil).
    split_and!; [exact Hcs|exact Hn|done|done| |change (rs_StableKey _) with key; by rewrite Hw]. rewrite Hs. apply rollup_components; [by intros E%map_eq_nil|].
    apply Forall_fmap, Forall_forall. intros c [i Hi]%list_elem_of_lookup_1. destruct (Forall2_lookup_r _ _ _ _ _ Hcs Hi) as (iv & _ & _ & _ & E & _).
    cbn. rewrite E. apply container_status_cases.
Qed.
End partition.

(** ** The loop

    [run]: collections, and events of the daemon while it waits.  [pending]
    are the events since the last collection. *)

Inductive input :=
  | ICollect (t : Tick)
  | IEvent (e : DockerEvent) (inspect : string -> string + Inspect).

Section loop.
Context `{SHA256} `{MapOrder} (url_hostname : string -> option string) (parse_error : string -> string -> string).
Context (proc_root data_dir : string) (have_docker : bool).
Local Notation gather := (gather url_hostname parse_error proc_root data_dir have_docker).
Local Notation collectHost := (collectHost parse_error proc_root data_dir).
Local Notation collectDocker := (collectDocker url_hostname have_docker).

(** What is published, and the state after it *)
Definition loop_step (i : input) (s : Sampler * list Event) : option (Snapshot * list Event) * (Sampler * list Event) :=
  match i with
  | ICollect t => let c := gather t s.1 in (Some (cl_snapshot c, s.2), (cl_sampler c, []))
  | IEvent e inspect => (None, (handleDockerEvent inspect e s.1, push_event e s.2))
  end.
Fixpoint run (inputs : list input) (s : Sampler * list Event) : list (Snapshot * list Event) * (Sampler * list Event) :=
  match inputs with
  | [] => ([], s)
  | i :: inputs =>
      let '(out, s) := loop_step i s in
      let '(outs, s) := run inputs s in
      (match out with Some p => p :: outs | None => outs end, s)
  end.

(** *** While the daemon is down *)

Definition daemon_down (i : input) : Prop := match i with ICollect t => exists e, tk_List t = inl e | IEvent _ _ => True end.
Definition failed_state (n : Z) : string := if 6 <=? n then CollectorDown else if 3 <=? n then CollectorDegraded else CollectorHealthy.

Lemma event_keeps inspect e s :
  sm_lastResources (handleDockerEvent inspect e s) = sm_lastResources s /\ sm_dockerFailures (handleDockerEvent inspect e s) = sm_dockerFailures s.
Proof. unfold handleDockerEvent. split; repeat case_match; done. Qed.
Lemma host_keeps t s :
  sm_lastResources (collectHost t s).2 = sm_lastResources s /\ sm_dockerFailures (collectHost t s).2 = sm_dockerFailures s /\ sm_Cache (collectHost t s).2 = sm_Cache s.
Proof. unfold Sampler.collectHost. by destruct (read_host _ _ t). Qed.
Lemma gather_down t s :
  daemon_down (ICollect t) ->
  let c := gather t s in
  sn_Resources (cl_snapshot c) = sm_lastResources s /\ co_State <$> sn_Collectors (cl_snapshot c) !! "docker" = Some (failed_state (sm_dockerFailures s + 1)) /\
  sm_lastResources (cl_sampler c) = sm_lastResources s /\ sm_dockerFailures (cl_sampler c) = sm_dockerFailures s + 1.
Proof.
  intros [e He]. cbv zeta. unfold Sampler.gather. destruct (host_keeps t s) as (Hl & Hf & _). destruct (collectHost t s) as [host s1]. cbn [snd] in Hl, Hf.
  destruct (match host with inl _ => _ | inr _ => _ end) as [[[h fs] b] err]. unfold Sampler.collectDocker. rewrite He.
  destruct have_docker; cbn [negb cl_snapshot sn_Resources sn_Collectors cl_sampler sm_lastResources sm_dockerFailures set_docker set_host_failures];
    rewrite Hl, Hf, lookup_insert_ne, lookup_singleton_eq by done; done.
Qed.
(** The count of the host's failures plays no part in the containers. *)
Lemma inspect_host_failures n t i id s : inspect t i id (set_host_failures n s) = (fun r => (r.1, set_host_failures n r.2)) (inspect t i id s).
Proof.
  unfold inspect. change (sm_Cache (set_host_failures n s)) with (sm_Cache s). destruct (sm_Cache s ≫= Cache_Get id); [done|].
  destruct (tk_Inspect t i id); [done|]. by destruct (sm_Cache s).
Qed.
Lemma containers_host_failures n t ht l : forall i gs s,
  (collect_containers url_hostname t ht i l gs (set_host_failures n s)).1 = (collect_containers url_hostname t ht i l gs s).1.
Proof.
  induction l as [|c l IH]; intros i gs s; [done|]. cbn [collect_containers]. rewrite inspect_host_failures.
  destruct (inspect t i (ct_ID c) s) as [[e|v] s']; [done|]. cbn. destruct (negb _); [apply IH|]. destruct (tk_Stats t i (ct_ID c)); [done|].
  refine (IH _ _ (set_stats _ _)).
Qed.
Lemma docker_host_failures n t ht s : (collectDocker t ht (set_host_failures n s)).1 = (collectDocker t ht s).1.
Proof.
  unfold Sampler.collectDocker. destruct (negb have_docker); [done|]. destruct (tk_List t) as [e|l]; [done|].
  pose proof (containers_host_failures n t ht l 0 ∅ s) as E. do 2 destruct (collect_containers _ _ _ _ _ _ _) as [[] ?]; cbn [fst] in *; congruence.
Qed.

(** What the daemon's containers come to in the collection of a tick, after the
    host's figures have been read: the resources, or the error *)
Definition docker_found (t : Tick) (s : Sampler) : string + list ResourceSnapshot :=
  let '(host, s1) := collectHost t s in
  (collectDocker t (match host with inr (h, _, _) => h_MemoryTotalBytes h | inl _ => None end) s1).1.

(** A collection publishes what it found. *)
Lemma gather_found t s :
  let c := gather t s in
  match docker_found t s with
  | inr rs =>
      sn_Resources (cl_snapshot c) = rs /\ co_State <$> sn_Collectors (cl_snapshot c) !! "docker" = Some CollectorHealthy /\
      co_Reason <$> sn_Collectors (cl_snapshot c) !! "docker" = Some "" /\
      sm_lastResources (cl_sampler c) = rs /\ sm_dockerFailures (cl_sampler c) = 0 /\ cl_fresh c = true
  | inl _ => cl_fresh c = false
  end.
Proof.
  cbv zeta. unfold docker_found, Sampler.gather. destruct (collectHost t s) as [host s1].
  set (m := match host with inl _ => _ | inr _ => _ end). set (q := match host with inl e => _ | inr _ => _ end).
  assert (h_MemoryTotalBytes q.1.1.1 = m) as Eq by (subst m q; by destruct host as [|[[] ?]]).
  destruct q as [[[h fs] b] err]. cbn [fst] in Eq. rewrite Eq.
  rewrite <- (docker_host_failures (match err with Some _ => sm_hostFailures s1 + 1 | None => 0 end)).
  destruct (collectDocker t m _) as [[e|rs] s2]; [done|]. cbn [fst cl_snapshot sn_Collectors cl_sampler sm_lastResources sm_dockerFailures set_docker sn_Resources cl_fresh].
  rewrite lookup_insert_ne, lookup_singleton_eq by done. done.
Qed.

(** C25 (safety): an outage of the daemon is shown, and hides nothing.  From a
    collection that succeeded, while the daemon does not answer, every
    snapshot keeps the resources of that collection, events in between or
    not; the Docker collector is healthy for the first two failures, degraded
    from the third and down from the sixth; and the first collection in which
    the daemon's containers can be collected again publishes the resources
    that it collects, keeps them for the next outage, and makes the collector
    healthy. *)
Theorem docker_outage (inputs : list input) (s s' : Sampler) (pending pending' : list Event) (out : list (Snapshot * list Event)) :
  sm_dockerFailures s = 0 -> Forall daemon_down inputs -> run inputs (s, pending) = (out, (s', pending')) ->
  (forall k snapshot events, out !! k = Some (snapshot, events) ->
     sn_Resources snapshot = sm_lastResources s /\
     co_State <$> sn_Collectors snapshot !! "docker" = Some (failed_state (Z.of_nat k + 1))) /\
  (forall t, match docker_found t s' with
             | inr rs =>
                 let c := gather t s' in
                 sn_Resources (cl_snapshot c) = rs /\ co_State <$> sn_Collectors (cl_snapshot c) !! "docker" = Some CollectorHealthy /\
                 co_Reason <$> sn_Collectors (cl_snapshot c) !! "docker" = Some "" /\
                 sm_lastResources (cl_sampler c) = rs /\ sm_dockerFailures (cl_sampler c) = 0 /\ cl_fresh c = true
             | inl _ => cl_fresh (gather t s') = false
             end).
Proof.
  intros H0s Hd Hr. split; [|intros t; apply gather_found].
  assert (forall k snapshot events, out !! k = Some (snapshot, events) -> sn_Resources snapshot = sm_lastResources s /\
    co_State <$> sn_Collectors snapshot !! "docker" = Some (failed_state (sm_dockerFailures s + Z.of_nat k + 1))) as Hk; [|by rewrite H0s in Hk].
  clear H0s. revert s pending out Hr. induction Hd as [|i inputs Hi _ IH]; intros s pending out Hr; [injection Hr as <- <- <-; intros k ? ? Hk; by destruct k|].
  cbn [run] in Hr. destruct i as [t|e inspect]; cbn [loop_step fst snd] in Hr.
  - destruct (gather_down t s Hi) as (H1 & H2 & H3 & H4). destruct (run inputs _) as [outs [s2 p2]] eqn:Er. injection Hr as <- <- <-.
    intros [|k] snapshot events Hk; cbn in Hk.
    + injection Hk as <- <-. by rewrite Z.add_0_r.
    + destruct (IH _ _ _ Er k snapshot events Hk) as [E1 E2]. rewrite E1, E2, H3, H4. split; [done|]. do 2 f_equal. lia.
  - destruct (event_keeps inspect e s) as [H1 H2]. destruct (run inputs _) as [outs [s2 p2]] eqn:Er. injection Hr as <- <- <-.
    intros k snapshot events Hk. destruct (IH _ _ _ Er k snapshot events Hk) as [E1 E2]. by rewrite E1, E2, H1, H2.
Qed.

(** *** What the cache may hold *)

Definition confined (v : CacheMetadata) : Prop := forall k, is_Some (ca_Environment v !! k) -> str_in k allowedEnvironmentKeys = true.
Definition cache_confined (s : Sampler) : Prop := match sm_Cache s with Some c => forall id v, Cache_Get id c = Some v -> confined v | None => True end.
(** The daemon is asked through the adapter. *)
Definition adapted (answer : string + Inspect) : Prop := exists sdk, answer = Engine_Inspect sdk.
Definition through_adapter (i : input) : Prop :=
  match i with ICollect t => forall n id, adapted (tk_Inspect t n id) | IEvent _ inspect => forall id, adapted (inspect id) end.

Lemma adapted_confined v : adapted (inr v) -> confined (metadata_of v).
Proof.
  intros [[e|a] Ha]; [done|]. unfold Engine_Inspect in Ha. intros k. cbn [metadata_of ca_Environment].
  destruct (si_Config a) as [c|], (si_State a) as [[]|]; injection Ha as ->; cbn [in_Environment];
    first [apply allowed_only | intros [x Hx]; by rewrite lookup_empty in Hx].
Qed.
Lemma set_confined v c : confined v -> (forall id w, Cache_Get id c = Some w -> confined w) -> forall id w, Cache_Get id (Cache_Set v c) = Some w -> confined w.
Proof.
  intros Hv Hc id w. unfold Cache_Get, Cache_Set. destruct (decide (ca_ID v = id)) as [<-|Hne].
  - rewrite lookup_insert_eq. by intros [= <-].
  - rewrite lookup_insert_ne by done. apply Hc.
Qed.
Lemma inspect_confined t i id s : (forall n id, adapted (tk_Inspect t n id)) -> cache_confined s -> cache_confined (inspect t i id s).2.
Proof.
  intros Ha Hs. unfold inspect. destruct (sm_Cache s ≫= Cache_Get id); [done|]. specialize (Ha i id). destruct (tk_Inspect t i id) as [e|v]; [done|].
  unfold cache_confined in *. cbn [snd]. destruct (sm_Cache s) as [c|] eqn:E; [|by rewrite E]. cbn [sm_Cache set_cache].
  apply set_confined; [by apply adapted_confined|done].
Qed.
Lemma containers_confined t ht l : (forall n id, adapted (tk_Inspect t n id)) -> forall i gs s,
  cache_confined s -> cache_confined (collect_containers url_hostname t ht i l gs s).2.
Proof.
  intros Ha. induction l as [|c l IH]; intros i gs s Hs; [done|]. cbn [collect_containers].
  pose proof (inspect_confined t i (ct_ID c) s Ha Hs) as Hi. destruct (inspect t i (ct_ID c) s) as [[e|v] s1]; [done|]. cbn [snd] in Hi.
  destruct (negb _); [by apply IH|]. destruct (tk_Stats t i (ct_ID c)); [done|]. by apply IH.
Qed.
Lemma gather_confined t s : through_adapter (ICollect t) -> cache_confined s -> cache_confined (cl_sampler (gather t s)).
Proof.
  intros Ha Hs. unfold Sampler.gather. destruct (host_keeps t s) as (_ & _ & Hc). destruct (collectHost t s) as [host s1]. cbn [snd] in Hc.
  destruct (match host with inl _ => _ | inr _ => _ end) as [[[h fs] b] err].
  set (s2 := set_host_failures _ s1). assert (cache_confined s2) as H2 by (unfold cache_confined in *; subst s2; cbn [sm_Cache set_host_failures]; by rewrite Hc).
  assert (cache_confined (collectDocker t (h_MemoryTotalBytes h) s2).2) as H3.
  { unfold Sampler.collectDocker. destruct (negb have_docker); [done|]. destruct (tk_List t) as [e|l]; [done|].
    pose proof (containers_confined t (h_MemoryTotalBytes h) l Ha 0 ∅ s2 H2) as Hd. by destruct (collect_containers _ t _ 0 l ∅ s2) as [[e|gs] s3]. }
  by destruct (collectDocker t (h_MemoryTotalBytes h) s2) as [[e|rs] s3].
Qed.
Lemma event_confined inspect e s : through_adapter (IEvent e inspect) -> cache_confined s -> cache_confined (handleDockerEvent inspect e s).
Proof.
  intros Ha Hs. unfold handleDockerEvent. destruct (sm_Cache s) as [c|] eqn:E; [|done]. pose proof Hs as Hc. unfold cache_confined in Hc. rewrite E in Hc.
  destruct (ToLower (de_Action e) =?s "destroy").
  { unfold cache_confined. cbn [sm_Cache set_cache]. intros id v. unfold Cache_Get, Cache_Remove. intros [_ Hv]%lookup_delete_Some. by apply (Hc id). }
  destruct (str_in _ ["die"; _; _]).
  { destruct (Cache_Get (de_ID e) c) as [v|] eqn:Ev; [|done]. unfold cache_confined. cbn [sm_Cache set_cache]. apply set_confined; [|done]. exact (Hc _ _ Ev). }
  destruct (str_in _ _); [|done]. specialize (Ha (de_ID e)). destruct (inspect (de_ID e)) as [x|v]; [done|].
  unfold cache_confined. cbn [sm_Cache set_cache]. apply set_confined; [by apply adapted_confined|done].
Qed.

(** C26 (safety): no container's secrets are kept.  Whatever collections and
    events come, the environment in the collector's cache holds no variable
    other than the three of Coolify's metadata, when the daemon is asked
    through the adapter. *)
Theorem environment_confined (inputs : list input) (s : Sampler * list Event) :
  Forall through_adapter inputs -> cache_confined s.1 ->
  forall cache id v key, sm_Cache (run inputs s).2.1 = Some cache -> Cache_Get id cache = Some v -> is_Some (ca_Environment v !! key) ->
    In key ["COOLIFY_FQDN"; "COOLIFY_URL"; "COOLIFY_RESOURCE_UUID"].
Proof.
  intros Hi Hs cache id v key Hc Hv Hk. apply str_in_spec. assert (cache_confined (run inputs s).2.1) as Hr.
  { clear -Hi Hs. revert s Hs. induction Hi as [|i inputs Hi _ IH]; intros s Hs; [done|]. cbn [run].
    assert (cache_confined (loop_step i s).2.1) as H2 by (destruct i; [by apply gather_confined|by apply event_confined]).
    destruct (loop_step i s) as [o s2]. specialize (IH s2 H2). by destruct (run inputs s2). }
  unfold cache_confined in Hr. rewrite Hc in Hr. exact (Hr id v Hv key Hk).
Qed.
End loop.

(** ** Events between two collections *)

Lemma keep_last_snoc {A} n (l : list A) x : keep_last (S n) (l ++ [x]) = (if (length (keep_last (S n) l) =? S n)%nat then tl (keep_last (S n) l) else keep_last (S n) l) ++ [x].
Proof.
  unfold keep_last. rewrite length_app. cbn [length]. rewrite length_skipn. destruct (Nat.eqb_spec (length l - (length l - S n)) (S n)) as [E|E].
  - replace (length l + 1 - S n)%nat with (S (length l - S n)) by lia. rewrite skipn_app. replace (S (length l - S n) - length l)%nat with O by lia.
    cbn [skipn]. f_equal. rewrite <- (skipn_skipn 1). by destruct (skipn _ l).
  - replace (length l + 1 - S n)%nat with O by lia. replace (length l - S n)%nat with O by lia. done.
Qed.
(** A collection publishes the last 128 of the events that are recorded. *)
Lemma pending_latest es : fold_left (fun p e => push_event e p) es [] = keep_last maxPending (omap (fun e => NormalizeDocker e false) es).
Proof.
  induction es as [|e es IH] using rev_ind; [done|]. rewrite fold_left_app, omap_app. cbn [fold_left omap list_omap]. rewrite IH. unfold push_event.
  destruct (NormalizeDocker e false) as [v|]; [|by rewrite app_nil_r]. by rewrite (keep_last_snoc 127).
Qed.

(** ** What the collector misses *)

(** A container that stops is cached under the name of the event, which is no
    state: it is unknown, not down or paused, until it is started again. *)
Lemma stopped_reported_unknown f e s cache v t i :
  sm_Cache s = Some cache -> Cache_Get (de_ID e) cache = Some v -> ca_ID v = de_ID e -> In (ToLower (de_Action e)) ["die"; "stop"; "pause"] ->
  exists w, (inspect t i (de_ID e) (handleDockerEvent f e s)).1 = inr w /\ containerStatus (in_State w) (in_Health w) = StatusUnknown.
Proof.
  intros Hc Hv Hid Hin. unfold handleDockerEvent. rewrite Hc.
  assert (ToLower (de_Action e) =?s "destroy" = false) as -> by (by destruct Hin as [<-|[<-|[<-|[]]]]).
  rewrite (proj2 (str_in_spec _ _) Hin), Hv. unfold inspect. cbn [sm_Cache set_cache mbind option_bind]. unfold Cache_Get, Cache_Set. cbn [ca_ID].
  rewrite Hid, lookup_insert_eq. eexists. split; [reflexivity|]. cbn [inspect_of in_State in_Health ca_State ca_Health].
  by destruct Hin as [<-|[<-|[<-|[]]]].
Qed.
(** The daemon's health events name the new state, and are not recognised. *)
Lemma health_event_ignored f id at_ s : handleDockerEvent f (mkDockerEvent id "health_status: healthy" at_) s = s.
Proof. unfold handleDockerEvent. destruct (sm_Cache s); [|done]. vm_compute (ToLower _). done. Qed.
(** The share of used inodes, which two alert rules watch, is never collected. *)
Lemma inode_percent_missing t mounts : forall seen, Forall (fun fs => fo_InodesUsedPercent fs = None) (collect_mounts t seen mounts).
Proof.
  induction mounts as [|m mounts IH]; intros seen; [constructor|]. cbn [collect_mounts]. destruct (str_in _ seen); [apply IH|].
  destruct (tk_statfs t (mo_Target m)); [|apply IH]. by constructor.
Qed.

(** ** Examples and witnesses *)

(** Two containers of a Compose service and one of its own, all stopped *)
Definition stopped (id name : string) (labels : gmap string string) : Inspect :=
  mkInspect id name "image" "" "exited" "" false labels ∅ [] [].
Definition sample_inspect (id : string) : string + Inspect :=
  if id =?s "c3" then inr (stopped id "db" ∅)
  else inr (stopped id id {["com.docker.compose.project" := "shop"; "com.docker.compose.service" := "web"]}).
Definition sample_tick (list : string + list Container) : Tick :=
  mkTick (100 * Second) (fun _ => inl "no such file") (fun _ => None) list (fun _ => sample_inspect) (fun _ _ => inl "not running").
Definition sample_list : list Container := [mkContainer "c1" "" ""; mkContainer "c3" "" ""; mkContainer "c2" "" ""].

Definition sample_resources : list ResourceSnapshot :=
  match (collectDocker (fun _ => None) true (sample_tick (inr sample_list)) None (new_sampler (Some ∅))).1 with inr rs => rs | inl _ => [] end.
Example sample_components :
  map (fun r => (rs_StableKey r, rs_Name r, map rc_ID (rs_Components r), rs_Status r)) sample_resources =
    [("derived:" +:+ of_bytes (take 20 (bytes (sha256_hex (nul +:+ nul +:+ nul +:+ "db")))), "db", ["c3"], StatusDown);
     ("compose:shop:web", "web", ["c1"; "c2"], StatusDown)].
Proof. vm_compute. reflexivity. Qed.
(** The two of the service run: one starts, with 200 bytes in use, and one is
    healthy, with 500. *)
Definition running_inspect (id : string) : string + Inspect :=
  if id =?s "c3" then inr (stopped id "db" ∅)
  else inr (mkInspect id id "image" "" "running" (if id =?s "c1" then "starting" else "healthy") false
    {["com.docker.compose.project" := "shop"; "com.docker.compose.service" := "web"]} ∅ [] []).
Definition running_tick : Tick :=
  mkTick (100 * Second) (fun _ => inl "no such file") (fun _ => None) (inr sample_list) (fun _ => running_inspect)
    (fun _ id => inr (mkStats 0 0 1 (if id =?s "c1" then 300 else 600) 1000 100 (mkIO 0 0 0 0) None)).
Definition running_resources : list ResourceSnapshot :=
  match (collectDocker (fun _ => None) true running_tick None (new_sampler (Some ∅))).1 with inr rs => rs | inl _ => [] end.
Lemma resources_partition_witness :
  NoDup (map rs_StableKey running_resources) /\
  map (fun r => (rs_Name r, rs_Status r, rs_MemoryBytes r)) running_resources = [("db", StatusDown, None); ("web", StatusUnknown, Some 700)] /\
  forall r, r ∈ running_resources ->
    worst_of (rs_Status r) (map rc_Status (rs_Components r)) /\
    rs_MemoryBytes r = integer (fold_left add_total (working_sets (fun _ => None) running_tick None (rs_StableKey r) 0
      (inspections running_tick 0 sample_list (new_sampler (Some ∅)))) no_total).
Proof.
  destruct (resources_partition (fun _ => None) true running_tick None (new_sampler (Some ∅))
    (collectDocker (fun _ => None) true running_tick None (new_sampler (Some ∅))).2 sample_list running_resources) as (_ & H & _ & _ & Hr);
    [reflexivity|vm_compute; reflexivity|].
  split_and!; [exact H|vm_compute; reflexivity|]. intros r Hin.
  destruct (Hr r Hin) as (_ & _ & _ & _ & Hw & _ & _ & _ & _ & _ & Hm & _). split; [exact Hw|exact Hm].
Defined.

Definition down_tick : input := ICollect (sample_tick (inl "cannot connect")).
Definition after_success : Sampler := set_docker 0 sample_resources (new_sampler (Some ∅)).
(** Six failures, then the daemon answers with one container. *)
Lemma docker_outage_witness :
  let r := run (fun _ => None) (fun _ _ => "") "/proc" "/data" true (repeat down_tick 6) (after_success, []) in
  let back := gather (fun _ => None) (fun _ _ => "") "/proc" "/data" true (sample_tick (inr [mkContainer "c3" "" ""])) r.2.1 in
  (exists snapshot events, r.1 !! 5%nat = Some (snapshot, events) /\ sn_Resources snapshot = sample_resources /\
    co_State <$> sn_Collectors snapshot !! "docker" = Some CollectorDown) /\
  map rs_Name (sn_Resources (cl_snapshot back)) = ["db"] /\
  docker_found (fun _ => None) (fun _ _ => "") "/proc" "/data" true (sample_tick (inr [mkContainer "c3" "" ""])) r.2.1 =
    inr (sn_Resources (cl_snapshot back)).
Proof.
  cbv zeta. destruct (run (fun _ => None) (fun _ _ => "") "/proc" "/data" true (repeat down_tick 6) (after_success, [])) as [out [s' p']] eqn:E.
  destruct (docker_outage (fun _ => None) (fun _ _ => "") "/proc" "/data" true (repeat down_tick 6) after_success s' [] p' out) as [H Hback];
    [reflexivity|apply Forall_forall; intros i Hi%list_elem_of_In%repeat_spec; subst i; by eexists|exact E|].
  cbn [fst snd]. split.
  - destruct (out !! 5%nat) as [[snapshot events]|] eqn:E5.
    + destruct (H 5%nat snapshot events E5) as [H1 H2]. exists snapshot, events. by split_and!.
    + exfalso. apply (f_equal (fun r => length r.1)) in E. cbn [fst] in E. apply lookup_ge_None in E5. rewrite <- E in E5.
      vm_compute in E5. lia.
  - specialize (Hback (sample_tick (inr [mkContainer "c3" "" ""]))).
    assert (match docker_found (fun _ => None) (fun _ _ => "") "/proc" "/data" true (sample_tick (inr [mkContainer "c3" "" ""])) s' with
            | inr rs => map rs_Name rs = ["db"] | inl _ => False end) as Hf.
    { apply (f_equal (fun r => r.2.1)) in E. cbn [fst snd] in E. rewrite <- E. vm_compute. reflexivity. }
    destruct (docker_found _ _ _ _ _ _ s') as [|rs]; [done|]. destruct Hback as [-> _]. by split.
Defined.

Definition secret_container : sdkInspect :=
  mkSdkInspect "c1" "/web" "" (Some (mkSdkConfig "image" ∅ false ["DB_PASSWORD=hunter2"; "COOLIFY_URL=example.com"])) (Some ("running", None)) None [].
Definition start_event : input := IEvent (mkDockerEvent "c1" "start" "") (fun _ => Engine_Inspect (inr secret_container)).
Lemma environment_confined_witness :
  let s := (run (fun _ => None) (fun _ _ => "") "/proc" "/data" true [start_event] (new_sampler (Some ∅), [])).2.1 in
  exists cache v, sm_Cache s = Some cache /\ Cache_Get "c1" cache = Some v /\ ca_Environment v !! "COOLIFY_URL" = Some "example.com" /\
    ca_Environment v !! "DB_PASSWORD" = None.
Proof.
  cbv zeta. destruct (sm_Cache (run (fun _ => None) (fun _ _ => "") "/proc" "/data" true [start_event] (new_sampler (Some ∅), [])).2.1) as [cache|] eqn:Ec; [|vm_compute in Ec; done].
  destruct (Cache_Get "c1" cache) as [v|] eqn:Ev; [|vm_compute in Ec; injection Ec as <-; vm_compute in Ev; done].
  exists cache, v. split_and!; [done|done|vm_compute in Ec; injection Ec as <-; vm_compute in Ev; injection Ev as <-; vm_compute; reflexivity|].
  destruct (ca_Environment v !! "DB_PASSWORD") as [x|] eqn:Ex; [|done]. exfalso.
  pose proof (environment_confined (fun _ => None) (fun _ _ => "") "/proc" "/data" true [start_event] (new_sampler (Some ∅), [])) as H.
  destruct (H ltac:(repeat constructor; intros; by eexists) ltac:(by intros ? ? ?) cache "c1" v "DB_PASSWORD" Ec Ev ltac:(by eexists)) as [E|[E|[E|[]]]]; done.
Defined.
