(* ===== verification/Onboarding.v ===== *)
(** * Onboarding

    [internal/diagnostics/onboarding.go] and [internal/onboarding/service.go]:
    the checks of a new installation, with the text of their errors made safe
    to store, and the steps of the assistant.  The host's files, Docker, the
    network and [url.Parse] are parameters; the stored settings are used
    through the source's [RetentionSettings] interface. *)

From stdpp Require Import base tactics list gmap strings pretty.
From Stdlib Require Import ZArith Lia Ascii.
From S2P Require Import Prelude GoString GoParse Json JsonDecode JsonText Outbound Config Settings SettingKeys Db SettingsStore SettingsAudit AuthSchema.

(** ** Text of errors *)

Definition word_byte (c : ascii) : bool := is_digit c || is_lower c || is_upper c || Ascii.eqb c "_".
(** The class [\s] *)
Definition regex_space (c : ascii) : bool := existsb (fun n => byte_code c =? n) [9; 10; 12; 13; 32].

(** [strings.Map] with the function that makes line breaks and tabs blanks
    and drops other control characters; what is no UTF-8 is replaced. *)
Fixpoint map_controls (k : nat) (l : list ascii) : list ascii :=
  match l with
  | [] => []
  | c :: l' =>
      match k with
      | S k => c :: map_controls k l'
      | O =>
          match rune_width l with
          | O => rune_error ++ map_controls 0 l'
          | S w =>
              if existsb (fun n => byte_code c =? n) [9; 10; 13] then " "%char :: map_controls 0 l'
              else if byte_code c <? 32 then map_controls 0 l'
              else c :: map_controls w l'
          end
      end
  end.

Definition secret_words : list string := ["token"; "password"; "secret"; "key"].
(** A letter of a word without regard to case: besides the two ASCII letters
    the long s and the Kelvin sign *)
Definition fold_letter (a : ascii) (l : list ascii) : option (list ascii * list ascii) :=
  match l with
  | c :: r =>
      if Ascii.eqb (lower_byte c) a then Some ([c], r)
      else match l with
           | "197"%char :: "191"%char :: r => if Ascii.eqb a "s" then Some (["197"; "191"]%char, r) else None
           | "226"%char :: "132"%char :: "170"%char :: r => if Ascii.eqb a "k" then Some (["226"; "132"; "170"]%char, r) else None
           | _ => None
           end
  | [] => None
  end.
Fixpoint fold_word (w l : list ascii) : option (list ascii * list ascii) :=
  match w with
  | [] => Some ([], l)
  | a :: w =>
      match fold_letter a l with
      | Some (x, r) => match fold_word w r with Some (y, r) => Some (x ++ y, r) | None => None end
      | None => None
      end
  end.
(** [(token|password|secret|key)=([^&\s]+)] without regard to case, at the
    front: the word as written, and the rest behind the value *)
Definition secret_value (c : ascii) : bool := negb (Ascii.eqb c "&" || regex_space c).
Definition secret_word (l : list ascii) (w : string) : option (list ascii * list ascii) :=
  match fold_word (bytes w) l with
  | Some (word, "="%char :: c :: r) => if secret_value c then Some (word, (span secret_value (c :: r)).2) else None
  | _ => None
  end.
Definition secret_at (l : list ascii) : option (list ascii * list ascii) := head (omap (secret_word l) secret_words).
Fixpoint redact_secrets (fuel : nat) (l : list ascii) : list ascii :=
  match fuel, l with
  | O, _ => l
  | _, [] => []
  | S fuel, c :: l' =>
      match secret_at l with
      | Some (w, rest) => w ++ bytes "=[redacted]" ++ redact_secrets fuel rest
      | None => c :: redact_secrets fuel l'
      end
  end.

(** [\d{1,3}] as a whole run of digits *)
Definition octet (l : list ascii) : option (list ascii) :=
  let '(d, r) := span is_digit l in if (1 <=? length d)%nat && (length d <=? 3)%nat then Some r else None.
Definition octet_dot (l : list ascii) : option (list ascii) :=
  match octet l with Some ("."%char :: r) => Some r | _ => None end.
(** [\b(?:\d{1,3}\.){3}\d{1,3}\b] at the front, behind the byte [prev] *)
Definition ip_at (prev : option ascii) (l : list ascii) : option (list ascii) :=
  if match prev with Some c => word_byte c | None => false end then None
  else match ((octet_dot l ≫= octet_dot) ≫= octet_dot) ≫= octet with
       | Some r => match r with c :: _ => if word_byte c then None else Some r | [] => Some [] end
       | None => None
       end.
Fixpoint redact_ips (fuel : nat) (prev : option ascii) (l : list ascii) : list ascii :=
  match fuel, l with
  | O, _ => l
  | _, [] => []
  | S fuel, c :: l' =>
      match ip_at prev l with
      | Some rest => bytes "[ip redacted]" ++ redact_ips fuel (Some "0"%char) rest
      | None => c :: redact_ips fuel (Some c) l'
      end
  end.

Section checker.
(** The text of a URL without its user, when it parses and has one *)
Context (without_user : string -> option string).

Definition sanitizeDetail (value : string) : string :=
  let value := of_bytes (map_controls 0 (bytes value)) in
  let value := bytes (default value (without_user value)) in
  let value := redact_secrets (length value) value in
  let value := redact_ips (length value) None value in
  of_bytes (firstn 300 value).

(** ** The checks *)

Definition CheckPassed : string := "passed".
Definition CheckWarning : string := "warning".
Definition CheckFailed : string := "failed".
Definition CheckNotRun : string := "not_run".
Record CheckResult := mkCheckResult {
  cr_ID : string; cr_Name : string; cr_Status : string; cr_Required : bool; cr_Reason : string;
  cr_SuggestedFix : string; cr_TechnicalDetail : string;
}.
Definition base (id name : string) (required : bool) : CheckResult := mkCheckResult id name "" required "" "" "".
Definition stands (status reason : string) (r : CheckResult) : CheckResult :=
  mkCheckResult (cr_ID r) (cr_Name r) status (cr_Required r) reason (cr_SuggestedFix r) (cr_TechnicalDetail r).
(** [err] is the text of an error. *)
Definition failed (r : CheckResult) (reason fix_ : string) (err : option string) : CheckResult :=
  mkCheckResult (cr_ID r) (cr_Name r) CheckFailed (cr_Required r) reason fix_
    (match err with Some e => sanitizeDetail e | None => cr_TechnicalDetail r end).

(** What the checks ask: errors are their texts. *)
Record DockerDiagnostics := mkDockerDiagnostics {
  dd_List : string + list string;
  dd_Inspect : string -> string + gmap string string;
  dd_Diagnostics : string + Z;
}.
Record OnboardingChecker := mkOnboardingChecker {
  oc_HostProc : string; oc_HostSys : string; oc_DataDir : string;
  oc_DB : option (option string);
  oc_Docker : option DockerDiagnostics;
  oc_Head : string -> option string;
  oc_OutboundURL : string;
  oc_ReadFile : string -> option string;
  oc_PersistentProbe : string -> option string;
}.

Definition hostMetrics (c : OnboardingChecker) : CheckResult :=
  let result := base "host_metrics" "Host metrics access" true in
  let bad err := failed result "Binnacle cannot read Linux host metrics." "Verify the read-only host /proc mount and BINNACLE_HOST_PROC." (Some err) in
  match oc_ReadFile c (Path_Join [oc_HostProc c; "stat"]) with
  | Some e => bad e
  | None =>
      match oc_ReadFile c (Path_Join [oc_HostProc c; "meminfo"]) with
      | Some e => bad e
      | None => stands CheckPassed "Host CPU and memory interfaces are readable." result
      end
  end.
Definition dockerAPI (c : OnboardingChecker) : CheckResult :=
  let result := base "docker_api" "Docker API access" true in
  match oc_Docker c with
  | None => failed result "Docker access is not configured." "Mount the Docker socket or configure a restricted socket proxy." None
  | Some d =>
      match dd_Diagnostics d with
      | inl e => failed result "Binnacle cannot query the Docker API." "Verify the Docker socket mount, proxy allowlist, and socket permissions." (Some e)
      | inr n => stands CheckPassed ("Docker API is reachable; " +:+ Itoa n +:+ " containers discovered.") result
      end
  end.
Definition cgroup (c : OnboardingChecker) : CheckResult :=
  let result := base "cgroup" "cgroup access" false in
  match oc_ReadFile c (Path_Join [oc_HostSys c; "fs/cgroup/cgroup.controllers"]) with
  | Some e => failed result "cgroup v2 information is unavailable." "Verify the read-only host /sys mount and cgroup v2 availability." (Some e)
  | None => stands CheckPassed "cgroup v2 interfaces are readable." result
  end.
Definition label (labels : gmap string string) (k : string) : string := default "" (labels !! k).
Definition metadata (c : OnboardingChecker) : CheckResult :=
  let result := base "deployment_metadata" "Compose/Coolify detection" false in
  match oc_Docker c with
  | None => stands CheckWarning "Metadata detection is unavailable without Docker access." result
  | Some d =>
      match dd_List d with
      | inl e => failed result "Container metadata could not be inspected." "Restore Docker API access; plain host monitoring can continue." (Some e)
      | inr containers =>
          let labels := omap (fun id => match dd_Inspect d id with inr l => Some l | inl _ => None end) (firstn 50 containers) in
          let compose := existsb (fun l => negb (label l "com.docker.compose.project" =?s "")) labels in
          let coolify := existsb (fun l => negb (label l "coolify.managed" =?s "") || negb (label l "coolify.resource.uuid" =?s "")) labels in
          if coolify then stands CheckPassed "Coolify-managed container metadata was detected." result
          else if compose then stands CheckPassed "Docker Compose metadata was detected." result
          else stands CheckWarning "No Compose or Coolify labels were detected; containers remain visible as unmanaged resources." result
      end
  end.
Definition persistence (c : OnboardingChecker) : CheckResult :=
  let result := base "persistent_storage" "Persistent storage" true in
  match oc_PersistentProbe c (oc_DataDir c) with
  | Some e => failed result "The Binnacle data directory is not writable." "Verify the persistent volume mount, ownership, and free disk space." (Some e)
  | None => stands CheckPassed "The persistent data directory is writable." result
  end.
Definition database (c : OnboardingChecker) : CheckResult :=
  let result := base "database" "Database initialization" true in
  match oc_DB c with
  | None => failed result "SQLite is not initialized." "Review the startup log and database recovery guidance." None
  | Some (Some e) => failed result "SQLite did not respond to an integrity probe." "Review storage permissions, disk space, and corruption recovery guidance." (Some e)
  | Some None => stands CheckPassed "SQLite is initialized and responsive." result
  end.
Definition outbound (c : OnboardingChecker) (include : bool) : CheckResult :=
  let result := base "outbound_network" "Outbound network availability" false in
  if negb include then stands CheckNotRun "Optional outbound check was not requested." result
  else
    let target := if oc_OutboundURL c =?s "" then "https://github.com" else oc_OutboundURL c in
    match oc_Head c target with
    | Some e => failed result "Outbound HTTPS is unavailable; core monitoring remains functional." "Verify DNS, firewall, and proxy settings if release checks are desired." (Some e)
    | None => stands CheckPassed "Outbound HTTPS is available." result
    end.
Definition Checker_Run (c : OnboardingChecker) (includeOutbound : bool) : list CheckResult :=
  [hostMetrics c; dockerAPI c; cgroup c; metadata c; persistence c; database c; outbound c includeOutbound].
End checker.

(** ** Results as JSON *)

Definition optional (k : string) (v : string) : list (string * json) := if v =?s "" then [] else [(k, JString v)].
Definition result_json (r : CheckResult) : json :=
  JObject ([("id", JString (cr_ID r)); ("name", JString (cr_Name r)); ("status", JString (cr_Status r));
            ("required", JBool (cr_Required r)); ("reason", JString (cr_Reason r))] ++
           optional "suggestedFix" (cr_SuggestedFix r) ++ optional "technicalDetail" (cr_TechnicalDetail r)).
Definition no_result : CheckResult := base "" "" false.
Definition result_fields : fields CheckResult := [
  ("id", field_in cr_ID (fun v r => mkCheckResult v (cr_Name r) (cr_Status r) (cr_Required r) (cr_Reason r) (cr_SuggestedFix r) (cr_TechnicalDetail r)) dec_string);
  ("name", field_in cr_Name (fun v r => mkCheckResult (cr_ID r) v (cr_Status r) (cr_Required r) (cr_Reason r) (cr_SuggestedFix r) (cr_TechnicalDetail r)) dec_string);
  ("status", field_in cr_Status (fun v r => mkCheckResult (cr_ID r) (cr_Name r) v (cr_Required r) (cr_Reason r) (cr_SuggestedFix r) (cr_TechnicalDetail r)) dec_string);
  ("required", field_in cr_Required (fun v r => mkCheckResult (cr_ID r) (cr_Name r) (cr_Status r) v (cr_Reason r) (cr_SuggestedFix r) (cr_TechnicalDetail r)) dec_bool);
  ("reason", field_in cr_Reason (fun v r => mkCheckResult (cr_ID r) (cr_Name r) (cr_Status r) (cr_Required r) v (cr_SuggestedFix r) (cr_TechnicalDetail r)) dec_string);
  ("suggestedFix", field_in cr_SuggestedFix (fun v r => mkCheckResult (cr_ID r) (cr_Name r) (cr_Status r) (cr_Required r) (cr_Reason r) v (cr_TechnicalDetail r)) dec_string);
  ("technicalDetail", field_in cr_TechnicalDetail (fun v r => mkCheckResult (cr_ID r) (cr_Name r) (cr_Status r) (cr_Required r) (cr_Reason r) (cr_SuggestedFix r) v) dec_string)].
Definition marshal_results (l : list CheckResult) : string := of_bytes (print_json (JArray (map result_json l))).
Definition unmarshal_results (raw : string) : option (list CheckResult) :=
  ParseJSON raw ≫= fun j => dec_list no_result (dec_struct false result_fields) j [].

(** ** The service *)

(** [onboarding_state] has at most one row. *)
Record OnboardingRow := mkOnboardingRow {
  ob_exposure_mode : option string; ob_retention_preset : option string; ob_diagnostics_json : option string;
  ob_completed_at : option Z; ob_checklist_dismissed_at : option Z; ob_updated_at : Z;
}.

(** The [RetentionSettings] interface, over the part [E] of the database that
    belongs to the settings *)
Class RetentionSettings (E : Type) := {
  Current_RetentionPreset : E -> string;
  Set_RetentionPreset : string -> string -> tx E unit;
}.
(** What the assistant relies on: [rl_inv] is the invariant of the settings. *)
Class RetentionLaws (E : Type) `{RetentionSettings E} (rl_inv : E -> Prop) := {
  rl_set : forall preset actor (w w' : world E), rl_inv (w_db w) ->
    Set_RetentionPreset preset actor w = (inr tt, w') -> Current_RetentionPreset (w_db w') = preset;
}.

Record OnboardingDB (E : Type) := mkOnboardingDB { od_row : option OnboardingRow; od_settings : E }.
Arguments mkOnboardingDB {E} _ _.
Arguments od_row {E} _.
Arguments od_settings {E} _.

(** A computation on a part of the database *)
Definition zoom {D E A} (get : D -> E) (set : E -> D -> D) (m : tx E A) : tx D A := fun w =>
  let '(r, w') := m (World (get (w_db w)) (w_faults w) (w_rand w) (w_clock w)) in
  (r, World (set (w_db w') (w_db w)) (w_faults w') (w_rand w') (w_clock w')).

Record OnboardingState := mkOnboardingState {
  os_ExposureMode : string; os_RetentionPreset : string; os_Diagnostics : list CheckResult;
  os_CompletedAt : option Z; os_ChecklistDismissed : bool;
}.

Section service.
Context {E : Type} `{RetentionSettings E}.
Context (without_user : string -> option string).

Definition Onboarding_State : tx (OnboardingDB E) OnboardingState := fun w =>
  match catch_norows (query_row od_row) w with
  | (inl e, w') => (inl e, w')
  | (inr None, w') => (inr (mkOnboardingState "" (Current_RetentionPreset (od_settings (w_db w'))) [] None false), w')
  | (inr (Some r), w') =>
      let preset := Current_RetentionPreset (od_settings (w_db w')) in
      match match ob_diagnostics_json r with
            | Some raw => if raw =?s "" then Some [] else unmarshal_results raw
            | None => Some []
            end with
      | None => (inl (EMsg "json"), w')
      | Some results =>
          (inr (mkOnboardingState (default "" (ob_exposure_mode r)) preset results
                  (of_unix_milli <$> ob_completed_at r) (negb (is_null (ob_checklist_dismissed_at r)))), w')
      end
  end.

(** [INSERT ... ON CONFLICT(id) DO UPDATE SET] *)
Definition upsert_onboarding (fresh : OnboardingRow) (change : OnboardingRow -> OnboardingRow) : tx (OnboardingDB E) unit :=
  exec (fun d => inr (tt, mkOnboardingDB (Some (match od_row d with Some r => change r | None => fresh end)) (od_settings d))).
Definition update_onboarding (change : OnboardingRow -> OnboardingRow) : tx (OnboardingDB E) unit :=
  exec (fun d => inr (tt, mkOnboardingDB (change <$> od_row d) (od_settings d))).

Definition Onboarding_Update (retention actor : string) : tx (OnboardingDB E) OnboardingState :=
  if negb (str_in retention ["minimal"; "balanced"; "long-term"]) then throw (EMsg "retention preset is invalid")
  else
    zoom od_settings (fun e d => mkOnboardingDB (od_row d) e) (Set_RetentionPreset retention actor) ;;;
    now <- time_now ;;
    upsert_onboarding (mkOnboardingRow None (Some retention) None None None (time_unix_milli now))
      (fun r => mkOnboardingRow (ob_exposure_mode r) (Some retention) (ob_diagnostics_json r) (ob_completed_at r)
                  (ob_checklist_dismissed_at r) (time_unix_milli now)) ;;;
    Onboarding_State.

Definition Onboarding_Diagnose (checker : OnboardingChecker) (include : bool) : tx (OnboardingDB E) OnboardingState :=
  let raw := marshal_results (Checker_Run without_user checker include) in
  now <- time_now ;;
  upsert_onboarding (mkOnboardingRow None None (Some raw) None None (time_unix_milli now))
    (fun r => mkOnboardingRow (ob_exposure_mode r) (ob_retention_preset r) (Some raw) (ob_completed_at r)
                (ob_checklist_dismissed_at r) (time_unix_milli now)) ;;;
  Onboarding_State.

Definition Onboarding_Complete : tx (OnboardingDB E) OnboardingState :=
  state <- Onboarding_State ;;
  if (os_RetentionPreset state =?s "") || (length (os_Diagnostics state) =? 0)%nat
  then throw (EMsg "onboarding choices and diagnostics are required")
  else
    now <- time_now ;; now2 <- time_now ;;
    update_onboarding (fun r => mkOnboardingRow (ob_exposure_mode r) (ob_retention_preset r) (ob_diagnostics_json r)
      (coalesce (ob_completed_at r) (time_unix_milli now)) (ob_checklist_dismissed_at r) (time_unix_milli now2)) ;;;
    Onboarding_State.

Definition DismissChecklist : tx (OnboardingDB E) unit :=
  now <- time_now ;; now2 <- time_now ;;
  update_onboarding (fun r => if is_null (ob_completed_at r) then r
    else mkOnboardingRow (ob_exposure_mode r) (ob_retention_preset r) (ob_diagnostics_json r) (ob_completed_at r)
           (coalesce (ob_checklist_dismissed_at r) (time_unix_milli now)) (time_unix_milli now2)).
End service.

(** ** What is stored is what is read *)

Definition valid_result (r : CheckResult) : bool :=
  forallb ValidString [cr_ID r; cr_Name r; cr_Status r; cr_Reason r; cr_SuggestedFix r; cr_TechnicalDetail r].
Lemma optional_valid k v :
  ValidString k = true -> ValidString v = true -> forallb (fun kv => ValidString kv.1 && valid_json kv.2) (optional k v) = true.
Proof. intros Hk Hv. unfold optional. destruct (v =?s ""); [done|]. cbn [forallb fst snd valid_json]. by rewrite Hk, Hv. Qed.
Lemma result_json_valid r : valid_result r = true -> valid_json (result_json r) = true.
Proof.
  unfold valid_result, result_json. cbn [forallb]. rewrite !andb_true_iff. intros (Hi & Hn & Hs & Hr & Hf & Hd & _).
  cbn [valid_json]. rewrite !forallb_app, !optional_valid by (reflexivity || assumption).
  cbn [forallb fst snd valid_json]. rewrite Hi, Hn, Hs, Hr. reflexivity.
Qed.
Lemma result_decoded r : dec_struct false result_fields (result_json r) no_result = Some r.
Proof.
  destruct r as [id name status req reason fx detail]. unfold result_json, optional. cbn [cr_SuggestedFix cr_TechnicalDetail].
  destruct (String.eqb_spec fx "") as [->|], (String.eqb_spec detail "") as [->|]; reflexivity.
Qed.
Lemma results_roundtrip l :
  forallb valid_result l = true -> unmarshal_results (marshal_results l) = Some l.
Proof.
  intros Hv. unfold unmarshal_results, marshal_results. rewrite print_json_roundtrip; cbn.
  - induction l as [|r l IH]; [done|]. cbn [map mapM forallb] in *. apply andb_true_iff in Hv as [_ Hv].
    rewrite result_decoded. cbn in *. by rewrite IH.
  - apply forallb_forall. intros j (r & <- & Hr)%in_map_iff. apply result_json_valid. by apply (proj1 (forallb_forall _ _) Hv).
  - induction l as [|r l IH]; [done|]. cbn [forallb] in Hv. apply andb_true_iff in Hv as [_ Hv]. specialize (IH Hv).
    assert (depth (result_json r) = 1%nat) as Hd.
    { unfold result_json, optional. destruct (cr_SuggestedFix r =?s ""), (cr_TechnicalDetail r =?s ""); reflexivity. }
    cbn [map fold_right]. rewrite Hd. unfold maxNestingDepth in *. lia.
Qed.

(** ** The assistant's progress *)

Inductive OnboardingOp :=
  | BUpdate (retention actor : string)
  | BDiagnose (checker : OnboardingChecker) (include : bool)
  | BComplete
  | BDismiss.

Section progress.
Context {E : Type} `{RetentionSettings E}.
Context (without_user : string -> option string).

Definition onboarding_step (op : OnboardingOp) : tx (OnboardingDB E) unit :=
  match op with
  | BUpdate retention actor => ignore (Onboarding_Update retention actor)
  | BDiagnose checker include => ignore (Onboarding_Diagnose without_user checker include)
  | BComplete => ignore Onboarding_Complete
  | BDismiss => ignore DismissChecklist
  end.
Definition onboarding_run (ops : list OnboardingOp) : tx (OnboardingDB E) unit := iter_tx onboarding_step ops.

Definition completed (r : option OnboardingRow) : option Z := r ≫= ob_completed_at.
Definition dismissed (r : option OnboardingRow) : option Z := r ≫= ob_checklist_dismissed_at.
Definition diagnosed (r : option OnboardingRow) : Prop :=
  exists raw l, r ≫= ob_diagnostics_json = Some raw /\ raw <> "" /\ unmarshal_results raw = Some l /\ l <> [].

(** What one operation may do to the row [o]; [P] holds of results of checks
    that are stored. *)
Record progress (o n : option OnboardingRow) : Prop := {
  pg_completed : forall t, completed o = Some t -> completed n = Some t;
  pg_dismissed : forall t, dismissed o = Some t -> dismissed n = Some t;
  pg_dismiss : is_Some (dismissed n) -> is_Some (dismissed o) \/ is_Some (completed o);
  pg_complete : is_Some (completed n) -> is_Some (completed o) \/ diagnosed o;
}.
#[export] Instance progress_refl : Reflexive progress.
Proof. intros o. by constructor; auto. Qed.

(** [m] makes progress from rows with [P]. *)
Definition keeps_progress {A} (P : option OnboardingRow -> Prop) (m : tx (OnboardingDB E) A) : Prop :=
  forall w, P (od_row (w_db w)) -> progress (od_row (w_db w)) (od_row (w_db (m w).2)).
Definition same_row {A} (m : tx (OnboardingDB E) A) : Prop :=
  forall w, od_row (w_db (m w).2) = od_row (w_db w).

Lemma state_same : same_row Onboarding_State.
Proof.
  intros w. unfold Onboarding_State, catch_norows, query_row, exec, next_fault.
  destruct (w_faults w) as [|[] fs]; cbn; [|done|]; destruct (od_row (w_db w)) as [r|] eqn:Er; cbn; try done;
    destruct (match ob_diagnostics_json r with Some _ => _ | None => _ end); done.
Qed.
Lemma now_same : same_row time_now.
Proof. intros w. unfold time_now. by destruct (w_clock w). Qed.
Lemma zoom_same {A} (m : tx E A) : same_row (zoom od_settings (fun e d => mkOnboardingDB (od_row d) e) m).
Proof. intros w. unfold zoom. by destruct (m _). Qed.

Lemma exec_row (f : option OnboardingRow -> option OnboardingRow) (w : world (OnboardingDB E)) :
  match exec (fun d => inr (tt, mkOnboardingDB (f (od_row d)) (od_settings d))) w with
  | (inr _, w') => od_row (w_db w') = f (od_row (w_db w))
  | (inl _, w') => od_row (w_db w') = od_row (w_db w)
  end.
Proof. unfold exec, next_fault. destruct (w_faults w) as [|[] fs]; reflexivity. Qed.

Lemma progress_bind {A B} P (m : tx (OnboardingDB E) A) (k : A -> tx (OnboardingDB E) B) :
  same_row m -> (forall a, keeps_progress P (k a)) -> keeps_progress P (bind m k).
Proof.
  intros Hm Hk w HP. unfold bind. specialize (Hm w). destruct (m w) as [[e|a] w']; cbn in *; [by rewrite Hm|].
  rewrite <- Hm in *. by apply Hk.
Qed.
Lemma keeps_then {A B} P (m : tx (OnboardingDB E) A) (k : A -> tx (OnboardingDB E) B) :
  keeps_progress P m -> (forall a, same_row (k a)) -> keeps_progress P (bind m k).
Proof.
  intros Hm Hk w HP. unfold bind. specialize (Hm w HP). destruct (m w) as [[e|a] w']; cbn in *; [done|]. by rewrite Hk.
Qed.
Lemma keeps_change (P : option OnboardingRow -> Prop) f : (forall o, P o -> progress o (f o)) ->
  keeps_progress P (exec (fun d => inr (tt, mkOnboardingDB (f (od_row d)) (od_settings d)))).
Proof. intros Hf w HP. pose proof (exec_row f w) as Hx. destruct (exec _ w) as [[] w']; cbn in *; rewrite Hx; auto. done. Qed.

Lemma update_progress retention actor : keeps_progress (fun _ => True) (Onboarding_Update retention actor).
Proof.
  unfold Onboarding_Update. destruct (negb _); [by intros w|]. apply progress_bind; [apply zoom_same|intros _].
  apply progress_bind; [apply now_same|intros now]. apply keeps_then; [|intros _; apply state_same].
  apply (keeps_change _ (fun o => Some (match o with Some r => _ r | None => _ end))). intros [r|]; by constructor; cbn; auto.
Qed.
Lemma diagnose_progress checker include : keeps_progress (fun _ => True) (Onboarding_Diagnose without_user checker include).
Proof.
  unfold Onboarding_Diagnose. apply progress_bind; [apply now_same|intros now]. apply keeps_then; [|intros _; apply state_same].
  apply (keeps_change _ (fun o => Some (match o with Some r => _ r | None => _ end))). intros [r|]; by constructor; cbn; auto.
Qed.
Lemma dismiss_progress : keeps_progress (fun _ => True) DismissChecklist.
Proof.
  unfold DismissChecklist. do 2 (apply progress_bind; [apply now_same|intros ?]). apply (keeps_change _ (fmap _)).
  intros [r|] _; [|by constructor; cbn; auto]. destruct r as [em rp dj ca cd u]. constructor; cbn; destruct ca as [c|]; cbn; auto.
  intros t ->. done.
Qed.
Lemma state_diagnosed w st w' :
  Onboarding_State w = (inr st, w') -> length (os_Diagnostics st) <> 0%nat -> diagnosed (od_row (w_db w)).
Proof.
  unfold Onboarding_State, catch_norows, query_row, exec, next_fault. intros Est Eg. unfold diagnosed.
  destruct (w_faults w) as [|[] fs]; [|done|]; cbn in Est; destruct (od_row (w_db w)) as [r|]; cbn in Est; try (by injection Est as <- _);
    destruct (ob_diagnostics_json r) as [raw|] eqn:Er; cbn in Est |- *; try (by injection Est as <- _);
    destruct (String.eqb_spec raw "") as [->|Hne]; try (by injection Est as <- _);
    destruct (unmarshal_results raw) as [l|] eqn:El; try done; injection Est as <- _; cbn in Eg; exists raw, l;
    (split_and!; [done..|by destruct l]).
Qed.
Lemma complete_progress : keeps_progress (fun _ => True) Onboarding_Complete.
Proof.
  intros w _. unfold Onboarding_Complete, bind at 1. pose proof (state_same w) as Hs.
  destruct (Onboarding_State w) as [[e|st] w1] eqn:Est; cbn [snd] in Hs; [cbn; by rewrite Hs|].
  destruct (_ || _) eqn:Eg; [cbn; by rewrite Hs|]. apply orb_false_iff in Eg as [_ Eg%Nat.eqb_neq].
  pose proof (state_diagnosed _ _ _ Est Eg) as Hd. rewrite <- Hs in *.
  clear Hs Est. revert w1 Hd. apply (progress_bind diagnosed); [apply now_same|intros now]. apply progress_bind; [apply now_same|intros now2].
  apply keeps_then; [|intros _; apply state_same]. apply (keeps_change _ (fmap _)).
  intros [r|] Hr; [|by constructor; cbn; auto]. destruct r as [em rp dj ca cd u].
  constructor; cbn in *; auto. intros t ->. done.
Qed.
Lemma step_progress op : keeps_progress (fun _ => True) (onboarding_step op).
Proof. destruct op; [apply update_progress|apply diagnose_progress|apply complete_progress|apply dismiss_progress]. Qed.

Lemma run_progress ops (w : world (OnboardingDB E)) :
  (forall t, completed (od_row (w_db w)) = Some t -> completed (od_row (w_db (onboarding_run ops w).2)) = Some t) /\
  (forall t, dismissed (od_row (w_db w)) = Some t -> dismissed (od_row (w_db (onboarding_run ops w).2)) = Some t).
Proof.
  revert w. induction ops as [|op ops IH]; intros w; [by split|]. cbn [onboarding_run iter_tx]. unfold bind.
  pose proof (step_progress op w I) as Hp. destruct (onboarding_step op w) as [[e|[]] w1] eqn:Ew; cbn [snd] in *.
  - split; intros t Ht; by apply Hp.
  - destruct (IH w1) as [Hc Hd]. split; intros t Ht; [apply Hc|apply Hd]; by apply Hp.
Qed.

(** The assistant cannot skip its steps.  In any sequence of its
    operations, with any statement failing, installation counts as complete
    only from a moment at which results of the checks are stored and readable,
    the checklist is dismissed only when it is complete, and neither is ever
    taken back or dated anew. *)
Theorem onboarding_steps (before after : list OnboardingOp) (op : OnboardingOp) (w : world (OnboardingDB E)) :
  let w1 := (onboarding_run before w).2 in
  let w2 := (onboarding_step op w1).2 in
  let w3 := (onboarding_run after w2).2 in
  (completed (od_row (w_db w1)) = None -> is_Some (completed (od_row (w_db w2))) -> diagnosed (od_row (w_db w1))) /\
  (dismissed (od_row (w_db w1)) = None -> is_Some (dismissed (od_row (w_db w2))) -> is_Some (completed (od_row (w_db w1)))) /\
  (forall t, completed (od_row (w_db w2)) = Some t -> completed (od_row (w_db w3)) = Some t) /\
  (forall t, dismissed (od_row (w_db w2)) = Some t -> dismissed (od_row (w_db w3)) = Some t).
Proof.
  intros w1 w2 w3. pose proof (step_progress op w1 I) as Hp. fold w2 in Hp. destruct (run_progress after w2) as [Hc Hd].
  split_and!; [| |exact Hc|exact Hd].
  - intros Hnone Hsome. destruct (pg_complete _ _ Hp Hsome) as [[t Ht]|H1]; [by rewrite Hnone in Ht|done].
  - intros Hnone Hsome. destruct (pg_dismiss _ _ Hp Hsome) as [[t Ht]|H1]; [by rewrite Hnone in Ht|done].
Qed.
End progress.

(** Checks whose texts are UTF-8 are read back as they were found, and stored
    with the preset in force. *)
Lemma diagnose_answer {E} `{RetentionSettings E} without_user checker include (w w' : world (OnboardingDB E)) st :
  forallb valid_result (Checker_Run without_user checker include) = true ->
  Onboarding_Diagnose without_user checker include w = (inr st, w') ->
  os_Diagnostics st = Checker_Run without_user checker include /\
  os_RetentionPreset st = Current_RetentionPreset (od_settings (w_db w)).
Proof.
  intros Hv. unfold Onboarding_Diagnose. intros (now & w1 & Hnow & H1)%bind_inr. apply bind_inr in H1 as ([] & w2 & Hup & H1).
  assert (w_db w1 = w_db w) as Hdb by (unfold time_now in Hnow; destruct (w_clock w); injection Hnow as _ <-; done).
  pose proof (results_roundtrip _ Hv) as Hrt.
  assert (marshal_results (Checker_Run without_user checker include) <> "") as Hne by (intros E1; by rewrite E1 in Hrt).
  set (raw := marshal_results _) in *. set (results := Checker_Run _ _ _) in *. clearbody raw results. clear Hv.
  assert (exists r, od_row (w_db w2) = Some r /\ ob_diagnostics_json r = Some raw /\ od_settings (w_db w2) = od_settings (w_db w)) as (r & Hr & Hj & Hs).
  { unfold upsert_onboarding, exec, next_fault in Hup. rewrite <- Hdb.
    destruct (w_faults w1) as [|[] fs]; [|done|]; injection Hup as <-; cbn; eexists; (split; [done|]); by destruct (od_row (w_db w1)). }
  unfold Onboarding_State, catch_norows, query_row, exec, next_fault in H1.
  destruct (String.eqb_spec raw "") as [|_]; [done|].
  destruct (w_faults w2) as [|[] fs]; [|done|]; cbn in H1; rewrite Hr in H1; cbn in H1; rewrite Hj in H1;
    (destruct (String.eqb_spec raw "") as [|_]; [done|]); rewrite Hrt in H1; injection H1 as <- _; cbn; by rewrite Hs.
Qed.

(** ** The stored settings implement the interface *)

Section settings.
Context `{MapOrder} (url_parse : string -> option URL).

Definition preset_setter (preset actor : string) : tx (SettingsDB * Service) unit := fun w =>
  match SetRetentionPreset url_parse (w_db w).2 preset actor (World (w_db w).1 (w_faults w) (w_rand w) (w_clock w)) with
  | (inl e, w') => (inl e, World (w_db w', (w_db w).2) (w_faults w') (w_rand w') (w_clock w'))
  | (inr (r, s'), w') => (r, World (w_db w', s') (w_faults w') (w_rand w') (w_clock w'))
  end.
#[export] Instance settings_retention : RetentionSettings (SettingsDB * Service) :=
  {| Current_RetentionPreset e := CurrentRetentionPreset e.2; Set_RetentionPreset := preset_setter |}.

Lemma resolve_preset base values p c :
  values !! "retention.preset" = Some p -> ResolveOverrides url_parse base values = inr c ->
  Retention_Preset (c_Retention c) = ToLower p.
Proof.
  intros Hp. unfold ResolveOverrides. destruct (match values !! _ with Some _ => _ | None => _ end) as [e|c0]; [done|].
  destruct (apply values c0) as [e|c1] eqn:Ea; [done|]. destruct (Validate _ _); [done|]. intros [= <-].
  pose proof (apply_spec values c0) as Hs. rewrite Ea in Hs. cbn [ok] in Hs. symmetry in Hs.
  destruct (set_map_set values c0 c1 "retention.preset" p preset_field Hs eq_refl Hp) as (x & Hx & Hput).
  injection Hx as <-. assert (Retention_Preset (c_Retention c1) = ToLower p) as <- by (by rewrite <- Hput).
  unfold Normalize. by destruct (_ =?s ""), (_ =?s "").
Qed.

Definition settings_inv (e : SettingsDB * Service) : Prop := exists M n, settings_ok e.1 M n /\ n + 3 <= max_int64.

Lemma attempts_preset k s preset actor w M n s' w' :
  valid_changes {["retention.preset" := preset]} -> settings_ok (w_db w) M n -> n + Z.of_nat k <= max_int64 ->
  preset_attempts url_parse k s preset actor w = (inr (inr tt, s'), w') -> CurrentRetentionPreset s' = ToLower preset.
Proof.
  intros Hv. revert s w M n. induction k as [|k IH]; intros s w M n Hd Hn; [done|]. cbn [preset_attempts]. unfold bind at 1, attempt.
  pose proof (Service_Snapshot_same url_parse s (w_db w) w eq_refl) as Hsame.
  destruct (Service_Snapshot url_parse s w) as [[e|snap] w1]; [done|]. rewrite <- Hsame in Hd. unfold bind at 1.
  destruct (patch_outcome url_parse s M n (sn_Revision snap) _ actor w1 Hd ltac:(lia) Hv) as (r & s1 & w2 & -> & Ho).
  destruct r as [e|snap'].
  - destruct (bool_decide _); [|done]. destruct Ho as [(_ & -> & Hdb)|Hp].
    + intros Hr. eapply IH; [by rewrite Hdb| |exact Hr]. lia.
    + intros Hr. eapply IH; [apply Hp| |exact Hr]. lia.
  - intros [= <- <-]. destruct Ho as [([e He] & _)|Hp]; [done|]. unfold CurrentRetentionPreset.
    eapply resolve_preset; [|apply Hp]. rewrite lookup_union, lookup_singleton_eq. by destruct (M !! _).
Qed.

#[export] Instance settings_laws : RetentionLaws (SettingsDB * Service) settings_inv.
Proof.
  constructor. intros preset actor w w' (M & n & Hd & Hn). cbn. unfold preset_setter, SetRetentionPreset.
  destruct (String.eqb_spec (CurrentRetentionPreset (w_db w).2) preset) as [He|_]; [by intros [= <-]|].
  destruct (RetentionPreset preset) as [r|] eqn:Er; [|done].
  destruct (preset_attempts _ _ _ _ _ _) as [[e|[[e|[]] s']] w1] eqn:Ea; [done..|]. intros [= <-]. cbn.
  set (we := World (w_db w).1 _ _ _) in Ea.
  rewrite (attempts_preset 3 (w_db w).2 preset actor we M n s' w1 (preset_valid preset r Er) Hd ltac:(lia) Ea).
  unfold RetentionPreset in Er. destruct (String.eqb_spec preset "minimal") as [->|]; [done|].
  destruct (String.eqb_spec preset "balanced") as [->|]; [done|]. by destruct (String.eqb_spec preset "long-term") as [->|].
Qed.
End settings.

(** ** The chosen preset is in force *)

Section preset.
Context {E : Type} (inv : E -> Prop) `{RetentionLaws E inv}.

(** The preset chosen in the assistant is the one in force.  Proved of every
    implementation of the settings that obeys the interface's law. *)
Lemma update_answer retention actor (w w' : world (OnboardingDB E)) st :
  inv (od_settings (w_db w)) -> Onboarding_Update retention actor w = (inr st, w') ->
  os_RetentionPreset st = retention /\ Current_RetentionPreset (od_settings (w_db w')) = retention /\
  od_row (w_db w') ≫= ob_retention_preset = Some retention /\ retention ∈ ["minimal"; "balanced"; "long-term"].
Proof.
  intros Hi. unfold Onboarding_Update. destruct (str_in retention _) eqn:Ein; [|done]. cbn [negb].
  intros ([] & w1 & Hz & H1)%bind_inr. apply bind_inr in H1 as (now & w2 & Hnow & H1). apply bind_inr in H1 as ([] & w3 & Hup & H1).
  assert (w_db w2 = w_db w1) as Hdb by (unfold time_now in Hnow; destruct (w_clock w1); injection Hnow as _ <-; done).
  unfold zoom in Hz. destruct (Set_RetentionPreset _ _ _) as [r we] eqn:Eset. injection Hz as -> <-. cbn in Hdb.
  pose proof (rl_set retention actor _ _ Hi Eset) as Hcur.
  assert (od_settings (w_db w3) = w_db we /\ od_row (w_db w3) ≫= ob_retention_preset = Some retention) as [Hs Hr].
  { unfold upsert_onboarding, exec, next_fault in Hup. destruct (w_faults w2) as [|[] fs]; [|done|];
      injection Hup as <-; cbn; rewrite Hdb; cbn; (split; [done|]); by destruct (od_row (w_db w)). }
  pose proof (state_same w3) as Hsame. unfold Onboarding_State, catch_norows, query_row, exec, next_fault in H1.
  assert (od_settings (w_db w') = od_settings (w_db w3) /\ od_row (w_db w') = od_row (w_db w3) /\
          os_RetentionPreset st = Current_RetentionPreset (od_settings (w_db w3))) as (-> & -> & ->).
  { destruct (w_faults w3) as [|[] fs]; [|done|]; cbn in H1; destruct (od_row (w_db w3)) as [row|] eqn:Erow; cbn in H1;
      try (injection H1 as <- <-; done);
      (destruct (match ob_diagnostics_json row with Some _ => _ | None => _ end); [|done]); injection H1 as <- <-; done. }
  rewrite Hs. split_and!; [done..|]. apply list_elem_of_In. by apply (proj1 (str_in_spec _ _)).
Qed.
End preset.
