(* ===== verification/Diagnostics.v ===== *)
(** * Diagnostics bundles and processes

    [internal/diagnostics]: the bundles that can be downloaded for a while
    ([bundle.go]) and the scan of the host's processes ([processes.go]).  The
    archive of a bundle, its identifier and the files of [/proc] are
    arguments. *)

From stdpp Require Import base tactics list gmap strings.
From Stdlib Require Import ZArith Lia Ascii Sorting.Sorted.
From S2P Require Import Prelude GoString GoParse Float64 Db HostProc DockerApi Onboarding.

Local Open Scope Z_scope.

(** ** Bundles *)

(** [any]: a text, a [map[string]any] with its entries, or a value of another
    type [X] *)
Inductive any {X : Type} := AString (s : string) | AMap (fields : list (string * any)) | AOther (x : X).
Arguments any X : clear implicits.

Section bundles.
Context {X : Type} (without_user : string -> option string).

Definition hidden_words : list string := ["password"; "token"; "secret"; "environment"; "logs"].
Definition hidden_key (key : string) : bool := existsb (Contains (ToLower key)) hidden_words.
Fixpoint sanitize (v : any X) : any X :=
  match v with
  | AString s => AString (sanitizeDetail without_user s)
  | AMap fields =>
      AMap ((fix go (l : list (string * any X)) : list (string * any X) :=
        match l with
        | [] => []
        | (key, value) :: l => if hidden_key key then go l else (key, sanitize value) :: go l
        end) fields)
  | AOther x => AOther x
  end.
Fixpoint sanitizeFields (l : list (string * any X)) : list (string * any X) :=
  match l with
  | [] => []
  | (key, value) :: l => if hidden_key key then sanitizeFields l else (key, sanitize value) :: sanitizeFields l
  end.

Record BundleData := mkBundleData { bd_Fields : list (string * any X); bd_PartialFailures : list string }.
Record BundlePreview := mkPreview {
  bp_ID : string; bp_CreatedAt : Z; bp_ExpiresAt : Z; bp_Fields : list (string * any X); bp_PartialFailures : list string;
}.
Record bundleEntry := mkBundleEntry { be_preview : BundlePreview; be_archive : string }.
Definition bundle_max : nat := 8.
Definition bundle_ttl : Z := 10 * Minute.

Section service.
Context `{MapOrder} (bundleArchive : BundlePreview -> string + string).

Definition unexpired (now : Z) (e : bundleEntry) : bool := now <? bp_ExpiresAt (be_preview e).
(** The key of the oldest entry; [""] without one *)
Definition oldest_entry (m : gmap string bundleEntry) : string :=
  fold_left (fun oldest kv =>
    if (oldest =?s "") || match m !! oldest with
                          | Some e => bp_CreatedAt (be_preview kv.2) <? bp_CreatedAt (be_preview e)
                          | None => bp_CreatedAt (be_preview kv.2) <? zero_time
                          end
    then kv.1 else oldest) (range_map m) "".
(** [id]: [None] when the random source fails *)
Definition Generate (data : BundleData) (now : Z) (id : option string) (m : gmap string bundleEntry) : (string + BundlePreview) * gmap string bundleEntry :=
  match id with
  | None => (inl "random source", m)
  | Some id =>
      let preview := mkPreview id now (time_add now bundle_ttl) (sanitizeFields (bd_Fields data)) (bd_PartialFailures data) in
      match bundleArchive preview with
      | inl e => (inl e, m)
      | inr archive =>
          let m := filter (fun kv => unexpired now kv.2 = true) m in
          let m := if (bundle_max <=? size m)%nat then delete (oldest_entry m) m else m in
          (inr preview, <[id := mkBundleEntry preview archive]> m)
      end
  end.
Definition Download (id : string) (now : Z) (m : gmap string bundleEntry) : option (string * BundlePreview) * gmap string bundleEntry :=
  match m !! id with
  | Some e => if unexpired now e then (Some (be_archive e, be_preview e), m) else (None, delete id m)
  | None => (None, delete id m)
  end.
End service.

(** *** What is left out *)

(** No key of the fields, at any depth of the maps, names something hidden. *)
Fixpoint clean (v : any X) : bool :=
  match v with
  | AMap fields =>
      (fix go (l : list (string * any X)) : bool :=
        match l with [] => true | (key, value) :: l => negb (hidden_key key) && clean value && go l end) fields
  | _ => true
  end.
Lemma sanitize_map l : sanitize (AMap l) = AMap (sanitizeFields l).
Proof. reflexivity. Qed.
Lemma clean_map l : clean (AMap l) = forallb (fun kv => negb (hidden_key kv.1) && clean kv.2) l.
Proof. cbn [clean]. induction l as [|[k v] l IH]; [done|]. cbn [forallb fst snd]. by rewrite IH. Qed.
Fixpoint any_size (v : any X) : nat :=
  match v with
  | AMap fields => S ((fix go (l : list (string * any X)) : nat := match l with [] => O | (_, v) :: l => (any_size v + go l)%nat end) fields)
  | _ => 1%nat
  end.
Lemma any_size_pos v : (0 < any_size v)%nat.
Proof. destruct v; cbn; lia. Qed.
Lemma sanitize_clean n : forall v, (any_size v <= n)%nat -> clean (sanitize v) = true.
Proof.
  induction n as [|n IH]; intros v Hn; [pose proof (any_size_pos v); lia|]. destruct v as [s|l|x]; [done| |done].
  rewrite sanitize_map, clean_map. cbn [any_size] in Hn. induction l as [|[k v] l IHl]; [done|]. cbn [sanitizeFields].
  destruct (hidden_key k) eqn:Ek; [apply IHl; lia|]. cbn [forallb fst snd]. rewrite Ek, IH by lia. apply IHl. lia.
Qed.
Lemma sanitized_kept l key v : In (key, v) l -> hidden_key key = false -> In (key, sanitize v) (sanitizeFields l).
Proof.
  induction l as [|[k w] l IH]; [done|]. cbn [sanitizeFields]. intros [[= -> ->]|Hin] Hk.
  - rewrite Hk. by left.
  - destruct (hidden_key k); [by apply IH|right; by apply IH].
Qed.

(** A bundle names no secrets.  At any depth of the maps of a
    bundle no key contains one of the hidden words, in whatever case; every
    other field of the collected data is kept, with its texts redacted. *)
Theorem bundle_sanitized (l : list (string * any X)) :
  clean (AMap (sanitizeFields l)) = true /\
  (forall key v, In (key, v) l -> hidden_key key = false -> In (key, sanitize v) (sanitizeFields l)) /\
  (forall key s, In (key, AString s) l -> hidden_key key = false -> In (key, AString (sanitizeDetail without_user s)) (sanitizeFields l)).
Proof.
  split_and!; [|intros key v; apply sanitized_kept|intros key s; apply (sanitized_kept l key (AString s))].
  rewrite <- sanitize_map. by eapply sanitize_clean.
Qed.
End bundles.
Arguments BundleData X : clear implicits.
Arguments BundlePreview X : clear implicits.
Arguments bundleEntry X : clear implicits.

(** *** How long it can be downloaded *)

Section lifetime.
Context {X : Type} (without_user : string -> option string) `{MapOrder} (bundleArchive : BundlePreview X -> string + string).
Local Notation Generate := (Generate without_user bundleArchive).
Local Notation created e := (bp_CreatedAt (be_preview e)).

(** One request for a bundle, or a download *)
Inductive bundle_op := OGenerate (data : BundleData X) (now : Z) (id : option string) | ODownload (id : string) (now : Z).
Definition bundle_step (m : gmap string (bundleEntry X)) (o : bundle_op) : gmap string (bundleEntry X) :=
  match o with OGenerate data now id => (Generate data now id m).2 | ODownload id now => (Download id now m).2 end.
Definition op_time (o : bundle_op) : Z := match o with OGenerate _ now _ => now | ODownload _ now => now end.
Definition op_id (o : bundle_op) : string := match o with OGenerate _ _ id => default "-" id | ODownload id _ => "-" end.
Definition generates (o : bundle_op) : bool := match o with OGenerate _ _ _ => true | ODownload _ _ => false end.

Lemma oldest_spec (m : gmap string (bundleEntry X)) :
  m !! "" = None -> m <> ∅ ->
  exists e, m !! oldest_entry m = Some e /\ forall k e', m !! k = Some e' -> created e <= created e'.
Proof.
  intros Hempty Hne. unfold oldest_entry. set (f := fun (oldest : string) (kv : string * bundleEntry X) => _).
  assert (forall l, (forall kv, kv ∈ l -> m !! kv.1 = Some kv.2) -> l <> [] ->
    exists e, m !! fold_left f l "" = Some e /\ forall kv, kv ∈ l -> created e <= created kv.2) as Hl.
  { induction l as [|[k e] l IH] using rev_ind; [done|]. intros Hin _. rewrite fold_left_app. cbn [fold_left].
    assert (m !! k = Some e) as Hk by (apply (Hin (k, e)); set_solver). unfold f at 1. cbn [fst snd].
    destruct (decide (l = [])) as [->|Hl0]; [exists e; split; [done|set_solver by lia]|].
    destruct IH as (e0 & He0 & Hmin); [intros kv Hkv; apply Hin; set_solver|done|].
    destruct (String.eqb_spec (fold_left f l "") "") as [E|_]; [rewrite E in He0; congruence|]. cbn [orb]. rewrite He0.
    destruct (Z.ltb_spec (created e) (created e0)).
    - exists e. split; [done|]. intros kv [Hkv| ->%list_elem_of_singleton]%elem_of_app; [specialize (Hmin kv Hkv)|]; cbn; lia.
    - exists e0. split; [done|]. intros kv [Hkv| ->%list_elem_of_singleton]%elem_of_app; [by apply Hmin|]. cbn. lia. }
  destruct (Hl (range_map m)) as (e & He & Hmin).
  - intros [k e] Hin. rewrite range_map_perm in Hin. by apply elem_of_map_to_list.
  - intros E. apply Hne, map_to_list_empty_iff. apply Permutation_nil_r. rewrite <- range_map_perm. by rewrite E.
  - exists e. split; [done|]. intros k e' Hk. apply (Hmin (k, e')). rewrite range_map_perm. by apply elem_of_map_to_list.
Qed.

Definition newer (e : bundleEntry X) (kv : string * bundleEntry X) : Prop := created e < created kv.2.
#[local] Instance newer_dec e kv : Decision (newer e kv).
Proof. unfold newer. apply _. Defined.
(** The entry of [id] is there, and [j] others are newer. *)
Definition holds (id : string) (e : bundleEntry X) (j : nat) (m : gmap string (bundleEntry X)) : Prop :=
  m !! id = Some e /\ m !! "" = None /\ (forall k e', m !! k = Some e' -> k <> id -> created e' <> created e) /\
  (size (filter (newer e) m) <= j)%nat.
Lemma holds_weaken id e j m m' : holds id e j m -> m' !! id = Some e -> m' ⊆ m -> holds id e j m'.
Proof.
  intros (Hid & H0 & Hd & Hj) Hid' Hsub. split_and!; [done| | |].
  - by eapply lookup_weaken_None.
  - intros k e' Hk. apply (Hd k). by eapply lookup_weaken.
  - etrans; [|exact Hj]. rewrite <- !size_dom. apply subseteq_size, subseteq_dom, map_filter_subseteq_mono, Hsub.
Qed.
Lemma holds_oldest id e j m : holds id e j m -> (S j < size m)%nat -> oldest_entry m <> id.
Proof.
  intros (Hid & H0 & Hd & Hj) Hsize E. destruct (oldest_spec m H0) as (e0 & He0 & Hmin); [by intros ->|]. rewrite E in He0. assert (e0 = e) as -> by congruence.
  assert (filter (newer e) m = delete id m) as Ef.
  { apply map_eq. intros k. destruct (decide (k = id)) as [->|Hk].
    - rewrite lookup_delete_eq. apply map_lookup_filter_None. right. intros x Hx. simplify_eq. unfold newer. cbn. lia.
    - rewrite lookup_delete_ne by done. destruct (m !! k) as [x|] eqn:Ex.
      + apply map_lookup_filter_Some. split; [done|]. unfold newer. cbn. pose proof (Hmin k x Ex). pose proof (Hd k x Ex Hk). lia.
      + apply map_lookup_filter_None. by left. }
  rewrite Ef, map_size_delete_Some in Hj by (by eexists). lia.
Qed.
Lemma holds_insert id e j m id' e' :
  holds id e j m -> id' <> id -> id' <> "" -> created e < created e' -> holds id e (S j) (<[id' := e']> m).
Proof.
  intros (Hid & H0 & Hd & Hj) Hne Hne' Hlt. split_and!.
  - by rewrite lookup_insert_ne.
  - by rewrite lookup_insert_ne.
  - intros k x. destruct (decide (k = id')) as [->|Hk]; [rewrite lookup_insert_eq; intros [= <-] _; lia|rewrite lookup_insert_ne by done; apply Hd].
  - rewrite map_filter_insert_True by done. rewrite map_size_insert. destruct (_ !! id'); cbn; lia.
Qed.

Lemma holds_generate id e j m data now id' :
  holds id e j m -> (S j < bundle_max)%nat -> bp_ExpiresAt (be_preview e) = time_add (created e) bundle_ttl ->
  created e < now < created e + bundle_ttl -> default "-" id' <> id -> default "-" id' <> "" -> holds id e (S j) (Generate data now id' m).2.
Proof.
  intros Hh Hj Hexp Hnow Hne Hne'. assert (forall m', holds id e j m' -> holds id e (S j) m') as Hup.
  { intros m' (? & ? & ? & ?). split_and!; try done. lia. }
  unfold Diagnostics.Generate. destruct id' as [id'|]; [|by apply Hup]. cbn [default] in *. destruct (bundleArchive _) as [err|archive]; [by apply Hup|]. cbn [snd].
  set (m1 := filter _ m). assert (holds id e j m1) as H1.
  { apply (holds_weaken id e j m); [done| |apply map_filter_subseteq]. apply map_lookup_filter_Some. split; [apply Hh|].
    cbn. unfold unexpired. rewrite Hexp. unfold time_add. apply Z.ltb_lt. lia. }
  apply holds_insert; [|done|done|cbn; lia]. destruct (Nat.leb_spec bundle_max (size m1)); [|done].
  apply (holds_weaken id e j m1); [done| |apply delete_subseteq]. rewrite lookup_delete_ne; [apply H1|]. apply (holds_oldest id e j); [done|lia].
Qed.
Lemma holds_download id e j m id' now :
  holds id e j m -> unexpired now e = true -> holds id e j (Download id' now m).2.
Proof.
  intros Hh Hu. unfold Download. destruct (decide (id' = id)) as [->|Hne].
  - destruct Hh as (Hid & Hrest). by rewrite Hid, Hu.
  - assert (holds id e j (delete id' m)) as Hd by (apply (holds_weaken id e j m); [done|rewrite lookup_delete_ne by done; apply Hh|apply delete_subseteq]).
    destruct (m !! id') as [x|]; [|done]. by destruct (unexpired now x).
Qed.

Lemma holds_ops id e ops :
  bp_ExpiresAt (be_preview e) = time_add (created e) bundle_ttl ->
  Forall (fun o => created e < op_time o < created e + bundle_ttl /\ op_id o <> id /\ op_id o <> "") ops ->
  forall j m, holds id e j m -> (j + length (List.filter generates ops) < bundle_max)%nat -> exists j', holds id e j' (fold_left bundle_step ops m).
Proof.
  intros Hexp Hops. induction Hops as [|o ops (Ht & Hne & Hne') _ IH]; intros j m Hm Hb; [by eexists|].
  cbn [fold_left]. destruct o as [data t id'|id' t]; cbn [op_time op_id bundle_step] in *; cbn in Hb.
  - apply (IH (S j)); [|lia]. apply holds_generate; try done. lia.
  - apply (IH j); [|exact Hb]. apply holds_download; [done|]. unfold unexpired. rewrite Hexp. unfold time_add. apply Z.ltb_lt. lia.
Qed.

(** C35 (liveness): a bundle can be downloaded while it is valid.  After it was
    generated, and before ten minutes have passed, it is found under its
    identifier with its archive, whatever other bundles are generated and
    downloaded in between, fewer than eight of them generated; after ten
    minutes it is never found. *)
Theorem bundle_available (m : gmap string (bundleEntry X)) (data : BundleData X) (now : Z) (id : string) (preview : BundlePreview X) (ops : list bundle_op) :
  m !! "" = None -> (forall k e, m !! k = Some e -> created e < now) ->
  (Generate data now (Some id) m).1 = inr preview ->
  id <> "" -> (length (List.filter generates ops) < bundle_max)%nat ->
  Forall (fun o => now < op_time o < now + bundle_ttl /\ op_id o <> id /\ op_id o <> "") ops ->
  let m' := fold_left bundle_step ops (Generate data now (Some id) m).2 in
  (forall later, later < now + bundle_ttl -> exists archive, bundleArchive preview = inr archive /\ (Download id later m').1 = Some (archive, preview)) /\
  (forall later, now + bundle_ttl <= later -> (Download id later m').1 = None).
Proof.
  intros H0 Hold Hg Hid Hn Hops. cbv zeta. unfold Diagnostics.Generate in *.
  set (p := mkPreview id now (time_add now bundle_ttl) (sanitizeFields without_user (bd_Fields data)) (bd_PartialFailures data)) in *.
  destruct (bundleArchive p) as [err|archive] eqn:Ea; [done|]. cbn [fst snd] in *. injection Hg as <-.
  set (m1 := <[id := _]> _). set (e := mkBundleEntry p archive) in *.
  assert (holds id e 0 m1) as H1.
  { subst m1. set (m0 := filter _ m). set (m2 := if (_ <=? _)%nat then _ else _). assert (m2 ⊆ m) as Hsub.
    { subst m2. destruct (_ <=? _)%nat; [etrans; [apply delete_subseteq|]|]; apply map_filter_subseteq. }
    split_and!; [by rewrite lookup_insert_eq|rewrite lookup_insert_ne by done; by eapply lookup_weaken_None| |].
    - intros k x. destruct (decide (k = id)) as [->|Hk]; [done|]. rewrite lookup_insert_ne by done. intros Hx _. pose proof (Hold k x (lookup_weaken _ _ _ _ Hx Hsub)). cbn. lia.
    - apply Nat.le_0_r, map_size_empty_iff, map_eq. intros k. rewrite lookup_empty. apply map_lookup_filter_None. right. intros x.
      destruct (decide (k = id)) as [->|Hk]; [rewrite lookup_insert_eq; intros [= <-]; unfold newer; cbn; lia|]. rewrite lookup_insert_ne by done.
      intros Hx. pose proof (Hold k x (lookup_weaken _ _ _ _ Hx Hsub)). unfold newer. cbn. lia. }
  assert (exists j, holds id e j (fold_left bundle_step ops m1)) as [j (Hf & _)]. by (apply (holds_ops id e ops) with (j := O); done).
  unfold Download. rewrite Hf. unfold unexpired. cbn [be_preview e p bp_ExpiresAt]. unfold time_add. split; intros later Hl.
  - exists archive. split; [done|]. by rewrite (proj2 (Z.ltb_lt _ _)) by lia.
  - by rewrite (proj2 (Z.ltb_ge _ _)) by lia.
Qed.
End lifetime.

(** ** Processes *)

Definition DefaultProcesses : Z := 25.
Definition MaxProcesses : Z := 100.
Definition maxScannedProcesses : nat := 4096.
Definition maxProcFileBytes : Z := 65536.

Record Process := mkProcess {
  pr_PID : Z; pr_Command : string; pr_CPUPercent : F64; pr_RSSBytes : Z; pr_User : string; pr_UID : Z; pr_State : string;
  pr_UptimeSeconds : F64; pr_ContainerID : string;
}.
Record processSample := mkProcessSample {
  ps_PID : Z; ps_Command : string; ps_State : string; ps_ContainerID : string; ps_Ticks : Z; ps_StartTicks : Z; ps_RSSBytes : Z; ps_UID : Z;
}.

(** What a file of [/proc] reads as: its lines joined, blank ones at the
    beginning dropped; [None] when a line does not fit the buffer. *)
Definition join_line (text line : list ascii) : list ascii := match text with [] => line | _ => text ++ newline :: line end.
Definition bounded (raw : list ascii) : option string :=
  let tokens := scan_tokens raw in
  if forallb (fun t => Z.of_nat (length t) <? maxProcFileBytes) tokens
  then Some (of_bytes (fold_left join_line (map drop_cr tokens) [])) else None.

(** Before and after the last [") "] *)
Fixpoint cut_last (l : list ascii) : option (list ascii * list ascii) :=
  match l with
  | [] => None
  | c :: t =>
      match cut_last t with
      | Some (before, after) => Some (c :: before, after)
      | None => match t with
                | d :: after => if Ascii.eqb c ")"%char && Ascii.eqb d " "%char then Some ([], after) else None
                | [] => None
                end
      end
  end.
Record statFields := mkStatFields { sf_Command : string; sf_State : string; sf_Ticks : Z; sf_Start : Z; sf_RSS : Z }.
Definition parse_stat (stat : string) : option statFields :=
  match cut_last (bytes stat) with
  | None => None
  | Some (before, after) =>
      match span (fun c => negb (Ascii.eqb c "("%char)) before with
      | (_, []) => None
      | (_, _ :: comm) =>
          let fields := Fields (of_bytes after) in
          if (length fields <? 22)%nat then None
          else
            let at_ i := nth i fields "" in
            match ParseUint (at_ 11%nat), ParseUint (at_ 12%nat), ParseUint (at_ 19%nat), ParseInt (at_ 21%nat) with
            | Some utime, Some stime, Some start, Some rss =>
                Some (mkStatFields (TrimSpace (of_bytes comm)) (at_ 0%nat) (wrapu64 (utime + stime)) start rss)
            | _, _, _, _ => None
            end
      end
  end.

Definition hex_digit (c : ascii) : bool := match hex_byte c with Some _ => true | None => false end.
(** [strings.FieldsFunc] *)
Fixpoint fields_func (p : ascii -> bool) (cur l : list ascii) : list (list ascii) :=
  match l with
  | [] => match cur with [] => [] | _ => [rev cur] end
  | c :: l => if p c then match cur with [] => fields_func p [] l | _ => rev cur :: fields_func p [] l end else fields_func p (c :: cur) l
  end.
Definition cgroup_separator (c : ascii) : bool := existsb (Ascii.eqb c) ["/"%char; ":"%char; newline; "-"%char].
Definition containerFromCgroup (raw : string) : string :=
  default "" (head (omap (fun field =>
    let field := bytes (TrimSuffix (of_bytes field) ".scope") in
    let candidate := drop (length field - 64) field in
    if (64 <=? length field)%nat && forallb hex_digit candidate then Some (of_bytes candidate) else None)
    (fields_func cgroup_separator [] (bytes raw)))).

(** The values that come with an error: too large a number is the largest *)
Definition uint_value (s : string) : Z := match parse_digits (bytes s) with Some n => Z.min n (2 ^ 64 - 1) | None => 0 end.
Definition float_value (s : string) : F64 :=
  match ParseFloat s with
  | Some x => x
  | None => match bytes s with
            | c :: l => if Ascii.eqb c "-"%char then default f64_zero (read_float true l)
                        else default f64_zero (read_float false (if Ascii.eqb c "+"%char then l else c :: l))
            | [] => f64_zero
            end
  end.

Section scan.
(** The files, and the directory of [/proc] with whether an entry is one *)
Context (read_file : string -> option (list ascii)) (pagesize : Z).
Definition readBounded (path : string) : option string := read_file path ≫= bounded.

Definition process_uid (status : string) : Z :=
  match List.find (fun line => HasPrefix line "Uid:") (Lines status) with
  | Some line => match Fields line with _ :: uid :: _ => uint_value uid | _ => 0 end
  | None => 0
  end.
Definition readProcess (root : string) (pid : Z) : option processSample :=
  let dir := Path_Join [root; Itoa pid] in
  match readBounded (Path_Join [dir; "stat"]) ≫= parse_stat with
  | None => None
  | Some f =>
      let command := match readBounded (Path_Join [dir; "cmdline"]) with
                     | Some raw =>
                         let value := TrimSpace (of_bytes (map (fun c => if Ascii.eqb c "000"%char then " "%char else c) (bytes raw))) in
                         if value =?s "" then sf_Command f else value
                     | None => sf_Command f
                     end in
      let uid := match readBounded (Path_Join [dir; "status"]) with Some status => process_uid status | None => 0 end in
      let container := match readBounded (Path_Join [dir; "cgroup"]) with Some cgroup => containerFromCgroup cgroup | None => "" end in
      Some (mkProcessSample pid command (sf_State f) container (sf_Ticks f) (sf_Start f) (wrap64 (Z.max 0 (sf_RSS f) * pagesize)) uid)
  end.
Fixpoint sum_uints (acc : Z) (l : list string) : option Z :=
  match l with [] => Some acc | f :: l => match ParseUint f with Some v => sum_uints (wrapu64 (acc + v)) l | None => None end end.
Definition readCPUTotal (path : string) : option Z :=
  match readBounded path with
  | None => None
  | Some raw => match Fields (hd "" (Lines raw)) with
                | name :: f :: fields => if name =?s "cpu" then sum_uints 0 (f :: fields) else None
                | _ => None
                end
  end.
Definition readUptime (root : string) : F64 :=
  match readBounded (Path_Join [root; "uptime"]) with
  | Some raw => match Fields raw with f :: _ => float_value f | [] => f64_zero end
  | None => f64_zero
  end.
Definition readPasswd (path : string) : gmap Z string :=
  match readBounded path with
  | None => ∅
  | Some raw =>
      fold_left (fun users line =>
        match Split line ":"%char with
        | name :: _ :: uid :: _ => match ParseUint uid with Some uid => <[uid := name]> users | None => users end
        | _ => users
        end) (Lines raw) ∅
  end.
(** [entries]: the names in the directory, with whether they are directories *)
Definition sample (root : string) (entries : option (list (string * bool))) : option (Z * gmap Z processSample) :=
  match readCPUTotal (Path_Join [root; "stat"]), entries with
  | Some total, Some entries =>
      Some (total, fold_left (fun values entry =>
        if (maxScannedProcesses <=? size values)%nat then values
        else match Atoi entry.1 with
        | Some pid => if (pid <=? 0) || negb entry.2 then values
                      else match readProcess root pid with Some v => <[pid := v]> values | None => values end
        | None => values
        end) entries ∅)
  | _, _ => None
  end.

(** [for pid, current := range second] *)
Context (range_processes : gmap Z processSample -> list (Z * processSample)).
Definition process_of (users : gmap Z string) (uptime : F64) (deltaTotal : Z) (pid : Z) (current previous : processSample) : Process :=
  let delta := if ps_Ticks current <? ps_Ticks previous then 0 else ps_Ticks current - ps_Ticks previous in
  let user := default "" (users !! ps_UID current) in
  let age := f64_sub uptime (f64_div (f64_of_Z (ps_StartTicks current)) (f64_of_Z 100)) in
  mkProcess pid (ps_Command current) (f64_div (f64_mul (f64_of_Z delta) (f64_of_Z 100)) (f64_of_Z deltaTotal)) (ps_RSSBytes current)
    (if user =?s "" then Itoa (ps_UID current) else user) (ps_UID current) (ps_State current)
    (if (age <? f64_zero)%F then f64_zero else age) (ps_ContainerID current).
(** The processes of both samples, by CPU and memory *)
Definition compare_samples (users : gmap Z string) (uptime : F64) (first second : Z * gmap Z processSample) : list Process :=
  let deltaTotal := if (second.1 <? first.1) || (second.1 - first.1 =? 0) then 1 else second.1 - first.1 in
  omap (fun pc => match first.2 !! pc.1 with
                  | Some previous => if ps_StartTicks pc.2 =? ps_StartTicks previous then Some (process_of users uptime deltaTotal pc.1 pc.2 previous) else None
                  | None => None
                  end) (range_processes second.2).
Definition process_before (a b : Process) : bool :=
  if (pr_CPUPercent a =? pr_CPUPercent b)%F then pr_RSSBytes b <? pr_RSSBytes a else (pr_CPUPercent b <? pr_CPUPercent a)%F.
(** [busy]: another scan is running; [first] and [second] as [sample] gives them *)
Definition Scan (limit : Z) (busy : bool) (passwd root : string) (first second : option (Z * gmap Z processSample)) : string + list Process :=
  let limit := if limit =? 0 then DefaultProcesses else limit in
  if (limit <? 1) || (MaxProcesses <? limit) then inl "process limit must be between 1 and 100"
  else if busy then inl "a process scan is already running"
  else match first, second with
  | Some first, Some second =>
      inr (firstn (Z.to_nat limit)
             (sql_order_by (fun a b => negb (process_before b a)) (compare_samples (readPasswd passwd) (readUptime root) first second)))
  | _, _ => inl "the processes cannot be read"
  end.
End scan.

(** *** A process may call itself anything *)

Lemma cut_last_free l : free_of ")"%char l = true -> cut_last l = None.
Proof.
  unfold free_of. induction l as [|c l IH]; [done|]. cbn [forallb cut_last]. intros [Hc Hl]%andb_true_iff. rewrite IH by done.
  apply negb_true_iff in Hc. destruct l; [done|]. by rewrite Hc.
Qed.
Lemma cut_last_spec a b : free_of ")"%char b = true -> cut_last (a ++ ")"%char :: " "%char :: b) = Some (a, b).
Proof.
  intros Hb. induction a as [|c a IH].
  - cbn [app cut_last]. rewrite (cut_last_free b) by done. destruct b as [|d b]; [done|]. cbn [Ascii.eqb]. done.
  - cbn [app cut_last]. by rewrite IH.
Qed.
Lemma span_until {A} (p : A -> bool) l x r : forallb p l = true -> p x = false -> span p (l ++ x :: r) = (l, x :: r).
Proof. intros Hl Hx. induction l as [|y l IH]; cbn in *; [by rewrite Hx|]. apply andb_true_iff in Hl as [-> Hl]. by rewrite IH. Qed.

(** The line of [/proc/<pid>/stat] after the name: the state and the counters *)
Definition stat_text (pid : Z) (comm : string) (r : row) : string :=
  of_bytes (bytes (Itoa pid) ++ bytes " (" ++ bytes comm ++ bytes ") " ++ row_bytes r).

(** C40 (functional): a process is read right whatever it calls itself.  For
    every name, with parentheses and blanks or not, the state, the CPU ticks,
    the start and the resident pages are those of the fields after the name,
    and the name is the text between the parentheses. *)
Theorem process_name_harmless (pid : Z) (comm : string) (r : row) (utime stime start rss : Z) :
  in_uint64 pid -> row_ok r = true -> free_of ")"%char (row_bytes r) = true -> (22 <= length (row_words r))%nat ->
  in_uint64 utime -> in_uint64 stime -> in_uint64 start -> in_int64 rss ->
  let field i := nth i (row_words r) "" in
  field 11%nat = Itoa utime -> field 12%nat = Itoa stime -> field 19%nat = Itoa start -> field 21%nat = Itoa rss ->
  parse_stat (stat_text pid comm r) = Some (mkStatFields (TrimSpace comm) (ro_first r) (wrapu64 (utime + stime)) start rss).
Proof.
  intros Hp Hr Hfree Hlen H1 H2 H3 H4 field E1 E2 E3 E4. subst field. cbv beta in *. unfold parse_stat, stat_text. rewrite bytes_of_bytes.
  change (bytes ") ") with [")"%char; " "%char]. rewrite !app_assoc. cbn [app]. rewrite <- (app_assoc _ [_; _] _). cbn [app]. rewrite cut_last_spec by done.
  change (bytes " (") with [" "%char; "("%char]. rewrite <- !app_assoc. cbn [app].
  change (bytes (Itoa pid) ++ " "%char :: "("%char :: bytes comm) with (bytes (Itoa pid) ++ [" "%char] ++ "("%char :: bytes comm). rewrite app_assoc.
  destruct (Itoa_digits pid Hp) as [Hd _]. rewrite span_until; [|rewrite forallb_app; apply andb_true_iff; split; [|done]|done].
  2: { rewrite forallb_forall in *. intros c Hc. specialize (Hd c Hc). by destruct (Ascii.eqb_spec c "("%char) as [->|]. }
  rewrite Fields_row by done. rewrite (proj2 (Nat.ltb_ge _ _)) by done. cbv zeta.
  rewrite E1, E2, E3, E4, !ParseUint_Itoa, ParseInt_Itoa by done. by rewrite of_bytes_bytes.
Qed.

(** *** The scan *)

Section scanned.
Context (read_file : string -> option (list ascii)) (range_processes : gmap Z processSample -> list (Z * processSample)).
Hypothesis range_perm : forall m, range_processes m ≡ₚ map_to_list m.

Lemma before_asym a b : process_before a b = true -> process_before b a = false.
Proof.
  unfold process_before, SpecFloat.SFeqb, SpecFloat.SFltb. pose proof (SFcompare_key (pr_CPUPercent a) (pr_CPUPercent b)) as Hab.
  pose proof (SFcompare_key (pr_CPUPercent b) (pr_CPUPercent a)) as Hba.
  destruct (SpecFloat.SFcompare (pr_CPUPercent a) (pr_CPUPercent b)) as [[]|], (SpecFloat.SFcompare (pr_CPUPercent b) (pr_CPUPercent a)) as [[]|],
    (f64_key (pr_CPUPercent a)) as [[[a1 a2] a3]|], (f64_key (pr_CPUPercent b)) as [[[b1 b2] b3]|]; unfold key_lt in *; try done;
    try (exfalso; simplify_eq; lia).
  rewrite Z.ltb_lt, Z.ltb_ge. lia.
Qed.
(** A scan gives at most as many processes as asked for, the first of all that
    ran throughout, by CPU and then by memory. *)
Lemma scan_top limit busy passwd root first second ps :
  Scan read_file range_processes limit busy passwd root (Some first) (Some second) = inr ps ->
  let all := compare_samples range_processes (readPasswd read_file passwd) (readUptime read_file root) first second in
  exists rest, ps ++ rest ≡ₚ all /\ Sorted (fun a b => negb (process_before b a) = true) (ps ++ rest) /\
    (length ps <= Z.to_nat (if (limit =? 0)%Z then DefaultProcesses else limit) <= 100)%nat /\
    (forall p, p ∈ ps -> exists c previous, second.2 !! pr_PID p = Some c /\ first.2 !! pr_PID p = Some previous /\ ps_StartTicks c = ps_StartTicks previous).
Proof.
  unfold Scan. set (n := if limit =? 0 then _ else limit). destruct (_ || _) eqn:En; [done|]. destruct busy; [done|]. intros [= <-]. cbv zeta.
  set (all := compare_samples _ _ _ _ _). set (sorted := sql_order_by _ all). bool_hyps. exists (skipn (Z.to_nat n) sorted). rewrite firstn_skipn.
  assert (sorted ≡ₚ all) as Hp by apply sql_order_by_perm. unfold MaxProcesses in *. split_and!; [done| |rewrite length_firstn; lia|lia|].
  - apply sql_order_by_sorted. intros a b Hab. apply negb_false_iff in Hab. by rewrite before_asym.
  - intros p Hin. assert (p ∈ all) as Ha.
    { rewrite <- Hp. rewrite <- (firstn_skipn (Z.to_nat n) sorted). apply elem_of_app. by left. }
    unfold all, compare_samples in Ha. cbv zeta in Ha. apply list_elem_of_omap in Ha as ([pid c] & Hc & Heq). cbn [fst snd] in Heq.
    rewrite range_perm in Hc. apply elem_of_map_to_list in Hc. destruct (first.2 !! pid) as [previous|] eqn:Ep; [|done].
    destruct (Z.eqb_spec (ps_StartTicks c) (ps_StartTicks previous)); [|done]. injection Heq as <-. by exists c, previous.
Qed.
End scanned.

(** ** Examples and witnesses *)

Definition no_data : BundleData unit := mkBundleData [("version", AString "1"); ("apiToken", AString "x")] [].
Definition plain_archive (p : BundlePreview unit) : string + string := inr (bp_ID p).
Lemma bundle_available_witness :
  let m := (Generate (fun _ => None) plain_archive no_data 0 (Some "a") ∅).2 in
  let ops := [OGenerate no_data Second (Some "b"); ODownload "b" (2 * Second); OGenerate no_data (3 * Second) None] in
  exists archive preview, (Download "a" Minute (fold_left (bundle_step (fun _ => None) plain_archive) ops m)).1 = Some (archive, preview).
Proof.
  cbv zeta. destruct (Generate (fun _ => None) plain_archive no_data 0 (Some "a") ∅).1 as [e|preview] eqn:E; [vm_compute in E; done|].
  destruct (bundle_available (fun _ => None) plain_archive ∅ no_data 0 "a" preview
    [OGenerate no_data Second (Some "b"); ODownload "b" (2 * Second); OGenerate no_data (3 * Second) None]) as [H _];
    [done|done|exact E|done|vm_compute; lia|repeat constructor; vm_compute; done|].
  destruct (H Minute) as (archive & _ & Ha); [vm_compute; done|]. by exists archive, preview.
Defined.

Definition sample_row : row := mkRow 0 "S" (map (fun n => (0%nat, Itoa n)) [1; 2; 3; 4; 5; 6; 7; 8; 9; 10; 250; 50; 13; 14; 15; 16; 17; 18; 9000; 20; 77]).
Lemma process_name_harmless_witness :
  parse_stat (stat_text 42 "sh) R 1 (x" sample_row) = Some (mkStatFields "sh) R 1 (x" "S" 300 9000 77).
Proof.
  apply (process_name_harmless 42 "sh) R 1 (x" sample_row 250 50 9000 77); first [done | vm_compute; reflexivity | cbn; lia].
Defined.
