(* ===== verification/Logs.v ===== *)
(** * Container logs

    [internal/diagnostics/logs.go]: reading the logs of containers within the
    limits of the configuration, redacted before anything else.  The compiled
    patterns are functions on texts, and so is the recognition of a level; a
    client yields the lines of a container and the error it ends with. *)

From stdpp Require Import base tactics list gmap strings.
From Stdlib Require Import ZArith Lia Ascii.
From S2P Require Import Prelude GoString GoParse GoTime.

Local Open Scope Z_scope.

Definition DefaultLogLines : Z := 500.
Definition MaxLogComponents : nat := 32.

Record LogEntry := mkLogEntry { le_Timestamp : Z; le_Component : string; le_Stream : string; le_Severity : string; le_Message : string }.
Record LogResult := mkLogResult { lr_Entries : list LogEntry; lr_Truncated : bool; lr_Redaction : string }.
Record LogRequest := mkLogRequest { lq_Components : list string; lq_From : Z; lq_To : Z; lq_Limit : Z; lq_Search : string; lq_Follow : bool }.
Record LogService := mkLogService { ls_MaxLines : Z; ls_MaxBytes : Z; ls_redactors : list (string -> string) }.

Section logs.
(** [regexp.Compile] with its replacement, the built-in patterns, and
    [jsonLevel] and [textLevel]: the level a message names *)
Context (compile : string -> option (string -> string)) (patterns : list (string -> string)) (find_level : string -> option string).

Definition NewLogService (maxLines maxBytes : Z) (custom : list string) : string + LogService :=
  if (maxLines <? 1) || (5000 <? maxLines) then inl "log line limit must be between 1 and 5000"
  else if (maxBytes <? 1) || (2 ^ 20 <? maxBytes) then inl "log byte limit must be between 1 and 1048576"
  else if (16 <? length custom)%nat then inl "at most 16 custom redaction patterns are allowed"
  else match mapM compile custom with
  | None => inl "error parsing regexp"
  | Some custom => inr (mkLogService maxLines maxBytes (patterns ++ custom))
  end.

Definition Redact (s : LogService) (message : string) : string := fold_left (fun m r => r m) (ls_redactors s) message.

Definition parseLogEntry (component stream raw : string) : LogEntry :=
  let '(at_, message) :=
    match split_pair raw " "%char with
    | Some (first, rest) => match ParseRFC3339 first with Some t => (t, rest) | None => (zero_time, raw) end
    | None => (zero_time, raw)
    end in
  let severity := match find_level message with
                  | Some level => if ToLower level =?s "warning" then "warn" else ToLower level
                  | None => "unknown"
                  end in
  mkLogEntry at_ component stream severity message.

(** What a request has collected; [lg_emitted] went to the caller's [emit]. *)
Record progress := mkProgress { lg_entries : list LogEntry; lg_emitted : list LogEntry; lg_bytes : Z; lg_truncated : bool }.
Inductive stop := StopLimit | StopError (e : string).
Definition entry_bytes (e : LogEntry) : Z := Z.of_nat (String.length (le_Message e)) + Z.of_nat (String.length (le_Component e)) + 64.
(** The callback of [ReadLogs] *)
Definition on_line (s : LogService) (q : LogRequest) (limit : Z) (emit : option (LogEntry -> option string)) (component : string)
    (line : string * string) (p : progress) : option stop * progress :=
  let entry := parseLogEntry component line.1 (Redact s line.2) in
  if negb (lq_Search q =?s "") && negb (Contains (le_Message entry) (lq_Search q)) then (None, p)
  else if (limit <=? Z.of_nat (length (lg_entries p))) || (ls_MaxBytes s <? lg_bytes p + entry_bytes entry)
  then (Some StopLimit, mkProgress (lg_entries p) (lg_emitted p) (lg_bytes p) true)
  else
    let bytes := lg_bytes p + entry_bytes entry in
    match emit with
    | Some emit => (StopError <$> emit entry, mkProgress (lg_entries p) (lg_emitted p ++ [entry]) bytes (lg_truncated p))
    | None => (None, mkProgress (lg_entries p ++ [entry]) (lg_emitted p) bytes (lg_truncated p))
    end.
Fixpoint each_line (f : string * string -> progress -> option stop * progress) (lines : list (string * string)) (p : progress) : option stop * progress :=
  match lines with
  | [] => (None, p)
  | line :: lines => match f line p with (Some e, p) => (Some e, p) | (None, p) => each_line f lines p end
  end.
(** [client]: the lines of a container and the error they end with, for the
    number of lines asked for *)
Context (client : string -> Z -> list (string * string) * option string).
Fixpoint read_components (s : LogService) (q : LogRequest) (limit : Z) (emit : option (LogEntry -> option string)) (components : list string)
    (p : progress) : option string * progress :=
  match components with
  | [] => (None, p)
  | c :: components =>
      let '(lines, ending) := client c (limit + 1) in
      match each_line (on_line s q limit emit c) lines p with
      | (Some StopLimit, p) => (None, p)
      | (Some (StopError e), p) => (Some e, p)
      | (None, p) => match ending with Some e => (Some e, p) | None => read_components s q limit emit components p end
      end
  end.
(** The error, the result and what was emitted *)
Definition Read (s : option LogService) (q : LogRequest) (emit : option (LogEntry -> option string)) : option string * LogResult * list LogEntry :=
  match s with
  | None => (Some "log access is unavailable", mkLogResult [] false "", [])
  | Some s =>
      let n := length (lq_Components q) in
      if (n <? 1)%nat || (MaxLogComponents <? n)%nat then (Some "invalid component count", mkLogResult [] false "", [])
      else
        let limit := if lq_Limit q =? 0 then DefaultLogLines else lq_Limit q in
        if (limit <? 1) || (ls_MaxLines s <? limit) then (Some "invalid log line limit", mkLogResult [] false "", [])
        else
          let '(err, p) := read_components s q limit emit (lq_Components q) (mkProgress [] [] 0 false) in
          (err, mkLogResult (lg_entries p) (lg_truncated p) "best-effort", lg_emitted p)
  end.

(** ** The limits *)

Definition total_bytes (l : list LogEntry) : Z := fold_right (fun e n => entry_bytes e + n) 0 l.
Lemma total_bytes_app a b : total_bytes (a ++ b) = total_bytes a + total_bytes b.
Proof. induction a as [|e a IH]; [done|]. cbn [app total_bytes fold_right] in *. unfold total_bytes in *. lia. Qed.
(** An entry is the redacted line of a container that was asked for. *)
Definition redacted (s : LogService) (q : LogRequest) (limit : Z) (e : LogEntry) : Prop :=
  exists component stream raw, component ∈ lq_Components q /\ (stream, raw) ∈ (client component (limit + 1)).1 /\
    e = parseLogEntry component stream (Redact s raw) /\ (lq_Search q = "" \/ Contains (le_Message e) (lq_Search q) = true).
Definition within (s : LogService) (q : LogRequest) (limit : Z) (p : progress) : Prop :=
  Z.of_nat (length (lg_entries p)) <= limit /\ lg_bytes p = total_bytes (lg_entries p ++ lg_emitted p) /\ lg_bytes p <= ls_MaxBytes s /\
  Forall (redacted s q limit) (lg_entries p ++ lg_emitted p).
Lemma on_line_within s q limit emit c line p :
  c ∈ lq_Components q -> line ∈ (client c (limit + 1)).1 -> within s q limit p -> within s q limit (on_line s q limit emit c line p).2.
Proof.
  intros Hc Hl (H1 & H2 & H3 & H4). unfold on_line. set (entry := parseLogEntry c line.1 (Redact s line.2)).
  destruct (negb (lq_Search q =?s "") && negb (Contains (le_Message entry) (lq_Search q))) eqn:Es; [done|].
  assert (redacted s q limit entry) as Hr.
  { exists c, line.1, line.2. split_and!; [done|by destruct line|done|]. destruct (String.eqb_spec (lq_Search q) ""); [by left|]. right. by apply negb_false_iff in Es. }
  destruct (_ || _) eqn:El; [done|]. apply orb_false_iff in El as [E1%Z.leb_gt E2%Z.ltb_ge].
  destruct emit as [f|]; cbn [snd]; unfold within; cbn [lg_entries lg_emitted lg_bytes].
  - rewrite app_assoc, total_bytes_app, Forall_app, Forall_singleton. cbn [total_bytes fold_right]. split_and!; try done. lia.
  - rewrite !total_bytes_app in *. rewrite !Forall_app in *. rewrite Forall_singleton, length_app. destruct H4. cbn [total_bytes fold_right length]. split_and!; try done; lia.
Qed.
Lemma each_line_within s q limit emit c lines p :
  c ∈ lq_Components q -> (forall line, line ∈ lines -> line ∈ (client c (limit + 1)).1) -> within s q limit p ->
  within s q limit (each_line (on_line s q limit emit c) lines p).2.
Proof.
  intros Hc. revert p. induction lines as [|line lines IH]; intros p Hl Hp; [done|]. cbn [each_line].
  pose proof (on_line_within s q limit emit c line p Hc (Hl line ltac:(set_solver)) Hp) as H1.
  destruct (on_line s q limit emit c line p) as [[e|] p1]; [done|]. apply IH; [set_solver|done].
Qed.
Lemma read_within s q limit emit components : (forall c, c ∈ components -> c ∈ lq_Components q) -> forall p,
  within s q limit p -> within s q limit (read_components s q limit emit components p).2.
Proof.
  induction components as [|c components IH]; intros Hc p Hp; [done|]. cbn [read_components].
  pose proof (each_line_within s q limit emit c (client c (limit + 1)).1 p (Hc c ltac:(set_solver)) ltac:(done) Hp) as H1.
  destruct (client c (limit + 1)) as [lines ending]. cbn [fst] in H1. destruct (each_line _ lines p) as [[[|e]|] p1]; [done|done|].
  destruct ending; [done|]. apply IH; [set_solver|done].
Qed.

(** C34 (bounds): logs stay within their limits and are redacted.  Whatever the
    containers print, and however the reading ends, a response has at most as
    many lines as asked for, and no more than the service allows; its entries
    and those streamed are of at most the configured size together; and every
    one of them is a line of a requested container, redacted before its time
    and level are read from it, that contains the text searched for. *)
Theorem logs_bounded (maxLines maxBytes : Z) (custom : list string) (s : LogService) (q : LogRequest) (emit : option (LogEntry -> option string)) :
  NewLogService maxLines maxBytes custom = inr s ->
  let '(err, result, emitted) := Read (Some s) q emit in
  let limit := if lq_Limit q =? 0 then DefaultLogLines else lq_Limit q in
  let entries := lr_Entries result ++ emitted in
  (entries <> [] -> limit <= maxLines <= 5000) /\ Z.of_nat (length (lr_Entries result)) <= Z.max 0 limit /\
  total_bytes entries <= maxBytes <= 2 ^ 20 /\ Forall (redacted s q limit) entries.
Proof.
  unfold NewLogService. destruct ((maxLines <? 1) || _) eqn:E1; [done|]. destruct ((maxBytes <? 1) || _) eqn:E2; [done|]. destruct (16 <? _)%nat; [done|].
  destruct (mapM compile custom) as [l|]; [|done]. intros [= <-]. bool_hyps. apply Z.ltb_ge in H, H0, H1, H2. unfold Read. cbn [ls_MaxLines].
  set (s := mkLogService maxLines maxBytes (patterns ++ l)). set (limit := if lq_Limit q =? 0 then _ else _).
  destruct (_ || (MaxLogComponents <? _)%nat); [cbn; split_and!; try done; try lia; constructor|].
  destruct (_ || (maxLines <? limit)) eqn:El; [cbn; split_and!; try done; try lia; constructor|]. bool_hyps.
  pose proof (read_within s q limit emit (lq_Components q) ltac:(done) (mkProgress [] [] 0 false)) as Hw.
  destruct (read_components s q limit emit (lq_Components q) (mkProgress [] [] 0 false)) as [err p]. cbn [snd] in Hw.
  destruct Hw as (W1 & W2 & W3 & W4); [split_and!; cbn; try done; lia|]. cbn [lr_Entries]. rewrite <- W2. split_and!; try done; try lia.
Qed.

(** A stream does not count its lines: the limit on them is never reached. *)
Lemma stream_ignores_limit s q limit f c line p :
  lg_entries p = [] -> lq_Search q = "" -> 1 <= limit -> lg_bytes p + entry_bytes (parseLogEntry c line.1 (Redact s line.2)) <= ls_MaxBytes s ->
  exists r, on_line s q limit (Some f) c line p = (StopError <$> f (parseLogEntry c line.1 (Redact s line.2)), r) /\ lg_entries r = [].
Proof.
  intros He Hs Hl Hb. unfold on_line. rewrite Hs, He. change ("" =?s "") with true. cbn [negb andb length]. rewrite (proj2 (Z.leb_gt _ _)), (proj2 (Z.ltb_ge _ _)) by lia.
  by eexists.
Qed.
End logs.

(** ** Witness *)

Definition hide (m : string) : string := if HasPrefix m "secret" then "[REDACTED]" else m.
Definition two_lines (component : string) (n : Z) : list (string * string) * option string := ([("stdout", "secret=1"); ("stderr", "ready")], None).
Lemma logs_bounded_witness :
  let s := mkLogService 100 1000 [hide] in
  let '(err, result, emitted) := Read (fun _ => None) two_lines (Some s) (mkLogRequest ["c1"] 0 0 1 "" false) None in
  map le_Message (lr_Entries result) = ["[REDACTED]"] /\ lr_Truncated result = true /\ total_bytes (lr_Entries result ++ emitted) <= 1000.
Proof.
  pose proof (logs_bounded (fun _ => None) [hide] (fun _ => None) two_lines 100 1000 [] (mkLogService 100 1000 [hide]) (mkLogRequest ["c1"] 0 0 1 "" false) None eq_refl) as H.
  cbv zeta. destruct (Read (fun _ => None) two_lines (Some (mkLogService 100 1000 [hide])) (mkLogRequest ["c1"] 0 0 1 "" false) None) as [[err result] emitted] eqn:E.
  destruct H as (_ & _ & [H _] & _). split_and!; [| |exact H]; vm_compute in E; injection E as <- <- <-; vm_compute; reflexivity.
Defined.
