(* ===== verification/ApiCore.v ===== *)
(** * The HTTP API: requests, effects and guards

    [internal/api/server.go], [scoped_auth.go] and the helpers its handlers
    share.  A handler is a tree of the calls it makes on the services, each
    with a continuation for every answer it can get, and a response at the
    leaves: what a request causes is then a statement about its tree,
    whatever the services answer and whatever runs in between.  The cookies of
    [internal/auth/sessions.go] and [protection.go] are here too. *)

From stdpp Require Import base tactics list gmap strings.
From Stdlib Require Import ZArith Lia Ascii.
From S2P Require Import Prelude GoString Float64 GoParse GoTime Json JsonDecode JsonText Outbound Netip Db AlertState Schema Secrets.
From S2P Require Import AlertRepository Checks Metrics Incidents Channels AuthSchema Sessions ApiTokens Accounts Mfa.
From S2P Require Import StoreSchema Deletion StoreWriter History Config SettingsStore Preferences Protection Onboarding.

(** ** Requests and responses *)

Record APIRequest := mkAPIRequest {
  ar_Method : string; ar_Path : string; ar_HTTP : HTTPRequest; ar_Cookie : string -> option string;
  ar_Query : string -> string; ar_Body : string;
}.
Definition Header (r : APIRequest) (name : string) : string := Header_Get (ar_HTTP r) name.

Definition SessionCookieName : string := "binnacle_session".
Definition CSRFCookieName : string := "binnacle_csrf".
(** What the sessions read of a request *)
Definition session_request (r : APIRequest) : Sessions.Request :=
  mkRequest (ar_Method r) (Header r "Authorization") (ar_Cookie r SessionCookieName) (ar_Cookie r CSRFCookieName) (Header r "X-Csrf-Token").
Definition RequestToken (r : APIRequest) : string := TokenFromRequest (session_request r).

Record Cookie := mkCookie {
  co_Name : string; co_Value : string; co_Path : string; co_HttpOnly : bool; co_Secure : bool; co_SameSiteLax : bool;
  co_MaxAge : Z; co_Expires : Z;
}.
(** The body of a response; values are encoded as JSON. *)
Inductive payload :=
  | PNone
  | PError (code message : string) (retryAfterSeconds : option Z)
  | PJSON {A : Type} (a : A)
  | PText (contentType : string) (text : string)
  | PStream (contentType : string).
Record Response := mkResponse { rp_Status : Z; rp_Headers : gmap string string; rp_Cookies : list Cookie; rp_Body : payload }.

Definition json_headers : gmap string string := {["Content-Type" := "application/json; charset=utf-8"; "Cache-Control" := "no-store"]}.
Definition json_response {A} (status : Z) (value : A) : Response := mkResponse status json_headers [] (PJSON value).
Definition error_response (status : Z) (code message : string) : Response :=
  mkResponse status json_headers [] (PError code message None).
Definition status_only (status : Z) : Response := mkResponse status ∅ [] PNone.
Definition with_header (k v : string) (p : Response) : Response :=
  mkResponse (rp_Status p) (<[k := v]> (rp_Headers p)) (rp_Cookies p) (rp_Body p).
Definition with_cookies (l : list Cookie) (p : Response) : Response :=
  mkResponse (rp_Status p) (rp_Headers p) (rp_Cookies p ++ l) (rp_Body p).

Definition SessionCookie (token : string) (secure : bool) (expires : Z) : Cookie :=
  mkCookie SessionCookieName token "/" true secure true 0 expires.
Definition CSRFCookie (token : string) (secure : bool) (expires : Z) : Cookie :=
  mkCookie CSRFCookieName token "/" false secure true 0 expires.
Definition ClearedSessionCookie (secure : bool) : Cookie := mkCookie SessionCookieName "" "/" true secure true (-1) Second.
Definition ClearedCSRFCookie (secure : bool) : Cookie := mkCookie CSRFCookieName "" "/" false secure true (-1) Second.

(** ** Calls *)

Inductive limit :=
  | LLogin (account : string) | LSetup | LDiagnostics (actor : string) | LMetrics | LEvents | LResources | LLive.
(** A log query of [internal/diagnostics/logs.go] *)
Record LogRequest := mkLogRequest {
  lq_Components : list string; lq_From : Z; lq_To : Z; lq_Limit : Z; lq_Search : string; lq_Follow : bool;
}.

Inductive eff :=
  (** Guards *)
  | EAuthorize | EAuthenticate | EValidCSRF | EActor | ETokenAuthenticate (plaintext scope : string) | ELimit (l : limit)
  | ENow | EApiID
  (** Accounts, sessions, second factor and setup *)
  | ECredentials (username password : string) | EUserByID (id : string) | EAdministrator
  | EIssue (userID : string) | EIssueProxy (userID subject : string) | ERevoke (token : string) | ERevokeAll (userID : string)
  | EMfaVerify (userID code : string) | EMfaEnabled (userID : string) | EMfaBegin (user : User) (password : string)
  | EMfaConfirm (userID code : string) | EMfaDisable (user : User) (password code : string)
  | ESetupAvailable | ESetupVerify (token : string) | EClaim (token username password : string)
  (** API tokens and preferences of a user *)
  | ETokenList (userID : string) | ETokenCreate (userID name : string) (scopes : list string) (expiry : option Z)
  | ETokenRevoke (userID id : string)
  | EPreferencesGet (userID : string) | EPreferencesPut (userID : string) (v : Preferences)
  (** Settings and onboarding *)
  | ESettingsSnapshot | ESettingsPatch (revision : Z) (changes : gmap string string) (actor : string)
  | EOnboardingState | EOnboardingUpdate (retention actor : string) | EOnboardingDiagnose (outbound : bool)
  | EOnboardingComplete | EOnboardingDismiss
  (** Live data *)
  | EEngineSnapshot | EDecorateAlerts (s : Metrics.Snapshot) | EDecorateCoolify (s : Metrics.Snapshot) | EMonitorSnapshot
  | EStream (after : option Z)
  (** History *)
  | EQueryMetrics (q : MetricQuery) | EEventsFor (from to limit : Z) (resource : string) | EExportEvents (from to limit : Z)
  | EArchivedResources | EStoredResource (id : string)
  | EPreviewDeletion (q : DeletionRequest) | ECreateDeletion (token confirmation actor : string) | EDeletionJob (id : string)
  | ECancelDeletion (id : string) | ERetryDeletion (id : string)
  (** Checks and alerts *)
  | EChecksList (limit offset : Z) | EChecksCreate (c : Check) | EChecksGet (id : string) | EChecksUpdate (c : Check)
  | EChecksDelete (id : string) | ERunNow (id : string) | EPrometheusStates (limit : Z)
  | EAlerts (status severity resource family : string) (limit offset : Z) | ERules | ECreateRule (v : Rule) | EUpdateRule (v : Rule)
  | ESilences (activeOnly : bool) | ECreateSilence (v : Silence) | EDeleteSilence (id : string)
  (** Incidents and notifications *)
  | EIncidents (status severity : string) (limit offset : Z) | EIncident (id : string) | EExportIncidents (from to limit : Z)
  | EChannels | EChannel (id : string) | EValidateChannel (c : Channel) (s : ChannelSecrets)
  | ECreateChannel (c : Channel) (s : ChannelSecrets) | EPatchedSecrets (id : string) (p : SecretPatch)
  | EPatchChannel (id : string) (c : Channel) (p : SecretPatch) | EDeleteChannel (id : string) | ETestChannel (id : string)
  | EDeliveries (incident : string) (limit offset : Z) | ERetryDelivery (id : string)
  (** Coolify and diagnostics *)
  | ECoolifyStatus | ECoolifyConfigure (url token : string) | ECoolifyTest (url token : string)
  | EBundleGenerate | EBundleDownload (id : string) | EReadLogs (q : LogRequest) | EScanProcesses (limit : Z).

(** What is answered: an error or a value.  Answers of services that are not
    modelled are the JSON they are sent as; of the monitor's measurements also
    the numbers, by name. *)
Definition answer (e : eff) : Type :=
  match e with
  | EAuthorize | EValidCSRF => bool
  | EAuthenticate => gerr + Session
  | EActor => option string
  | ETokenAuthenticate _ _ => gerr + unit
  | ELimit _ => bool * Z
  | ENow => Z
  | EApiID => string
  | ECredentials _ _ | EUserByID _ | EAdministrator | EClaim _ _ _ => gerr + User
  | EIssue _ | EIssueProxy _ _ => gerr + (string * string * Session)
  | ERevoke _ | ERevokeAll _ | EMfaVerify _ _ | EMfaDisable _ _ _ | ESetupVerify _ | ETokenRevoke _ _ => gerr + unit
  | EMfaEnabled _ => gerr + bool
  | EMfaBegin _ _ => gerr + Enrollment
  | EMfaConfirm _ _ => gerr + list string
  | ESetupAvailable => bool
  | ETokenList _ => gerr + list APIToken
  | ETokenCreate _ _ _ _ => gerr + (APIToken * string)
  | EPreferencesGet _ => gerr + option Preferences
  | EPreferencesPut _ _ => gerr + Preferences
  | ESettingsSnapshot | ESettingsPatch _ _ _ => gerr + SettingsStore.Snapshot
  | EOnboardingState | EOnboardingUpdate _ _ | EOnboardingDiagnose _ | EOnboardingComplete => gerr + OnboardingState
  | EOnboardingDismiss => gerr + unit
  | EEngineSnapshot | EDecorateAlerts _ | EDecorateCoolify _ => Metrics.Snapshot
  | EMonitorSnapshot => json * list (string * option (F64 + Z))
  | ECoolifyStatus => json
  | EStream _ => unit
  | EQueryMetrics _ => gerr + MetricsResponse
  | EEventsFor _ _ _ _ | EExportEvents _ _ _ => gerr + list HistoricalEvent
  | EArchivedResources => gerr + list Resource
  | EStoredResource _ => gerr + Resource
  | EPreviewDeletion _ => gerr + DeletionPreview
  | ECreateDeletion _ _ _ | EDeletionJob _ => gerr + DeletionJob
  | ECancelDeletion _ | ERetryDeletion _ => gerr + unit
  | EChecksList _ _ => gerr + list Check
  | EChecksCreate _ | EChecksUpdate _ | EChecksDelete _ => gerr + unit
  | EChecksGet _ => gerr + Check
  | ERunNow _ => gerr + Result
  | EPrometheusStates _ => gerr + list PrometheusState
  | EAlerts _ _ _ _ _ _ => gerr + list Alert
  | ERules => gerr + list Rule
  | ECreateRule _ | EUpdateRule _ | EDeleteSilence _ => gerr + unit
  | ESilences _ => gerr + list Silence
  | ECreateSilence _ => gerr + Silence
  | EIncidents _ _ _ _ | EExportIncidents _ _ _ => gerr + list Incident
  | EIncident _ => gerr + (Incident * list DeliveryRow)
  | EChannels => gerr + list Channel
  | EChannel _ | ECreateChannel _ _ | EPatchChannel _ _ _ => gerr + Channel
  | EValidateChannel _ _ => option string
  | EPatchedSecrets _ _ => gerr + ChannelSecrets
  | EDeleteChannel _ | ERetryDelivery _ => gerr + unit
  | ETestChannel _ => gerr + string
  | EDeliveries _ _ _ => gerr + list DeliveryRow
  | ECoolifyConfigure _ _ | ECoolifyTest _ _ => gerr + unit
  | EBundleGenerate | EReadLogs _ | EScanProcesses _ => gerr + json
  | EBundleDownload _ => gerr + string
  end.

Inductive prog :=
  | Reply (p : Response)
  | Do (e : eff) (k : answer e -> prog).
Declare Scope api_scope.
Delimit Scope api_scope with api.
Notation "'call' x := e 'in' k" := (Do e (fun x => k)) (at level 200, x name, k at level 200) : api_scope.
#[global] Open Scope api_scope.

Definition WriteError (status : Z) (code message : string) : prog := Reply (error_response status code message).
Definition WriteJSON {A} (status : Z) (value : A) : prog := Reply (json_response status value).

(** ** Guards *)

(** The [Authorizer]s of the server; [None] is nil. *)
Inductive Authorizer :=
  | SessionAuthorizer
  | ScopedAuthorizer (scope : string) (tokenPathPrefixes : list string)
  | DemoAuthorizer (allowed : bool).

Record AuthorizationDecision := mkDecision { ad_Allowed : bool; ad_Status : Z; ad_Code : string; ad_Message : string }.
Definition unauthorizedToken : AuthorizationDecision := mkDecision false 401 "invalid_token" "A valid API token is required.".
Definition allowed_decision : AuthorizationDecision := mkDecision true 0 "" "".

(** [ScopedAuthorizer.Decision] *)
Definition Decision (scope : string) (prefixes : list string) (r : APIRequest) (k : AuthorizationDecision -> prog) : prog :=
  let header := Header r "Authorization" in
  if negb (header =?s "") then
    match Fields header with
    | [scheme; token] =>
        if negb (EqualFold scheme "Bearer") then k unauthorizedToken
        else if negb ((length prefixes =? 0)%nat || existsb (HasPrefix (ar_Path r)) prefixes) then k unauthorizedToken
        else call err := ETokenAuthenticate token scope in
             match err with
             | inl e => if bool_decide (e = ErrAPIScopeInsufficient)
                        then k (mkDecision false 403 "insufficient_scope" "The API token does not grant the required scope.")
                        else k unauthorizedToken
             | inr _ => k allowed_decision
             end
    | _ => k unauthorizedToken
    end
  else call ok := EAuthorize in
       if ok then k allowed_decision else k (mkDecision false 401 "unauthorized" "Authentication is required.").

Definition Authorize (a : Authorizer) (r : APIRequest) (k : bool -> prog) : prog :=
  match a with
  | SessionAuthorizer => call ok := EAuthorize in k ok
  | ScopedAuthorizer scope prefixes => Decision scope prefixes r (fun d => k (ad_Allowed d))
  | DemoAuthorizer b => k b
  end.

Definition requireAuth (a : option Authorizer) (r : APIRequest) (k : prog) : prog :=
  match a with
  | None => WriteError 401 "unauthorized" "Authentication is required."
  | Some (ScopedAuthorizer scope prefixes) =>
      Decision scope prefixes r (fun d => if ad_Allowed d then k else WriteError (ad_Status d) (ad_Code d) (ad_Message d))
  | Some a => Authorize a r (fun ok => if ok then k else WriteError 401 "unauthorized" "Authentication is required.")
  end.
(** [if a == nil || !a.Authorize(r) { WriteError(w, 401, ...); return }] *)
Definition require (a : option Authorizer) (r : APIRequest) (message : string) (k : prog) : prog :=
  match a with
  | None => WriteError 401 "unauthorized" message
  | Some a => Authorize a r (fun ok => if ok then k else WriteError 401 "unauthorized" message)
  end.
Definition AuthenticationRequired : string := "Authentication is required.".
Definition SessionRequired : string := "A browser session is required.".

Definition require_csrf (k : prog) : prog :=
  call ok := EValidCSRF in if ok then k else WriteError 403 "csrf_invalid" "A valid CSRF token is required.".
(** [csrf == nil || !csrf.ValidCSRF(r)]; [csrf]: whether there is a validator *)
Definition required_csrf (csrf : bool) (k : prog) : prog :=
  if csrf then require_csrf k else WriteError 403 "csrf_invalid" "A valid CSRF token is required.".
(** [authorizeMutation] *)
Definition authorizeMutation (a : option Authorizer) (r : APIRequest) (k : prog) : prog :=
  require a r AuthenticationRequired (require_csrf k).
(** [session, err := sessions.Authenticate(ctx, auth.TokenFromRequest(r))] *)
Definition with_session (message : string) (k : Session -> prog) : prog :=
  call session := EAuthenticate in
  match session with inl _ => WriteError 401 "unauthorized" message | inr s => k s end.
(** The actor of a change, when the authorizer is an [ActorProvider] *)
Definition with_actor (a : option Authorizer) (fallback : string) (k : string -> prog) : prog :=
  match a with
  | Some SessionAuthorizer => call actor := EActor in k (default fallback actor)
  | _ => k fallback
  end.

Definition only (m : string) (r : APIRequest) (k : prog) : prog :=
  if negb (ar_Method r =?s m) then WriteError 405 "method_not_allowed" ("Only " +:+ m +:+ " is supported.") else k.

(** [int(d.Round(time.Second).Seconds())]; [Round] saturates. *)
Definition maxRetry (d : Z) : Z :=
  if d <? Second then 1
  else
    let rest := d mod Second in
    let rounded := if 2 * rest <? Second then d - rest else d - rest + Second in
    Z.quot (Z.min rounded max_int64) Second.
(** A refused request is told when to come back, in the header and, but for a
    few handlers, in the body. *)
Definition rate_limited (message : string) (details : bool) (retry : Z) : prog :=
  let seconds := maxRetry retry in
  Reply (with_header "Retry-After" (Itoa seconds)
           (mkResponse 429 json_headers [] (PError "rate_limited" message (if details then Some seconds else None)))).
Definition limited_by (l : limit) (message : string) (details : bool) (k : prog) : prog :=
  call x := ELimit l in if x.1 then k else rate_limited message details x.2.

Definition pagination (r : APIRequest) : Z * Z :=
  let limit := default 0 (Atoi (ar_Query r "limit")) in
  let offset := default 0 (Atoi (ar_Query r "offset")) in
  (if (limit <? 1) || (100 <? limit) then 50 else limit, if offset <? 0 then 0 else offset).

(** ** The server *)

Definition handler : Type := APIRequest -> prog.
(** Patterns with their handlers, as [Handle] registers them *)
Definition routes : Type := list (string * handler).
Definition notFound : handler := fun _ => WriteError 404 "not_found" "The requested endpoint does not exist.".
Definition New : routes := [("/api/v1/", notFound)].

(** [http.ServeMux]: a pattern that ends in a slash matches the paths below
    it, another one only itself; the longest pattern wins. *)
Definition matches (path pattern : string) : bool :=
  (path =?s pattern) || (HasSuffix pattern "/" && HasPrefix path pattern).
Definition longer (a b : string * handler) : string * handler :=
  if (String.length a.1 <? String.length b.1)%nat then b else a.
Definition mux (rs : routes) (path : string) : option handler :=
  match List.filter (fun e => matches path e.1) rs with
  | [] => None
  | e :: l => Some (fold_left longer l e).2
  end.

(** The headers [wrap] sets, and the number of the request *)
Definition security_headers (tls : bool) : gmap string string :=
  (if tls then {["Strict-Transport-Security" := "max-age=63072000; includeSubDomains"]} else ∅) ∪
  {["X-Content-Type-Options" := "nosniff"; "X-Frame-Options" := "DENY";
    "Referrer-Policy" := "strict-origin-when-cross-origin";
    "Content-Security-Policy" := "default-src 'self'; connect-src 'self'; script-src 'self'; style-src 'self' 'unsafe-inline'; img-src 'self' data:; font-src 'self'; object-src 'none'; base-uri 'self'; form-action 'self'; frame-ancestors 'none';"]}.
Definition wrap (number : Z) (r : APIRequest) (p : Response) : Response :=
  mkResponse (rp_Status p)
    (rp_Headers p ∪ (<["X-Request-ID" := "req_" +:+ Itoa number]> (security_headers (hr_TLS (ar_HTTP r)))))
    (rp_Cookies p) (rp_Body p).

(** ** Running a handler *)

Section run.
Context {S : Type} (interpret : forall e : eff, S -> answer e * S).
Fixpoint run (p : prog) (s : S) : Response * S :=
  match p with
  | Reply x => (x, s)
  | Do e k => let '(a, s') := interpret e s in run (k a) s'
  end.
End run.

(** A call with its answer *)
Definition event : Type := { e : eff & answer e }.
Section trace.
Context {S : Type} (interpret : forall e : eff, S -> answer e * S).
Fixpoint calls (p : prog) (s : S) : list event :=
  match p with
  | Reply _ => []
  | Do e k => let '(a, s') := interpret e s in existT e a :: calls (k a) s'
  end.
End trace.
