(* ===== verification/ApiAccess.v ===== *)
(** * The HTTP API: access, settings and onboarding

    The handlers of [internal/api/auth.go], [proxy_auth.go], [setup.go],
    [api_tokens.go], [preferences.go], [settings.go] and [onboarding.go]. *)

From stdpp Require Import base tactics list gmap strings.
From Stdlib Require Import ZArith Lia Ascii.
From S2P Require Import Prelude GoString GoParse GoTime Json JsonDecode JsonText Outbound Netip Db AlertState Schema Secrets.
From S2P Require Import AlertRepository AuthSchema Sessions ApiTokens Accounts Mfa Config SettingsStore Preferences Protection Onboarding ApiCore.

(** ** Bodies *)

Definition DecodeStrings (names : list string) (r : APIRequest) : option bag := DecodeJSON (map (plain KString) names) ∅ (ar_Body r).
Definition get (m : bag) (name : string) : string := str_of m name.

Definition preferences_fields : fields bag :=
  plain KInt "schemaVersion" :: map (plain KString) ["theme"; "density"; "landingPage"; "chartRange"] ++
  [plain KStrings "pinnedResources"; plain KTime "updatedAt"].
Definition preferences_of (m : bag) : Preferences :=
  mkPreferences (int_of m "schemaVersion") (str_of m "theme") (str_of m "density") (strings_of m "pinnedResources")
    (str_of m "landingPage") (str_of m "chartRange") (time_of m "updatedAt").1.

(** ** Signing in and out ([auth.go]) *)

(** [mfa]: whether a second factor is configured *)
Definition session_started (secure : bool) (issued : string * string * Session) : prog :=
  let '(token, csrf, session) := issued in
  Reply (with_cookies [SessionCookie token secure (ss_AbsoluteExpires session); CSRFCookie csrf secure (ss_AbsoluteExpires session)]
           (status_only 204)).
Definition session_ended (proxies : TrustedProxies) (r : APIRequest) : prog :=
  let secure := Proxies_Secure proxies (ar_HTTP r) in
  Reply (with_cookies [ClearedSessionCookie secure; ClearedCSRFCookie secure] (status_only 204)).
(** [if previous := auth.TokenFromRequest(r); previous != "" { _ = sessions.Revoke(...) }] *)
Definition revoke_previous (r : APIRequest) (k : prog) : prog :=
  if RequestToken r =?s "" then k else call _x := ERevoke (RequestToken r) in k.

(** A session for a user who has proved to be one *)
Definition start_session (proxies : TrustedProxies) (r : APIRequest) (user : User) : prog :=
  revoke_previous r (
  call issued := EIssue (u_ID user) in
  match issued with
  | inl _ => WriteError 500 "session_error" "Could not start session."
  | inr issued => session_started (Proxies_Secure proxies (ar_HTTP r)) issued
  end).
Definition login (mfa : bool) (proxy : option ProxyAuthenticator) (proxies : TrustedProxies) : handler := fun r =>
  only "POST" r (
  if negb (AllowsLocal proxy) then WriteError 404 "not_found" "Local login is disabled."
  else match DecodeStrings ["username"; "password"; "code"] r with
  | None => WriteError 400 "invalid_request" "A username and password are required."
  | Some body =>
      limited_by (LLogin (get body "username")) "Too many login attempts. Try again later." true (
      call found := ECredentials (get body "username") (get body "password") in
      let refused := WriteError 401 "invalid_credentials" "Invalid username, password, or authentication code." in
      match found with
      | inl _ => refused
      | inr user =>
          if mfa then call ok := EMfaVerify (u_ID user) (get body "code") in match ok with inl _ => refused | inr _ => start_session proxies r user end
          else start_session proxies r user
      end)
  end).

Definition session_info : handler := fun r =>
  only "GET" r (with_session AuthenticationRequired (fun session =>
  call user := EUserByID (ss_UserID session) in
  match user with
  | inl _ => WriteError 401 "unauthorized" AuthenticationRequired
  | inr user => WriteJSON 200 (u_ID user, u_Username user, ss_ExpiresAt session, ss_AbsoluteExpires session, ss_AuthMethod session)
  end)).
Definition logout (proxies : TrustedProxies) : handler := fun r =>
  only "POST" r (require_csrf (call _x := ERevoke (RequestToken r) in session_ended proxies r)).
Definition logout_all (proxies : TrustedProxies) : handler := fun r =>
  only "POST" r (require_csrf (with_session AuthenticationRequired (fun session =>
  call _x := ERevokeAll (ss_UserID session) in session_ended proxies r))).

Definition EnableAuth (mfa : bool) (proxy : option ProxyAuthenticator) (proxies : TrustedProxies) : routes :=
  [("/api/v1/auth/login", login mfa proxy proxies); ("/api/v1/auth/session", session_info);
   ("/api/v1/auth/logout", logout proxies); ("/api/v1/auth/logout-all", logout_all proxies)].

(** ** The second factor ([auth.go]) *)

Definition current_user (k : User -> prog) : prog :=
  with_session SessionRequired (fun session =>
  call user := EUserByID (ss_UserID session) in
  match user with inl _ => WriteError 401 "unauthorized" SessionRequired | inr user => k user end).

Definition mfa_status : handler := fun r =>
  only "GET" r (current_user (fun user =>
  call enabled := EMfaEnabled (u_ID user) in
  match enabled with inl _ => WriteError 500 "mfa_unavailable" "MFA status is unavailable." | inr b => WriteJSON 200 b end)).
Definition mfa_enroll : handler := fun r =>
  only "POST" r (current_user (fun user => require_csrf (
  limited_by (LLogin (u_Username user)) "Too many authentication attempts." false (
  match DecodeStrings ["password"] r with
  | None => WriteError 400 "invalid_request" "Current password is required."
  | Some body =>
      call enrollment := EMfaBegin user (get body "password") in
      match enrollment with
      | inl _ => WriteError 400 "mfa_enrollment_failed" "MFA enrollment could not be started."
      | inr e => WriteJSON 200 e
      end
  end)))).
Definition mfa_confirm : handler := fun r =>
  only "POST" r (current_user (fun user => require_csrf (
  match DecodeStrings ["code"] r with
  | None => WriteError 400 "invalid_request" "Authentication code is required."
  | Some body =>
      call codes := EMfaConfirm (u_ID user) (get body "code") in
      match codes with
      | inl _ => WriteError 400 "mfa_confirmation_failed" "Authentication code is invalid or expired."
      | inr codes => WriteJSON 200 codes
      end
  end))).
Definition mfa_disable : handler := fun r =>
  only "POST" r (current_user (fun user => require_csrf (
  match DecodeStrings ["password"; "code"] r with
  | None => WriteError 400 "invalid_request" "Password and authentication code are required."
  | Some body =>
      call done := EMfaDisable user (get body "password") (get body "code") in
      match done with
      | inl _ => WriteError 401 "invalid_credentials" "Invalid password or authentication code."
      | inr _ => Reply (status_only 204)
      end
  end))).
Definition EnableMFA : routes :=
  [("/api/v1/auth/mfa", mfa_status); ("/api/v1/auth/mfa/enroll", mfa_enroll); ("/api/v1/auth/mfa/confirm", mfa_confirm);
   ("/api/v1/auth/mfa/disable", mfa_disable)].

(** ** External authentication ([proxy_auth.go]) *)

Section external.
Context (url_origin : string -> option (string * string)).

Definition auth_methods (proxy : option ProxyAuthenticator) (mfaAvailable : bool) : handler := fun r =>
  only "GET" r (WriteJSON 200 (ProxyAuth_Mode proxy, AllowsLocal proxy, AllowsProxy proxy,
    negb (is_null (Subject proxy (ar_HTTP r))), mfaAvailable)).
Definition EnableAuthMethods (proxy : option ProxyAuthenticator) (mfaAvailable : bool) : routes :=
  [("/api/v1/auth/methods", auth_methods proxy mfaAvailable)].

Definition external_session (proxy : option ProxyAuthenticator) : handler := fun r =>
  only "POST" r (
  if negb (ProxyAuth_SameOrigin url_origin proxy (ar_HTTP r)) then WriteError 403 "origin_invalid" "A same-origin request is required."
  else match Subject proxy (ar_HTTP r) with
  | None => WriteError 401 "external_auth_invalid" "External authentication is unavailable."
  | Some subject =>
      call user := EAdministrator in
      match user with
      | inl _ => WriteError 409 "setup_required" "Initial administrator setup is required."
      | inr user =>
          revoke_previous r (
          call issued := EIssueProxy (u_ID user) subject in
          match issued with
          | inl _ => WriteError 500 "session_error" "Could not start session."
          | inr (token, csrf, session) =>
              let secure := ProxyAuth_Secure proxy (ar_HTTP r) in
              Reply (with_header "Cache-Control" "no-store" (with_header "Expires" "Thu, 01 Jan 1970 00:00:00 GMT"
                (with_cookies [SessionCookie token secure (ss_AbsoluteExpires session); CSRFCookie csrf secure (ss_AbsoluteExpires session)]
                   (status_only 204))))
          end)
      end
  end).
Definition EnableProxyAuth (proxy : option ProxyAuthenticator) : routes :=
  EnableAuthMethods proxy true ++ [("/api/v1/auth/external-session", external_session proxy)].
End external.

(** ** First setup ([setup.go]) *)

Definition setup_allowed (k : prog) : prog := limited_by LSetup "Too many setup attempts. Try again later." true k.
Definition setup_state : handler := fun r =>
  only "GET" r (call available := ESetupAvailable in WriteJSON 200 available).
Definition setup_verify : handler := fun r =>
  only "POST" r (setup_allowed (
  let refused := WriteError 401 "setup_token_invalid" "The setup token is invalid or expired." in
  match DecodeStrings ["token"] r with
  | None => refused
  | Some body => call ok := ESetupVerify (get body "token") in match ok with inl _ => refused | inr _ => Reply (status_only 204) end
  end)).
Definition setup_claim (proxies : TrustedProxies) : handler := fun r =>
  only "POST" r (setup_allowed (
  match DecodeStrings ["token"; "username"; "password"] r with
  | None => WriteError 400 "invalid_request" "Setup credentials are invalid."
  | Some body =>
      call user := EClaim (get body "token") (get body "username") (get body "password") in
      match user with
      | inl _ => WriteError 400 "setup_claim_failed" "The setup request could not be completed."
      | inr user =>
          call issued := EIssue (u_ID user) in
          match issued with
          | inl _ => WriteError 500 "session_error" "The administrator was created; sign in to continue."
          | inr issued => session_started (Proxies_Secure proxies (ar_HTTP r)) issued
          end
      end
  end)).
Definition EnableSetup (proxies : TrustedProxies) : routes :=
  [("/api/v1/setup", setup_state); ("/api/v1/setup/verify", setup_verify); ("/api/v1/setup/claim", setup_claim proxies)].

(** ** API tokens ([api_tokens.go]) *)

(** [error_text]: the text of an error *)
Definition tokens_collection (error_text : gerr -> string) : handler := fun r =>
  with_session SessionRequired (fun session =>
  let id := ss_UserID session in
  if ar_Method r =?s "GET" then
    call values := ETokenList id in
    match values with
    | inl _ => WriteError 500 "storage_error" "API tokens are unavailable."
    | inr values => WriteJSON 200 (values, validScopes)
    end
  else if ar_Method r =?s "POST" then
    require_csrf (
    match DecodeJSON [plain KString "name"; plain KStrings "scopes"; plain KString "expiresAt"] ∅ (ar_Body r) with
    | None => WriteError 400 "invalid_request" "API token configuration is invalid."
    | Some body =>
        let create expiry :=
          call created := ETokenCreate id (str_of body "name") (strings_of body "scopes") expiry in
          match created with
          | inl e => WriteError 400 "token_invalid" (error_text e)
          | inr created => WriteJSON 201 created
          end in
        if str_of body "expiresAt" =?s "" then create None
        else match ParseRFC3339 (str_of body "expiresAt") with
             | None => WriteError 400 "invalid_expiry" "Token expiry must be an RFC 3339 timestamp."
             | Some t => create (Some t)
             end
    end)
  else WriteError 405 "method_not_allowed" "Only GET and POST are supported.").
Definition tokens_item : handler := fun r =>
  with_session SessionRequired (fun session => only "DELETE" r (require_csrf (
  let tokenID := TrimPrefix (ar_Path r) "/api/v1/api-tokens/" in
  let missing := WriteError 404 "not_found" "API token not found." in
  if (tokenID =?s "") || Contains tokenID "/" then missing
  else call done := ETokenRevoke (ss_UserID session) tokenID in match done with inl _ => missing | inr _ => Reply (status_only 204) end))).
Definition EnableAPITokens (error_text : gerr -> string) : routes :=
  [("/api/v1/api-tokens", tokens_collection error_text); ("/api/v1/api-tokens/", tokens_item)].

(** ** Preferences ([preferences.go]) *)

Definition preferences_handler : handler := fun r =>
  with_session SessionRequired (fun session =>
  if ar_Method r =?s "GET" then
    call value := EPreferencesGet (ss_UserID session) in
    match value with
    | inl _ => WriteError 500 "storage_error" "Preferences are unavailable."
    | inr value => WriteJSON 200 value
    end
  else if ar_Method r =?s "PUT" then
    require_csrf (
    match preferences_of <$> DecodeJSON preferences_fields ∅ (ar_Body r) with
    | None => WriteError 400 "invalid_request" "Preferences are invalid."
    | Some value =>
        call saved := EPreferencesPut (ss_UserID session) value in
        match saved with
        | inl e => if bool_decide (e = ErrInvalid) then WriteError 400 "preferences_invalid" "Preferences are invalid."
                   else WriteError 500 "storage_error" "Preferences could not be saved."
        | inr value => WriteJSON 200 value
        end
    end)
  else WriteError 405 "method_not_allowed" "Only GET and PUT are supported.").
Definition EnablePreferences : routes := [("/api/v1/preferences", preferences_handler)].

(** ** Settings ([settings.go]) *)

Definition settings_handler (a : option Authorizer) (csrf : bool) : handler := fun r =>
  require a r AuthenticationRequired (
  if ar_Method r =?s "GET" then
    call snapshot := ESettingsSnapshot in
    match snapshot with inl _ => WriteError 500 "settings_unavailable" "Settings are unavailable." | inr s => WriteJSON 200 s end
  else if ar_Method r =?s "PATCH" then
    required_csrf csrf (
    match DecodeJSON [plain KInt "revision"; plain KStringMap "changes"] ∅ (ar_Body r) with
    | None => WriteError 400 "invalid_request" "Settings changes are invalid."
    | Some body =>
        with_actor a "admin" (fun actor =>
        call snapshot := ESettingsPatch (int_of body "revision") (map_of body "changes") actor in
        match snapshot with
        | inl e => if bool_decide (e = ErrRevisionConflict)
                   then WriteError 409 "settings_conflict" "Settings changed in another session. Reload and try again."
                   else WriteError 400 "settings_invalid" "One or more settings values are invalid."
        | inr s => WriteJSON 200 s
        end)
    end)
  else WriteError 405 "method_not_allowed" "Only GET and PATCH are supported.").
Definition EnableSettings (a : option Authorizer) (csrf : bool) : routes := [("/api/v1/settings", settings_handler a csrf)].

(** ** Onboarding ([onboarding.go]) *)

Definition onboarding_guard (a : option Authorizer) (csrf : bool) (r : APIRequest) (mutation : bool) (k : prog) : prog :=
  require a r AuthenticationRequired (if mutation then required_csrf csrf k else k).
Definition onboarding_state (a : option Authorizer) (csrf : bool) : handler := fun r =>
  onboarding_guard a csrf r (negb (ar_Method r =?s "GET")) (
  if ar_Method r =?s "GET" then
    call state := EOnboardingState in
    match state with inl _ => WriteError 500 "onboarding_error" "Onboarding state is unavailable." | inr s => WriteJSON 200 s end
  else if ar_Method r =?s "PATCH" then
    let refused := WriteError 400 "invalid_request" "Onboarding choices are invalid." in
    match DecodeStrings ["exposureMode"; "retentionPreset"] r with
    | None => refused
    | Some body =>
        with_actor a "admin" (fun actor =>
        call state := EOnboardingUpdate (get body "retentionPreset") actor in
        match state with inl _ => refused | inr s => WriteJSON 200 s end)
    end
  else WriteError 405 "method_not_allowed" "Only GET and PATCH are supported.").
Definition onboarding_diagnostics (a : option Authorizer) (csrf : bool) : handler := fun r =>
  only "POST" r (onboarding_guard a csrf r true (
  match DecodeJSON [plain KBool "includeOutbound"] ∅ (ar_Body r) with
  | None => WriteError 400 "invalid_request" "Diagnostics options are invalid."
  | Some body =>
      call state := EOnboardingDiagnose (bool_of body "includeOutbound") in
      match state with inl _ => WriteError 500 "diagnostics_error" "Diagnostics could not be completed." | inr s => WriteJSON 200 s end
  end)).
Definition onboarding_complete (a : option Authorizer) (csrf : bool) : handler := fun r =>
  only "POST" r (onboarding_guard a csrf r true (
  call state := EOnboardingComplete in
  match state with inl _ => WriteError 409 "onboarding_incomplete" "Complete the required onboarding steps first." | inr s => WriteJSON 200 s end)).
Definition onboarding_dismiss (a : option Authorizer) (csrf : bool) : handler := fun r =>
  only "POST" r (onboarding_guard a csrf r true (
  call done := EOnboardingDismiss in
  match done with inl _ => WriteError 500 "onboarding_error" "The checklist could not be dismissed." | inr _ => Reply (status_only 204) end)).
Definition EnableOnboarding (a : option Authorizer) (csrf : bool) : routes :=
  [("/api/v1/onboarding", onboarding_state a csrf); ("/api/v1/onboarding/diagnostics", onboarding_diagnostics a csrf);
   ("/api/v1/onboarding/complete", onboarding_complete a csrf);
   ("/api/v1/onboarding/checklist/dismiss", onboarding_dismiss a csrf)].
