(* ===== verification/ApiMonitoring.v ===== *)
(** * The HTTP API: checks, alerts, incidents and notifications

    The handlers of [internal/api/checks_alerts.go] and
    [incidents_notifications.go]. *)

From stdpp Require Import base tactics list gmap strings.
From Stdlib Require Import ZArith Lia Ascii.
From S2P Require Import Prelude GoString GoParse Float64 JsonDecode JsonText Outbound Db AlertState Schema Secrets.
From S2P Require Import AlertRepository Checks Incidents Channels ApiCore.

(** ** Checks ([checks_alerts.go]) *)

Record checkInput := mkCheckInput {
  ci_ResourceID : string; ci_Name : string; ci_URL : string; ci_Method : string; ci_IntervalSeconds : Z; ci_TimeoutSeconds : Z;
  ci_ExpectedStatusMin : Z; ci_ExpectedStatusMax : Z; ci_BodySubstring : string; ci_Required : bool; ci_Enabled : bool;
}.
Definition checkInput_fields : fields bag :=
  map (plain KString) ["resourceId"; "name"; "url"; "method"; "bodySubstring"] ++
  map (plain KInt) ["intervalSeconds"; "timeoutSeconds"; "expectedStatusMin"; "expectedStatusMax"] ++
  map (plain KBool) ["required"; "enabled"].
Definition checkInput_of (m : bag) : checkInput :=
  mkCheckInput (str_of m "resourceId") (str_of m "name") (str_of m "url") (str_of m "method") (int_of m "intervalSeconds")
    (int_of m "timeoutSeconds") (int_of m "expectedStatusMin") (int_of m "expectedStatusMax") (str_of m "bodySubstring")
    (bool_of m "required") (bool_of m "enabled").
Definition DecodeCheck (r : APIRequest) : option checkInput := checkInput_of <$> DecodeJSON checkInput_fields ∅ (ar_Body r).

Definition seconds (n : Z) : Z := wrap64 (n * Second).
Definition or_else (n fallback : Z) : Z := if n =? 0 then fallback else n.
Definition checkFromInput (id : string) (v : checkInput) : Check :=
  mkCheck id (ci_ResourceID v) (ci_Name v) (ci_URL v) (if ci_Method v =?s "" then "GET" else ci_Method v)
    (seconds (or_else (ci_IntervalSeconds v) 30)) (seconds (or_else (ci_TimeoutSeconds v) 5))
    (or_else (ci_ExpectedStatusMin v) 200) (or_else (ci_ExpectedStatusMax v) 399) (ci_BodySubstring v) (ci_Required v) (ci_Enabled v)
    zero_time zero_time.
Definition created_at (c : Check) (t : Z) : Check :=
  mkCheck (c_ID c) (c_ResourceID c) (c_Name c) (c_URL c) (c_Method c) (c_Interval c) (c_Timeout c) (c_ExpectedStatusMin c)
    (c_ExpectedStatusMax c) (c_BodySubstring c) (c_Required c) (c_Enabled c) t (c_UpdatedAt c).

Definition NotAllowed : prog := WriteError 405 "method_not_allowed" "Method not allowed.".

Section checks.
Context (url_parse : string -> option URL).

(** [protected]: whether a limiter is given *)
Definition checks_collection (a : option Authorizer) (protected : bool) : handler := fun r =>
  if ar_Method r =?s "GET" then
    require a r AuthenticationRequired (
    let list_ :=
      let '(limit, offset) := pagination r in
      call v := EChecksList limit offset in
      match v with inl _ => WriteError 500 "storage_error" "Checks are unavailable." | inr v => WriteJSON 200 v end in
    if protected then limited_by LResources "Too many check requests." false list_ else list_)
  else if ar_Method r =?s "POST" then
    authorizeMutation a r (
    match DecodeCheck r with
    | None => WriteError 400 "invalid_request" "Invalid check definition."
    | Some body =>
        call id := EApiID in
        let c := checkFromInput ("check_" +:+ id) body in
        match Checks.Validate url_parse c with
        | Some err => WriteError 400 "invalid_request" err
        | None =>
            call done := EChecksCreate c in
            match done with inl _ => WriteError 400 "invalid_request" "The check could not be created." | inr _ => WriteJSON 201 c end
        end
    end)
  else NotAllowed.

Definition checks_item (a : option Authorizer) : handler := fun r =>
  let path := TrimPrefix (ar_Path r) "/api/v1/checks/" in
  let run := HasSuffix path "/run" in
  let id := TrimSuffix path "/run" in
  let missing := WriteError 404 "not_found" "Check not found." in
  if (id =?s "") || Contains id "/" then missing
  else if run then
    only "POST" r (authorizeMutation a r (
    call result := ERunNow id in
    match result with inl _ => WriteError 400 "check_failed" "The check could not be run." | inr v => WriteJSON 200 v end))
  else if ar_Method r =?s "GET" then
    require a r AuthenticationRequired (
    call v := EChecksGet id in match v with inl _ => missing | inr v => WriteJSON 200 v end)
  else if ar_Method r =?s "PATCH" then
    authorizeMutation a r (
    call existing := EChecksGet id in
    match existing with
    | inl _ => missing
    | inr existing =>
        match DecodeCheck r with
        | None => WriteError 400 "invalid_request" "Invalid check definition."
        | Some body =>
            let updated := created_at (checkFromInput id body) (c_CreatedAt existing) in
            call done := EChecksUpdate updated in
            match done with inl _ => WriteError 400 "invalid_request" "The check could not be updated." | inr _ => WriteJSON 200 updated end
        end
    end)
  else if ar_Method r =?s "DELETE" then
    authorizeMutation a r (
    call done := EChecksDelete id in
    match done with inl _ => WriteError 500 "storage_error" "The check could not be deleted." | inr _ => Reply (status_only 204) end)
  else NotAllowed.
Definition EnableChecks (a : option Authorizer) (protected : bool) : routes :=
  [("/api/v1/checks", checks_collection a protected); ("/api/v1/checks/", checks_item a)].
End checks.

(** ** Alerts, rules and silences ([checks_alerts.go]) *)

Definition ruleInput_fields : fields bag :=
  map (plain KString) ["Family"; "Name"; "ScopeType"; "ScopeID"; "Severity"] ++
  map (plain KBool) ["Enabled"; "SuppressDuringDeployment"] ++ map (pointer KFloat) ["Threshold"; "RecoveryThreshold"] ++
  map (plain KInt) ["TriggerSeconds"; "RecoverySeconds"; "WindowSeconds"; "CooldownSeconds"; "RepeatSeconds"].
(** [ruleInput.rule] *)
Definition ruleInput_rule (id : string) (v : bag) : Rule :=
  mkRule id (str_of v "Family") (str_of v "Name") false (bool_of v "Enabled") (str_of v "Severity") (str_of v "ScopeType")
    (str_of v "ScopeID") (float_ptr v "Threshold") (float_ptr v "RecoveryThreshold") (seconds (int_of v "TriggerSeconds"))
    (seconds (int_of v "RecoverySeconds")) (seconds (int_of v "WindowSeconds")) (seconds (int_of v "CooldownSeconds"))
    (seconds (int_of v "RepeatSeconds")) (bool_of v "SuppressDuringDeployment").

Definition alerts_handler (a : option Authorizer) : handler := fun r =>
  only "GET" r (require a r AuthenticationRequired (
  let '(limit, offset) := pagination r in
  call v := EAlerts (ar_Query r "status") (ar_Query r "severity") (ar_Query r "resource") (ar_Query r "family") limit offset in
  match v with inl _ => WriteError 500 "storage_error" "Alerts are unavailable." | inr v => WriteJSON 200 v end)).

Definition rules_collection (a : option Authorizer) : handler := fun r =>
  if ar_Method r =?s "POST" then
    authorizeMutation a r (
    match DecodeJSON ruleInput_fields ∅ (ar_Body r) with
    | None => WriteError 400 "invalid_request" "Invalid rule definition."
    | Some body =>
        call id := EApiID in
        let rule := ruleInput_rule ("rule_" +:+ id) body in
        call done := ECreateRule rule in
        match done with inl _ => WriteError 400 "invalid_request" "Rule could not be created." | inr _ => WriteJSON 201 rule end
    end)
  else if negb (ar_Method r =?s "GET") then NotAllowed
  else require a r AuthenticationRequired (
    call v := ERules in
    match v with inl _ => WriteError 500 "storage_error" "Rules are unavailable." | inr v => WriteJSON 200 v end).

Definition rulePatch_fields : fields bag :=
  [pointer KBool "enabled"; plain KString "severity"; pointer KFloat "threshold"; pointer KFloat "recoveryThreshold";
   pointer KInt "triggerSeconds"; pointer KInt "recoverySeconds"].
Definition patched_rule (body : bag) (v : Rule) : Rule :=
  mkRule (AlertState.r_ID v) (r_Family v) (r_Name v) (r_BuiltIn v) (default (r_Enabled v) (bool_ptr body "enabled"))
    (if str_of body "severity" =?s "" then r_Severity v else str_of body "severity") (r_ScopeType v) (r_ScopeID v)
    (match float_ptr body "threshold" with Some f => Some f | None => r_Threshold v end)
    (match float_ptr body "recoveryThreshold" with Some f => Some f | None => r_RecoveryThreshold v end)
    (match int_ptr body "triggerSeconds" with Some n => seconds n | None => r_TriggerDuration v end)
    (match int_ptr body "recoverySeconds" with Some n => seconds n | None => r_RecoveryDuration v end)
    (r_Window v) (r_Cooldown v) (r_Repeat v) (r_SuppressDuringDeployment v).
Definition rules_item (a : option Authorizer) : handler := fun r =>
  only "PATCH" r (authorizeMutation a r (
  let id := TrimPrefix (ar_Path r) "/api/v1/alert-rules/" in
  match DecodeJSON rulePatch_fields ∅ (ar_Body r) with
  | None => WriteError 400 "invalid_request" "Invalid rule update."
  | Some body =>
      call rules := ERules in
      match rules with
      | inl _ => WriteError 500 "storage_error" "Rule unavailable."
      | inr rules =>
          match List.find (fun v => AlertState.r_ID v =?s id) rules with
          | None => WriteError 404 "not_found" "Rule not found."
          | Some found =>
              call done := EUpdateRule (patched_rule body found) in
              match done with
              | inl _ => WriteError 400 "invalid_request" "Rule could not be updated."
              | inr _ => WriteJSON 200 (patched_rule body found)
              end
          end
      end
  end)).

Definition silence_fields : fields bag :=
  map (plain KString) ["preset"; "id"; "scopeType"; "scopeId"; "reason"; "createdBy"] ++
  map (plain KTime) ["customEnd"; "startsAt"; "endsAt"; "createdAt"].
(** [EndsAt] and the others are instants; [StartsAt] keeps its zone for the
    end of its day. *)
Definition silences_collection (a : option Authorizer) : handler := fun r =>
  if ar_Method r =?s "GET" then
    require a r AuthenticationRequired (
    call v := ESilences (ar_Query r "active" =?s "true") in
    match v with inl _ => WriteError 500 "storage_error" "Silences are unavailable." | inr v => WriteJSON 200 v end)
  else if ar_Method r =?s "POST" then
    authorizeMutation a r (
    match DecodeJSON silence_fields ∅ (ar_Body r) with
    | None => WriteError 400 "invalid_request" "Invalid silence."
    | Some body =>
        let create (starts : Z * Z) :=
          let store ends :=
            call v := ECreateSilence (mkSilence (str_of body "id") (str_of body "scopeType") (str_of body "scopeId") (str_of body "reason")
                                        starts.1 ends "admin" (time_of body "createdAt").1) in
            match v with inl _ => WriteError 400 "invalid_request" "Silence could not be created." | inr v => WriteJSON 201 v end in
          if str_of body "preset" =?s "" then store (time_of body "endsAt").1
          else match SilencePresetEnd starts.2 starts.1 (str_of body "preset") (time_of body "customEnd").1 with
               | None => WriteError 400 "invalid_request" "Invalid silence end."
               | Some ends => store ends
               end in
        if is_zero_time (time_of body "startsAt").1 then call now := ENow in create (now, 0)
        else create (time_of body "startsAt")
    end)
  else NotAllowed.
Definition silences_item (a : option Authorizer) : handler := fun r =>
  only "DELETE" r (authorizeMutation a r (
  call done := EDeleteSilence (TrimPrefix (ar_Path r) "/api/v1/silences/") in
  match done with inl _ => WriteError 404 "not_found" "Silence not found." | inr _ => Reply (status_only 204) end)).
Definition EnableAlerts (a : option Authorizer) : routes :=
  [("/api/v1/alerts", alerts_handler a); ("/api/v1/alert-rules", rules_collection a); ("/api/v1/alert-rules/", rules_item a);
   ("/api/v1/silences", silences_collection a); ("/api/v1/silences/", silences_item a)].

(** ** Incidents, channels and deliveries ([incidents_notifications.go]) *)

Definition channelInput_fields : fields bag :=
  map (plain KString) ["name"; "kind"; "minimumSeverity"; "tlsMode"] ++ map (pointer KBool) ["enabled"; "notifyResolved"] ++
  map (pointer KString) ["url"; "bearerToken"; "signingSecret"; "host"; "username"; "password"; "sender"] ++ [pointer KStrings "recipients"].
Definition channelInput_channel (v : bag) : Channel :=
  mkChannel "" (str_of v "name") (str_of v "kind") (default true (bool_ptr v "enabled")) (str_of v "minimumSeverity")
    (default true (bool_ptr v "notifyResolved")) (Some {["tlsMode" := str_of v "tlsMode"]}) false zero_time zero_time.
Definition channelInput_secrets (v : bag) : ChannelSecrets :=
  mkChannelSecrets (str_of v "url") (str_of v "bearerToken") (str_of v "signingSecret") (str_of v "host") (str_of v "username")
    (str_of v "password") (str_of v "sender") (strings_of v "recipients").
Definition channelInput_patch (v : bag) : SecretPatch :=
  mkSecretPatch (str_ptr v "url") (str_ptr v "bearerToken") (str_ptr v "signingSecret") (str_ptr v "host") (str_ptr v "username")
    (str_ptr v "password") (str_ptr v "sender") (strings_ptr v "recipients").

Definition allowNotificationAPI (protected : bool) (k : prog) : prog :=
  if protected then limited_by LResources "Too many incident or notification requests." false k else k.
Definition notification_guard (a : option Authorizer) (protected : bool) (r : APIRequest) (k : prog) : prog :=
  requireAuth a r (allowNotificationAPI protected k).

Definition incidents_collection (a : option Authorizer) (protected : bool) : handler := fun r =>
  notification_guard a protected r (only "GET" r (
  let '(limit, offset) := pagination r in
  call v := EIncidents (ar_Query r "status") (ar_Query r "severity") limit offset in
  match v with inl _ => WriteError 500 "storage_error" "Incidents are unavailable." | inr v => WriteJSON 200 v end)).
Definition incidents_item (a : option Authorizer) (protected : bool) : handler := fun r =>
  notification_guard a protected r (only "GET" r (
  let id := TrimPrefix (ar_Path r) "/api/v1/incidents/" in
  let missing := WriteError 404 "not_found" "Incident not found." in
  if (id =?s "") || Contains id "/" then missing
  else call v := EIncident id in match v with inl _ => missing | inr v => WriteJSON 200 v end)).
Definition deliveries_collection (a : option Authorizer) (protected : bool) : handler := fun r =>
  notification_guard a protected r (only "GET" r (
  let '(limit, offset) := pagination r in
  call v := EDeliveries (ar_Query r "incidentId") limit offset in
  match v with inl _ => WriteError 500 "storage_error" "Delivery history is unavailable." | inr v => WriteJSON 200 v end)).
Definition deliveries_item (a : option Authorizer) (protected : bool) : handler := fun r =>
  notification_guard a protected r (
  let path := TrimPrefix (ar_Path r) "/api/v1/notification-deliveries/" in
  if negb (HasSuffix path "/retry") || negb (ar_Method r =?s "POST")
  then WriteError 405 "method_not_allowed" "Only retry POST is supported."
  else authorizeMutation a r (
    let id := TrimSuffix path "/retry" in
    call done := ERetryDelivery id in
    match done with
    | inl e => WriteError (if bool_decide (e = ENoRows) then 404 else 400) "not_retryable" "Delivery is not available for retry."
    | inr _ => WriteJSON 202 id
    end)).

Definition channels_collection (a : option Authorizer) (protected : bool) : handler := fun r =>
  notification_guard a protected r (
  if ar_Method r =?s "GET" then
    call v := EChannels in
    match v with inl _ => WriteError 500 "storage_error" "Notification channels are unavailable." | inr v => WriteJSON 200 v end
  else if ar_Method r =?s "POST" then
    authorizeMutation a r (
    match DecodeJSON channelInput_fields ∅ (ar_Body r) with
    | None => WriteError 400 "invalid_request" "Invalid notification channel."
    | Some body =>
        let c := channelInput_channel body in
        let secret := channelInput_secrets body in
        call invalid := EValidateChannel c secret in
        match invalid with
        | Some err => WriteError 400 "invalid_target" err
        | None =>
            call created := ECreateChannel c secret in
            match created with
            | inl e =>
                if bool_decide (e = ErrMasterKeyMissing)
                then WriteError 400 "master_key_missing" "BINNACLE_MASTER_KEY or BINNACLE_MASTER_KEY_FILE is required to configure notification channels."
                else WriteError 400 "invalid_request" "The notification channel could not be created."
            | inr created => WriteJSON 201 created
            end
        end
    end)
  else NotAllowed).

(** The channel a patch asks for: what the body leaves out stays. *)
Definition patched_channel (body : bag) (existing : Channel) : Channel :=
  let c := channelInput_channel body in
  mkChannel (ch_ID c) (if ch_Name c =?s "" then ch_Name existing else ch_Name c) (ch_Kind existing)
    (match bool_ptr body "enabled" with None => ch_Enabled existing | Some _ => ch_Enabled c end)
    (if str_of body "minimumSeverity" =?s "" then ch_MinimumSeverity existing else ch_MinimumSeverity c)
    (match bool_ptr body "notifyResolved" with None => ch_NotifyResolved existing | Some _ => ch_NotifyResolved c end)
    (if str_of body "tlsMode" =?s "" then ch_Config existing else ch_Config c)
    (ch_SecretConfigured c) (ch_CreatedAt c) (ch_UpdatedAt c).
Definition channels_item (a : option Authorizer) (protected : bool) : handler := fun r =>
  notification_guard a protected r (
  let path := TrimPrefix (ar_Path r) "/api/v1/notification-channels/" in
  let test := HasSuffix path "/test" in
  let id := TrimSuffix path "/test" in
  let missing := WriteError 404 "not_found" "Notification channel not found." in
  if (id =?s "") || Contains id "/" then missing
  else if test then
    only "POST" r (authorizeMutation a r (
    call delivery := ETestChannel id in match delivery with inl _ => missing | inr d => WriteJSON 202 d end))
  else if ar_Method r =?s "GET" then call v := EChannel id in match v with inl _ => missing | inr v => WriteJSON 200 v end
  else if ar_Method r =?s "PATCH" then
    authorizeMutation a r (
    call existing := EChannel id in
    match existing with
    | inl _ => missing
    | inr existing =>
        match DecodeJSON channelInput_fields ∅ (ar_Body r) with
        | None => WriteError 400 "invalid_request" "Invalid notification channel."
        | Some body =>
            let c := patched_channel body existing in
            let refused := WriteError 400 "invalid_target" "The notification target is invalid or blocked." in
            let update :=
              call updated := EPatchChannel id c (channelInput_patch body) in
              match updated with
              | inl _ => WriteError 400 "invalid_request" "The notification channel could not be updated."
              | inr v => WriteJSON 200 v
              end in
            match str_ptr body "url", str_ptr body "host" with
            | None, None => update
            | _, _ =>
                call candidate := EPatchedSecrets id (channelInput_patch body) in
                match candidate with
                | inl _ => refused
                | inr secrets => call invalid := EValidateChannel c secrets in match invalid with Some _ => refused | None => update end
                end
            end
        end
    end)
  else if ar_Method r =?s "DELETE" then
    authorizeMutation a r (
    call done := EDeleteChannel id in match done with inl _ => missing | inr _ => Reply (status_only 204) end)
  else NotAllowed).

Definition EnableIncidentsNotifications (a : option Authorizer) (protected : bool) : routes :=
  [("/api/v1/incidents", incidents_collection a protected); ("/api/v1/incidents/", incidents_item a protected);
   ("/api/v1/notification-channels", channels_collection a protected); ("/api/v1/notification-channels/", channels_item a protected);
   ("/api/v1/notification-deliveries", deliveries_collection a protected);
   ("/api/v1/notification-deliveries/", deliveries_item a protected)].
