(* ===== verification/ApiData.v ===== *)
(** * The HTTP API: live data, history, exports and diagnostics

    The handlers of [internal/api/live.go], [current.go], [resources.go],
    [metrics.go], [events.go], [history_deletion.go], [monitor.go],
    [diagnostics.go], [coolify.go], [logs.go], [processes.go], [exports.go] and
    [prometheus.go].  [json.Marshal] of the exported rows is a parameter. *)

From stdpp Require Import base tactics list gmap strings pretty.
From Stdlib Require Import ZArith Lia Ascii SpecFloat.
From S2P Require Import Prelude GoString Float64 GoParse GoTime Json JsonDecode JsonText Outbound Db AlertState Schema.
From S2P Require Import AlertRepository Checks Metrics Incidents ApiTokens StoreSchema Deletion StoreWriter History ApiCore.

(** ** Live data *)

Definition live (a : option Authorizer) : handler := fun r =>
  only "GET" r (require a r AuthenticationRequired (
  limited_by LLive "Too many live connections. Try again shortly." true (
  call _x := EStream (ParseUint (Header r "Last-Event-Id")) in
  Reply (with_header "Connection" "keep-alive" (with_header "Cache-Control" "no-cache, no-transform"
    (with_header "Content-Type" "text/event-stream" (mkResponse 200 ∅ [] (PStream "text/event-stream")))))))).
Definition live_session (a : option Authorizer) : handler := fun r =>
  require a r AuthenticationRequired (Reply (status_only 204)).
Definition EnableLive (a : option Authorizer) : routes := [("/api/v1/live", live a); ("/api/v1/session", live_session a)].

(** What a stream writes: the events after the client's last one, then what
    arrives, until the client or the engine closes it. *)
Inductive frame := FHeartbeat | FEvent (id : Z) (e : Event) | FSnapshot (id : Z) (s : Metrics.Snapshot).
Inductive stream_input := SDone | SBeat | SClosed | SMessage (m : LiveMessage).
Section stream.
Context (decorate : Metrics.Snapshot -> Metrics.Snapshot).
Fixpoint stream_loop (l : list stream_input) : list frame :=
  match l with
  | [] | SDone :: _ | SClosed :: _ => []
  | SBeat :: l => FHeartbeat :: stream_loop l
  | SMessage (LiveSnapshot s) :: l => FSnapshot (sn_Sequence (decorate s)) (decorate s) :: stream_loop l
  | SMessage (LiveEvent e) :: l => FEvent (e_ID e) e :: stream_loop l
  end.
Definition stream (engine : Engine) (after : option Z) (l : list stream_input) : list frame :=
  match after with Some n => map (fun e => FEvent (e_ID e) e) (EventsAfter n engine) | None => [] end ++ stream_loop l.
End stream.

Definition current_guard (a : option Authorizer) (r : APIRequest) (k : prog) : prog := only "GET" r (requireAuth a r k).
Definition current_server (a : option Authorizer) : handler := fun r =>
  current_guard a r (call snap := EEngineSnapshot in WriteJSON 200 (sn_At snap, sn_BootIdentity snap, sn_Host snap)).
Definition collector_health (a : option Authorizer) : handler := fun r =>
  current_guard a r (call snap := EEngineSnapshot in WriteJSON 200 (sn_Collectors snap)).
Definition EnableCurrent (a : option Authorizer) : routes :=
  [("/api/v1/server", current_server a); ("/api/v1/collector-health", collector_health a)].

(** The decorators of snapshots *)
Inductive Decorator := AlertDecorator | CoolifyDecorator.
Fixpoint decorated (ds : list Decorator) (s : Metrics.Snapshot) (k : Metrics.Snapshot -> prog) : prog :=
  match ds with
  | [] => k s
  | AlertDecorator :: ds => call s := EDecorateAlerts s in decorated ds s k
  | CoolifyDecorator :: ds => call s := EDecorateCoolify s in decorated ds s k
  end.
Definition resources_handler (a : option Authorizer) (ds : list Decorator) : handler := fun r =>
  requireAuth a r (
  limited_by LResources "Too many resource requests. Try again shortly." true (
  call snap := EEngineSnapshot in
  decorated ds snap (fun snap =>
  if (ar_Path r =?s "/api/v1/resources") && (ar_Query r "state" =?s "archived") then
    call values := EArchivedResources in
    match values with inl _ => WriteError 500 "storage_error" "Archived resources are unavailable." | inr v => WriteJSON 200 v end
  else if negb (ar_Path r =?s "/api/v1/resources") then
    let id := TrimPrefix (ar_Path r) "/api/v1/resources/" in
    match List.find (fun v => rs_ID v =?s id) (sn_Resources snap) with
    | Some v => WriteJSON 200 v
    | None =>
        call value := EStoredResource id in
        match value with inl _ => WriteError 404 "not_found" "Resource not found." | inr v => WriteJSON 200 v end
    end
  else WriteJSON 200 (sn_Resources snap)))).
Definition EnableResources (a : option Authorizer) (ds : list Decorator) : routes := [("/api/v1/resources", resources_handler a ds)].

Definition monitor_health (a : option Authorizer) : handler := fun r =>
  only "GET" r (require a r AuthenticationRequired (call snap := EMonitorSnapshot in WriteJSON 200 snap.1)).
Definition EnableMonitorHealth (a : option Authorizer) : routes := [("/api/v1/monitor-health", monitor_health a)].

(** ** History *)

Definition metric_names (s : string) : list Metric :=
  List.filter (fun v => negb (v =?s "")) (map TrimSpace (Split s ","%char)).
Definition metrics_handler (a : option Authorizer) : handler := fun r =>
  only "GET" r (requireAuth a r (
  limited_by LMetrics "Too many metric queries. Try again shortly." true (
  match ParseRFC3339 (ar_Query r "from") with
  | None => WriteError 400 "invalid_time_range" "A valid from timestamp is required."
  | Some from =>
      match ParseRFC3339 (ar_Query r "to") with
      | None => WriteError 400 "invalid_time_range" "A valid to timestamp is required."
      | Some to =>
          call result := EQueryMetrics (mkMetricQuery (ar_Query r "scope") (ar_Query r "id") (metric_names (ar_Query r "metrics")) from to) in
          match result with
          | inl _ => WriteError 400 "invalid_metrics_query" "The metrics request is invalid."
          | inr v => WriteJSON 200 v
          end
      end
  end))).
Definition EnableMetrics (a : option Authorizer) : routes := [("/api/v1/metrics", metrics_handler a)].

Definition maxEventRange : Z := 7 * 24 * Hour.
Definition events_handler (a : option Authorizer) : handler := fun r =>
  only "GET" r (requireAuth a r (
  limited_by LEvents "Too many event queries. Try again shortly." true (
  call now := ENow in
  let bad message := WriteError 400 "invalid_time_range" message in
  match (if ar_Query r "from" =?s "" then Some (time_add now (- (24 * Hour))) else ParseRFC3339 (ar_Query r "from")) with
  | None => bad "Invalid from timestamp."
  | Some from =>
      match (if ar_Query r "to" =?s "" then Some now
             else match ParseRFC3339 (ar_Query r "to") with Some to => if from <? to then Some to else None | None => None end) with
      | None => bad "Invalid to timestamp."
      | Some to =>
          if maxEventRange <? time_sub to from then bad "Event queries are limited to 7 days."
          else call v := EEventsFor from to 100 (ar_Query r "resource_id") in
               match v with inl _ => WriteError 500 "storage_error" "Event history is unavailable." | inr v => WriteJSON 200 v end
      end
  end))).
Definition EnableEvents (a : option Authorizer) : routes := [("/api/v1/events", events_handler a)].

(** [csrf != nil && !csrf.ValidCSRF(r)] *)
Definition optional_csrf (csrf : bool) (k : prog) : prog := if csrf then require_csrf k else k.
Definition deletion_previews (a : option Authorizer) (csrf : bool) : handler := fun r =>
  only "POST" r (require a r AuthenticationRequired (optional_csrf csrf (
  let refused := WriteError 400 "invalid_request" "The deletion scope is invalid." in
  match DecodeJSON [plain KString "kind"; plain KString "resourceId"; plain KTime "before"] ∅ (ar_Body r) with
  | None => refused
  | Some b =>
      call preview := EPreviewDeletion (mkDeletionRequest (str_of b "kind") (str_of b "resourceId") (time_of b "before").1) in
      match preview with inl _ => refused | inr v => WriteJSON 200 v end
  end))).
Definition deletion_jobs (a : option Authorizer) (csrf : bool) : handler := fun r =>
  require a r AuthenticationRequired (only "POST" r (optional_csrf csrf (
  match DecodeJSON [plain KString "token"; plain KString "confirmation"] ∅ (ar_Body r) with
  | None => WriteError 400 "invalid_request" "A preview token and confirmation are required."
  | Some b =>
      with_actor a "" (fun actor =>
      call job := ECreateDeletion (str_of b "token") (str_of b "confirmation") actor in
      match job with inl _ => WriteError 409 "deletion_not_available" "The deletion cannot be started." | inr v => WriteJSON 202 v end)
  end))).
Definition deletion_job (a : option Authorizer) (csrf : bool) : handler := fun r =>
  require a r AuthenticationRequired (
  let missing := WriteError 404 "not_found" "Deletion job not found." in
  let changed (done : gerr + unit) :=
    match done with inl _ => WriteError 409 "deletion_not_available" "The deletion cannot be changed." | inr _ => Reply (status_only 204) end in
  let unsupported := WriteError 405 "method_not_allowed" "Unsupported deletion operation." in
  match Split (TrimPrefix (ar_Path r) "/api/v1/history/deletion-jobs/") "/"%char with
  | [] => missing
  | id :: rest =>
      if id =?s "" then missing
      else match rest with
      | [] => if ar_Method r =?s "GET"
              then call job := EDeletionJob id in match job with inl _ => missing | inr v => WriteJSON 200 v end
              else unsupported
      | [action] =>
          if ar_Method r =?s "POST" then
            optional_csrf csrf (
            if action =?s "cancel" then call done := ECancelDeletion id in changed done
            else if action =?s "retry" then call done := ERetryDeletion id in changed done
            else missing)
          else unsupported
      | _ => unsupported
      end
  end).
Definition EnableHistoryDeletion (a : option Authorizer) (csrf : bool) : routes :=
  [("/api/v1/history/deletion-previews", deletion_previews a csrf); ("/api/v1/history/deletion-jobs", deletion_jobs a csrf);
   ("/api/v1/history/deletion-jobs/", deletion_job a csrf)].

(** ** Diagnostics, Coolify, logs and processes *)

Definition diagnostics_previews (a : option Authorizer) (protected : bool) : handler := fun r =>
  only "POST" r (require a r AuthenticationRequired (
  with_actor a "admin" (fun actor =>
  let generate :=
    call preview := EBundleGenerate in
    match preview with inl _ => WriteError 500 "diagnostics_error" "Diagnostics could not be generated." | inr v => WriteJSON 201 v end in
  if protected then limited_by (LDiagnostics actor) "Diagnostics generation is temporarily limited." true generate else generate))).
Definition attachment (contentType filename text : string) : Response :=
  mkResponse 200 {["Content-Type" := contentType; "Content-Disposition" := "attachment; filename=" +:+ Marshal filename;
                   "Cache-Control" := "no-store"]} [] (PText contentType text).
Definition diagnostics_download (a : option Authorizer) : handler := fun r =>
  only "GET" r (require a r AuthenticationRequired (
  let tail := TrimPrefix (ar_Path r) "/api/v1/diagnostics/previews/" in
  if negb (HasSuffix tail "/download") then WriteError 404 "not_found" "Diagnostics preview not found."
  else
    call archive := EBundleDownload (TrimSuffix tail "/download") in
    match archive with
    | inl _ => WriteError 404 "not_found" "Diagnostics preview expired or was not found."
    | inr v => Reply (with_header "X-Content-Type-Options" "nosniff" (attachment "application/gzip" "binnacle-diagnostics.tar.gz" v))
    end)).
Definition EnableDiagnostics (a : option Authorizer) (protected : bool) : routes :=
  [("/api/v1/diagnostics/previews", diagnostics_previews a protected); ("/api/v1/diagnostics/previews/", diagnostics_download a)].

Definition DecodeCoolify (r : APIRequest) : option bag := DecodeJSON [plain KString "URL"; plain KString "Token"] ∅ (ar_Body r).
Definition coolify_config (error_text : gerr -> string) (a : option Authorizer) (csrf : bool) : handler := fun r =>
  require a r SessionRequired (
  if ar_Method r =?s "GET" then call status := ECoolifyStatus in WriteJSON 200 status
  else if ar_Method r =?s "PUT" then
    required_csrf csrf (
    match DecodeCoolify r with
    | None => WriteError 400 "invalid_request" "Coolify configuration is invalid."
    | Some b =>
        call done := ECoolifyConfigure (str_of b "URL") (str_of b "Token") in
        match done with
        | inl e => WriteError 400 "coolify_invalid" (error_text e)
        | inr _ => call status := ECoolifyStatus in WriteJSON 200 status
        end
    end)
  else WriteError 405 "method_not_allowed" "Only GET and PUT are supported.").
Definition coolify_test (a : option Authorizer) (csrf : bool) : handler := fun r =>
  require a r SessionRequired (only "POST" r (required_csrf csrf (
  match DecodeCoolify r with
  | None => WriteError 400 "invalid_request" "Coolify configuration is invalid."
  | Some b =>
      call done := ECoolifyTest (str_of b "URL") (str_of b "Token") in
      match done with inl _ => WriteError 502 "coolify_unavailable" "Coolify connection test failed." | inr _ => Reply (status_only 204) end
  end))).
Definition EnableCoolify (error_text : gerr -> string) (a : option Authorizer) (csrf : bool) : routes :=
  [("/api/v1/integrations/coolify", coolify_config error_text a csrf); ("/api/v1/integrations/coolify/test", coolify_test a csrf)].

Definition MaxLogComponents : Z := 32.
(** The range of a query, by the clock and the range asked for *)
Definition log_range (r : APIRequest) (now : Z) : string + (Z * Z) :=
  let range := ar_Query r "range" in
  if (range =?s "") || (range =?s "5m") then inr (time_add now (- (5 * Minute)), now)
  else if range =?s "30m" then inr (time_add now (- (30 * Minute)), now)
  else if range =?s "1h" then inr (time_add now (- Hour), now)
  else if range =?s "custom" then
    match ParseRFC3339 (ar_Query r "from") with
    | None => inl "invalid from timestamp"
    | Some from =>
        match ParseRFC3339 (ar_Query r "to") with
        | Some to => if (from <? to) && negb (24 * Hour <? time_sub to from) then inr (from, to)
                     else inl "custom range must be positive and no longer than 24 hours"
        | None => inl "custom range must be positive and no longer than 24 hours"
        end
    end
  else inl "range must be 5m, 30m, 1h, or custom".
Definition logRequest (r : APIRequest) (k : string + LogRequest -> prog) : prog :=
  let container := TrimSpace (ar_Query r "container") in
  let resource := TrimSpace (ar_Query r "resource") in
  if Bool.eqb (container =?s "") (resource =?s "") then k (inl "exactly one container or resource is required")
  else
    let with_components components :=
      if MaxLogComponents <? Z.of_nat (length components) then k (inl "resource exceeds the component limit")
      else match (if ar_Query r "limit" =?s "" then Some 0 else Atoi (ar_Query r "limit")) with
      | None => k (inl "limit must be an integer")
      | Some limit =>
          call now := ENow in
          match log_range r now with
          | inl e => k (inl e)
          | inr (from, to) =>
              if 256 <? str_len (ar_Query r "search") then k (inl "search is too long")
              else k (inr (mkLogRequest components from to limit (ar_Query r "search") (ar_Query r "follow" =?s "true")))
          end
      end in
    if resource =?s "" then with_components [container]
    else call snap := EEngineSnapshot in
         match List.find (fun v => rs_ID v =?s resource) (sn_Resources snap) with
         | Some v => match map rc_ID (rs_Components v) with
                     | [] => k (inl "resource has no active components")
                     | components => with_components components
                     end
         | None => k (inl "resource has no active components")
         end.
Definition logs_handler (a : option Authorizer) : handler := fun r =>
  only "GET" r (require a r SessionRequired (
  logRequest r (fun q =>
  match q with
  | inl e => WriteError 400 "invalid_request" e
  | inr q =>
      call result := EReadLogs q in
      if lq_Follow q
      then Reply (with_header "X-Accel-Buffering" "no" (with_header "Cache-Control" "no-store"
             (with_header "Content-Type" "text/event-stream" (mkResponse 200 ∅ [] (PStream "text/event-stream")))))
      else match result with inl _ => WriteError 502 "logs_unavailable" "Container logs are unavailable." | inr v => WriteJSON 200 v end
  end))).
Definition EnableLogs (a : option Authorizer) : routes := [("/api/v1/logs", logs_handler a)].

Definition ErrProcessScanBusy : gerr := EMsg "a process scan is already running".
Definition processes_handler (a : option Authorizer) : handler := fun r =>
  only "GET" r (require a r SessionRequired (
  match (if ar_Query r "limit" =?s "" then Some 0 else Atoi (ar_Query r "limit")) with
  | None => WriteError 400 "invalid_request" "limit must be an integer."
  | Some limit =>
      call values := EScanProcesses limit in
      match values with
      | inl e => if bool_decide (e = ErrProcessScanBusy) then WriteError 429 "scan_busy" "A process scan is already running."
                 else WriteError 503 "processes_unavailable" "Host processes are unavailable."
      | inr v => WriteJSON 200 v
      end
  end)).
Definition EnableProcesses (a : option Authorizer) : routes := [("/api/v1/processes", processes_handler a)].

(** ** Exports *)

Definition maxExportRows : Z := 10000.
Definition maxExportBytes : Z := Z.shiftl 16 20.
Definition exportSchemaVersion : Z := 1.
Definition maxExportRange : Z := 30 * 24 * Hour.

(** [Format(time.RFC3339Nano)] in UTC *)
Definition rfc3339_nano (t : Z) : string :=
  let s := t / Second in
  let nanos := TrimRight (zero_pad 9 (t mod Second)) ["0"%char] in
  format_date t +:+ "T" +:+ zero_pad 2 (s / 3600 mod 24) +:+ ":" +:+ zero_pad 2 (s / 60 mod 60) +:+ ":" +:+ zero_pad 2 (s mod 60) +:+
  (if nanos =?s "" then "" else "." +:+ nanos) +:+ "Z".
Definition floatString (v : option F64) : string := match v with Some f => FormatFloatG f | None => "" end.

(** [csv.Writer] *)
Definition csv_quoted (f : string) : bool :=
  negb (f =?s "") &&
  ((f =?s "\.") || existsb (fun c => Ascii.eqb c "," || Ascii.eqb c quote_byte || (byte_code c =? 13) || (byte_code c =? 10)) (bytes f) ||
   match bytes f with c :: _ => is_space c | [] => false end).
Definition csv_field (f : string) : list ascii :=
  if csv_quoted f
  then quote_byte :: flat_map (fun c => if Ascii.eqb c quote_byte then [quote_byte; quote_byte] else [c]) (bytes f) ++ [quote_byte]
  else bytes f.
Definition csv_line (fields : list string) : list ascii := sep_by [","%char] (map csv_field fields) ++ ["010"%char].

Definition too_large (message : string) : prog := WriteError 413 "export_too_large" message.
Definition writeAttachment (contentType filename : string) (body : string) : prog :=
  if maxExportBytes <? str_len body then too_large "The export exceeds 16 MiB."
  else Reply (with_header "Content-Length" (Itoa (str_len body)) (attachment contentType filename body)).

Definition exportRange (r : APIRequest) (k : Z -> Z -> prog) : prog :=
  match ParseRFC3339 (ar_Query r "from") with
  | None => WriteError 400 "invalid_time_range" "A valid from timestamp is required."
  | Some from =>
      let bad := WriteError 400 "invalid_time_range" "Export ranges must be positive and no longer than 30 days." in
      match ParseRFC3339 (ar_Query r "to") with
      | Some to => if negb (from <? to) || (maxExportRange <? time_sub to from) then bad else k from to
      | None => bad
      end
  end.

Definition csv_header : list string :=
  ["schema_version"; "exported_at"; "scope"; "id"; "resolution"; "metric"; "unit"; "timestamp"; "min"; "avg"; "max"; "count"].
Definition metric_rows (exported : Z) (v : MetricsResponse) : list (list string) :=
  flat_map (fun s => map (fun p =>
    [Itoa exportSchemaVersion; rfc3339_nano exported; mr_Scope v; mr_ID v; resolution_name (mr_Resolution v); se_Metric s; se_Unit s;
     rfc3339_nano (p_At p); floatString (p_Min p); floatString (p_Avg p); floatString (p_Max p); Itoa (p_Count p)]) (se_Points s))
    (mr_Series v).
Definition export_metrics (a : option Authorizer) : handler := fun r =>
  only "GET" r (requireAuth a r (exportRange r (fun from to =>
  call result := EQueryMetrics (mkMetricQuery (ar_Query r "scope") (ar_Query r "id") (metric_names (ar_Query r "metrics")) from to) in
  match result with
  | inl _ => WriteError 400 "invalid_export" "The metrics export request is invalid."
  | inr v =>
      call exported := ENow in
      let rows := metric_rows exported v in
      if maxExportRows <? Z.of_nat (length rows) then too_large "The export exceeds 10,000 rows."
      else writeAttachment "text/csv; charset=utf-8" "binnacle-metrics.csv" (of_bytes (concat (map csv_line (csv_header :: rows))))
  end))).

Section exports.
(** [json.Marshal] of an envelope: the time, the range and the rows *)
Context (marshal_export : forall A : Type, Z -> option (Z * Z) -> list A -> string + string).

Definition writeJSONExport {A} (filename : string) (range : option (Z * Z)) (rows : list A) : prog :=
  if maxExportRows <? Z.of_nat (length rows) then too_large "The export exceeds 10,000 rows."
  else
    call exported := ENow in
    let range := match range with Some (from, to) => if is_zero_time from then None else Some (from, to) | None => None end in
    match marshal_export A exported range rows with
    | inl _ => WriteError 500 "export_failed" "The export could not be generated."
    | inr body => writeAttachment "application/json; charset=utf-8" filename (body +:+ of_bytes ["010"%char])
    end.
Definition export_events (a : option Authorizer) : handler := fun r =>
  only "GET" r (requireAuth a r (exportRange r (fun from to =>
  call rows := EExportEvents from to (maxExportRows + 1) in
  match rows with
  | inl _ => WriteError 500 "export_failed" "Events could not be exported."
  | inr rows => writeJSONExport "binnacle-events.json" (Some (from, to)) rows
  end))).
Definition export_incidents (a : option Authorizer) : handler := fun r =>
  only "GET" r (requireAuth a r (exportRange r (fun from to =>
  call rows := EExportIncidents from to (maxExportRows + 1) in
  match rows with
  | inl _ => WriteError 500 "export_failed" "Incidents could not be exported."
  | inr rows => writeJSONExport "binnacle-incidents.json" (Some (from, to)) rows
  end))).
Record exportResource := mkExportResource {
  er_ID : string; er_Name : string; er_Status : string; er_Category : string; er_Context : string; er_Project : string;
  er_Environment : string; er_SourceKind : string; er_ArchivedAt : option Z;
}.
Definition export_resources (a : option Authorizer) (ds : list Decorator) : handler := fun r =>
  only "GET" r (requireAuth a r (
  call snap := EEngineSnapshot in
  decorated ds snap (fun snap =>
  call archived := EArchivedResources in
  match archived with
  | inl _ => WriteError 500 "export_failed" "Resources could not be exported."
  | inr archived =>
      let rows :=
        map (fun v => mkExportResource (rs_ID v) (rs_Name v) (rs_Status v) (rs_Category v) (rs_Context v) (rs_Project v) (rs_Environment v)
                        (rs_SourceKind v) None) (sn_Resources snap) ++
        map (fun v => mkExportResource (sr_ID v) (sr_Name v) (sr_Status v) (sr_Category v) (sr_Context v) (sr_ProjectName v)
                        (sr_EnvironmentName v) (sr_SourceKind v) (sr_ArchivedAt v)) archived in
      writeJSONExport "binnacle-resources.json" None rows
  end))).
Definition EnableExports (metricsAuth eventsAuth incidentsAuth resourcesAuth : option Authorizer) (ds : list Decorator) : routes :=
  [("/api/v1/exports/metrics.csv", export_metrics metricsAuth); ("/api/v1/exports/events.json", export_events eventsAuth);
   ("/api/v1/exports/incidents.json", export_incidents incidentsAuth);
   ("/api/v1/exports/resources.json", export_resources resourcesAuth ds)].
End exports.

(** ** Prometheus *)

(** [promNumber] *)
Definition promNumber (v : option (F64 + Z)) : option F64 := match v with Some (inl f) => Some f | Some (inr n) => Some (f64_of_Z n) | None => None end.
Definition promEscape (value : string) : string :=
  of_bytes (flat_map (fun c => if Ascii.eqb c "\" then ["\"; "\"]%char else if byte_code c =? 10 then ["\"; "n"]%char
                               else if Ascii.eqb c quote_byte then ["\"%char; quote_byte] else [c]) (bytes value)).
(** The labels sorted by name *)
Definition promLabels (values : list (string * string)) : string :=
  match values with
  | [] => ""
  | _ => "{" +:+ Join (map (fun kv => kv.1 +:+ "=" +:+ of_bytes [quote_byte] +:+ promEscape kv.2 +:+ of_bytes [quote_byte])
                         (sql_order_by (fun a b => String.leb a.1 b.1) values)) "," +:+ "}"
  end.
(** [invalidMetric.ReplaceAllString(value, "_")]: a rune that is not allowed
    becomes one underscore. *)
Fixpoint metric_name_bytes (k : nat) (l : list ascii) : list ascii :=
  match l with
  | [] => []
  | c :: l' =>
      match k with
      | S k => metric_name_bytes k l'
      | O => if is_digit c || is_lower c || is_upper c || Ascii.eqb c "_" || Ascii.eqb c ":" then c :: metric_name_bytes 0 l'
             else "_"%char :: metric_name_bytes (pred (rune_width l)) l'
      end
  end.
Definition promMetricName (value : string) : string := of_bytes (metric_name_bytes 0 (bytes value)).

Section prometheus.
Context `{MapOrder}.
Definition sample (name : string) (value : option (F64 + Z)) (labels : string) : string :=
  match promNumber value with None => "" | Some f => name +:+ labels +:+ " " +:+ FormatFloatG f +:+ of_bytes ["010"%char] end.
Definition float_value (v : option F64) : option (F64 + Z) := inl <$> v.
Definition int_value (v : option Z) : option (F64 + Z) := inr <$> v.

Definition host_samples (h : HostObservation) : list string := [
  sample "binnacle_host_cpu_percent" (float_value (h_CPUPercent h)) "";
  sample "binnacle_host_memory_used_bytes" (int_value (h_MemoryUsedBytes h)) "";
  sample "binnacle_host_memory_total_bytes" (int_value (h_MemoryTotalBytes h)) "";
  sample "binnacle_host_disk_used_bytes" (int_value (h_DiskUsedBytes h)) "";
  sample "binnacle_host_disk_total_bytes" (int_value (h_DiskTotalBytes h)) "";
  sample "binnacle_host_disk_read_bytes_per_second" (float_value (h_DiskReadBPS h)) "";
  sample "binnacle_host_disk_write_bytes_per_second" (float_value (h_DiskWriteBPS h)) "";
  sample "binnacle_host_network_receive_bytes_per_second" (float_value (h_NetworkRXBPS h)) "";
  sample "binnacle_host_network_transmit_bytes_per_second" (float_value (h_NetworkTXBPS h)) ""].
Definition resource_samples (v : ResourceSnapshot) : list string :=
  let labels := promLabels [("resource_id", rs_ID v); ("category", rs_Category v)] in [
  sample "binnacle_resource_cpu_percent" (float_value (rs_CPUHostPercent v)) labels;
  sample "binnacle_resource_memory_bytes" (int_value (rs_MemoryBytes v)) labels;
  sample "binnacle_resource_network_receive_bytes_per_second" (float_value (rs_RXBPS v)) labels;
  sample "binnacle_resource_network_transmit_bytes_per_second" (float_value (rs_TXBPS v)) labels;
  sample "binnacle_resource_disk_read_bytes_per_second" (float_value (rs_BlockReadBPS v)) labels;
  sample "binnacle_resource_disk_write_bytes_per_second" (float_value (rs_BlockWriteBPS v)) labels].
Definition collector_samples (m : gmap string CollectorHealth) : list string :=
  map (fun kv => sample "binnacle_collector_state" (Some (inr 1)) (promLabels [("collector", kv.1); ("state", co_State kv.2)])) (range_map m).
Definition check_samples (l : list PrometheusState) : list string :=
  map (fun s => sample "binnacle_health_check_state"
    (Some (inr (if ps_Status s =?s "success" then 1 else if ps_Status s =?s "unknown" then -1 else 0)))
    (promLabels [("check_id", ps_CheckID s); ("resource_id", ps_ResourceID s)])) l.
Definition self_samples (l : list (string * option (F64 + Z))) : list string :=
  map (fun m => sample ("binnacle_self_" +:+ promMetricName m.1) m.2 "") l.

Definition bearer_challenge (p : Response) : prog :=
  Reply (with_header "WWW-Authenticate" ("Bearer realm=" +:+ Marshal "binnacle" +:+ ", scope=" +:+ Marshal "metrics:read") p).
Definition PrometheusHandler (enabled : bool) : handler := fun r =>
  if negb enabled then Reply (mkResponse 404 ∅ [] (PText "text/plain; charset=utf-8" ("404 page not found" +:+ of_bytes ["010"%char])))
  else if negb (ar_Method r =?s "GET") then Reply (with_header "Allow" "GET" (status_only 405))
  else
    let refused := bearer_challenge (error_response 401 "invalid_token" "A metrics:read API token is required.") in
    match Fields (Header r "Authorization") with
    | [scheme; token] =>
        if negb (EqualFold scheme "Bearer") then refused
        else call err := ETokenAuthenticate token ScopeMetricsRead in
        match err with
        | inl e => if bool_decide (e = ErrAPIScopeInsufficient)
                   then WriteError 403 "insufficient_scope" "The API token does not grant metrics:read." else refused
        | inr _ =>
            call snap := EEngineSnapshot in
            call states := EPrometheusStates 1000 in
            call monitor := EMonitorSnapshot in
            let output := String.concat "" (host_samples (sn_Host snap) ++ flat_map resource_samples (sn_Resources snap) ++
              collector_samples (sn_Collectors snap) ++ check_samples (match states with inr l => l | inl _ => [] end) ++ self_samples monitor.2) in
            if Z.shiftl 4 20 <? str_len output then WriteError 503 "metrics_too_large" "Prometheus output exceeds the configured bound."
            else Reply (mkResponse 200 {["Content-Type" := "text/plain; version=0.0.4; charset=utf-8"; "Cache-Control" := "no-store"]} []
                          (PText "text/plain; version=0.0.4; charset=utf-8" output))
        end
    | _ => refused
    end.
End prometheus.
