(* ===== verification/ApiServer.v ===== *)
(** * The HTTP API as the server registers it

    The registration of [cmd/binnacle/main.go] and the outer mux of
    [internal/app/http.go]; what every handler may do, as a discipline over its
    tree of calls; and that every registered handler keeps it. *)

From stdpp Require Import base tactics list gmap strings.
From Stdlib Require Import ZArith Lia Ascii.
From S2P Require Import Prelude GoString GoParse Float64 GoTime Json JsonDecode JsonText Outbound Netip Db AlertState Schema Secrets.
From S2P Require Import AlertRepository Checks Metrics Incidents Channels AuthSchema Sessions ApiTokens Accounts Mfa.
From S2P Require Import StoreSchema Deletion StoreWriter History Config SettingsStore Preferences Protection Onboarding.
From S2P Require Import ApiCore ApiAccess ApiMonitoring ApiData.

(** ** Registration *)

(** What [main] reads of the configuration and builds from it *)
Record Deployment := mkDeployment {
  dp_Portability : bool; dp_AdvancedAuth : bool; dp_Prometheus : bool;
  dp_proxies : TrustedProxies; dp_proxyAuth : option ProxyAuthenticator;
}.

Section server.
Context `{MapOrder}.
Context (url_parse : string -> option URL) (url_origin : string -> option (string * string)).
Context (error_text : gerr -> string).
Context (marshal_export : forall A : Type, Z -> option (Z * Z) -> list A -> string + string).
Context (d : Deployment).

Definition sessions : option Authorizer := Some SessionAuthorizer.
Definition scoped (scope : string) (prefixes : list string) : option Authorizer :=
  if dp_Portability d then Some (ScopedAuthorizer scope prefixes) else sessions.
Definition serverAuthorizer := scoped ScopeServerRead [].
Definition resourceAuthorizer := scoped ScopeResourcesRead [].
Definition metricsAuthorizer := scoped ScopeMetricsRead [].
Definition eventsAuthorizer := scoped ScopeEventsRead [].
Definition incidentsAuthorizer := scoped ScopeIncidentsRead ["/api/v1/incidents"].

Definition api_routes : routes :=
  New ++
  EnableLive sessions ++ EnableCurrent serverAuthorizer ++
  EnableResources resourceAuthorizer [AlertDecorator; CoolifyDecorator] ++
  EnableMetrics metricsAuthorizer ++ EnableEvents eventsAuthorizer ++ EnableHistoryDeletion sessions true ++
  EnableMonitorHealth sessions ++ EnableDiagnostics sessions true ++ EnableSetup (dp_proxies d) ++
  (if dp_AdvancedAuth d
   then EnableAuth true (dp_proxyAuth d) (dp_proxies d) ++ EnableProxyAuth url_origin (dp_proxyAuth d) ++ EnableMFA
   else EnableAuth false None (dp_proxies d) ++ EnableAuthMethods (dp_proxyAuth d) false) ++
  EnableOnboarding sessions true ++ EnableSettings sessions true ++ EnableChecks url_parse sessions true ++ EnableAlerts sessions ++
  EnableIncidentsNotifications incidentsAuthorizer true ++ EnablePreferences ++
  (if dp_Portability d
   then EnableAPITokens error_text ++
        EnableExports marshal_export metricsAuthorizer eventsAuthorizer incidentsAuthorizer resourceAuthorizer [CoolifyDecorator]
   else []) ++
  EnableCoolify error_text sessions true ++ EnableLogs sessions ++ EnableProcesses sessions.

(** The handlers outside the API: health and the embedded assets make no
    calls on the services, they only answer. *)
Definition server_routes (health assets : APIRequest -> Response) : routes :=
  [("/healthz", fun r => Reply (health r)); ("/metrics", PrometheusHandler (dp_Portability d && dp_Prometheus d));
   ("/api/v1/", fun r => match mux api_routes (ar_Path r) with Some h => h r | None => notFound r end);
   ("/", fun r => Reply (assets r))].
Definition serve (health assets : APIRequest -> Response) (r : APIRequest) : prog :=
  match mux (server_routes health assets) (ar_Path r) with Some h => h r | None => notFound r end.

(** ** The discipline *)

(** What a handler has been told about its request so far *)
Record known := mkKnown {
  kn_session : bool;                (** a browser session is valid *)
  kn_user : option string;          (** and belongs to this user *)
  kn_csrf : bool;                   (** the CSRF token is the session's *)
  kn_scopes : list string;          (** scopes the bearer token has been accepted for *)
  kn_password : list string;        (** users whose password was given *)
  kn_factor : list string;          (** users whose second factor was given *)
  kn_claimed : list string;         (** the administrator just created *)
  kn_admin : list string;           (** the administrator, looked up *)
}.
Definition nothing : known := mkKnown false None false [] [] [] [] [].

Definition learn (K : known) (e : eff) : answer e -> known :=
  match e return answer e -> known with
  | EAuthorize => fun ok => if ok then mkKnown true (kn_user K) (kn_csrf K) (kn_scopes K) (kn_password K) (kn_factor K) (kn_claimed K) (kn_admin K) else K
  | EAuthenticate => fun s => match s with
      | inr s => mkKnown true (Some (ss_UserID s)) (kn_csrf K) (kn_scopes K) (kn_password K) (kn_factor K) (kn_claimed K) (kn_admin K)
      | inl _ => K end
  | EValidCSRF => fun ok => if ok then mkKnown (kn_session K) (kn_user K) true (kn_scopes K) (kn_password K) (kn_factor K) (kn_claimed K) (kn_admin K) else K
  | ETokenAuthenticate _ scope => fun ok => match ok with
      | inr _ => mkKnown (kn_session K) (kn_user K) (kn_csrf K) (scope :: kn_scopes K) (kn_password K) (kn_factor K) (kn_claimed K) (kn_admin K)
      | inl _ => K end
  | ECredentials _ _ => fun u => match u with
      | inr u => mkKnown (kn_session K) (kn_user K) (kn_csrf K) (kn_scopes K) (u_ID u :: kn_password K) (kn_factor K) (kn_claimed K) (kn_admin K)
      | inl _ => K end
  | EMfaVerify id _ => fun ok => match ok with
      | inr _ => mkKnown (kn_session K) (kn_user K) (kn_csrf K) (kn_scopes K) (kn_password K) (id :: kn_factor K) (kn_claimed K) (kn_admin K)
      | inl _ => K end
  | EClaim _ _ _ => fun u => match u with
      | inr u => mkKnown (kn_session K) (kn_user K) (kn_csrf K) (kn_scopes K) (kn_password K) (kn_factor K) (u_ID u :: kn_claimed K) (kn_admin K)
      | inl _ => K end
  | EAdministrator => fun u => match u with
      | inr u => mkKnown (kn_session K) (kn_user K) (kn_csrf K) (kn_scopes K) (kn_password K) (kn_factor K) (kn_claimed K) (u_ID u :: kn_admin K)
      | inl _ => K end
  | _ => fun _ => K
  end.

(** A session, or a bearer token with the scope where tokens are in use *)
Definition may_read (K : known) (scope : string) : Prop :=
  kn_session K = true \/ (dp_Portability d = true /\ scope ∈ kn_scopes K).
(** A session whose CSRF token was compared, which it is not for safe methods *)
Definition may_change (r : APIRequest) (K : known) : Prop :=
  kn_session K = true /\ kn_csrf K = true /\ str_in (ar_Method r) ["GET"; "HEAD"; "OPTIONS"] = false.

(** What must be known before a call is made for the request [r] *)
Definition permitted (r : APIRequest) (K : known) (e : eff) : Prop :=
  match e with
  (* questions about the request itself, and what anybody may ask or try *)
  | EAuthorize | EAuthenticate | EValidCSRF | EActor | ELimit _ | ENow | EApiID
  | ECredentials _ _ | ESetupAvailable | ESetupVerify _ | EClaim _ _ _ => True
  | ETokenAuthenticate token _ => exists scheme, Fields (Header r "Authorization") = [scheme; token] /\ EqualFold scheme "Bearer" = true
  (* a second factor is tried, and a recovery code used up, only with the
     password of the user *)
  | EMfaVerify id _ => id ∈ kn_password K
  (* sessions start with the password and, where configured, the second
     factor, with the claim of the installation, or with a proxy's subject *)
  | EAdministrator =>
      dp_AdvancedAuth d = true /\ is_Some (Subject (dp_proxyAuth d) (ar_HTTP r)) /\
      ProxyAuth_SameOrigin url_origin (dp_proxyAuth d) (ar_HTTP r) = true
  | EIssue id => (id ∈ kn_password K /\ (dp_AdvancedAuth d = true -> id ∈ kn_factor K)) \/ id ∈ kn_claimed K
  | EIssueProxy id subject =>
      dp_AdvancedAuth d = true /\ id ∈ kn_admin K /\ Subject (dp_proxyAuth d) (ar_HTTP r) = Some subject /\
      ProxyAuth_SameOrigin url_origin (dp_proxyAuth d) (ar_HTTP r) = true
  (* and end for the session that asks, or for its user *)
  | ERevoke token => token = RequestToken r
  | ERevokeAll id => may_change r K /\ kn_user K = Some id
  (* a user's own affairs *)
  | EUserByID id | ETokenList id | EPreferencesGet id => kn_user K = Some id
  | EMfaEnabled _ => kn_session K = true
  | EMfaBegin _ _ | EMfaConfirm _ _ | EMfaDisable _ _ _ => may_change r K
  | ETokenCreate id _ _ _ | ETokenRevoke id _ | EPreferencesPut id _ => may_change r K /\ kn_user K = Some id
  (* reading, by scope *)
  | EMonitorSnapshot | EPrometheusStates _ | EQueryMetrics _ => may_read K ScopeMetricsRead
  | EEventsFor _ _ _ _ | EExportEvents _ _ _ => may_read K ScopeEventsRead
  | EIncidents _ _ _ _ | EIncident _ | EExportIncidents _ _ _ => may_read K ScopeIncidentsRead
  | EArchivedResources | EStoredResource _ | EDecorateAlerts _ | EDecorateCoolify _ => may_read K ScopeResourcesRead
  | EEngineSnapshot => may_read K ScopeServerRead \/ may_read K ScopeResourcesRead \/ may_read K ScopeMetricsRead
  (* reading, in a browser session only *)
  | ESettingsSnapshot | EOnboardingState | EStream _ | EDeletionJob _ | EChecksList _ _ | EChecksGet _
  | EAlerts _ _ _ _ _ _ | ERules | ESilences _ | EChannels | EChannel _ | EDeliveries _ _ _ | ECoolifyStatus
  | EBundleDownload _ | EReadLogs _ | EScanProcesses _ => kn_session K = true
  (* the one change that a session makes without its CSRF token: a new bundle
     is kept for download, and the oldest may go for it *)
  | EBundleGenerate => kn_session K = true /\ ar_Method r = "POST"
  (* changing *)
  | ESettingsPatch _ _ _ | EOnboardingUpdate _ _ | EOnboardingDiagnose _ | EOnboardingComplete | EOnboardingDismiss
  | EPreviewDeletion _ | ECreateDeletion _ _ _ | ECancelDeletion _ | ERetryDeletion _
  | EChecksCreate _ | EChecksUpdate _ | EChecksDelete _ | ERunNow _ | ECreateRule _ | EUpdateRule _
  | ECreateSilence _ | EDeleteSilence _ | EValidateChannel _ _ | ECreateChannel _ _ | EPatchedSecrets _ _ | EPatchChannel _ _ _
  | EDeleteChannel _ | ETestChannel _ | ERetryDelivery _ | ECoolifyConfigure _ _ | ECoolifyTest _ _ => may_change r K
  end.

(** Every call of the tree is permitted by what the answers before it say. *)
Fixpoint disciplined (r : APIRequest) (K : known) (p : prog) : Prop :=
  match p with
  | Reply _ => True
  | Do e k => permitted r K e /\ forall a, disciplined r (learn K e a) (k a)
  end.

(** ** Every handler keeps it *)

Lemma method_unsafe (m x : string) : (m =?s x) = true -> str_in x ["GET"; "HEAD"; "OPTIONS"] = false -> str_in m ["GET"; "HEAD"; "OPTIONS"] = false.
Proof. by intros ->%String.eqb_eq. Qed.

Ltac permit :=
  cbn [permitted kn_session kn_user kn_csrf kn_scopes kn_password kn_factor kn_claimed kn_admin nothing];
  unfold may_read, may_change;
  cbn [kn_session kn_user kn_csrf kn_scopes kn_password kn_factor kn_claimed kn_admin nothing];
  first
    [ exact I | reflexivity | assumption
    | eexists; split; eassumption
    | apply list_elem_of_here
    | split; [reflexivity|apply String.eqb_eq; eassumption]
    | split_and!; [assumption|eexists; eassumption|assumption]
    | split_and!; first [reflexivity | eapply method_unsafe; [eassumption|reflexivity]]
    | left; reflexivity
    | right; split; [assumption|apply list_elem_of_here]
    | left; left; reflexivity
    | left; right; split; [assumption|apply list_elem_of_here]
    | right; left; right; split; [assumption|apply list_elem_of_here]
    | right; right; right; split; [assumption|apply list_elem_of_here]
    | left; split; [apply list_elem_of_here|intros ?; first [apply list_elem_of_here|congruence]]
    | right; apply list_elem_of_here
    | split_and!; first [assumption|apply list_elem_of_here|assumption] ].
Ltac disc_step :=
  lazymatch goal with
  | |- disciplined _ _ (Reply _) => exact I
  | |- disciplined _ _ (WriteError _ _ _) => exact I
  | |- disciplined _ _ (WriteJSON _ _) => exact I
  | |- disciplined _ _ (Do _ _) => split; [permit | let a := fresh "a" in intros a; cbn beta; cbn [learn]; cbn beta]
  | |- disciplined _ _ (if ad_Allowed _ then _ else _) => cbn [ad_Allowed]; cbv iota
  | |- disciplined _ _ (if negb ?a || negb ?b then _ else _) => destruct a eqn:?; destruct b eqn:?; cbn [negb orb]; cbv iota
  | |- disciplined _ _ (if negb ?b then _ else _) => destruct b eqn:?; cbn [negb]
  | |- disciplined _ _ (if ?b then _ else _) => destruct b eqn:?
  | |- disciplined _ _ (match ?x with _ => _ end) => destruct x eqn:?
  | |- disciplined _ _ (let _ := _ in _) => cbv zeta
  end.
Ltac guards :=
  unfold setup_allowed, onboarding_guard, notification_guard, allowNotificationAPI, current_guard, current_user, optional_csrf,
    required_csrf, authorizeMutation, with_session, with_actor, start_session, revoke_previous, session_started, session_ended, exportRange,
    writeJSONExport, writeAttachment, too_large, bearer_challenge, only, require, requireAuth, Authorize, Decision, require_csrf,
    limited_by, rate_limited, NotAllowed, scoped, sessions, unauthorizedToken, allowed_decision.
Ltac disc := repeat (progress (repeat disc_step); cbn beta iota; cbn [ad_Allowed ad_Status ad_Code ad_Message]).

(** A pattern with a disciplined handler *)
Definition keeps (e : string * handler) : Prop := forall r, matches (ar_Path r) e.1 = true -> disciplined r nothing (e.2 r).
Ltac each_handler := repeat (apply List.Forall_cons || apply List.Forall_nil); intros r Hpath; cbn [fst snd] in *.

Lemma setup_keeps : Forall keeps (EnableSetup (dp_proxies d)).
Proof. each_handler; unfold setup_state, setup_verify, setup_claim; guards; disc. Qed.
Lemma auth_keeps proxy : Forall keeps (EnableAuth (dp_AdvancedAuth d) proxy (dp_proxies d)).
Proof. each_handler; unfold login, session_info, logout, logout_all; guards; disc. Qed.
Lemma mfa_keeps : Forall keeps EnableMFA.
Proof. each_handler; unfold mfa_status, mfa_enroll, mfa_confirm, mfa_disable; guards; disc. Qed.
Lemma methods_keeps b : Forall keeps (EnableAuthMethods (dp_proxyAuth d) b).
Proof. each_handler; unfold auth_methods; guards; disc. Qed.
Lemma external_keeps : dp_AdvancedAuth d = true -> Forall keeps (EnableProxyAuth url_origin (dp_proxyAuth d)).
Proof.
  intros Ha. unfold EnableProxyAuth. apply List.Forall_app. split; [apply methods_keeps|].
  each_handler; unfold external_session; guards; disc.
Qed.
Lemma tokens_keeps : Forall keeps (EnableAPITokens error_text).
Proof. each_handler; unfold tokens_collection, tokens_item; guards; disc. Qed.
Lemma preferences_keeps : Forall keeps EnablePreferences.
Proof. each_handler; unfold preferences_handler; guards; disc. Qed.
Lemma settings_keeps : Forall keeps (EnableSettings sessions true).
Proof. each_handler; unfold settings_handler; guards; disc. Qed.
Lemma onboarding_keeps : Forall keeps (EnableOnboarding sessions true).
Proof. each_handler; unfold onboarding_state, onboarding_diagnostics, onboarding_complete, onboarding_dismiss; guards; disc. Qed.
Lemma checks_keeps : Forall keeps (EnableChecks url_parse sessions true).
Proof. each_handler; unfold checks_collection, checks_item; guards; disc. Qed.
Lemma alerts_keeps : Forall keeps (EnableAlerts sessions).
Proof. each_handler; unfold alerts_handler, rules_collection, rules_item, silences_collection, silences_item; guards; disc. Qed.
Lemma live_keeps : Forall keeps (EnableLive sessions).
Proof. each_handler; unfold live, live_session; guards; disc. Qed.
Lemma deletion_keeps : Forall keeps (EnableHistoryDeletion sessions true).
Proof. each_handler; unfold deletion_previews, deletion_jobs, deletion_job; guards; disc. Qed.
Lemma diagnostics_keeps : Forall keeps (EnableMonitorHealth sessions ++ EnableDiagnostics sessions true).
Proof. each_handler; unfold monitor_health, diagnostics_previews, diagnostics_download; guards; disc. Qed.
Lemma coolify_keeps : Forall keeps (EnableCoolify error_text sessions true).
Proof. each_handler; unfold coolify_config, coolify_test; guards; disc. Qed.
Lemma logs_keeps : Forall keeps (EnableLogs sessions ++ EnableProcesses sessions).
Proof. each_handler; unfold logs_handler, logRequest, processes_handler; guards; disc. Qed.
Lemma current_keeps : Forall keeps (EnableCurrent serverAuthorizer).
Proof. each_handler; unfold current_server, collector_health, serverAuthorizer; guards; destruct (dp_Portability d) eqn:?; disc. Qed.
Lemma resources_keeps : Forall keeps (EnableResources resourceAuthorizer [AlertDecorator; CoolifyDecorator]).
Proof.
  each_handler; unfold resources_handler, resourceAuthorizer; guards; cbn [decorated]; destruct (dp_Portability d) eqn:?; disc.
Qed.
Lemma metrics_keeps : Forall keeps (EnableMetrics metricsAuthorizer ++ EnableEvents eventsAuthorizer).
Proof.
  each_handler; unfold metrics_handler, events_handler, metricsAuthorizer, eventsAuthorizer; guards; destruct (dp_Portability d) eqn:?; disc.
Qed.
Lemma exports_keeps :
  Forall keeps (EnableExports marshal_export metricsAuthorizer eventsAuthorizer incidentsAuthorizer resourceAuthorizer [CoolifyDecorator]).
Proof.
  each_handler; unfold export_metrics, export_events, export_incidents, export_resources, metricsAuthorizer, eventsAuthorizer,
    incidentsAuthorizer, resourceAuthorizer; guards; cbn [decorated]; destruct (dp_Portability d) eqn:?; disc.
Qed.

(** The incidents' authorizer takes bearer tokens below its path only. *)
Lemma not_incidents path pattern :
  matches path pattern = true -> HasPrefix pattern "/api/v1/n" = true -> HasPrefix path "/api/v1/incidents" = false.
Proof.
  intros [->%String.eqb_eq | [_ Hp]%andb_true_iff]%orb_true_iff Hn.
  - by apply HasPrefix_spec in Hn as [u ->].
  - apply HasPrefix_spec in Hn as [u ->]. by apply HasPrefix_spec in Hp as [v ->].
Qed.
Lemma incidents_keeps : Forall keeps [("/api/v1/incidents", incidents_collection incidentsAuthorizer true); ("/api/v1/incidents/", incidents_item incidentsAuthorizer true)].
Proof.
  each_handler; unfold incidents_collection, incidents_item, incidentsAuthorizer; guards; destruct (dp_Portability d) eqn:?; disc.
Qed.
Lemma notifications_keeps : Forall keeps (EnableIncidentsNotifications incidentsAuthorizer true).
Proof.
  pose proof incidents_keeps as Hi. apply Forall_cons in Hi as [H1 Hi]. apply Forall_cons in Hi as [H2 _].
  do 2 (apply List.Forall_cons; [assumption|]). clear H1 H2.
  each_handler; unfold channels_collection, channels_item, deliveries_collection, deliveries_item, incidentsAuthorizer;
    guards; pose proof (not_incidents _ _ Hpath eq_refl) as Hno; destruct (dp_Portability d) eqn:?; disc;
    exfalso; match goal with E : _ || existsb _ _ = true |- _ => cbn [length Nat.eqb existsb orb] in E; rewrite Hno in E; discriminate end.
Qed.

Lemma advanced_keeps :
  Forall keeps (if dp_AdvancedAuth d
    then EnableAuth true (dp_proxyAuth d) (dp_proxies d) ++ EnableProxyAuth url_origin (dp_proxyAuth d) ++ EnableMFA
    else EnableAuth false None (dp_proxies d) ++ EnableAuthMethods (dp_proxyAuth d) false).
Proof.
  pose proof (auth_keeps (dp_proxyAuth d)) as Ha. pose proof (auth_keeps None) as Hb. pose proof external_keeps as He.
  destruct (dp_AdvancedAuth d); rewrite ?List.Forall_app; eauto using mfa_keeps, methods_keeps.
Qed.
Lemma api_keeps : Forall keeps api_routes.
Proof.
  pose proof diagnostics_keeps as [H1 H2]%List.Forall_app. pose proof metrics_keeps as [H3 H4]%List.Forall_app.
  pose proof logs_keeps as [H5 H6]%List.Forall_app.
  unfold api_routes. rewrite !List.Forall_app.
  split_and!; eauto using setup_keeps, advanced_keeps, preferences_keeps, settings_keeps, onboarding_keeps, checks_keeps,
    alerts_keeps, live_keeps, deletion_keeps, coolify_keeps, current_keeps, resources_keeps, notifications_keeps.
  - apply List.Forall_cons; [done|constructor].
  - destruct (dp_Portability d); [|done]. apply List.Forall_app. eauto using tokens_keeps, exports_keeps.
Qed.

Lemma longest_member l e : fold_left longer l e ∈ e :: l.
Proof.
  revert e. induction l as [|x l IH]; intros e; [apply list_elem_of_here|]. cbn [fold_left].
  specialize (IH (longer e x)). apply elem_of_cons in IH as [-> | Hin]; [|by do 2 right].
  unfold longer. case_match; [right; left|left].
Qed.
Lemma mux_member rs path h : mux rs path = Some h -> exists e, e ∈ rs /\ matches path e.1 = true /\ e.2 = h.
Proof.
  unfold mux. destruct (List.filter _ rs) as [|e l] eqn:E; [discriminate|]. intros [= <-].
  pose proof (longest_member l e) as Hin. rewrite <- E in Hin. apply list_elem_of_In, filter_In in Hin as [Hin Hm].
  eexists. split; [by apply list_elem_of_In|done].
Qed.
Lemma mux_keeps rs r h : Forall keeps rs -> mux rs (ar_Path r) = Some h -> disciplined r nothing (h r).
Proof. intros Hk (e & Hin & Hm & <-)%mux_member. rewrite Forall_forall in Hk. by apply Hk. Qed.
Lemma prometheus_keeps : Forall keeps [("/metrics", PrometheusHandler (dp_Portability d && dp_Prometheus d))].
Proof.
  each_handler. unfold PrometheusHandler. guards. destruct (dp_Portability d) eqn:?; [|done]. destruct (dp_Prometheus d); [|done].
  cbn [andb]. disc.
Qed.

Lemma serve_disciplined health assets r : disciplined r nothing (serve health assets r).
Proof.
  unfold serve. destruct (mux _ _) as [h|] eqn:E; [|exact I]. eapply mux_keeps, E.
  unfold server_routes. constructor; [done|]. apply (List.Forall_app keeps [_]).
  split; [apply prometheus_keeps|]. constructor; [|constructor; done].
  intros x _. cbn [snd]. destruct (mux api_routes _) eqn:Em; [|exact I]. by eapply mux_keeps; [apply api_keeps|].
Qed.

(** C13 (safety): every call any handler of the API makes, for every request,
    configuration and answers of the services, is permitted by what the answers
    before it established: data is read only with a valid session or a bearer
    token of the right scope; users act on their own tokens, preferences and
    sessions only; a session starts only with the password and second factor,
    the claim of the installation, or a trusted proxy's subject from the same
    origin, and a request ends only its own; a second factor is tried only with
    the password; a diagnostics bundle is generated for a session under POST,
    without its CSRF token; and every other change needs a session and its CSRF
    token under an unsafe method. *)
Theorem api_disciplined (health assets : APIRequest -> Response) (r : APIRequest) : disciplined r nothing (serve health assets r).
Proof. apply serve_disciplined. Qed.

(** ** Routing *)

(** Registration never panics.  Whatever the configuration, no
    pattern is registered twice on the API's mux or on the server's. *)
Theorem patterns_unique (health assets : APIRequest -> Response) :
  List.NoDup (map fst api_routes) /\ List.NoDup (map fst (server_routes health assets)).
Proof.
  unfold api_routes, server_routes. rewrite !map_app.
  destruct (dp_AdvancedAuth d), (dp_Portability d); (split; [|cbn [map fst]]).
  all: match goal with |- List.NoDup ?l => let l := eval vm_compute in l in change (List.NoDup l) end.
  all: apply NoDup_ListNoDup; apply (bool_decide_unpack _); vm_compute; exact I.
Qed.

(** The branch of the resources handler for one resource is never reached:
    only the collection is registered, and a path below it is answered by the
    catch-all. *)
Lemma resource_detail_unreachable id : mux api_routes ("/api/v1/resources/" +:+ id) = Some notFound.
Proof.
  unfold mux. assert (List.filter (fun e => matches ("/api/v1/resources/" +:+ id) e.1) api_routes = New) as ->; [|reflexivity].
  unfold api_routes. rewrite !List.filter_app. destruct (dp_AdvancedAuth d), (dp_Portability d); reflexivity.
Qed.

(** With bearer tokens in use the export of incidents answers 401 to every one
    of them, without looking the token up: its path is not below the prefix of
    the incidents' authorizer. *)
Lemma incidents_export_refuses_tokens r :
  dp_Portability d = true -> ar_Method r = "GET" -> ar_Path r = "/api/v1/exports/incidents.json" -> Header r "Authorization" <> "" ->
  exists p, export_incidents marshal_export incidentsAuthorizer r = Reply p /\ rp_Status p = 401.
Proof.
  intros Hd Hm Hp Ha. unfold export_incidents, incidentsAuthorizer. guards. rewrite Hd, Hm. cbn [negb]. cbv beta iota.
  apply String.eqb_neq in Ha. rewrite Ha, Hp. cbn [negb].
  destruct (Fields _) as [|scheme [|token [|]]]; try (eexists; split; reflexivity).
  destruct (EqualFold scheme "Bearer"); eexists; split; reflexivity.
Qed.
End server.
