(* ===== verification/ApiRun.v ===== *)
(** * The HTTP API on its accounts

    The calls of the handlers on sessions, tokens, accounts, the second factor
    and setup, answered by the operations of [internal/auth] on the database;
    the other services are a parameter.  The discipline of the handlers then
    says what the database held when a request was served. *)

From stdpp Require Import base tactics list gmap strings.
From Stdlib Require Import ZArith Lia Ascii.
From S2P Require Import Prelude GoString GoParse Float64 GoTime Json JsonDecode JsonText Outbound Netip Db AlertState Schema Secrets.
From S2P Require Import AlertRepository Checks Metrics Incidents Channels AuthSchema Sessions ApiTokens Accounts Mfa.
From S2P Require Import StoreSchema Deletion StoreWriter History Config SettingsStore Preferences Protection Onboarding.
From S2P Require Import ApiCore ApiAccess ApiMonitoring ApiData ApiServer.

Section interpretation.
Context `{MapOrder} `{HmacSha1} `{SHA256} `{Rand} `{Argon2}.
Context (aead : option AEAD) (gomaxprocs : Z) (cfg : SessionConfig).
Context (url_parse : string -> option URL) (url_origin : string -> option (string * string)).
Context (error_text : gerr -> string).
Context (marshal_export : forall A : Type, Z -> option (Z * Z) -> list A -> string + string).
Context (d : Deployment).
(** The other services: their state, and their answers *)
Context {X : Type} (rest : forall e : eff, X -> answer e * X).

Record State := mkState { sv_auth : world AuthDB; sv_pending : gmap string Pending; sv_rest : X }.

Definition on_auth {A} (m : tx AuthDB A) (s : State) : (gerr + A) * State :=
  let '(a, w) := m (sv_auth s) in (a, mkState w (sv_pending s) (sv_rest s)).
(** Operations whose errors are values already *)
Definition told {A} (fallback : A) (x : (gerr + A) * State) : A * State :=
  (match x.1 with inr a => a | inl _ => fallback end, x.2).
Definition on_mfa {A} (m : gmap string Pending -> tx AuthDB ((gerr + A) * gmap string Pending)) (s : State) : (gerr + A) * State :=
  let '(a, w) := m (sv_pending s) (sv_auth s) in
  match a with
  | inl e => (inl e, mkState w (sv_pending s) (sv_rest s))
  | inr (a, p) => (a, mkState w p (sv_rest s))
  end.
Definition user_agent (r : APIRequest) : string := Header r "User-Agent".
Definition client_prefix (r : APIRequest) : string := ClientPrefix (dp_proxies d) (ar_HTTP r).

Definition interpret (r : APIRequest) (e : eff) : State -> answer e * State :=
  match e return State -> answer e * State with
  | EAuthorize => fun s => told false (on_auth (Sessions.Authorize cfg (session_request r)) s)
  | EAuthenticate => on_auth (Authenticate cfg (RequestToken r))
  | EValidCSRF => fun s =>
      told false (on_auth (Sessions_ValidCSRF (SameOrigin url_origin (ar_HTTP r) (dp_proxies d)) (session_request r)) s)
  | EActor => fun s => told None (on_auth (Actor (session_request r)) s)
  | ETokenAuthenticate plaintext scope => on_auth (Tokens_Authenticate plaintext scope)
  | ECredentials username password => on_auth (Credentials_Authenticate username password)
  | EUserByID id => on_auth (UserByID id)
  | EAdministrator => on_auth Administrator
  | EIssue id => on_auth (IssueForRequest cfg id (user_agent r) (client_prefix r))
  | EIssueProxy id subject => on_auth (IssueForProxyRequest cfg id subject (user_agent r) (client_prefix r))
  | ERevoke token => on_auth (Revoke token)
  | ERevokeAll id => on_auth (RevokeAll id)
  | EMfaVerify id code => on_auth (Mfa_Verify aead id code)
  | EMfaEnabled id => on_auth (Enabled id)
  | EMfaBegin user password => on_mfa (Begin aead user password)
  | EMfaConfirm id code => on_mfa (Confirm aead id code)
  | EMfaDisable user password code => on_auth (Mfa_Disable aead user password code)
  | ESetupAvailable => fun s => told false (on_auth Setup_Available s)
  | ESetupVerify token => on_auth (Setup_Verify token)
  | EClaim token username password => on_auth (Claim gomaxprocs token username password)
  | ETokenList id => on_auth (Tokens_List id)
  | ETokenCreate id name scopes expiry => on_auth (Tokens_Create id name scopes expiry)
  | ETokenRevoke id token => on_auth (Tokens_Revoke id token)
  | e => fun s => let '(a, x) := rest e (sv_rest s) in (a, mkState (sv_auth s) (sv_pending s) x)
  end.

(** ** What the database held *)

(** A session of the request's token that is alive when [s] is asked *)
Definition alive (r : APIRequest) (s : State) (row : SessionRow) : Prop :=
  In row (adb_sessions (w_db (sv_auth s))) /\ by_hash (RequestToken r) row = true /\ RequestToken r <> "" /\
  se_revoked_at row = None /\ hd 0 (w_clock (sv_auth s)) < of_unix_milli (se_expires_at row) /\
  hd 0 (w_clock (sv_auth s)) < of_unix_milli (se_absolute_expires_at row).
(** An unrevoked session of the request's token whose CSRF token the request
    carries in its header and its cookie, from the same origin *)
Definition bound (r : APIRequest) (s : State) (row : SessionRow) : Prop :=
  In row (adb_sessions (w_db (sv_auth s))) /\ by_hash (RequestToken r) row = true /\ se_revoked_at row = None /\
  SameOrigin url_origin (ar_HTTP r) (dp_proxies d) = true /\
  (str_in (ar_Method r) ["GET"; "HEAD"; "OPTIONS"] = false ->
   exists csrf, csrf <> "" /\ Header r "X-Csrf-Token" = csrf /\ ar_Cookie r CSRFCookieName = Some csrf /\
     se_csrf_hash row = Some (CSRFHash csrf)).
(** An unrevoked and unexpired API token, the request's bearer, with the scope *)
Definition granted (r : APIRequest) (s : State) (scope : string) (row : TokenRow) : Prop :=
  exists scheme plaintext, Fields (Header r "Authorization") = [scheme; plaintext] /\
    In row (adb_tokens (w_db (sv_auth s))) /\ token_by_hash plaintext row = true /\ tk_revoked_at row = None /\
    In scope (tk_scopes row) /\
    (forall t, tk_expires_at row = Some t -> time_unix_milli (hd 0 (w_clock (sv_auth s))) < t).
(** A user whose password was given *)
Definition admitted (id : string) (s : State) (row : UserRow) : Prop :=
  In row (adb_users (w_db (sv_auth s))) /\ us_id row = id /\ exists password, VerifyPassword (us_password_hash row) password = true.
(** A user whose second factor was given *)
Definition factored (id : string) (s : State) : Prop := exists code w, Mfa_Verify aead id code (sv_auth s) = (inr tt, w).
(** The installation was claimed for a user *)
Definition claimed (id : string) (s : State) : Prop :=
  exists token username password u w, Claim gomaxprocs token username password (sv_auth s) = (inr u, w) /\ u_ID u = id.
(** The administrator *)
Definition administers (id : string) (s : State) : Prop := exists u w, Administrator (sv_auth s) = (inr u, w) /\ u_ID u = id.

Lemma authenticate_inv token (w w' : world AuthDB) session :
  Authenticate cfg token w = (inr session, w') ->
  token <> "" /\ exists row, In row (adb_sessions (w_db w)) /\ by_hash token row = true /\ se_revoked_at row = None /\
    se_user_id row = ss_UserID session /\
    hd 0 (w_clock w) < of_unix_milli (se_expires_at row) /\ hd 0 (w_clock w) < of_unix_milli (se_absolute_expires_at row).
Proof.
  unfold Authenticate. destruct (token =?s "") eqn:Et; [done|]. destruct (SessionConfig_valid cfg); [|done]. cbn [negb].
  intros (row & w1 & Eq & E)%bind_inr. unfold map_err in Eq. destruct (query_row _ w) as [[e|row'] w2] eqn:Eqr; [done|].
  simplify_eq. apply query_row_inv in Eqr as (Hf & Hc & Hd). apply sql_find_some in Hf as [Hin Hh].
  split; [by apply String.eqb_neq|]. exists row. destruct (se_revoked_at row) eqn:Er; [done|].
  unfold bind at 1, time_now in E. rewrite Hc in E.
  assert (exists w3, (let now := hd 0 (w_clock w) in
    if negb (now <? of_unix_milli (se_expires_at row)) || negb (now <? of_unix_milli (se_absolute_expires_at row))
    then ignore (update_rows adb_sessions set_sessions (by_hash token) (session_revoke (time_unix_milli now))) ;;; throw ErrSessionInvalid
    else let expires := minTime (time_add now (IdleTimeout cfg)) (of_unix_milli (se_absolute_expires_at row)) in
      update_rows adb_sessions set_sessions (fun r => by_hash token r && is_null (se_revoked_at r))
        (session_touch (time_unix_milli now) (time_unix_milli expires)) ;;;
      ret (mkSession (se_user_id row) (of_unix_milli (se_created_at row)) now expires (of_unix_milli (se_absolute_expires_at row))
             (se_auth_method row) (default "" (se_auth_subject row)))) w3 = (inr session, w')) as [w3 E3].
  { destruct (w_clock w); eexists; exact E. }
  cbv zeta in E3. destruct (_ || _) eqn:Eb.
  - apply bind_inr in E3 as (? & ? & _ & E3). done.
  - apply bind_inr in E3 as (? & ? & _ & [= <- _]). bool_hyps. cbn. split_and!; try done; lia.
Qed.

Lemma csrf_inv same_origin q (w : world AuthDB) :
  (Sessions_ValidCSRF same_origin q w).1 = inr true ->
  same_origin = true /\ exists row, In row (adb_sessions (w_db w)) /\ Sessions.live_session (TokenFromRequest q) row = true /\
    (str_in (rq_Method q) ["GET"; "HEAD"; "OPTIONS"] = false ->
     exists csrf, csrf <> "" /\ rq_CSRFHeader q = csrf /\ rq_CSRFCookie q = Some csrf /\ se_csrf_hash row = Some (CSRFHash csrf)).
Proof.
  unfold Sessions_ValidCSRF. destruct same_origin; [|done]. cbn [negb]. destruct (TokenFromRequest q =?s ""); [done|].
  unfold or_default, bind. destruct (query_row _ w) as [[e|expected] w1] eqn:Eq; [done|].
  apply query_row_inv in Eq as (Hf & _). destruct (sql_find _ _) as [row|] eqn:Ef; [|done]. cbn in Hf. simplify_eq.
  apply sql_find_some in Ef as [Hin Hl]. unfold ret. cbn [fst]. intros Hv. injection Hv as Hv. apply andb_true_iff in Hv as [He Hv].
  split; [done|]. exists row. split_and!; [done|done|]. unfold ValidCSRF in Hv. intros Hm. rewrite Hm in Hv.
  destruct (rq_CSRFCookie q) as [cookie|]; [|done]. destruct (_ || _) eqn:Eo; [done|].
  apply orb_false_iff in Eo as [Hn Hc]. apply negb_false_iff, String.eqb_eq in Hc as ->.
  exists (rq_CSRFHeader q). apply String.eqb_neq in Hn. split_and!; try done.
  destruct (se_csrf_hash row); cbn in *; [|done]. f_equal. symmetry. by apply String.eqb_eq.
Qed.
Lemma token_inv plaintext scope (w w' : world AuthDB) :
  Tokens_Authenticate plaintext scope w = (inr tt, w') ->
  exists row, In row (adb_tokens (w_db w)) /\ token_by_hash plaintext row = true /\ tk_revoked_at row = None /\
    In scope (tk_scopes row) /\ (forall t, tk_expires_at row = Some t -> time_unix_milli (hd 0 (w_clock w)) < t).
Proof.
  unfold Tokens_Authenticate. case_match; [done|]. intros (row & w1 & Eq & E)%bind_inr.
  unfold token_lookup, map_err in Eq. destruct (query_row _ w) as [[e|row'] w2] eqn:Eqr; [done|].
  simplify_eq. apply query_row_inv in Eqr as (Hf & Hc & _). apply sql_find_some in Hf as [Hin Hh].
  destruct (tk_revoked_at row) eqn:Er; [done|]. cbn [is_null negb] in E. apply bind_inr in E as (b & w2 & Ee & E).
  destruct b; [done|]. destruct (existsb _ _) eqn:Ex; [|done].
  apply existsb_exists in Ex as (x & Hx & ->%String.eqb_eq).
  exists row. split_and!; try done. intros t Ht. unfold token_expired in Ee. rewrite Ht in Ee.
  unfold bind, time_now, ret in Ee. rewrite Hc in Ee. destruct (w_clock w); cbn in *; simplify_eq; lia.
Qed.

Lemma credentials_inv username password (w w' : world AuthDB) u :
  Credentials_Authenticate username password w = (inr u, w') ->
  exists row, In row (adb_users (w_db w)) /\ us_id row = u_ID u /\ VerifyPassword (us_password_hash row) password = true /\
    w_db w' = w_db w.
Proof.
  unfold Credentials_Authenticate. destruct (ValidateUsername username); [done|].
  destruct (query_row _ w) as [[e|row] w1] eqn:Eq; [done|]. apply query_row_inv in Eq as (Hf & _ & Hd).
  apply sql_find_some in Hf as [Hin _]. destruct (VerifyPassword _ _) eqn:Ev; [|done]. intros [= <- <-]. by exists row.
Qed.

(** ** The course of a request *)

Fixpoint chronicle (r : APIRequest) (p : prog) (s : State) : list (State * event) :=
  match p with
  | Reply _ => []
  | Do e k => (s, existT e (interpret r e s).1) :: chronicle r (k (interpret r e s).1) (interpret r e s).2
  end.

(** What is known holds of states the request has passed through. *)
Record backed (r : APIRequest) (K : known) (past : list State) : Prop := {
  bk_session : kn_session K = true -> exists s row, s ∈ past /\ alive r s row;
  bk_user id : kn_user K = Some id -> exists s row, s ∈ past /\ alive r s row /\ se_user_id row = id;
  bk_csrf : kn_csrf K = true -> exists s row, s ∈ past /\ bound r s row;
  bk_scopes scope : scope ∈ kn_scopes K -> exists s row, s ∈ past /\ granted r s scope row;
  bk_password id : id ∈ kn_password K -> exists s row, s ∈ past /\ admitted id s row;
  bk_factor id : id ∈ kn_factor K -> exists s, s ∈ past /\ factored id s;
  bk_claimed id : id ∈ kn_claimed K -> exists s, s ∈ past /\ claimed id s;
  bk_admin id : id ∈ kn_admin K -> exists s, s ∈ past /\ administers id s;
}.
Lemma backed_nothing r : backed r nothing [].
Proof. split; cbn; intros; (discriminate || set_solver). Qed.
Lemma backed_mono r K past s : backed r K past -> backed r K (past ++ [s]).
Proof.
  intros [B1 B2 B3 B4 B5 B6 B7 B8]. split.
  - intros (x & row & Hin & ?)%B1. exists x, row. set_solver.
  - intros id (x & row & Hin & ?)%B2. exists x, row. set_solver.
  - intros (x & row & Hin & ?)%B3. exists x, row. set_solver.
  - intros scope (x & row & Hin & ?)%B4. exists x, row. set_solver.
  - intros id (x & row & Hin & ?)%B5. exists x, row. set_solver.
  - intros id (x & Hin & ?)%B6. exists x. set_solver.
  - intros id (x & Hin & ?)%B7. exists x. set_solver.
  - intros id (x & Hin & ?)%B8. exists x. set_solver.
Qed.

Lemma on_auth_inv {A} (m : tx AuthDB A) s a s' :
  on_auth m s = (a, s') -> m (sv_auth s) = (a, sv_auth s').
Proof. unfold on_auth. destruct (m (sv_auth s)) as [x w]. by intros [= <- <-]. Qed.

(** Every answer that is learnt from is the database's. *)
Lemma backed_step r K past e s :
  backed r K past -> permitted url_origin d r K e ->
  backed r (learn K e (interpret r e s).1) (past ++ [s]).
Proof.
  intros HB Hp. assert (HM := backed_mono r K past s HB).
  assert (s ∈ past ++ [s]) as Hs by set_solver.
  destruct (interpret r e s) as [a s'] eqn:E. cbn [fst].
  destruct e; cbn [learn]; try exact HM.
  - destruct a; [|exact HM]. cbn [interpret] in E. unfold told in E.
    destruct (on_auth _ s) as [a w] eqn:Ea. cbn [fst snd] in E. destruct a as [|[]]; try discriminate.
    apply on_auth_inv in Ea. unfold Sessions.Authorize in Ea.
    destruct (Authenticate cfg _ (sv_auth s)) as [[|x] w1] eqn:Ex; [discriminate|].
    apply authenticate_inv in Ex as (Hn & row & ? & ? & ? & ? & ? & ?).
    destruct HM as [B1 B2 B3 B4 B5 B6 B7 B8]. split; cbn; try assumption.
    intros _. exists s, row. split; [done|]. split_and!; done.
  - destruct a as [|x]; [exact HM|]. cbn [interpret] in E. apply on_auth_inv, authenticate_inv in E as (Hn & row & ? & ? & ? & ? & ? & ?).
    destruct HM as [B1 B2 B3 B4 B5 B6 B7 B8]. split; cbn; try assumption.
    + intros _. exists s, row. split; [done|]. split_and!; done.
    + intros id [= <-]. exists s, row. split_and!; done.
  - destruct a; [|exact HM]. cbn [interpret] in E. unfold told in E.
    destruct (on_auth _ s) as [a w] eqn:Ea. cbn [fst snd] in E. destruct a as [|[]]; try discriminate.
    apply on_auth_inv in Ea. pose proof (csrf_inv _ _ _ (f_equal fst Ea)) as (Ho & row & Hin & Hl & Hc).
    apply andb_true_iff in Hl as [Hh Hr]. destruct HM as [B1 B2 B3 B4 B5 B6 B7 B8]. split; cbn; try assumption.
    intros _. exists s, row. split; [done|]. split_and!; try done. by destruct (se_revoked_at row).
  - destruct a as [|[]]; [exact HM|]. cbn [interpret] in E. apply on_auth_inv, token_inv in E as (row & ? & ? & ? & ? & ?).
    destruct Hp as (scheme & Hf & _). destruct HM as [B1 B2 B3 B4 B5 B6 B7 B8]. split; cbn; try assumption.
    intros sc [-> | Hsc]%elem_of_cons; [|by apply B4]. exists s, row. split; [done|]. exists scheme, plaintext. split_and!; done.
  - destruct a as [|u]; [exact HM|]. cbn [interpret] in E. apply on_auth_inv, credentials_inv in E as (row & ? & ? & ? & _).
    destruct HM as [B1 B2 B3 B4 B5 B6 B7 B8]. split; cbn; try assumption.
    intros id [-> | Hid]%elem_of_cons; [|by apply B5]. exists s, row. split; [done|]. split_and!; eauto.
  - destruct a as [|u]; [exact HM|]. cbn [interpret] in E. apply on_auth_inv in E.
    destruct HM as [B1 B2 B3 B4 B5 B6 B7 B8]. split; cbn; try assumption.
    intros id [-> | Hid]%elem_of_cons; [|by apply B8]. exists s. split; [done|]. by eexists _, _.
  - destruct a as [|[]]; [exact HM|]. cbn [interpret] in E. apply on_auth_inv in E.
    destruct HM as [B1 B2 B3 B4 B5 B6 B7 B8]. split; cbn; try assumption.
    intros id [-> | Hid]%elem_of_cons; [|by apply B6]. exists s. split; [done|]. by eexists _, _.
  - destruct a as [|u]; [exact HM|]. cbn [interpret] in E. apply on_auth_inv in E.
    destruct HM as [B1 B2 B3 B4 B5 B6 B7 B8]. split; cbn; try assumption.
    intros id [-> | Hid]%elem_of_cons; [|by apply B7]. exists s. split; [done|]. by eexists _, _, _, _, _.
Qed.

Lemma chronicle_backed r p K past s pre s1 e a post :
  backed r K past -> disciplined url_origin d r K p -> chronicle r p s = pre ++ (s1, existT e a) :: post ->
  exists K', backed r K' (past ++ pre.*1) /\ permitted url_origin d r K' e.
Proof.
  revert K past s pre. induction p as [x|e' k IH]; intros K past s pre HB HD E.
  { by destruct pre. }
  destruct HD as [Hp HD]. cbn [chronicle] in E. destruct pre as [|[s0 ev] pre].
  - injection E as <- E1 _ _. subst. exists K. by rewrite app_nil_r.
  - injection E as <- E1 E. destruct (IH _ _ (past ++ [s]) _ _ (backed_step r K past e' s HB Hp) (HD _) E) as (K' & HB' & Hp').
    exists K'. rewrite <- app_assoc in HB'. done.
Qed.

(** What the database held in the states [past] when the request [r] makes a
    call in the state [s], for every call there is *)
Definition authorized (r : APIRequest) (past : list State) (s : State) (e : eff) : Prop :=
  let session := exists s0 row, s0 ∈ past /\ alive r s0 row in
  let session_of id := exists s0 row, s0 ∈ past /\ alive r s0 row /\ se_user_id row = id in
  let csrf := str_in (ar_Method r) ["GET"; "HEAD"; "OPTIONS"] = false /\ exists s0 row, s0 ∈ past /\ bound r s0 row in
  let token scope := dp_Portability d = true /\ exists s0 row, s0 ∈ past /\ granted r s0 scope row in
  let password id := exists s0 row, s0 ∈ past /\ admitted id s0 row in
  let proxied := dp_AdvancedAuth d = true /\ ProxyAuth_SameOrigin url_origin (dp_proxyAuth d) (ar_HTTP r) = true in
  match e with
  (* what every request is asked, and what anybody may ask or try *)
  | EAuthorize | EAuthenticate | EValidCSRF | EActor | ETokenAuthenticate _ _ | ELimit _ | ENow | EApiID
  | ECredentials _ _ | ESetupAvailable | ESetupVerify _ => True
  (* changes that need no session *)
  | EClaim plaintext username pass =>
      forall u w, Claim gomaxprocs plaintext username pass (sv_auth s) = (inr u, w) ->
        adb_users (w_db (sv_auth s)) = [] /\
        exists row, adb_setup (w_db (sv_auth s)) = Some row /\ su_token_hash row = Some (setupHash plaintext) /\
          su_claimed_at row = None /\ time_unix_milli (hd 0 (w_clock (sv_auth s))) < default 0 (su_expires_at row)
  | EMfaVerify id _ => password id
  | EIssue id =>
      (password id /\ (dp_AdvancedAuth d = true -> exists s0, s0 ∈ past /\ factored id s0)) \/ exists s0, s0 ∈ past /\ claimed id s0
  | EAdministrator => proxied /\ is_Some (Subject (dp_proxyAuth d) (ar_HTTP r))
  | EIssueProxy id subject =>
      proxied /\ Subject (dp_proxyAuth d) (ar_HTTP r) = Some subject /\ exists s0, s0 ∈ past /\ administers id s0
  | ERevoke plaintext => plaintext = RequestToken r
  (* reading, with a session or an API token *)
  | EMonitorSnapshot | EPrometheusStates _ | EQueryMetrics _ => session \/ token ScopeMetricsRead
  | EEventsFor _ _ _ _ | EExportEvents _ _ _ => session \/ token ScopeEventsRead
  | EIncidents _ _ _ _ | EIncident _ | EExportIncidents _ _ _ => session \/ token ScopeIncidentsRead
  | EArchivedResources | EStoredResource _ | EDecorateAlerts _ | EDecorateCoolify _ => session \/ token ScopeResourcesRead
  | EEngineSnapshot => session \/ token ScopeServerRead \/ token ScopeResourcesRead \/ token ScopeMetricsRead
  (* reading, with a session, and where the data is a user's the user's *)
  | EUserByID id | ETokenList id | EPreferencesGet id => session_of id
  | EMfaEnabled _ | ESettingsSnapshot | EOnboardingState | EStream _ | EDeletionJob _ | EChecksList _ _ | EChecksGet _
  | EAlerts _ _ _ _ _ _ | ERules | ESilences _ | EChannels | EChannel _ | EDeliveries _ _ _ | ECoolifyStatus
  | EBundleDownload _ | EReadLogs _ | EScanProcesses _ => session
  (* a change with a session alone *)
  | EBundleGenerate => session /\ ar_Method r = "POST"
  (* changes, and what is computed for them, with a session and its CSRF token *)
  | ERevokeAll id | ETokenCreate id _ _ _ | ETokenRevoke id _ | EPreferencesPut id _ => session_of id /\ csrf
  | EMfaBegin _ _ | EMfaConfirm _ _ | EMfaDisable _ _ _
  | ESettingsPatch _ _ _ | EOnboardingUpdate _ _ | EOnboardingDiagnose _ | EOnboardingComplete | EOnboardingDismiss
  | EPreviewDeletion _ | ECreateDeletion _ _ _ | ECancelDeletion _ | ERetryDeletion _
  | EChecksCreate _ | EChecksUpdate _ | EChecksDelete _ | ERunNow _ | ECreateRule _ | EUpdateRule _
  | ECreateSilence _ | EDeleteSilence _ | EValidateChannel _ _ | ECreateChannel _ _ | EPatchedSecrets _ _ | EPatchChannel _ _ _
  | EDeleteChannel _ | ETestChannel _ | ERetryDelivery _ | ECoolifyConfigure _ _ | ECoolifyTest _ _ => session /\ csrf
  end.

Lemma read_backed r K past scope :
  backed r K past -> may_read d K scope ->
  (exists s row, s ∈ past /\ alive r s row) \/ dp_Portability d = true /\ exists s row, s ∈ past /\ granted r s scope row.
Proof. intros HB [Hs|[Hd Hin]]; [left; by apply (bk_session r K)|right; split; [done|by apply (bk_scopes r K)]]. Qed.
Lemma change_backed r K past :
  backed r K past -> may_change r K ->
  (exists s row, s ∈ past /\ alive r s row) /\
  str_in (ar_Method r) ["GET"; "HEAD"; "OPTIONS"] = false /\ exists s row, s ∈ past /\ bound r s row.
Proof. intros HB (Hs & Hc & Hm). split_and!; [by apply (bk_session r K)|done|by apply (bk_csrf r K)]. Qed.
Lemma own_change_backed r K past id :
  backed r K past -> may_change r K -> kn_user K = Some id ->
  (exists s row, s ∈ past /\ alive r s row /\ se_user_id row = id) /\
  str_in (ar_Method r) ["GET"; "HEAD"; "OPTIONS"] = false /\ exists s row, s ∈ past /\ bound r s row.
Proof. intros HB Hc Hu. split; [by apply (bk_user r K)|by apply (change_backed r K)]. Qed.

(** What is permitted by what is known is authorized by the database. *)
Lemma permitted_authorized r K past s e : backed r K past -> permitted url_origin d r K e -> authorized r past s e.
Proof.
  intros HB Hp. destruct e; cbn [permitted authorized] in *; try exact I; try (by apply (bk_session r K)); try (by apply (bk_user r K));
    try (by apply (read_backed r K)); try (by apply (change_backed r K)); try (destruct Hp as [Hc Hu]; by apply (own_change_backed r K)).
  - destruct Hp as (Ha & Hs & Ho). by split_and!.
  - destruct Hp as [[Hp Hf]|Hp]; [left; split; [by apply (bk_password r K)|]|right; by apply (bk_claimed r K)].
    intros Ha. by apply (bk_factor r K), Hf.
  - destruct Hp as (Ha & Hid & Hs & Ho). split_and!; [done..|]. by apply (bk_admin r K).
  - exact Hp.
  - by apply (bk_password r K).
  - intros u w E. by eapply claim_open.
  - destruct Hp as [Hp|[Hp|Hp]]; apply (read_backed r K past) in Hp as [Hp|Hp]; auto.
  - destruct Hp as [Hs Hm]. split; [by apply (bk_session r K)|done].
Qed.

(** C3 (refinement): what a request may cause, in terms of the database.  For
    every call that serving a request makes, [authorized] says what the states
    passed through before it held.  A call that changes something: an
    unrevoked, unexpired session of the request's cookie, and an unrevoked
    session bound to the CSRF token that the request repeats in header and
    cookie, from the same origin and with an unsafe method; a user's tokens,
    preferences and sessions: such a session of that user.  A call that reads:
    such a session, or an unrevoked, unexpired API token that has the scope of
    the data.  A session is issued to a user only after that user's password
    verified, and the second factor where it is configured, or the installation
    was claimed for them, or, to the administrator, for the subject that a
    trusted proxy names, from the same origin.  The changes without a CSRF token
    are these, the claim, which succeeds only with the setup token while there
    is no user, the use of a second factor after the password, the end of the
    request's own session, and the generation of a diagnostics bundle, for
    which a session is enough. *)
Theorem requests_authorized (health assets : APIRequest -> Response) (r : APIRequest) (s : State)
    (pre post : list (State * event)) (s1 : State) (e : eff) (a : answer e) :
  chronicle r (serve url_parse url_origin error_text marshal_export d health assets r) s = pre ++ (s1, existT e a) :: post ->
  authorized r pre.*1 s1 e.
Proof.
  intros E. eapply chronicle_backed in E as (K & HB & Hp); [|apply backed_nothing|apply serve_disciplined].
  cbn [app] in HB. by eapply permitted_authorized.
Qed.

(** ** Signing in *)

Lemma run_call r e k s : run (interpret r) (Do e k) s = run (interpret r) (k (interpret r e s).1) (interpret r e s).2.
Proof. cbn [run]. by destruct (interpret r e s). Qed.

(** The request of a browser that keeps the cookies and repeats the CSRF token *)
Definition carries (r : APIRequest) (token csrf : string) : Prop :=
  Header r "Authorization" = "" /\ ar_Cookie r SessionCookieName = Some token /\
  ar_Cookie r CSRFCookieName = Some csrf /\ Header r "X-Csrf-Token" = csrf /\
  SameOrigin url_origin (ar_HTTP r) (dp_proxies d) = true.

Lemma issued_session u ua ip token csrf session s s' r t clock :
  on_auth (IssueForRequest cfg u ua ip) s = (inr (token, csrf, session), s') -> token <> "" -> csrf <> "" -> CSRFHash csrf <> "" ->
  carries r token csrf -> w_faults (sv_auth s') = [] -> w_clock (sv_auth s') = t :: clock -> t + Millisecond <= ss_ExpiresAt session ->
  (exists x w, interpret r EAuthenticate s' = (inr x, w) /\ ss_UserID x = u) /\
  (interpret r EAuthorize s').1 = true /\ (interpret r EValidCSRF s').1 = true.
Proof.
  intros E%on_auth_inv Ht Hc Hhash (Ha & Hs & Hk & Hh & Ho) Hf Hcl Hx. unfold IssueForRequest in E.
  assert (TokenFromRequest (session_request r) = token) as Et.
  { unfold TokenFromRequest, session_request. cbn. by rewrite Ha, Hs. }
  destruct (session_roundtrip _ _ _ _ _ _ _ _ _ _ _ _ _ E Ht Hf Hcl Hx) as (x & w & Ex & Hu & _).
  cbn [interpret]. unfold on_auth, RequestToken, Sessions.Authorize. rewrite Et, Ex. split_and!; [by eauto|done|].
  unfold told, Sessions_ValidCSRF. rewrite Ho, Et. cbn [negb]. apply String.eqb_neq in Ht. rewrite Ht.
  apply issue_inv in E as (_ & _ & _ & _ & Hrows & Hne). unfold or_default, bind, query_row, exec, next_fault.
  rewrite Hf, Hrows, sql_find_app.
  destruct (sql_find (Sessions.live_session token) (adb_sessions (w_db (sv_auth s)))) as [row|] eqn:Er.
  { apply sql_find_some in Er as [Hin [Hl _]%andb_true_iff]. by rewrite Hne in Hl. }
  set (row := mkSessionRow _ _ _ _ _ _ _ _ _ _ _ _).
  assert (sql_find (Sessions.live_session token) [row] = Some row) as ->.
  { unfold sql_find. cbn [List.find]. unfold Sessions.live_session, by_hash, row. cbn [se_id_hash se_revoked_at is_null].
    by rewrite String.eqb_refl. }
  subst row. cbn [fmap option_fmap option_map se_csrf_hash default id]. unfold ret. cbn [fst].
  apply String.eqb_neq in Hhash. rewrite Hhash. cbn [negb andb]. unfold ValidCSRF, session_request.
  cbn [rq_Method rq_CSRFCookie rq_CSRFHeader]. rewrite Hk, Hh, !String.eqb_refl. apply String.eqb_neq in Hc. rewrite Hc.
  by destruct (str_in _ _).
Qed.

(** C14 (roundtrip): a successful login is a session.  When the login handler
    answers 204, the password of a stored user verified, and
    the second factor where one is configured; the response sets the
    session and CSRF cookies; and a browser that sends them back with the CSRF
    token in the header, a millisecond or more before the session's limit and
    while storage does not fail, is authenticated as that user, authorized, and
    passes the CSRF check. *)
Theorem login_session (mfa : bool) (proxy : option ProxyAuthenticator) (r : APIRequest) (s s' : State) (p : Response) :
  run (interpret r) (login mfa proxy (dp_proxies d) r) s = (p, s') -> rp_Status p = 204 ->
  exists body u token csrf session secure row,
    DecodeStrings ["username"; "password"; "code"] r = Some body /\
    In row (adb_users (w_db (sv_auth s))) /\ us_id row = u /\ VerifyPassword (us_password_hash row) (get body "password") = true /\
    (mfa = true -> exists w0 w1, w_db w0 = w_db (sv_auth s) /\ Mfa_Verify aead u (get body "code") w0 = (inr tt, w1)) /\
    rp_Cookies p = [SessionCookie token secure (ss_AbsoluteExpires session); CSRFCookie csrf secure (ss_AbsoluteExpires session)] /\
    ss_ExpiresAt session = ss_AbsoluteExpires session - AbsoluteLifetime cfg + Z.min (IdleTimeout cfg) (AbsoluteLifetime cfg) /\
    forall r' t clock,
      carries r' token csrf -> token <> "" -> csrf <> "" -> CSRFHash csrf <> "" ->
      w_faults (sv_auth s') = [] -> w_clock (sv_auth s') = t :: clock -> t + Millisecond <= ss_ExpiresAt session ->
      (exists x w, interpret r' EAuthenticate s' = (inr x, w) /\ ss_UserID x = u) /\
      (interpret r' EAuthorize s').1 = true /\ (interpret r' EValidCSRF s').1 = true.
Proof.
  unfold login, only. destruct (negb _); [by intros [= <- _]|]. destruct (negb (AllowsLocal proxy)); [by intros [= <- _]|].
  destruct (DecodeStrings _ r) as [body|]; [|by intros [= <- _]]. unfold limited_by. rewrite run_call.
  assert (forall l, sv_auth (interpret r (ELimit l) s).2 = sv_auth s) as Hl by (intros l; cbn; by destruct (rest (ELimit l) (sv_rest s))).
  specialize (Hl (LLogin (get body "username"))).
  destruct (interpret r (ELimit _) s) as [[[] wait] s1]; cbn [fst snd] in *; [|by intros [= <- _]]. rewrite run_call.
  destruct (interpret r (ECredentials _ _) s1) as [[e|u] s2] eqn:Ec; cbn [fst snd]; [by intros [= <- _]|].
  cbn [interpret] in Ec. apply on_auth_inv, credentials_inv in Ec as (row & Hin & Hid & Hv & Hdb).
  rewrite Hl in Hin, Hdb. intros E Hst.
  assert (exists s3, (mfa = true -> exists w0 w1, w_db w0 = w_db (sv_auth s) /\ Mfa_Verify aead (u_ID u) (get body "code") w0 = (inr tt, w1)) /\ run (interpret r) (start_session (dp_proxies d) r u) s3 = (p, s')) as (s3 & Hm & E3).
  { destruct mfa; [|by eexists]. rewrite run_call in E.
    destruct (interpret r (EMfaVerify _ _) s2) as [[|[]] s3] eqn:Em; cbn [fst snd] in E; [by injection E as <- _|].
    exists s3. split; [|done]. intros _. cbn [interpret] in Em. apply on_auth_inv in Em. by eexists _, _. }
  assert (exists s4, run (interpret r) (
      call issued := EIssue (u_ID u) in
      match issued with
      | inl _ => WriteError 500 "session_error" "Could not start session."
      | inr issued => session_started (Proxies_Secure (dp_proxies d) (ar_HTTP r)) issued
      end) s4 = (p, s')) as [s4 E4].
  { unfold start_session, revoke_previous in E3. destruct (_ =?s ""); [by eexists|]. rewrite run_call in E3. by eexists. }
  rewrite run_call in E4. destruct (interpret r (EIssue _) s4) as [[|[[token csrf] session]] s5] eqn:Ei; cbn [fst snd] in E4;
    [by injection E4 as <- _|].
  injection E4 as <- <-. exists body, (u_ID u), token, csrf, session, (Proxies_Secure (dp_proxies d) (ar_HTTP r)), row.
  cbn [interpret] in Ei. split_and!; try done.
  - apply on_auth_inv, issue_inv in Ei as (_ & _ & -> & _). cbn [ss_ExpiresAt ss_AbsoluteExpires]. unfold minTime. set (now := hd 0 _).
    destruct (Z.ltb_spec (now + IdleTimeout cfg) (now + AbsoluteLifetime cfg)); lia.
  - intros r' t clock Hk Ht Hc Hh Hf Hcl Hx. by eapply issued_session.
Qed.

(** ** Refused logins *)




(** The one answer to credentials that are not accepted *)
Definition refused : Response := error_response 401 "invalid_credentials" "Invalid username, password, or authentication code.".





End interpretation.

(** ** Witnesses *)

(** Services that grant every attempt and otherwise have nothing to tell *)
Definition sample_rest (e : eff) (x : unit) : answer e * unit.
Proof.
  split; [|exact tt].
  destruct e; cbn [answer];
    first [exact (inl EFault) | exact false | exact (true, 0) | exact 0 | exact ""%string | exact None | exact JNull
          | exact (JNull, []) | exact tt | exact zero_snapshot].
Defined.
Definition sample_deployment : Deployment := mkDeployment false false false [] None.
Definition sample_origin (s : string) : option (string * string) := if s =?s "" then None else Some ("http", "monitor.example").
Definition browser (path body : string) (token csrf : option string) : APIRequest :=
  mkAPIRequest "POST" path
    (mkHTTP "192.0.2.7:4000" false "monitor.example"
       (fun k => if k =?s "Origin" then ["http://monitor.example"] else if k =?s "X-Csrf-Token" then option_list csrf else []))
    (fun k => if k =?s SessionCookieName then token else if k =?s CSRFCookieName then csrf else None) (fun _ => "") body.
Definition claimed_world : world AuthDB :=
  (Claim (H := long_rand) 4 setup_token "Admin" "correct horse battery" setup_world).2.
Definition claimed_state : State (X := unit) := mkState claimed_world ∅ tt.
Definition login_request : APIRequest :=
  browser "/api/v1/auth/login" (of_bytes (print_json (JObject [("username", JString "admin"); ("password", JString "correct horse battery")]))) None None.
Definition no_export : forall A : Type, Z -> option (Z * Z) -> list A -> string + string := fun _ _ _ _ => inl "".
Definition sample_run (r : APIRequest) (p : prog) : Response * State (X := unit) :=
  run (interpret None 4 sample_config sample_origin sample_deployment sample_rest r) p claimed_state.
Definition logged_in : State (X := unit) := (sample_run login_request (login false None [] login_request)).2.
Definition logout_request : APIRequest := browser "/api/v1/auth/logout-all" "" (Some "2") (Some "3").

Lemma login_session_witness :
  (interpret None 4 sample_config sample_origin sample_deployment sample_rest logout_request EAuthorize logged_in).1 = true /\
  (interpret None 4 sample_config sample_origin sample_deployment sample_rest logout_request EValidCSRF logged_in).1 = true.
Proof.
  destruct (login_session None 4 sample_config sample_origin sample_deployment sample_rest false None login_request claimed_state
    logged_in (sample_run login_request (login false None [] login_request)).1)
    as (body & u & token & csrf & session & secure & row & _ & _ & _ & _ & _ & Hc & Hx & Hs);
    [apply surjective_pairing|vm_compute; reflexivity|].
  vm_compute in Hc. injection Hc as E1 E2 E3 E4 E5. subst token csrf.
  apply (Hs logout_request 0 []); try reflexivity; try discriminate.
  - split_and!; vm_compute; reflexivity.
  - rewrite Hx. change (ss_AbsoluteExpires session) with (match session with mkSession _ _ _ _ x _ _ => x end). rewrite <- E3. vm_compute. discriminate.
Defined.

(** A stranger and the administrator with a wrong password get the same answer. *)
Definition bad_login (username password : string) : APIRequest :=
  browser "/api/v1/auth/login" (of_bytes (print_json (JObject [("username", JString username); ("password", JString password)]))) None None.
Lemma refused_alike :
  (sample_run (bad_login "stranger" "correct horse battery") (login false None [] (bad_login "stranger" "correct horse battery"))).1 = refused /\
  (sample_run (bad_login "admin" "incorrect horse") (login false None [] (bad_login "admin" "incorrect horse"))).1 = refused /\
  rp_Status refused = 401.
Proof. split_and!; vm_compute; reflexivity. Qed.


Definition sample_log : list (State (X := unit) * event) :=
  chronicle None 4 sample_config sample_origin sample_deployment sample_rest logout_request
    (serve (fun _ => None) sample_origin (fun _ => "") no_export sample_deployment (fun _ => status_only 200)
       (fun _ => status_only 200) logout_request) logged_in.
Definition revokes_third {X} (log : list (State (X := X) * event)) : bool :=
  match log with [_; _; (_, existT (ERevokeAll _) _)] => true | _ => false end.
Lemma revokes_third_inv {X} (log : list (State (X := X) * event)) :
  revokes_third log = true -> exists s u a, log = take 2 log ++ [(s, existT (ERevokeAll u) a)].
Proof. destruct log as [|? [|? [|[s [e a]] []]]]; try done; destruct e; try done; intros _; by eexists _, _, _. Qed.

Lemma requests_authorized_witness :
  (exists s row, s ∈ (take 2 sample_log).*1 /\ alive logout_request s row) /\
  (exists s row, s ∈ (take 2 sample_log).*1 /\ bound sample_origin sample_deployment logout_request s row).
Proof.
  assert (revokes_third sample_log = true) as (s & u & a & E)%revokes_third_inv by (vm_compute; reflexivity).
  destruct (requests_authorized None 4 sample_config (fun _ => None) sample_origin (fun _ => "") no_export sample_deployment sample_rest
    (fun _ => status_only 200) (fun _ => status_only 200) logout_request logged_in _ _ _ _ _ E) as [(s0 & row & Hin & Ha & _) [_ Hc]].
  split; [exists s0, row; split; [exact Hin|exact Ha]|exact Hc].
Defined.

(** Logging out answers 204 although the revocation failed: the session goes on. *)
Definition failing_logout : Response * State (X := unit) :=
  let s := mkState (World (w_db (sv_auth logged_in)) [false; true] (w_rand (sv_auth logged_in)) [0; 0]) ∅ tt in
  run (interpret None 4 sample_config sample_origin sample_deployment sample_rest logout_request) (logout [] logout_request) s.
Lemma failed_logout_reported_done :
  rp_Status failing_logout.1 = 204 /\
  (interpret None 4 sample_config sample_origin sample_deployment sample_rest logout_request EAuthorize failing_logout.2).1 = true.
Proof. split; vm_compute; reflexivity. Qed.
