(* ===== verification/Lifecycle.v ===== *)
(** * Start-up and shutdown

    [internal/app/app.go] and the health endpoint of [internal/app/http.go];
    the order in which [cmd/binnacle/main.go] registers the components, and
    what its initialisation component does to the database. *)

From stdpp Require Import base tactics list gmap strings.
From Stdlib Require Import ZArith Lia Ascii.
From S2P Require Import Prelude GoString GoParse Float64 GoTime Json Outbound Db AlertState Schema Secrets AlertRepository.
From S2P Require Import Settings Config SettingsLoad SettingsStore AuthSchema Sessions Accounts Mfa Protection Onboarding ApiCore.

(** ** Components *)

Inductive AppState := StateStarting | StateRunning | StateStopping.
#[export] Instance AppState_eq_dec : EqDecision AppState.
Proof. solve_decision. Defined.

(** What happens while the application runs: calls with their results, and
    changes of the visible state *)
Inductive moment (C : Type) :=
  | MStart (c : C) (err : option gerr)
  | MStop (c : C) (err : option gerr)
  | MState (s : AppState).
Arguments MStart {C} _ _.
Arguments MStop {C} _ _.
Arguments MState {C} _.

(** What [Run] joins: ["start component: %w"], and the errors of stopping *)
Inductive RunError := StartComponent (err : gerr) | StopError (err : gerr).
Definition ShutdownBudget : Z := 15 * Second.

Section application.
(** Components, and the world they act on, with its clock.  Stopping is told
    the deadline of its context.  A call that does not return is [None]. *)
Context {C W : Type} (clock : W -> Z).
Context (Start : C -> W -> option (option gerr * W)) (Stop : Z -> C -> W -> option (option gerr * W)).
(** What happens to the world until the context is cancelled *)
Context (until_done : W -> W).

Record Application := mkApplication { ap_components : list C; ap_state : AppState }.
Definition NewApplication (components : list C) : Application := mkApplication components StateStarting.
(** [None]: the panic *)
Definition Application_Add (components : list C) (a : Application) : option Application :=
  if bool_decide (ap_state a = StateStarting) then Some (mkApplication (ap_components a ++ components) (ap_state a)) else None.

(** [stop]; [started] with the last one first.  The errors are those that
    [errors.Join] joins; one deadline holds for all the components, and what
    is left of it is the component's to observe. *)
Fixpoint stop_each (deadline : Z) (started : list C) (w : W) : option (list RunError * list (moment C) * W) :=
  match started with
  | [] => Some ([], [], w)
  | c :: started =>
      match Stop deadline c w with
      | None => None
      | Some (err, w) =>
          match stop_each deadline started w with
          | None => None
          | Some (errs, log, w) => Some (option_list (StopError <$> err) ++ errs, MStop c err :: log, w)
          end
      end
  end.
Definition stop (started : list C) (w : W) : option (list RunError * list (moment C) * W) :=
  stop_each (time_add (clock w) ShutdownBudget) started w.

Definition finish (err : list RunError) (started : list C) (w : W) : option (list RunError * list (moment C) * W) :=
  match stop started w with
  | None => None
  | Some (errs, log, w) => Some (err ++ errs, MState StateStopping :: log, w)
  end.
Fixpoint run_from (components started : list C) (w : W) : option (list RunError * list (moment C) * W) :=
  match components with
  | [] =>
      match finish [] started (until_done w) with
      | None => None
      | Some (errs, log, w) => Some (errs, MState StateRunning :: log, w)
      end
  | c :: components =>
      match Start c w with
      | None => None
      | Some (Some err, w) =>
          match finish [StartComponent err] started w with
          | None => None
          | Some (errs, log, w) => Some (errs, MStart c (Some err) :: log, w)
          end
      | Some (None, w) =>
          match run_from components (c :: started) w with
          | None => None
          | Some (errs, log, w) => Some (errs, MStart c None :: log, w)
          end
      end
  end.
(** [Run]: the joined errors, none when it returns nil *)
Definition Application_Run (a : Application) (w : W) : option (list RunError * list (moment C) * W) := run_from (ap_components a) [] w.
End application.

(** [ComponentFuncs]: a function that is not given succeeds. *)
Definition ComponentFunc {W} (f : option (W -> option (option gerr * W))) (w : W) : option (option gerr * W) :=
  match f with None => Some (None, w) | Some f => f w end.

(** [health] *)
Definition state_text (s : AppState) : string :=
  match s with StateStarting => "starting" | StateRunning => "running" | StateStopping => "stopping" end.
Definition HTTPServer_health (version : string) (s : AppState) (r : APIRequest) : Response :=
  if negb (ar_Method r =?s "GET") && negb (ar_Method r =?s "HEAD") then with_header "Allow" "GET, HEAD" (status_only 405)
  else mkResponse (if bool_decide (s = StateRunning) then 200 else 503) {["Content-Type" := "application/json"]} []
         (if ar_Method r =?s "HEAD" then PNone else PJSON (version, state_text s)).
(** The state after the moments so far *)
Definition visible {C} (log : list (moment C)) : AppState :=
  fold_left (fun s m => match m with MState s => s | _ => s end) log StateStarting.

(** ** Every started component is stopped *)

Section lifecycle.
Context {C W : Type} (clock : W -> Z).
Context (Start : C -> W -> option (option gerr * W)) (Stop : Z -> C -> W -> option (option gerr * W)) (until_done : W -> W).
Local Notation stop := (stop clock Stop).
Local Notation run_from := (run_from clock Start Stop until_done).

Definition errors_of (log : list (moment C)) : list RunError :=
  flat_map (fun m => match m with
    | MStart _ err => option_list (StartComponent <$> err) | MStop _ err => option_list (StopError <$> err) | MState _ => [] end) log.
(** The calls of [stop] on these components, in this order *)
Definition stops (cs : list C) (log : list (moment C)) : Prop := Forall2 (fun c m => exists err, m = MStop c err) cs log.

Lemma stop_each_spec deadline started w errs log w' :
  stop_each Stop deadline started w = Some (errs, log, w') -> stops started log /\ errs = errors_of log.
Proof.
  revert w errs log. induction started as [|c started IH]; cbn [stop_each]; intros w errs log.
  { intros [= <- <- _]. split; [constructor|done]. }
  destruct (Stop deadline c w) as [[err w1]|]; [|done]. destruct (stop_each Stop deadline started w1) as [[[errs' log'] w2]|] eqn:E; [|done].
  intros [= <- <- <-]. destruct (IH _ _ _ E) as [Hs ->]. split; [constructor; eauto|done].
Qed.
Lemma finish_spec err started w errs log w' :
  finish clock Stop err started w = Some (errs, log, w') ->
  exists log', log = MState StateStopping :: log' /\ stops started log' /\ errs = err ++ errors_of log.
Proof.
  unfold finish. destruct (stop started w) as [[[errs' log'] w2]|] eqn:E; [|done]. apply stop_each_spec in E as [Hs ->].
  intros [= <- <- <-]. eauto.
Qed.

(** The course of a run: the components before [rest] were started, and
    either all are, until the context ends, or the next one failed. *)
Inductive course (started rest : list C) : list (moment C) -> Prop :=
  | course_done log : rest = [] -> stops (rev started) log ->
      course started rest (map (fun c => MStart c None) started ++ MState StateRunning :: MState StateStopping :: log)
  | course_failed c rest' err log : rest = c :: rest' -> stops (rev started) log ->
      course started rest (map (fun c => MStart c None) started ++ MStart c (Some err) :: MState StateStopping :: log).

Lemma run_from_spec components started w errs log w' :
  run_from components started w = Some (errs, log, w') ->
  exists more rest, components = more ++ rest /\ errs = errors_of log /\
    course (rev started ++ more) rest (map (fun c => MStart c None) (rev started) ++ log).
Proof.
  revert started w errs log. induction components as [|c components IH]; cbn [Lifecycle.run_from]; intros started w errs log.
  - destruct (finish _ _ _ _) as [[[errs' log'] w1]|] eqn:E; [|done]. intros [= <- <- <-].
    apply finish_spec in E as (log & -> & Hs & ->). exists [], []. split_and!; [done..|]. rewrite app_nil_r.
    apply course_done; [done|]. by rewrite rev_involutive.
  - destruct (Start c w) as [[[err|] w1]|]; [| |done].
    + destruct (finish _ _ _ _) as [[[errs' log'] w2]|] eqn:E; [|done]. intros [= <- <- <-].
      apply finish_spec in E as (log & -> & Hs & ->). exists [], (c :: components). split_and!; [done..|]. rewrite app_nil_r.
      eapply course_failed; [done|]. by rewrite rev_involutive.
    + destruct (run_from components _ _) as [[[errs' log'] w2]|] eqn:E; [|done]. intros [= <- <- <-].
      apply IH in E as (more & rest & -> & -> & Hc). exists (c :: more), rest. split_and!; [done..|].
      cbn [rev] in Hc. rewrite map_app, <- !app_assoc in Hc. exact Hc.
Qed.

Lemma stop_returns started w : (forall deadline c w, Stop deadline c w <> None) -> exists x, stop started w = Some x.
Proof.
  intros Hs. unfold Lifecycle.stop. generalize (time_add (clock w) ShutdownBudget) as t. intros t.
  revert w. induction started as [|c started IH]; cbn [stop_each]; intros w; [by eexists|].
  destruct (Stop t c w) as [[err w1]|] eqn:E; [|by apply Hs in E]. destruct (IH w1) as [[[? ?] ?] ->]. by eexists.
Qed.
Lemma run_returns components started w :
  (forall c w, Start c w <> None) -> (forall deadline c w, Stop deadline c w <> None) -> exists x, run_from components started w = Some x.
Proof.
  intros Ha Hs. revert started w. induction components as [|c components IH]; cbn [Lifecycle.run_from]; intros started w.
  - unfold finish. destruct (stop_returns started (until_done w) Hs) as [[[? ?] ?] ->]. by eexists.
  - destruct (Start c w) as [[[err|] w1]|] eqn:E; [| |by apply Ha in E].
    + unfold finish. destruct (stop_returns started w1 Hs) as [[[? ?] ?] ->]. by eexists.
    + destruct (IH (c :: started) w1) as [[[? ?] ?] ->]. by eexists.
Qed.

(** C18 (termination): shutdown completes.  When every component's start and
    stop return, [Run] returns after its context is cancelled; what it did is:
    start the components in order until one fails, show [running] exactly when
    all have started, and stop those that were started, each once, in reverse
    order, whatever stopping the others returns; a component that failed to
    start or comes after one is not stopped; and it returns the errors of all
    these calls, none lost, the one of a failed start as such. *)
Theorem run_terminates (a : Application) (w : W) :
  (forall c w, Start c w <> None) -> (forall deadline c w, Stop deadline c w <> None) ->
  exists errs log w' started rest, Application_Run clock Start Stop until_done a w = Some (errs, log, w') /\
    ap_components a = started ++ rest /\ course started rest log /\ errs = errors_of log.
Proof.
  intros Ha Hs. destruct (run_returns (ap_components a) [] w Ha Hs) as [[[errs log] w'] E].
  destruct (run_from_spec _ _ _ _ _ _ E) as (more & rest & Hc & He & Hl). by exists errs, log, w', more, rest.
Qed.

Lemma visible_cons s m (log : list (moment C)) :
  fold_left (fun s m => match m with MState s => s | _ => s end) (m :: log) s =
  fold_left (fun s m => match m with MState s => s | _ => s end) log (match m with MState s => s | _ => s end).
Proof. done. Qed.
Lemma visible_calls s (log : list (moment C)) :
  Forall (fun m => match m with MState _ => False | _ => True end) log ->
  fold_left (fun s m => match m with MState s => s | _ => s end) log s = s.
Proof. induction 1 as [|m log Hm _ IH]; [done|]. rewrite visible_cons. by destruct m. Qed.
Lemma starts_calls (cs : list C) pre post :
  map (fun c => MStart c None) cs = pre ++ post -> Forall (fun m : moment C => match m with MState _ => False | _ => True end) pre.
Proof.
  intros E. assert (Forall (fun m : moment C => match m with MState _ => False | _ => True end) (pre ++ post)) as Hf.
  { rewrite <- E. apply Forall_map, Forall_forall. done. }
  by apply Forall_app in Hf as [? _].
Qed.
Lemma stops_calls cs log : stops cs log -> Forall (fun m : moment C => match m with MState _ => False | _ => True end) log.
Proof. induction 1 as [|c m cs log [err ->] _ IH]; by constructor. Qed.

Lemma visible_starts (cs : list C) k : visible (map (fun c => MStart c None) cs ++ k) = visible k.
Proof.
  unfold visible. rewrite fold_left_app, (visible_calls _ (map _ cs)); [done|].
  apply (starts_calls cs _ []). by rewrite app_nil_r.
Qed.
Lemma visible_stopping k post (log : list (moment C)) cs : stops cs log -> log = k ++ post ->
  fold_left (fun s m => match m with MState s => s | _ => s end) k StateStopping = StateStopping.
Proof. intros Hs%stops_calls ->. apply Forall_app in Hs as [Hk _]. by apply visible_calls. Qed.

(** The prefixes of a course that show [running] *)
Lemma course_running started rest log pre post :
  course started rest log -> log = pre ++ post ->
  visible pre = StateRunning <-> rest = [] /\ pre = map (fun c => MStart c None) started ++ [MState StateRunning].
Proof.
  intros Hc E.
  assert (exists tail, log = map (fun c => MStart c None) started ++ tail /\ tail <> []) as (tail & El & Ht)
    by (destruct Hc; eexists; split; [reflexivity|discriminate|reflexivity|discriminate]).
  rewrite El in E. apply app_eq_inv in E as [(u & Ep & _)|(u & -> & Eq)].
  { split.
    - intros Hv. pose proof (starts_calls _ _ _ Ep) as Hp. unfold visible in Hv. by rewrite visible_calls in Hv.
    - intros [_ ->]. apply (f_equal length) in Ep. rewrite !length_app in Ep. cbn in Ep. lia. }
  rewrite visible_starts. destruct Hc as [log -> Hs|c rest' err log -> Hs]; apply app_inv_head in El as <-.
  - destruct u as [|m u]; [split; [done|intros [_ E]; by apply app_inj_1 in E as [_ [=]]]|]. injection Eq as <- Eq.
    destruct u as [|m u]; [done|]. injection Eq as <- Eq. unfold visible. rewrite !visible_cons.
    rewrite (visible_stopping u post log _ Hs Eq). split; [done|]. intros [_ E]. by apply app_inv_head in E.
  - destruct u as [|m u]; [by split; [|intros [? _]]|]. injection Eq as <- Eq.
    destruct u as [|m u]; [by split; [|intros [? _]]|]. injection Eq as <- Eq. unfold visible. rewrite !visible_cons.
    rewrite (visible_stopping u post log _ Hs Eq). by split; [|intros [? _]].
Qed.

(** The health endpoint is truthful.  At every moment of a run it
    answers 200 to GET and HEAD if every component has been started and none
    of them has been told to stop yet, and never otherwise. *)
Theorem health_truthful (a : Application) (w w' : W) (errs : list RunError) (log pre post : list (moment C)) (version : string) (r : APIRequest) :
  Application_Run clock Start Stop until_done a w = Some (errs, log, w') -> log = pre ++ post ->
  rp_Status (HTTPServer_health version (visible pre) r) = 200 <->
  str_in (ar_Method r) ["GET"; "HEAD"] = true /\
  pre = map (fun c => MStart c None) (ap_components a) ++ [MState StateRunning].
Proof.
  intros E El. destruct (run_from_spec _ _ _ _ _ _ E) as (more & rest & Hc & _ & Hl). cbn [rev app map] in Hl.
  pose proof (course_running _ _ _ _ _ Hl El) as Hv. unfold HTTPServer_health, str_in. cbn [existsb].
  assert (pre = map (fun c => MStart c None) (ap_components a) ++ [MState StateRunning] <-> visible pre = StateRunning) as ->.
  { rewrite Hv, Hc. split; [|intros [-> ->]; by rewrite app_nil_r].
    intros Hp. assert (visible pre = StateRunning) as Hr%Hv by (by rewrite Hp, visible_starts). exact Hr. }
  destruct (ar_Method r =?s "GET"), (ar_Method r =?s "HEAD"); cbn [negb andb orb rp_Status with_header status_only];
    try case_bool_decide; naive_solver.
Qed.
End lifecycle.

(** ** The components of [main] *)

Inductive part :=
  | PEngine | PStore | PPersistence | PDemoHistory | PDemoData | PDocker | PSampler | PInitialization | PCoolify | PSessions
  | PChecks | PAlerts | PNotifications | PHTTP.
Definition main_components (demo : bool) : list part :=
  [PEngine; PStore; PPersistence] ++ (if demo then [PDemoHistory; PDemoData] else [PDocker; PSampler]) ++
  [PInitialization; PCoolify; PSessions] ++ (if demo then [] else [PChecks]) ++ [PAlerts; PNotifications; PHTTP].

(** ** Initialisation *)

Record AppDB := mkAppDB { ap_auth : AuthDB; ap_alerts : Schema.DB; ap_settings : SettingsDB }.

Section startup.
Context `{MapOrder} `{HmacSha1} `{SHA256} `{Rand} `{Argon2} (gomaxprocs : Z).
Context (url_parse : string -> option URL).
Context (split_host_port : string -> option (string * string)) (parse_ip_loopback : string -> option bool).
Context (getenv : string -> string) (read_file : string -> option string).

Definition in_auth {A} (m : tx AuthDB A) : tx AppDB A := zoom ap_auth (fun e d => mkAppDB e (ap_alerts d) (ap_settings d)) m.
Definition in_alerts {A} (m : tx Schema.DB A) : tx AppDB A := zoom ap_alerts (fun e d => mkAppDB (ap_auth d) e (ap_settings d)) m.
Definition in_settings {A} (m : tx SettingsDB A) : tx AppDB A := zoom ap_settings (fun e d => mkAppDB (ap_auth d) (ap_alerts d) e) m.

Definition SetupTokenFromEnvironment : gerr + string := EnvironmentSecret getenv read_file "BINNACLE_SETUP_TOKEN".

(** The start function of the initialisation component, outside demo mode;
    the token [Initialize] generates is dropped. *)
Definition initialization (advancedAuth : bool) (listenAddress : string) (s : Service) : tx AppDB Service :=
  in_auth (ValidateAdvancedAuthState advancedAuth) ;;;
  in_alerts (SeedDefaults true) ;;;
  s <- in_settings (SettingsStore.Initialize url_parse s) ;;
  in_auth (BootstrapAdmin gomaxprocs getenv read_file) ;;;
  match SetupTokenFromEnvironment with
  | inl e => throw e
  | inr setupToken =>
      generated <- in_auth (Accounts.Initialize split_host_port parse_ip_loopback listenAddress setupToken) ;;
      ret s
  end.

Lemma runs_zoom {D E A} (get : D -> E) (set : E -> D -> D) (m : tx E A) d (Q : A -> D -> Prop) :
  runs (get d) m (fun a e => Q a (set e d)) -> runs d (zoom get set m) Q.
Proof.
  intros Hm w Hw. unfold zoom. subst d. specialize (Hm (World (get (w_db w)) (w_faults w) (w_rand w) (w_clock w)) eq_refl).
  by destruct (m _) as [[e|a] w'].
Qed.

Lemma validate_runs adv d :
  runs d (ValidateAdvancedAuthState adv) (fun _ d' => d' = d /\ (adv = false -> sql_exists us_totp_enabled (adb_users d) = false)).
Proof. unfold ValidateAdvancedAuthState. sym; split; done. Qed.

Lemma seed_one v d u d' : seed_rule v d = inr (u, d') ->
  rule_exists (ru_id v) d' = true /\ (forall r, In r (db_rules d) -> In r (db_rules d')).
Proof.
  unfold seed_rule. destruct (rule_exists (ru_id v) d) eqn:E; [by intros [= _ <-]|]. intros Hi. unfold insert_rule in Hi. sql_inv Hi.
  apply insert_pk_inv in Hi as [-> _]. unfold rule_exists. cbn [db_rules set_rules]. split.
  - apply sql_exists_true. exists v. rewrite String.eqb_refl, in_app_iff. cbn. auto.
  - intros r Hr. rewrite in_app_iff. auto.
Qed.
Lemma rule_exists_mono id (d d' : Schema.DB) :
  (forall r, In r (db_rules d) -> In r (db_rules d')) -> rule_exists id d = true -> rule_exists id d' = true.
Proof. unfold rule_exists. rewrite !sql_exists_true. intros Hm (r & Hin & He). eauto. Qed.
Lemma seed_all (f : Rule -> RuleRow) l d :
  runs d (iter_tx (fun v => exec (seed_rule (f v))) l)
    (fun _ d' => (forall v, In v l -> rule_exists (ru_id (f v)) d' = true) /\ (forall r, In r (db_rules d) -> In r (db_rules d'))).
Proof.
  revert d. induction l as [|v l IH]; intros d; cbn [iter_tx]; [by apply runs_ret|].
  apply runs_bind, runs_exec. intros [] d1 [Hv Hm]%seed_one. eapply runs_mono; [apply IH|]. cbn. intros _ d2 [Ha Hr]. split; [|auto].
  intros x [<-|Hx]; [by eapply rule_exists_mono|auto].
Qed.
Lemma seed_runs d :
  runs d (SeedDefaults true)
    (fun _ d' => (forall v, In v DefaultRules -> rule_exists (AlertState.r_ID v) d' = true) /\ (forall r, In r (db_rules d) -> In r (db_rules d'))).
Proof. unfold SeedDefaults. cbn [negb]. apply runs_bind, runs_now. intros t. apply runs_tx. eapply runs_mono; [apply seed_all|]. done. Qed.

Lemma settings_runs s d :
  runs d (SettingsStore.Initialize url_parse s) (fun s' d' => d' = d /\ exists ov c,
    decode_rows (sql_order_by by_key (sd_settings d)) ∅ = inr ov /\ ResolveOverrides url_parse (sv_base s) ov = inr c /\ sv_current s' = c).
Proof.
  unfold SettingsStore.Initialize, overrides, lift, lift_msg. sym. split; [done|]. eauto.
Qed.

(** The administrator that the environment names *)
Definition bootstrapped (username password : string) (d d' : AuthDB) : Prop :=
  exists id name salt now row, d' = set_setup (Some row) (set_users [new_user id name (encode_password gomaxprocs password salt) now] d) /\
    ValidateUsername username = inr name /\ ValidatePassword password = None /\ su_token_hash row = None /\ su_claimed_at row <> None.
(** Setup opened for a day from [now], for the configured token or, on a
    loopback listener where there is none, for a generated one *)
Definition setup_opened (listen configured : string) (d d' : AuthDB) : Prop :=
  exists token now, d' = set_setup (Some (mkSetupRow (Some (setupHash token)) (Some (time_unix_milli (time_add now setupTTL))) None (time_unix_milli now))) d /\
    32 <= str_len token /\
    (token = TrimSpace configured \/ TrimSpace configured = "" /\ publicListener split_host_port parse_ip_loopback listen = false).
(** What a start does to the accounts, by what it finds *)
Definition accounts_started (listen : string) (d d' : AuthDB) : Prop :=
  match adb_users d with
  | _ :: _ => d' = d
  | [] =>
      match EnvironmentSecret getenv read_file "BINNACLE_ADMIN_USERNAME", EnvironmentSecret getenv read_file "BINNACLE_ADMIN_PASSWORD" with
      | inr username, inr password =>
          if (username =?s "") && (password =?s "") then
            match adb_setup d with
            | Some _ => d' = d
            | None => exists configured, SetupTokenFromEnvironment = inr configured /\ setup_opened listen configured d d'
            end
          else bootstrapped username password d d'
      | _, _ => False
      end
  end.

Lemma create_runs u p d :
  runs d (CreateAdmin gomaxprocs u p) (fun _ d' => exists id name salt now, adb_users d = [] /\
    d' = set_users [new_user id name (encode_password gomaxprocs p salt) now] d /\ ValidateUsername u = inr name /\ ValidatePassword p = None).
Proof.
  unfold CreateAdmin, HashPassword, count_users. sym. apply runs_tx. sym.
  match goal with E : insert_user _ _ = _ |- _ => unfold insert_user in E; sql_inv E; apply insert_pk_inv in E as [-> _] end.
  assert (adb_users d = []) as Hd by (apply length_zero_iff_nil; bool_hyps; lia).
  rewrite Hd. by eexists _, _, _, _.
Qed.
Lemma bootstrap_runs d :
  runs d (BootstrapAdmin gomaxprocs getenv read_file) (fun _ d' =>
    match adb_users d with
    | _ :: _ => d' = d
    | [] =>
        match EnvironmentSecret getenv read_file "BINNACLE_ADMIN_USERNAME", EnvironmentSecret getenv read_file "BINNACLE_ADMIN_PASSWORD" with
        | inr username, inr password => if (username =?s "") && (password =?s "") then d' = d else bootstrapped username password d d'
        | _, _ => False
        end
    end).
Proof.
  unfold BootstrapAdmin, count_users. apply runs_bind, runs_query. destruct (adb_users d) as [|x l] eqn:Hd; cbn [length Z.of_nat Z.ltb Z.compare];
    [|by apply runs_ret].
  destruct (EnvironmentSecret _ _ "BINNACLE_ADMIN_USERNAME") as [|username]; [apply runs_throw|].
  destruct (EnvironmentSecret _ _ "BINNACLE_ADMIN_PASSWORD") as [|password]; [apply runs_throw|].
  destruct ((username =?s "") && (password =?s "")); [by apply runs_ret|]. destruct (_ || _); [apply runs_throw|].
  apply runs_bind. eapply runs_mono; [apply create_runs|]. cbn. intros _ d1 (id & name & salt & now & _ & -> & Hn & Hp).
  unfold Disable. sym. simplify_eq. eexists _, _, _, _, _. split_and!; [reflexivity|done|done|by case_match|]. case_match; cbn [su_claimed_at]; [|done]. unfold coalesce. by destruct (su_claimed_at _).
Qed.
Lemma setup_runs l t d :
  runs d (Accounts.Initialize split_host_port parse_ip_loopback l t)
    (fun _ d' => match adb_users d, adb_setup d with [], None => setup_opened l t d d' | _, _ => d' = d end).
Proof.
  unfold Accounts.Initialize, count_users. apply runs_bind, runs_query. destruct (adb_users d) as [|x us] eqn:Hd; cbn [length Z.of_nat Z.ltb Z.compare];
    [|by apply runs_ret].
  apply runs_bind, runs_find. destruct (adb_setup d) as [r|] eqn:Hs; [by apply runs_ret|]. cbv zeta.
  destruct (TrimSpace t =?s "") eqn:Et; cbn [andb].
  - apply String.eqb_eq in Et. destruct (publicListener _ _ l) eqn:Ep; [apply runs_throw|]. sym. simplify_eq. rewrite Hs in *. simplify_eq.
    eexists _, _. split_and!; [reflexivity|lia|by right].
  - sym. simplify_eq. rewrite Hs in *. simplify_eq. eexists _, _. split_and!; [reflexivity|lia|by left].
Qed.
(** The two steps together *)
Lemma accounts_compose listen token d d1 d2 :
  SetupTokenFromEnvironment = inr token ->
  match adb_users d with
  | _ :: _ => d1 = d
  | [] =>
      match EnvironmentSecret getenv read_file "BINNACLE_ADMIN_USERNAME", EnvironmentSecret getenv read_file "BINNACLE_ADMIN_PASSWORD" with
      | inr username, inr password => if (username =?s "") && (password =?s "") then d1 = d else bootstrapped username password d d1
      | _, _ => False
      end
  end ->
  match adb_users d1, adb_setup d1 with [], None => setup_opened listen token d1 d2 | _, _ => d2 = d1 end ->
  accounts_started listen d d2.
Proof.
  intros Et Hb Hs. unfold accounts_started. destruct (adb_users d) as [|x us] eqn:Hd; [|subst d1; by rewrite Hd in Hs].
  destruct (EnvironmentSecret _ _ "BINNACLE_ADMIN_USERNAME") as [|username]; [done|].
  destruct (EnvironmentSecret _ _ "BINNACLE_ADMIN_PASSWORD") as [|password]; [done|].
  destruct ((username =?s "") && (password =?s "")).
  - subst d1. rewrite Hd in Hs. destruct (adb_setup d); [done|eauto].
  - destruct Hb as (id & name & salt & now & row & -> & Hb). cbn [adb_users set_setup set_users] in Hs. subst d2. by exists id, name, salt, now, row.
Qed.
Lemma initialization_runs adv listen s d :
  runs d (initialization adv listen s) (fun s' d' =>
    accounts_started listen (ap_auth d) (ap_auth d') /\
    (adv = false -> sql_exists us_totp_enabled (adb_users (ap_auth d)) = false) /\
    (forall v, In v DefaultRules -> rule_exists (AlertState.r_ID v) (ap_alerts d') = true) /\
    (forall r, In r (db_rules (ap_alerts d)) -> In r (db_rules (ap_alerts d'))) /\ ap_settings d' = ap_settings d /\
    exists ov, decode_rows (sql_order_by by_key (sd_settings (ap_settings d))) ∅ = inr ov /\
      ResolveOverrides url_parse (sv_base s) ov = inr (sv_current s')).
Proof.
  unfold initialization.
  apply runs_bind, runs_zoom. eapply runs_mono; [apply validate_runs|]. cbn. intros _ d1 [-> Hadv].
  apply runs_bind, runs_zoom. eapply runs_mono; [apply seed_runs|]. cbn [ap_alerts ap_auth ap_settings]. intros _ al [Hseed Hmono].
  apply runs_bind, runs_zoom. eapply runs_mono; [apply settings_runs|]. cbn [ap_alerts ap_auth ap_settings].
  intros s1 st (-> & ov & c & Hov & Hc & <-).
  apply runs_bind, runs_zoom. cbn [ap_alerts ap_auth ap_settings]. eapply runs_mono; [apply bootstrap_runs|]. cbn beta.
  intros _ au Hb. cbn [ap_alerts ap_auth ap_settings].
  destruct SetupTokenFromEnvironment as [e|token] eqn:Et; [apply runs_throw|].
  apply runs_bind, runs_zoom. cbn [ap_alerts ap_auth ap_settings]. eapply runs_mono; [apply setup_runs|]. cbn beta. intros _ au2 Hs.
  apply runs_ret. cbn [ap_alerts ap_auth ap_settings]. split_and!; [by eapply accounts_compose|done..|eauto].
Qed.

(** Nobody gets a second factor by a start. *)
Lemma started_factors listen d d' :
  accounts_started listen d d' -> sql_exists us_totp_enabled (adb_users d) = false -> sql_exists us_totp_enabled (adb_users d') = false.
Proof.
  unfold accounts_started. destruct (adb_users d) as [|x us] eqn:Hd; [|intros ->; by rewrite Hd].
  intros Hs _. repeat case_match; try done.
  - subst d'. by rewrite Hd.
  - destruct Hs as (configured & _ & token & now & -> & _). cbn [adb_users set_setup]. by rewrite Hd.
  - by destruct Hs as (id & name & salt & now & row & -> & _).
Qed.

(** C17 (functional): what a start that succeeds has done, by what it found.
    With a user, the accounts are as they were.  Without one, and with
    administrator credentials in the environment, there is that administrator,
    with a valid name and the environment's password, and setup is closed for
    good.  Without either, a recorded setup is left as it is, expired or not,
    and where there is none setup is open for a day, for a token of at least 32
    bytes: the configured one, which a public listener needs, or a generated
    one.  Without advanced authentication nobody has a second factor; every
    built-in alert rule exists and no rule has been lost; the settings are
    untouched, and the configuration in force is the base with the stored
    overrides. *)
Theorem initialization_exact (adv : bool) (listen : string) (s s' : Service) (w w' : world AppDB) :
  initialization adv listen s w = (inr s', w') ->
  let d := w_db w in let d' := w_db w' in
  accounts_started listen (ap_auth d) (ap_auth d') /\
  (adv = false -> sql_exists us_totp_enabled (adb_users (ap_auth d')) = false) /\
  (forall v, In v DefaultRules -> rule_exists (AlertState.r_ID v) (ap_alerts d') = true) /\
  (forall r, In r (db_rules (ap_alerts d)) -> In r (db_rules (ap_alerts d'))) /\
  ap_settings d' = ap_settings d /\
  exists ov, decode_rows (sql_order_by by_key (sd_settings (ap_settings d))) ∅ = inr ov /\
    ResolveOverrides url_parse (sv_base s) ov = inr (sv_current s').
Proof.
  intros E. pose proof (initialization_runs adv listen s (w_db w)) as Hr.
  specialize (Hr w eq_refl). rewrite E in Hr. destruct Hr as (Hacc & Hadv & Hr). split_and!; [exact Hacc| |apply Hr..].
  intros Ha. specialize (Hadv Ha). by eapply started_factors.
Qed.

(** A setup token that expired before it was used can never be replaced: the
    initialisation of later starts finds the row and leaves it, and no token
    claims the installation. *)
Lemma expired_setup_stuck listen token t u p (w : world AuthDB) r :
  adb_users (w_db w) = [] -> adb_setup (w_db w) = Some r -> default 0 (su_expires_at r) <= time_unix_milli (hd 0 (w_clock w)) ->
  w_db (Accounts.Initialize split_host_port parse_ip_loopback listen token w).2 = w_db w /\
  exists e, (Claim gomaxprocs t u p w).1 = inl e.
Proof.
  intros Hu Hs Hx. split.
  - set (d := w_db w) in *.
    assert (preserves (fun x => x = d) (Accounts.Initialize split_host_port parse_ip_loopback listen token)) as Hp;
      [|specialize (Hp w eq_refl); by destruct (Accounts.Initialize _ _ _ _ w) as [[] ?]].
    unfold Accounts.Initialize, count_users. eapply (triple_bind _ _ _ (fun n x => x = d /\ n = 0)).
    { apply triple_query; intros x ->; [done|]. by rewrite Hu. }
    intros n. destruct (0 <? n); [apply triple_ret; tauto|].
    eapply (triple_bind _ _ _ (fun st x => x = d /\ st = Some r)).
    { apply triple_catch, triple_query_row; intros x [-> _]; [done|]. by rewrite Hs. }
    intros st. destruct st; [apply triple_ret; tauto|]. intros x [_ [=]].
  - unfold Claim. destruct (ValidateUsername u) as [|name]; [by eexists|]. destruct (ValidatePassword p) eqn:Ep; [by eexists|].
    unfold HashPassword. rewrite Ep. unfold bind at 1 2, rand_id, ret, with_tx.
    set (w0 := World _ _ _ _). pose proof (next_fault_db w0) as Hd. pose proof (next_fault_clock w0) as Hc.
    destruct (next_fault w0) as [[] w1]; cbn [fst snd] in *; [by eexists|]. unfold bind at 1, map_err.
    destruct (query_row adb_setup w1) as [[e|r'] w2] eqn:Eq; [by eexists|]. apply query_row_inv in Eq as (Hf & Hc2 & _).
    rewrite Hd in Hf. cbn in Hf, Hc. rewrite Hs in Hf. injection Hf as <-. unfold bind at 1, time_now. rewrite Hc2, Hc.
    assert (forall now, default 0 (su_expires_at r) <= time_unix_milli now -> setup_open r now = false) as Ho.
    { intros now Hn. unfold setup_open. rewrite (proj2 (Z.ltb_ge _ _) Hn). by rewrite andb_false_r. }
    destruct (w_clock w) as [|now clock]; cbn [hd] in Hx; rewrite (Ho _ Hx); by eexists.
Qed.
End startup.

(** ** Witnesses *)

Definition quiet (c : part) (w : list part) : option (option gerr * list part) := Some (None, w ++ [c]).
(** Docker cannot be reached. *)
Definition quiet_stop (deadline : Z) := quiet.
Definition no_docker (c : part) (w : list part) : option (option gerr * list part) :=
  match c with PDocker => Some (Some EFault, w) | _ => quiet c w end.
Lemma run_terminates_witness :
  exists errs log w' started rest, Application_Run (fun _ => 0) no_docker quiet_stop id (NewApplication (main_components false)) [] = Some (errs, log, w') /\
    course started rest log /\ errs = [StartComponent EFault].
Proof.
  destruct (run_terminates (fun _ => 0) no_docker quiet_stop id (NewApplication (main_components false)) [])
    as (errs & log & w' & started & rest & E & Hc & Hl & He); [by intros [] w|done|].
  exists errs, log, w', started, rest. split_and!; [exact E|exact Hl|]. vm_compute in E. congruence.
Defined.
Lemma health_truthful_witness :
  let r := mkAPIRequest "GET" "/healthz" (mkHTTP "" false "" (fun _ => [])) (fun _ => None) (fun _ => "") "" in
  let started := map (fun c => MStart c None) (main_components true) in
  rp_Status (HTTPServer_health "dev" (visible (started ++ [MState StateRunning])) r) = 200 /\ ~ rp_Status (HTTPServer_health "dev" (visible started) r) = 200.
Proof.
  set (r := mkAPIRequest _ _ _ _ _ _). cbv zeta.
  destruct (Application_Run (fun _ => 0) quiet quiet_stop id (NewApplication (main_components true)) []) as [[[errs log] w']|] eqn:E; [|discriminate].
  split.
  - apply (health_truthful (fun _ => 0) quiet quiet_stop id _ _ _ _ _ (map (fun c => MStart c None) (main_components true) ++ [MState StateRunning])
      (drop 12 log) "dev" r E); [|done]. vm_compute in E. by injection E as <- <- <-.
  - intros Hh. apply (health_truthful (fun _ => 0) quiet quiet_stop id _ _ _ _ _ (map (fun c => MStart c None) (main_components true))
      (drop 11 log) "dev" r E) in Hh as [_ Hp]; [discriminate Hp|]. vm_compute in E. by injection E as <- <- <-.
Defined.

Definition fresh_app : world AppDB := World (mkAppDB empty_auth empty_db fresh_settings) [] 0 [0; 0; 0; 0].
(** A first start on a public listener, with the setup token in a file *)
Definition token_env (name : string) : string := if name =?s "BINNACLE_SETUP_TOKEN_FILE" then "/run/secrets/setup" else "".
Definition token_file (path : string) : option string := if path =?s "/run/secrets/setup" then Some setup_token else None.
Local Notation first_start :=
  (initialization (H2 := long_rand) 4 (fun _ => None) (fun _ => None) (fun _ => None) token_env token_file false "0.0.0.0:8080"
    (NewService Defaults ∅) fresh_app).

Lemma first_start_ok :
  (match first_start.1 with inr _ => true | inl _ => false end) = true /\
  su_token_hash <$> adb_setup (ap_auth (w_db first_start.2)) = Some (Some (setupHash setup_token)) /\
  (match (Claim (H := long_rand) 4 setup_token "Admin" "correct horse battery" (World (ap_auth (w_db first_start.2)) [] 0%nat [Hour])).1 with
   | inr u => u_Username u | inl _ => "" end) = "admin".
Proof. split_and!; vm_compute; reflexivity. Qed.
Lemma initialization_exact_witness :
  accounts_started 4 (fun _ => None) (fun _ => None) token_env token_file "0.0.0.0:8080" empty_auth (ap_auth (w_db first_start.2)) /\
  su_token_hash <$> adb_setup (ap_auth (w_db first_start.2)) = Some (Some (setupHash setup_token)) /\
  forall v, In v DefaultRules -> rule_exists (AlertState.r_ID v) (ap_alerts (w_db first_start.2)) = true.
Proof.
  destruct first_start_ok as (Hok & Ht & _). destruct first_start as [[e|s'] w'] eqn:E; [discriminate|]. cbn [fst snd] in *.
  apply initialization_exact in E as (Ha & _ & Hr & _). split_and!; [exact Ha|exact Ht|exact Hr].
Defined.
